(** * auction-vote: the room state machine, the budget clamp and the allocation engine

    A shallow embedding of the server of the auction-vote application
    (the WebSocket handlers, [clampBidsToBudget], [recomputeSpent] and
    [computeWinners]) and the properties of its natural-language
    specification, stated and settled over that embedding.

    Layout:
    - [number]: the JavaScript numbers the server computes with;
    - [JsMap], [JsSet]: insertion-ordered [Map] and [Set];
    - the room data model, [recomputeSpent], [clampBidsToBudget];
    - [computeWinners];
    - the message and close handlers of a connection;
    - the statements of the specification and the invariants used to
      settle them;
    - the properties: the handlers, the budget clamp, the allocation
      engine, the budget over the events. *)

From Stdlib Require Import QArith Qround.
From Stdlib Require Import ZArith Strings.String Bool Lia.
From Stdlib Require Import List Permutation Sorted.
Import ListNotations.
Local Open Scope string_scope.
Local Open Scope list_scope.
Local Open Scope Z_scope.

Set Implicit Arguments.

(* ================================================================== *)
(** ** JavaScript numbers *)

(** Every number the server stores or computes with is the result of
    [Math.floor], of [Date.now], of a literal, or of [+]/[-] on such
    values: an integer-valued IEEE-754 double, or one of the three
    special values.  [Fin z] is the double whose value is the integer
    [z]. *)
Inductive number : Type :=
| NaN
| NegInf
| PosInf
| Fin (z : Z).

(** A number as it arrives in a message field, before [Math.floor]: the
    result of JavaScript's [ToNumber] on the field.  Finite values may
    have a fractional part.  [RNaN] is what [ToNumber] gives for a
    string that is not a numeral (["abc"]), for an object, for
    [undefined]. *)
Inductive real : Type :=
| RNaN
| RNegInf
| RPosInf
| RFin (q : Q).

(** Rounding of an exact integer result to the nearest double (ties to
    even, 53 bits of significand, overflow to infinity).  Integers of
    magnitude at most 2^53 are represented exactly. *)
Definition norm (z : Z) : number :=
  if Z.abs z <=? 2 ^ 53 then Fin z
  else
    let a := Z.abs z in
    let e := Z.log2 a - 52 in
    let q := a / 2 ^ e in
    let r := a mod 2 ^ e in
    let half := 2 ^ (e - 1) in
    let m := if r <? half then q
             else if half <? r then q + 1
             else if Z.even q then q else q + 1 in
    let v := m * 2 ^ e in
    if 2 ^ 1024 <=? v then (if z <? 0 then NegInf else PosInf)
    else Fin (Z.sgn z * v).

Definition js_neg (a : number) : number :=
  match a with
  | NaN => NaN
  | NegInf => PosInf
  | PosInf => NegInf
  | Fin z => Fin (- z)
  end.

(** [a + b] *)
Definition js_add (a b : number) : number :=
  match a, b with
  | NaN, _ | _, NaN => NaN
  | PosInf, NegInf | NegInf, PosInf => NaN
  | PosInf, _ | _, PosInf => PosInf
  | NegInf, _ | _, NegInf => NegInf
  | Fin x, Fin y => norm (x + y)
  end.

(** [a - b] *)
Definition js_sub (a b : number) : number := js_add a (js_neg b).

(** [a < b]; every comparison with [NaN] is false. *)
Definition js_lt (a b : number) : bool :=
  match a, b with
  | NaN, _ | _, NaN => false
  | _, NegInf => false
  | NegInf, _ => true
  | PosInf, _ => false
  | Fin _, PosInf => true
  | Fin x, Fin y => x <? y
  end.

(** [a <= b] *)
Definition js_le (a b : number) : bool :=
  match a, b with
  | NaN, _ | _, NaN => false
  | NegInf, _ => true
  | _, PosInf => true
  | _, NegInf => false
  | PosInf, _ => false
  | Fin x, Fin y => x <=? y
  end.

(** [a > b] and [a >= b] *)
Definition js_gt (a b : number) : bool := js_lt b a.
Definition js_ge (a b : number) : bool := js_le b a.

(** [a === b] and [a !== b] on numbers: [NaN] differs from itself. *)
Definition js_strict_eq (a b : number) : bool :=
  match a, b with
  | NegInf, NegInf | PosInf, PosInf => true
  | Fin x, Fin y => x =? y
  | _, _ => false
  end.

Definition js_strict_neq (a b : number) : bool := negb (js_strict_eq a b).

(** [Math.max(a, b)] and [Math.min(a, b)]: [NaN] as soon as one argument
    is [NaN]. *)
Definition Math_max (a b : number) : number :=
  match a, b with
  | NaN, _ | _, NaN => NaN
  | _, _ => if js_lt a b then b else a
  end.

Definition Math_min (a b : number) : number :=
  match a, b with
  | NaN, _ | _, NaN => NaN
  | _, _ => if js_lt b a then b else a
  end.

(** [Math.floor] on a value that is already integer-valued (a stored
    amount): the identity, also on the special values. *)
Definition Math_floor (a : number) : number := a.

(** [Math.floor] on a message field. *)
Definition Math_floor_real (x : real) : number :=
  match x with
  | RNaN => NaN
  | RNegInf => NegInf
  | RPosInf => PosInf
  | RFin q => norm (Qfloor q)
  end.

(** [Number.isInteger(a) && a >= 0] *)
Definition is_nonneg_integer (a : number) : bool :=
  match a with
  | Fin z => 0 <=? z
  | _ => false
  end.

(** [x ?? d] on an optional field: [None] is [undefined] or [null]. *)
Definition nullish {A : Type} (x : option A) (d : A) : A :=
  match x with
  | Some v => v
  | None => d
  end.

(** [a.localeCompare(b)], taken as the comparison by code units.  The
    collation of the host may order some strings differently; the
    results below use the comparators built on it only through the fact
    that [Array_sort] returns a permutation, and through the order of
    amounts and timestamps. *)
Definition localeCompare (a b : string) : number :=
  match String.compare a b with
  | Lt => Fin (-1)
  | Eq => Fin 0
  | Gt => Fin 1
  end.

(* ================================================================== *)
(** ** Arrays: the stable [sort] *)

Section ArraySort.
Variable A : Type.
(** The comparator of [arr.sort(cmp)]: a positive result puts its
    first argument after the second; zero and [NaN] leave the two in
    their order ([sort] is stable).  For a comparator that is not
    consistent (amounts that are [NaN]) the language leaves the order
    to the engine; the results below that depend on an order are
    stated for typed entries, all others use only that the result is a
    permutation. *)
Variable cmp : A -> A -> number.

Fixpoint sort_insert (x : A) (l : list A) : list A :=
  match l with
  | [] => [x]
  | y :: l' =>
      if js_gt (cmp x y) (Fin 0) then y :: sort_insert x l'
      else x :: l
  end.

Definition Array_sort (l : list A) : list A :=
  fold_right sort_insert [] l.
End ArraySort.

(* ================================================================== *)
(** ** [Map] and [Set] with string keys, in insertion order *)

Section JsMap.
Variable V : Type.

(** A [Map]: its entries in insertion order.  [mset] keeps the place of
    a key that is already present, as [Map.prototype.set] does. *)
Definition JsMap : Type := list (string * V).

Fixpoint mget (k : string) (m : JsMap) : option V :=
  match m with
  | [] => None
  | (k', v) :: m' => if String.eqb k k' then Some v else mget k m'
  end.

Definition mhas (k : string) (m : JsMap) : bool :=
  match mget k m with
  | Some _ => true
  | None => false
  end.

Fixpoint mset (k : string) (v : V) (m : JsMap) : JsMap :=
  match m with
  | [] => [(k, v)]
  | (k', v') :: m' =>
      if String.eqb k k' then (k, v) :: m' else (k', v') :: mset k v m'
  end.

Fixpoint mdelete (k : string) (m : JsMap) : JsMap :=
  match m with
  | [] => []
  | (k', v') :: m' =>
      if String.eqb k k' then mdelete k m' else (k', v') :: mdelete k m'
  end.

Definition mkeys (m : JsMap) : list string := map fst m.
Definition mvalues (m : JsMap) : list V := map snd m.
Definition msize (m : JsMap) : nat := List.length m.
End JsMap.

Arguments mget {V} k m.
Arguments mhas {V} k m.
Arguments mset {V} k v m.
Arguments mdelete {V} k m.
Arguments mkeys {V} m.
Arguments mvalues {V} m.
Arguments msize {V} m.

(** A [Set] of strings: its elements in insertion order. *)
Definition JsSet : Type := list string.

Definition shas (x : string) (s : JsSet) : bool :=
  existsb (String.eqb x) s.

Definition sadd (x : string) (s : JsSet) : JsSet :=
  if shas x s then s else s ++ [x].

Definition sdelete (x : string) (s : JsSet) : JsSet :=
  filter (fun y => negb (String.eqb x y)) s.

Definition ssize (s : JsSet) : number := Fin (Z.of_nat (List.length s)).

(* ================================================================== *)
(** ** The room *)

Record Config : Type := mkConfig {
  budget : number;
  revealBids : bool;
  allowJoinAfterLock : bool
}.

Record Topic : Type := mkTopic {
  id : string;
  name : string;
  capacity : number
}.

(** A player of the room; the socket of the player is transport state
    and is left out. *)
Record Player : Type := mkPlayer {
  p_id : string;
  p_name : string;
  spent : number
}.

(** A stored bid [{ amount, ts }]; [ts] is a reading of [Date.now()]. *)
Record Bid : Type := mkBid {
  amount : number;
  ts : Z
}.

Record Room : Type := mkRoom {
  r_id : string;
  hostId : option string;
  config : Config;
  locked : bool;
  topics : list Topic;
  players : JsMap Player;
  bids : JsMap (JsMap Bid)
}.

Definition set_players (r : Room) (ps : JsMap Player) : Room :=
  mkRoom (r_id r) (hostId r) (config r) (locked r) (topics r) ps (bids r).

Definition set_bids (r : Room) (bs : JsMap (JsMap Bid)) : Room :=
  mkRoom (r_id r) (hostId r) (config r) (locked r) (topics r) (players r) bs.

Definition set_config (r : Room) (c : Config) : Room :=
  mkRoom (r_id r) (hostId r) c (locked r) (topics r) (players r) (bids r).

Definition set_locked (r : Room) (b : bool) : Room :=
  mkRoom (r_id r) (hostId r) (config r) b (topics r) (players r) (bids r).

Definition set_topics (r : Room) (ts : list Topic) : Room :=
  mkRoom (r_id r) (hostId r) (config r) (locked r) ts (players r) (bids r).

Definition set_hostId (r : Room) (h : option string) : Room :=
  mkRoom (r_id r) h (config r) (locked r) (topics r) (players r) (bids r).

(** [getOrCreateRoom]: the room a fresh code starts with. *)
Definition newRoom (roomId : string) : Room :=
  mkRoom roomId None (mkConfig (Fin 100) true true) false [] [] [].

(** [recomputeSpent(room, playerId)]: the sum of the player's bid
    amounts, stored in the player record when there is one. *)
Definition sum_amounts (perTopic : JsMap Bid) : number :=
  fold_left (fun s b => js_add s (amount b)) (mvalues perTopic) (Fin 0).

Definition recomputeSpent (room : Room) (playerId : string) : Room :=
  let spent :=
    match mget playerId (bids room) with
    | Some perTopic => sum_amounts perTopic
    | None => Fin 0
    end in
  match mget playerId (players room) with
  | Some player =>
      set_players room
        (mset playerId (mkPlayer (p_id player) (p_name player) spent)
           (players room))
  | None => room
  end.

(* ================================================================== *)
(** ** The budget clamp *)

(** An element of the working array [entries] of [clampBidsToBudget]. *)
Record Entry : Type := mkEntry {
  e_topicId : string;
  e_amount : number;
  e_ts : Z
}.

Definition clamp_entries (perTopic : JsMap Bid) : list Entry :=
  map (fun kv =>
         mkEntry (fst kv)
           (Math_max (Fin 0) (Math_floor (amount (snd kv))))
           (ts (snd kv)))
      perTopic.

(** [entries.reduce((s, e) => s + e.amount, 0)] *)
Definition entries_total (entries : list Entry) : number :=
  fold_left (fun s e => js_add s (e_amount e)) entries (Fin 0).

(** The comparator of the clamp: ascending by amount, then newest
    first. *)
Definition clamp_cmp (a b : Entry) : number :=
  if js_strict_neq (e_amount a) (e_amount b)
  then js_sub (e_amount a) (e_amount b)
  else js_sub (Fin (e_ts b)) (Fin (e_ts a)).

(** The trimming loop over the sorted entries; [over] is the overage
    still to absorb. *)
Fixpoint trim (over : number) (entries : list Entry) : list Entry :=
  match entries with
  | [] => []
  | e :: rest =>
      if js_le over (Fin 0) then entries                     (* break *)
      else if js_le (e_amount e) (Fin 0) then e :: trim over rest (* continue *)
      else
        let take := Math_min (e_amount e) over in
        mkEntry (e_topicId e) (js_sub (e_amount e) take) (e_ts e)
          :: trim (js_sub over take) rest
  end.

(** The write-back: a fresh [Map] filled in the order of the entries,
    every bid stamped with the time of the write. *)
Definition write_back (now : Z) (entries : list Entry) : JsMap Bid :=
  fold_left (fun m e => mset (e_topicId e) (mkBid (e_amount e) now) m)
            entries [].

(** [clampBidsToBudget(room, playerId)], run at time [now]. *)
Definition clampBidsToBudget (now : Z) (room : Room) (playerId : string)
  : Room :=
  match mget playerId (bids room) with
  | None => room
  | Some perTopic =>
      let entries := clamp_entries perTopic in
      let total := entries_total entries in
      if js_le total (budget (config room)) then recomputeSpent room playerId
      else
        let sorted := Array_sort clamp_cmp entries in
        let over := js_sub total (budget (config room)) in
        let trimmed := trim over sorted in
        let newMap := write_back now trimmed in
        recomputeSpent (set_bids room (mset playerId newMap (bids room)))
                       playerId
  end.

(* ================================================================== *)
(** ** The allocation engine *)

(** An element of a topic's bid list [{ playerId, amount, ts }]. *)
Record Cand : Type := mkCand {
  playerId : string;
  c_amount : number;
  c_ts : Z
}.

(** The comparator of the bid lists: higher amount first, then the
    earlier timestamp, then the player id. *)
Definition cand_cmp (a b : Cand) : number :=
  if js_strict_neq (c_amount b) (c_amount a)
  then js_sub (c_amount b) (c_amount a)
  else if negb (c_ts a =? c_ts b)
  then js_sub (Fin (c_ts a)) (Fin (c_ts b))
  else localeCompare (playerId a) (playerId b).

(** The unsorted bid list of a topic: one element for each player whose
    bid on the topic passes the filter [amount <= 0]. *)
Definition topic_bids (bids : JsMap (JsMap Bid)) (topicId : string)
  : list Cand :=
  flat_map
    (fun entry =>
       match mget topicId (snd entry) with
       | None => []
       | Some b =>
           let amount := Math_max (Fin 0) (Math_floor (amount b)) in
           if js_le amount (Fin 0) then []
           else [mkCand (fst entry) amount (ts b)]
       end)
    bids.

Definition build_bidLists (room : Room) : JsMap (list Cand) :=
  fold_left
    (fun m t =>
       mset (id t) (Array_sort cand_cmp (topic_bids (bids room) (id t))) m)
    (topics room) [].

(** The two maps the resolution works on.  ([assignedTopicByPlayer],
    [assignedBidByPlayer] and [tryFillTopic] are never used by
    [computeWinners] and are left out.) *)
Record Alloc : Type := mkAlloc {
  winnersByTopic : JsMap JsSet;
  nextIndex : JsMap number
}.

(** [bidLists.get(t.id) ?? []] and [winnersByTopic.get(t.id)]; the
    latter is defined for every topic after [alloc_init]. *)
Definition bid_list (bidLists : JsMap (list Cand)) (topicId : string)
  : list Cand := nullish (mget topicId bidLists) [].

Definition winners_of (W : JsMap JsSet) (topicId : string) : JsSet :=
  nullish (mget topicId W) [].

Definition alloc_init (topics : list Topic) : Alloc :=
  fold_left
    (fun st t =>
       mkAlloc (mset (id t) [] (winnersByTopic st))
               (mset (id t) (Fin 0) (nextIndex st)))
    topics (mkAlloc [] []).

(** The number of iterations of [for (let i = 0; i < n; i++)]. *)
Definition iterations (n : number) : nat :=
  match n with
  | Fin k => Z.to_nat k
  | _ => 0%nat
  end.

Definition array_length {A : Type} (l : list A) : number :=
  Fin (Z.of_nat (List.length l)).

(** Step 1: the top [capacity] of every list are tentative winners. *)
Definition tentative (bidLists : JsMap (list Cand)) (topics : list Topic)
  (st : Alloc) : Alloc :=
  fold_left
    (fun st t =>
       let list := bid_list bidLists (id t) in
       let winners := winners_of (winnersByTopic st) (id t) in
       let n := Math_min (capacity t) (array_length list) in
       let winners' :=
         fold_left (fun w c => sadd (playerId c) w)
                   (firstn (iterations n) list) winners in
       mkAlloc (mset (id t) winners' (winnersByTopic st))
               (mset (id t) n (nextIndex st)))
    topics st.

(** An element of a player's list of wins [{ topicId, amount, ts }]. *)
Record Win : Type := mkWin {
  w_topicId : string;
  w_amount : number;
  w_ts : Z
}.

Definition byPlayer_of (list : list Cand) : JsMap Cand :=
  fold_left
    (fun m b => if mhas (playerId b) m then m else mset (playerId b) b m)
    list [].

(** [if (!playerWins.has(playerId)) playerWins.set(playerId, []);
    playerWins.get(playerId).push(w)] *)
Definition push_win (pid : string) (w : Win) (playerWins : JsMap (list Win))
  : JsMap (list Win) :=
  let playerWins1 :=
    if mhas pid playerWins then playerWins else mset pid [] playerWins in
  mset pid (nullish (mget pid playerWins1) [] ++ [w]) playerWins1.

(** The body of the loop of [buildPlayerWins] for the topic [t]. *)
Definition topic_wins (bidLists : JsMap (list Cand)) (W : JsMap JsSet)
  (t : Topic) (playerWins : JsMap (list Win)) : JsMap (list Win) :=
  let list := bid_list bidLists (id t) in
  let winners := winners_of W (id t) in
  let byPlayer := byPlayer_of list in
  fold_left
    (fun playerWins pid =>
       match mget pid byPlayer with
       | None => playerWins
       | Some b => push_win pid (mkWin (id t) (c_amount b) (c_ts b)) playerWins
       end)
    winners playerWins.

Definition buildPlayerWins (bidLists : JsMap (list Cand))
  (topics : list Topic) (W : JsMap JsSet) : JsMap (list Win) :=
  fold_left (fun playerWins t => topic_wins bidLists W t playerWins)
            topics [].

(** The comparator of a player's wins: highest bid, then the earlier
    timestamp, then the topic id. *)
Definition win_cmp (a b : Win) : number :=
  if js_strict_neq (w_amount b) (w_amount a)
  then js_sub (w_amount b) (w_amount a)
  else if negb (w_ts a =? w_ts b)
  then js_sub (Fin (w_ts a)) (Fin (w_ts b))
  else localeCompare (w_topicId a) (w_topicId b).

(** The body of the loop that fills [keepByPlayer]. *)
Definition keep_step (keepByPlayer : JsMap string)
  (entry : string * list Win) : JsMap string :=
  if (List.length (snd entry) <=? 1)%nat then keepByPlayer
  else
    match Array_sort win_cmp (snd entry) with
    | w :: _ => mset (fst entry) (w_topicId w) keepByPlayer
    | [] => keepByPlayer
    end.

Definition build_keepByPlayer (playerWins : JsMap (list Win))
  : JsMap string :=
  fold_left keep_step playerWins [].

(** The body of the removal loop for the player and kept topic of
    [entry] and the topic [t]; the second component of the state is the
    flag [changed]. *)
Definition remove_from (entry : string * string)
  (acc : JsMap JsSet * bool) (t : Topic) : JsMap JsSet * bool :=
  let winners := winners_of (fst acc) (id t) in
  if negb (shas (fst entry) winners) then acc
  else if String.eqb (id t) (snd entry) then acc
  else (mset (id t) (sdelete (fst entry) winners) (fst acc), true).

(** The removal of every player from the topics they do not keep. *)
Definition remove_unkept (topics : list Topic) (keepByPlayer : JsMap string)
  (W : JsMap JsSet) (changed : bool) : JsMap JsSet * bool :=
  fold_left
    (fun acc entry => fold_left (remove_from entry) topics acc)
    keepByPlayer (W, changed).

Definition build_winningPlayers (topics : list Topic) (W : JsMap JsSet)
  : JsSet :=
  fold_left
    (fun s t => fold_left (fun s pid => sadd pid s) (winners_of W (id t)) s)
    topics [].

(** The state of the refill of one topic: the seated winners, the set
    [winningPlayers], the pointer [idx] and the flag [changed]. *)
Record Refill : Type := mkRefill {
  rf_winners : JsSet;
  rf_winning : JsSet;
  rf_idx : number;
  rf_changed : bool
}.

(** [idx++] on a position in an array. *)
Definition incr (idx : number) : number :=
  match idx with
  | Fin k => Fin (k + 1)
  | _ => idx
  end.

(** The part of the list the pointer [idx] has not walked yet.  The
    pointer read from [nextIndex] is a position in the list, or [NaN]
    for a topic whose capacity is [NaN]; with [NaN] the condition
    [idx < list.length] is false and nothing is left to walk.  (A
    negative pointer would need a negative capacity, which [set_topics]
    never stores.) *)
Definition remaining (cands : list Cand) (idx : number) : list Cand :=
  match idx with
  | Fin k => if 0 <=? k then skipn (Z.to_nat k) cands else []
  | _ => []
  end.

(** The loop [while (winners.size < t.capacity && idx < list.length)]
    as a walk over [rest], the part of the list from [idx] on. *)
Fixpoint refill_walk (cap : number) (rest : list Cand) (st : Refill)
  : Refill :=
  match rest with
  | [] => st
  | cand :: rest' =>
      if js_lt (ssize (rf_winners st)) cap then
        let idx' := incr (rf_idx st) in
        if shas (playerId cand) (rf_winners st) then
          refill_walk cap rest'
            (mkRefill (rf_winners st) (rf_winning st) idx' (rf_changed st))
        else if shas (playerId cand) (rf_winning st) then
          refill_walk cap rest'
            (mkRefill (rf_winners st) (rf_winning st) idx' (rf_changed st))
        else
          refill_walk cap rest'
            (mkRefill (sadd (playerId cand) (rf_winners st))
                      (sadd (playerId cand) (rf_winning st)) idx' true)
      else st
  end.

(** The refill of one topic. *)
Definition refill_topic (bidLists : JsMap (list Cand)) (t : Topic)
  (acc : Alloc * JsSet * bool) : Alloc * JsSet * bool :=
  let '(st, winningPlayers, changed) := acc in
  let winners := winners_of (winnersByTopic st) (id t) in
  if js_ge (ssize winners) (capacity t) then acc
  else
    let list := bid_list bidLists (id t) in
    let idx := nullish (mget (id t) (nextIndex st)) (Fin 0) in
    let r := refill_walk (capacity t) (remaining list idx)
               (mkRefill winners winningPlayers idx changed) in
    (mkAlloc (mset (id t) (rf_winners r) (winnersByTopic st))
             (mset (id t) (rf_idx r) (nextIndex st)),
     rf_winning r, rf_changed r).

(** One pass of the loop of step 2; returns the new maps and the flag
    [changed]. *)
Definition pass (bidLists : JsMap (list Cand)) (topics : list Topic)
  (st : Alloc) : Alloc * bool :=
  let playerWins := buildPlayerWins bidLists topics (winnersByTopic st) in
  let keepByPlayer := build_keepByPlayer playerWins in
  let '(W1, changed1) :=
    remove_unkept topics keepByPlayer (winnersByTopic st) false in
  let winningPlayers := build_winningPlayers topics W1 in
  let '(st2, _, changed2) :=
    fold_left (fun acc t => refill_topic bidLists t acc) topics
              (mkAlloc W1 (nextIndex st), winningPlayers, changed1) in
  (st2, changed2).

(** The state of the loop [while (changed && safety++ < 1000)] when it
    is left: the maps, the flag, and the number of passes run. *)
Record Resolved : Type := mkResolved {
  res_alloc : Alloc;
  res_changed : bool;
  res_passes : nat
}.

(** [ceiling] is the number of passes the safety counter still
    allows. *)
Fixpoint resolve (ceiling : nat) (bidLists : JsMap (list Cand))
  (topics : list Topic) (st : Alloc) (changed : bool) (passes : nat)
  : Resolved :=
  if changed then
    match ceiling with
    | O => mkResolved st changed passes
    | S ceiling' =>
        let '(st', changed') := pass bidLists topics st in
        resolve ceiling' bidLists topics st' changed' (S passes)
    end
  else mkResolved st changed passes.

Definition SAFETY_CEILING : nat := 1000.

(** The loop of [computeWinners], from the tentative winners on, with
    the safety counter allowing [ceiling] passes. *)
Definition resolution_upto (ceiling : nat) (room : Room) : Resolved :=
  let bidLists := build_bidLists room in
  let st0 := tentative bidLists (topics room) (alloc_init (topics room)) in
  resolve ceiling bidLists (topics room) st0 true 0.

Definition resolution (room : Room) : Resolved :=
  resolution_upto SAFETY_CEILING room.

(** The object [computeWinners] returns; both fields as mappings. *)
Record Winners : Type := mkWinners {
  out_winnersByTopic : JsMap (list string);
  out_assignmentByPlayer : JsMap string
}.

Definition build_result (topics : list Topic) (W : JsMap JsSet) : Winners :=
  let byTopic :=
    fold_left (fun o t => mset (id t) (winners_of W (id t)) o) topics [] in
  let byPlayer :=
    fold_left
      (fun o t =>
         fold_left (fun o pid => mset pid (id t) o) (winners_of W (id t)) o)
      topics [] in
  mkWinners byTopic byPlayer.

Definition computeWinners_upto (ceiling : nat) (room : Room) : Winners :=
  build_result (topics room)
    (winnersByTopic (res_alloc (resolution_upto ceiling room))).

Definition computeWinners (room : Room) : Winners :=
  computeWinners_upto SAFETY_CEILING room.

(* ================================================================== *)
(** ** The connection handlers *)

(** An element of [msg.topics] as [set_topics] reads it: [raw_id] is
    [String(t.id ?? nanoid(6))], [raw_name] the trimmed, truncated and
    defaulted name, [raw_capacity] the field [t.capacity]. *)
Record RawTopic : Type := mkRawTopic {
  raw_id : string;
  raw_name : string;
  raw_capacity : option real
}.

(** A parsed message, by [msg.type].  A numeric field is [None] when it
    is [undefined] or [null] and otherwise carries its [ToNumber]
    reading; a flag is [Some b] exactly when its [typeof] is
    ["boolean"].  The room code and the name of [Join] are the
    normalised strings. *)
Inductive Message : Type :=
| Join (roomId : string) (name : string)
| SetConfig (budget : option real)
            (revealBids allowJoinAfterLock : option bool)
| SetTopics (topics : list RawTopic)
| LockBids
| UnlockBids
| PlaceBid (topicId : string) (amount : option real)
| ComputeWinners
| Unknown.

(** What a handler sends; [roomSnapshot(room)] copies the fields of the
    room, so a snapshot is the room as it is at that point. *)
Inductive Notification : Type :=
| SendError (message : string)
| SendJoined (playerId : string) (snapshot : Room)
| BroadcastRoomUpdate (snapshot : Room)
| BroadcastWinners (winners : Winners).

(** The state of one connection: its [playerId] and the room its
    variable [room] refers to, by room code. *)
Record Conn : Type := mkConn {
  conn_playerId : string;
  conn_room : option string
}.

Definition getOrCreateRoom (rooms : JsMap Room) (roomId : string)
  : JsMap Room * Room :=
  match mget roomId rooms with
  | Some room => (rooms, room)
  | None => (mset roomId (newRoom roomId) rooms, newRoom roomId)
  end.

(** [!room.hostId] *)
Definition no_host (h : option string) : bool :=
  match h with
  | None => true
  | Some s => String.eqb s ""
  end.

(** [room.hostId === playerId] *)
Definition is_host (room : Room) (playerId : string) : bool :=
  match hostId room with
  | Some h => String.eqb h playerId
  | None => false
  end.

Definition handle_join (rooms : JsMap Room) (c : Conn)
  (roomId name : string) : JsMap Room * Conn * list Notification :=
  if String.eqb roomId "" then (rooms, c, [SendError "Room code required."])
  else
    let '(rooms1, room) := getOrCreateRoom rooms roomId in
    let c1 := mkConn (conn_playerId c) (Some roomId) in
    if locked room && negb (allowJoinAfterLock (config room))
    then (rooms1, c1, [SendError "Room is locked."])
    else
      let pid := conn_playerId c in
      let room1 :=
        if no_host (hostId room) then set_hostId room (Some pid) else room in
      let room2 :=
        set_players room1 (mset pid (mkPlayer pid name (Fin 0))
                                (players room1)) in
      let room3 :=
        if mhas pid (bids room2) then room2
        else set_bids room2 (mset pid [] (bids room2)) in
      let room4 := recomputeSpent room3 pid in
      (mset roomId room4 rooms1, c1,
       [SendJoined pid room4; BroadcastRoomUpdate room4]).

Definition handle_set_config (now : Z) (room : Room)
  (msg_budget : option real) (msg_revealBids msg_allowJoinAfterLock
                               : option bool) : Room :=
  let cfg := config room in
  let newBudget :=
    Math_max (Fin 1)
      (Math_min (Fin 10000)
         (match msg_budget with
          | Some x => Math_floor_real x
          | None => Math_floor (budget cfg)
          end)) in
  let reveal := nullish msg_revealBids (revealBids cfg) in
  let allowJoin := nullish msg_allowJoinAfterLock (allowJoinAfterLock cfg) in
  fold_left (fun r pid => clampBidsToBudget now r pid)
            (mkeys (players room))
            (set_config room (mkConfig newBudget reveal allowJoin)).

Definition clean_topic (t : RawTopic) : Topic :=
  mkTopic (raw_id t) (raw_name t)
    (Math_max (Fin 1)
       (Math_min (Fin 20)
          (Math_floor_real (nullish (raw_capacity t) (RFin 1))))).

Definition handle_set_topics (now : Z) (room : Room)
  (topicsRaw : list RawTopic) : Room :=
  let room1 := set_topics room (map clean_topic (firstn 50 topicsRaw)) in
  let topicIds := map id (topics room1) in
  fold_left
    (fun r pid =>
       match mget pid (bids r) with
       | None => r
       | Some perTopic =>
           let kept := filter (fun kv => shas (fst kv) topicIds) perTopic in
           let r1 := set_bids r (mset pid kept (bids r)) in
           clampBidsToBudget now (recomputeSpent r1 pid) pid
       end)
    (mkeys (bids room1)) room1.

Definition handle_bid (now : Z) (room : Room) (playerId topicId : string)
  (msg_amount : option real) : option Room :=
  let amount :=
    Math_max (Fin 0) (Math_floor_real (nullish msg_amount (RFin 0))) in
  if negb (existsb (fun t => String.eqb (id t) topicId) (topics room))
  then None
  else
    let perTopic := nullish (mget playerId (bids room)) [] in
    let perTopic1 := mset topicId (mkBid amount now) perTopic in
    let room1 := set_bids room (mset playerId perTopic1 (bids room)) in
    Some (clampBidsToBudget now room1 playerId).

(** The handler of a parsed message, run at time [now]. *)
Definition on_message (now : Z) (msg : Message) (rooms : JsMap Room)
  (c : Conn) : JsMap Room * Conn * list Notification :=
  match msg with
  | Join roomId name => handle_join rooms c roomId name
  | _ =>
      match conn_room c with
      | None => (rooms, c, [])
      | Some rid =>
          match mget rid rooms with
          | None => (rooms, c, [])
          | Some room =>
              let pid := conn_playerId c in
              if negb (mhas pid (players room)) then (rooms, c, [])
              else
                let isHost := is_host room pid in
                let update room' :=
                  (mset rid room' rooms, c, [BroadcastRoomUpdate room']) in
                match msg with
                | SetConfig b rb aj =>
                    if isHost then update (handle_set_config now room b rb aj)
                    else (rooms, c, [])
                | SetTopics ts =>
                    if isHost then update (handle_set_topics now room ts)
                    else (rooms, c, [])
                | LockBids =>
                    if isHost then update (set_locked room true)
                    else (rooms, c, [])
                | UnlockBids =>
                    if isHost then update (set_locked room false)
                    else (rooms, c, [])
                | PlaceBid topicId amount =>
                    if negb (locked room) then
                      match handle_bid now room pid topicId amount with
                      | Some room' => update room'
                      | None => (rooms, c, [])
                      end
                    else (rooms, c, [])
                | ComputeWinners =>
                    if isHost
                    then (rooms, c, [BroadcastWinners (computeWinners room)])
                    else (rooms, c, [])
                | _ => (rooms, c, [])
                end
          end
      end
  end.

(** The handler of the close of a connection. *)
Definition on_close (rooms : JsMap Room) (c : Conn)
  : JsMap Room * list Notification :=
  match conn_room c with
  | None => (rooms, [])
  | Some rid =>
      match mget rid rooms with
      | None => (rooms, [])
      | Some room =>
          let pid := conn_playerId c in
          match mget pid (players room) with
          | None => (rooms, [])
          | Some _ =>
              let room1 :=
                set_bids (set_players room (mdelete pid (players room)))
                         (mdelete pid (bids room)) in
              let room2 :=
                if is_host room1 pid
                then set_hostId room1 (hd_error (mkeys (players room1)))
                else room1 in
              if (msize (players room2) =? 0)%nat
              then (mdelete (r_id room2) rooms, [])
              else (mset rid room2 rooms, [BroadcastRoomUpdate room2])
          end
      end
  end.

(* ================================================================== *)
(** ** The statements of the specification *)

(** The value of a number that is an integer. *)
Definition value (a : number) : Z :=
  match a with
  | Fin z => z
  | _ => 0
  end.

(** The largest magnitude up to which every integer is a double. *)
Definition MAX_EXACT : Z := 2 ^ 53.

(** The total of a bid map, as an integer. *)
Definition exact_total (perTopic : JsMap Bid) : Z :=
  fold_right (fun kv s => value (amount (snd kv)) + s) 0 perTopic.

(** A bid map as the data model types it: a map (no topic twice) of
    non-negative integer amounts, small enough to be added exactly. *)
Definition bids_typed (perTopic : JsMap Bid) : Prop :=
  NoDup (mkeys perTopic)
  /\ Forall (fun kv => is_nonneg_integer (amount (snd kv)) = true) perTopic
  /\ exact_total perTopic <= MAX_EXACT.

(** The budget and the bid map of [playerId] as the data model types
    them. *)
Definition clamp_input_typed (room : Room) (playerId : string) : Prop :=
  (exists b, budget (config room) = Fin b /\ 0 <= b)
  /\ forall perTopic,
       mget playerId (bids room) = Some perTopic -> bids_typed perTopic.

(** Section 4.3, the order of trimming: ascending by amount and, within
    equal amounts, the larger timestamp first. *)
Definition trimmed_before (a b : Entry) : Prop :=
  value (e_amount a) < value (e_amount b)
  \/ (value (e_amount a) = value (e_amount b) /\ e_ts b <= e_ts a).

(** Section 4.3, the walk: every entry loses [min(amount, remaining
    overage)]; [rem] is the overage less the amounts of the entries
    already walked, so the remaining overage is [max 0 rem]. *)
Fixpoint spec_trim (rem : Z) (entries : list Entry) : list Entry :=
  match entries with
  | [] => []
  | e :: rest =>
      let a := value (e_amount e) in
      mkEntry (e_topicId e) (Fin (a - Z.min a (Z.max 0 rem))) (e_ts e)
        :: spec_trim (rem - a) rest
  end.

(** Section 4.3, the rewrite of the timestamps. *)
Definition stamped (now : Z) (entries : list Entry) : JsMap Bid :=
  map (fun e => (e_topicId e, mkBid (e_amount e) now)) entries.

(** The bid of [playerId] on [topicId] in a room. *)
Definition stored_bid (room : Room) (playerId topicId : string)
  : option Bid :=
  match mget playerId (bids room) with
  | Some perTopic => mget topicId perTopic
  | None => None
  end.

(** The winner set of a topic in a result. *)
Definition winners_in (res : Winners) (t : Topic) : list string :=
  nullish (mget (id t) (out_winnersByTopic res)) [].

(** Section 4.4, the guarantee on a result: no participant in the
    winner sets of two topics, no winner set larger than the capacity
    of its topic, every winner with a bid of floored amount above zero
    on the topic. *)
Definition allocation_guarantee (room : Room) (res : Winners) : Prop :=
  (forall t1 t2 p,
      In t1 (topics room) -> In t2 (topics room) ->
      In p (winners_in res t1) -> In p (winners_in res t2) -> t1 = t2)
  /\ (forall t,
        In t (topics room) ->
        js_le (array_length (winners_in res t)) (capacity t) = true)
  /\ (forall t p,
        In t (topics room) -> In p (winners_in res t) ->
        exists perTopic b,
          In (p, perTopic) (bids room)
          /\ mget (id t) perTopic = Some b
          /\ js_gt (Math_floor (amount b)) (Fin 0) = true).

(** No stored amount of the room is [NaN]. *)
Definition amounts_are_numbers (room : Room) : Prop :=
  forall pid perTopic tid b,
    In (pid, perTopic) (bids room) -> In (tid, b) perTopic ->
    amount b <> NaN.

(** No participant in the winner sets of two topic ids. *)
Definition disjoint_winners (topics : list Topic) (W : JsMap JsSet)
  : Prop :=
  forall t1 t2 p,
    In t1 topics -> In t2 topics ->
    In p (winners_of W (id t1)) -> In p (winners_of W (id t2)) ->
    id t1 = id t2.

(** The maps after [n] passes of the loop, whatever the flag says. *)
Fixpoint after_passes (n : nat) (bidLists : JsMap (list Cand))
  (topics : list Topic) (st : Alloc) : Alloc :=
  match n with
  | O => st
  | S n' => fst (pass bidLists topics (after_passes n' bidLists topics st))
  end.

(** The tentative winners of a room, before the loop. *)
Definition tentative_of (room : Room) : Alloc :=
  tentative (build_bidLists room) (topics room) (alloc_init (topics room)).

(** *** Rooms used as concrete inputs *)

Definition two_topics : list Topic :=
  [mkTopic "X" "Topic" (Fin 1); mkTopic "Y" "Topic" (Fin 1)].

(** Budget 100 and bids [{X:60, Y:50}] for [h], before the clamp. *)
Definition over_budget_room : Room :=
  mkRoom "ROOM" (Some "h") (mkConfig (Fin 100) true true) false two_topics
    [("h", mkPlayer "h" "Host" (Fin 110))]
    [("h", [("X", mkBid (Fin 60) 1); ("Y", mkBid (Fin 50) 2)])].

(** A room with the participants [h] (host) and [q]. *)
Definition hq_room : Room :=
  mkRoom "ROOM" (Some "h") (mkConfig (Fin 100) true true) false two_topics
    [("h", mkPlayer "h" "Host" (Fin 100));
     ("q", mkPlayer "q" "Player" (Fin 30))]
    [("h", [("X", mkBid (Fin 60) 1); ("Y", mkBid (Fin 40) 2)]);
     ("q", [("X", mkBid (Fin 30) 3)])].

Definition hq_rooms : JsMap Room := [("ROOM", hq_room)].

Definition conn_h : Conn := mkConn "h" (Some "ROOM").
Definition conn_q : Conn := mkConn "q" (Some "ROOM").

(** The room [hq_room] once the handler of [bid] has stored an amount
    of [2^60] for [q] on [Y] at time [now], before it calls the clamp:
    [q] holds 30 on [X] and [2^60] on [Y], on a budget of 100. *)
Definition big_bid_room (now : Z) : Room :=
  set_bids hq_room
    (mset "q"
       [("X", mkBid (Fin 30) 3); ("Y", mkBid (Fin (2 ^ 60)) now)]
       (bids hq_room)).

(** Two topics with the same id and capacities 1 and 2, two bidders. *)
Definition same_id_room : Room :=
  mkRoom "ROOM" (Some "h") (mkConfig (Fin 100) true true) false
    [mkTopic "A" "Topic" (Fin 1); mkTopic "A" "Topic" (Fin 2)]
    [("h", mkPlayer "h" "Host" (Fin 50));
     ("q", mkPlayer "q" "Player" (Fin 40))]
    [("h", [("A", mkBid (Fin 50) 1)]);
     ("q", [("A", mkBid (Fin 40) 2)])].

(** Section 8, the budget property for one participant and for the
    room: the total of the stored amounts is at most the budget and no
    stored amount is negative. *)
Definition budget_respected_for (room : Room) (playerId : string) : bool :=
  match mget playerId (bids room) with
  | None => true
  | Some perTopic =>
      js_le (sum_amounts perTopic) (budget (config room))
      && forallb (fun kv => js_ge (amount (snd kv)) (Fin 0)) perTopic
  end.

Definition budget_respected (room : Room) : bool :=
  forallb (budget_respected_for room) (mkeys (players room)).

(** An entry of the clamp whose amount is a non-negative integer, and
    the total of such entries as an integer. *)
Definition entry_typed (e : Entry) : Prop :=
  exists a, e_amount e = Fin a /\ 0 <= a.

Definition entries_sum (entries : list Entry) : Z :=
  fold_right (fun e s => value (e_amount e) + s) 0 entries.

(** *** The invariants of the resolution *)

(** [p] has an element in the bid list of the topic id [k]. *)
Definition listed (bidLists : JsMap (list Cand)) (k p : string) : Prop :=
  In p (map playerId (bid_list bidLists k)).

(** [nextIndex.get(k) ?? 0] and [playerWins.get(p)]. *)
Definition idx_of (N : JsMap number) (k : string) : number :=
  nullish (mget k N) (Fin 0).

Definition wins_of (playerWins : JsMap (list Win)) (p : string)
  : list Win := nullish (mget p playerWins) [].

(** Both maps have an entry for every topic. *)
Definition keys_present (topics : list Topic) (st : Alloc) : Prop :=
  forall t, In t topics ->
            In (id t) (mkeys (winnersByTopic st))
            /\ In (id t) (mkeys (nextIndex st)).

(** The winner sets are sets. *)
Definition sets_nodup (W : JsMap JsSet) : Prop :=
  forall k, NoDup (winners_of W k).

(** Every winner of a topic id has an element in its bid list. *)
Definition winners_listed (bidLists : JsMap (list Cand)) (W : JsMap JsSet)
  : Prop :=
  forall k p, In p (winners_of W k) -> listed bidLists k p.

(** No winner set is larger than the capacity of its topic. *)
Definition within_capacity (topics : list Topic) (W : JsMap JsSet) : Prop :=
  forall t, In t topics ->
            js_le (ssize (winners_of W (id t))) (capacity t) = true.

(** The condition of the refill loop is false for the topic [t]: the
    topic is full or its list is walked to the end. *)
Definition saturated_at (bidLists : JsMap (list Cand)) (t : Topic)
  (st : Alloc) : Prop :=
  js_lt (ssize (winners_of (winnersByTopic st) (id t))) (capacity t) = false
  \/ remaining (bid_list bidLists (id t)) (idx_of (nextIndex st) (id t)) = [].

Definition saturated (bidLists : JsMap (list Cand)) (topics : list Topic)
  (st : Alloc) : Prop :=
  forall t, In t topics -> saturated_at bidLists t st.

(** The set [winningPlayers] holds every winner of every topic. *)
Definition covers (topics : list Topic) (W : JsMap JsSet)
  (winningPlayers : JsSet) : Prop :=
  forall t q, In t topics -> In q (winners_of W (id t)) ->
              In q winningPlayers.

(** The capacities of the room are non-negative numbers. *)
Definition capacities_are_counts (room : Room) : Prop :=
  forall t, In t (topics room) -> js_le (Fin 0) (capacity t) = true.

(** [W'] is [W] with some winners removed. *)
Definition shrinks (W W' : JsMap JsSet) : Prop :=
  (forall k q, In q (winners_of W' k) -> In q (winners_of W k))
  /\ (forall k, In k (mkeys W) -> In k (mkeys W'))
  /\ (sets_nodup W -> sets_nodup W').

(** The invariant of the refill loop over the topics, on its state
    (the maps, [winningPlayers], the flag). *)
Definition refill_invariant (bidLists : JsMap (list Cand))
  (topics : list Topic) (acc : Alloc * JsSet * bool) : Prop :=
  keys_present topics (fst (fst acc))
  /\ sets_nodup (winnersByTopic (fst (fst acc)))
  /\ winners_listed bidLists (winnersByTopic (fst (fst acc)))
  /\ disjoint_winners topics (winnersByTopic (fst (fst acc)))
  /\ covers topics (winnersByTopic (fst (fst acc))) (snd (fst acc)).

(** *** The typing of a room and of the numeric fields of a message *)

(** A room as the data model types it: the budget an integer between
    1 and 10000; every bid map typed, within the budget, and owned by a
    participant of the room. *)
Definition room_typed (room : Room) : Prop :=
  (exists b,
      budget (config room) = Fin b /\ 1 <= b <= 10000
      /\ forall pid perTopic,
           mget pid (bids room) = Some perTopic ->
           bids_typed perTopic /\ exact_total perTopic <= b)
  /\ incl (mkeys (bids room)) (mkeys (players room)).

Definition rooms_typed (rooms : JsMap Room) : Prop :=
  forall rid room, mget rid rooms = Some room -> room_typed room.

(** The numeric fields of a message read as numbers: the budget is not
    [NaN]; the amount is absent, or [-Infinity], or a finite number of
    at most 2^52. *)
Definition fields_numeric (msg : Message) : Prop :=
  match msg with
  | SetConfig b _ _ => b <> Some RNaN
  | PlaceBid _ a =>
      match a with
      | Some RNaN | Some RPosInf => False
      | Some (RFin q) => Qfloor q <= 2 ^ 52
      | Some RNegInf | None => True
      end
  | _ => True
  end.

(* ================================================================== *)
(** ** Further statements: the handlers as steps of a room *)

(** The room a successful [join] of [pid] leaves: the host is set when
    there is none, the player record is written, a bid map is ensured,
    [spent] is recomputed. *)
Definition join_room (pid name : string) (room : Room) : Room :=
  let room1 :=
    if no_host (hostId room) then set_hostId room (Some pid) else room in
  let room2 :=
    set_players room1
      (mset pid (mkPlayer pid name (Fin 0)) (players room1)) in
  let room3 :=
    if mhas pid (bids room2) then room2
    else set_bids room2 (mset pid [] (bids room2)) in
  recomputeSpent room3 pid.

(** The room the close of the connection of [pid] leaves, before the
    test for emptiness. *)
Definition leave_room (pid : string) (room : Room) : Room :=
  let room1 :=
    set_bids (set_players room (mdelete pid (players room)))
             (mdelete pid (bids room)) in
  if is_host room1 pid
  then set_hostId room1 (hd_error (mkeys (players room1)))
  else room1.

(** What a message of the participant [pid] can do to its room. *)
Inductive room_step (now : Z) (pid : string) : Room -> Room -> Prop :=
| step_join (name : string) (room : Room) :
    locked room && negb (allowJoinAfterLock (config room)) = false ->
    room_step now pid room (join_room pid name room)
| step_set_config (b : option real) (rb aj : option bool) (room : Room) :
    In pid (mkeys (players room)) -> is_host room pid = true ->
    room_step now pid room (handle_set_config now room b rb aj)
| step_set_topics (raw : list RawTopic) (room : Room) :
    In pid (mkeys (players room)) -> is_host room pid = true ->
    room_step now pid room (handle_set_topics now room raw)
| step_lock (flag : bool) (room : Room) :
    In pid (mkeys (players room)) -> is_host room pid = true ->
    room_step now pid room (set_locked room flag)
| step_bid (topicId : string) (amt : option real) (room room' : Room) :
    In pid (mkeys (players room)) -> locked room = false ->
    handle_bid now room pid topicId amt = Some room' ->
    room_step now pid room room'.

(** The body of the loop of [set_topics] over [room.bids.entries()]:
    the bids on topic ids outside [topicIds] are deleted, then
    [recomputeSpent] and [clampBidsToBudget]. *)
Definition prune_and_clamp (now : Z) (topicIds : list string) (r : Room)
  (pid : string) : Room :=
  match mget pid (bids r) with
  | None => r
  | Some perTopic =>
      let kept := filter (fun kv => shas (fst kv) topicIds) perTopic in
      let r1 := set_bids r (mset pid kept (bids r)) in
      clampBidsToBudget now (recomputeSpent r1 pid) pid
  end.

(** [r'] has the id, the host, the configuration, the lock, the topics,
    the participant ids and the owners of bid maps of [r]. *)
Definition same_frame (r r' : Room) : Prop :=
  r_id r' = r_id r
  /\ hostId r' = hostId r
  /\ config r' = config r
  /\ locked r' = locked r
  /\ topics r' = topics r
  /\ mkeys (players r') = mkeys (players r)
  /\ mkeys (bids r') = mkeys (bids r).

(** A property of every stored room, given its key. *)
Definition every_room (P : string -> Room -> Prop) (rooms : JsMap Room)
  : Prop :=
  forall rid room, mget rid rooms = Some room -> P rid room.

(** A stored room is sound: it is stored under its own id, its host is
    one of its participants, and the bid maps are those of its
    participants. *)
Definition room_sound (rid : string) (room : Room) : Prop :=
  r_id room = rid
  /\ (exists h, hostId room = Some h /\ In h (mkeys (players room)))
  /\ (forall p, In p (mkeys (players room)) <-> In p (mkeys (bids room))).

(** The total [recomputeSpent] computes for a participant. *)
Definition total_of (room : Room) (pid : string) : number :=
  match mget pid (bids room) with
  | Some perTopic => sum_amounts perTopic
  | None => Fin 0
  end.

(** The [spent] of the participant [pid], if there is one, is the total
    of its bids. *)
Definition spent_ok (room : Room) (pid : string) : Prop :=
  forall player,
    mget pid (players room) = Some player -> spent player = total_of room pid.

Definition spent_is_total (room : Room) : Prop :=
  forall pid, spent_ok room pid.

(** Every stored bid is on the id of a topic of the room. *)
Definition bids_reference_topics (room : Room) : Prop :=
  forall pid perTopic tid,
    mget pid (bids room) = Some perTopic ->
    In tid (mkeys perTopic) -> In tid (map id (topics room)).

(** An event of the server: a message of a connection, read at a time,
    or the close of a connection.  The connection is given with the
    event, in whatever state it is: the sequences of events include
    those of the server, where the state of a connection is the one its
    last [join] left. *)
Inductive Event : Type :=
| EvMessage (now : Z) (msg : Message) (c : Conn)
| EvClose (c : Conn).

(** The store after one event and after a sequence of events, one
    handler run after the other. *)
Definition after_event (rooms : JsMap Room) (e : Event) : JsMap Room :=
  match e with
  | EvMessage now msg c => fst (fst (on_message now msg rooms c))
  | EvClose c => fst (on_close rooms c)
  end.

Definition after_events (events : list Event) (rooms : JsMap Room)
  : JsMap Room :=
  fold_left after_event events rooms.

(** The numeric fields of the message of an event read as numbers. *)
Definition event_numeric (e : Event) : Prop :=
  match e with
  | EvMessage _ msg _ => fields_numeric msg
  | EvClose _ => True
  end.

(* ================================================================== *)
(** ** The client: what public/app.js sends *)

(** [Number.isFinite(n)] *)
Definition Number_isFinite (n : number) : bool :=
  match n with
  | Fin _ => true
  | _ => false
  end.

(** [clampInt(v, min, max)] of the client; [v] by its reading
    [Number(v)]. *)
Definition clampInt (v : real) (min max : number) : number :=
  let n := Math_floor_real v in
  if negb (Number_isFinite n) then min
  else Math_max min (Math_min max n).

(** A number as a field of a message: [JSON.stringify] writes a finite
    number as it is and [NaN] and the infinities as [null], which the
    server reads as an absent field. *)
Definition json_number (n : number) : option real :=
  match n with
  | Fin z => Some (RFin (inject_Z z))
  | _ => None
  end.

(* ================================================================== *)
(** ** Kinds of messages *)

(** The messages the handler serves to the host only. *)
Definition host_only (msg : Message) : bool :=
  match msg with
  | SetConfig _ _ _ | SetTopics _ | LockBids | UnlockBids
  | ComputeWinners => true
  | _ => false
  end.

Definition is_join (msg : Message) : bool :=
  match msg with
  | Join _ _ => true
  | _ => false
  end.

(** The connection is a participant of the room its variable refers
    to. *)
Definition joined (rooms : JsMap Room) (c : Conn) : bool :=
  match conn_room c with
  | None => false
  | Some rid =>
      match mget rid rooms with
      | None => false
      | Some room => mhas (conn_playerId c) (players room)
      end
  end.

(* ================================================================== *)
(** ** Further statements on the allocation *)

(** [p] is a winner of some topic. *)
Definition assigned (topics : list Topic) (W : JsMap JsSet) (p : string)
  : Prop :=
  exists t, In t topics /\ In p (winners_of W (id t)).

(** The part of the list the pointer [idx] has walked. *)
Definition walked (cands : list Cand) (idx : number) : list Cand :=
  match idx with
  | Fin k => if 0 <=? k then firstn (Z.to_nat k) cands else []
  | _ => []
  end.

(** Every pointer is a position. *)
Definition pointers_valid (topics : list Topic) (st : Alloc) : Prop :=
  forall t, In t topics ->
            exists z, idx_of (nextIndex st) (id t) = Fin z /\ 0 <= z.

(** Every candidate a pointer has walked is a winner of some topic. *)
Definition walked_assigned (bidLists : JsMap (list Cand))
  (topics : list Topic) (st : Alloc) : Prop :=
  forall t c,
    In t topics ->
    In c (walked (bid_list bidLists (id t)) (idx_of (nextIndex st) (id t))) ->
    assigned topics (winnersByTopic st) (playerId c).

(** The tentative winners of a topic: the first [capacity] candidates
    of its list. *)
Definition top_bidders (bidLists : JsMap (list Cand)) (t : Topic)
  : list string :=
  map playerId
    (firstn
       (iterations
          (Math_min (capacity t) (array_length (bid_list bidLists (id t)))))
       (bid_list bidLists (id t))).

(** The invariant of the refill loop for the pointers: the pointers are
    positions, the candidates walked are winners of some topic, and so
    are the members of [winningPlayers]. *)
Definition refill_walked (bidLists : JsMap (list Cand))
  (topics : list Topic) (acc : Alloc * JsSet * bool) : Prop :=
  pointers_valid topics (fst (fst acc))
  /\ walked_assigned bidLists topics (fst (fst acc))
  /\ (forall q, In q (snd (fst acc)) ->
                assigned topics (winnersByTopic (fst (fst acc))) q).

(** Every winner of a topic id is a candidate its pointer has walked. *)
Definition winners_walked (bidLists : JsMap (list Cand)) (st : Alloc)
  : Prop :=
  forall k p,
    In p (winners_of (winnersByTopic st) k) ->
    In p (map playerId
            (walked (bid_list bidLists k) (idx_of (nextIndex st) k))).

(** The order of a bid list on candidates with finite amounts: the
    higher amount first, then the earlier time. *)
Definition ranked_before (x y : Cand) : Prop :=
  value (c_amount y) < value (c_amount x)
  \/ (value (c_amount x) = value (c_amount y) /\ c_ts x <= c_ts y).

Definition cand_finite (c : Cand) : Prop := exists a, c_amount c = Fin a.

(** Every stored amount of the room is a finite number. *)
Definition amounts_finite (room : Room) : Prop :=
  forall pid perTopic tid b,
    In (pid, perTopic) (bids room) -> In (tid, b) perTopic ->
    exists a, amount b = Fin a.

(** The order of the wins of a participant, on wins with finite
    amounts: the higher amount first, then the earlier time. *)
Definition win_ranked (x y : Win) : Prop :=
  value (w_amount y) < value (w_amount x)
  \/ (value (w_amount x) = value (w_amount y) /\ w_ts x <= w_ts y).

Definition win_finite (w : Win) : Prop := exists a, w_amount w = Fin a.

(** The amount of the bid of [playerId] on the topic id, 0 without a
    bid. *)
Definition bid_value (room : Room) (playerId topicId : string) : Z :=
  match stored_bid room playerId topicId with
  | Some b => value (amount b)
  | None => 0
  end.

(** *** Rooms used as concrete inputs *)

(** Topics [A] and [B] of capacity 1; [p1] bids 50 on [A], [p2] bids 80
    on [A] and 30 on [B]. *)
Definition ab_room : Room :=
  mkRoom "ROOM" (Some "p1") (mkConfig (Fin 100) true true) false
    [mkTopic "A" "Topic" (Fin 1); mkTopic "B" "Topic" (Fin 1)]
    [("p1", mkPlayer "p1" "Player" (Fin 50));
     ("p2", mkPlayer "p2" "Player" (Fin 110))]
    [("p1", [("A", mkBid (Fin 50) 1)]);
     ("p2", [("A", mkBid (Fin 80) 2); ("B", mkBid (Fin 30) 3)])].

(** Topics [A] and [B] of capacity 1; [p1] bids 50 on [A], [p2] bids 80
    on [A] and 90 on [B]: [p2] keeps [B] and [p1] moves up on [A]. *)
Definition refill_room : Room :=
  mkRoom "ROOM" (Some "p1") (mkConfig (Fin 200) true true) false
    [mkTopic "A" "Topic" (Fin 1); mkTopic "B" "Topic" (Fin 1)]
    [("p1", mkPlayer "p1" "Player" (Fin 50));
     ("p2", mkPlayer "p2" "Player" (Fin 170))]
    [("p1", [("A", mkBid (Fin 50) 1)]);
     ("p2", [("A", mkBid (Fin 80) 2); ("B", mkBid (Fin 90) 3)])].

(* ================================================================== *)
(** ** The snapshot sent to the clients *)

Record SnapPlayer : Type := mkSnapPlayer {
  sp_id : string;
  sp_name : string;
  sp_spent : number
}.

(** The object [roomSnapshot] returns; [snap_bids] is the object
    [bids], an object of objects, as a mapping from the keys written
    to the values written last (the statements leave out the key
    ["__proto__"], which an object does not keep as a property). *)
Record Snapshot : Type := mkSnapshot {
  snap_id : string;
  snap_hostId : option string;
  snap_config : Config;
  snap_locked : bool;
  snap_topics : list Topic;
  snap_players : list SnapPlayer;
  snap_bids : JsMap (JsMap Bid);
  snap_revealBids : bool
}.

(** [roomSnapshot(room)] *)
Definition roomSnapshot (room : Room) : Snapshot :=
  let players :=
    map (fun p => mkSnapPlayer (p_id p) (p_name p) (spent p))
        (mvalues (players room)) in
  let topics := map (fun t => mkTopic (id t) (name t) (capacity t))
                    (topics room) in
  let bids :=
    fold_left
      (fun o entry =>
         mset (fst entry)
           (fold_left
              (fun o' kv =>
                 mset (fst kv) (mkBid (amount (snd kv)) (ts (snd kv))) o')
              (snd entry) [])
           o)
      (bids room) [] in
  mkSnapshot (r_id room) (hostId room) (config room) (locked room)
    topics players bids (revealBids (config room)).

(* ================================================================== *)
(** ** The client: [escapeHtml] *)

(** A string by its code units; the five characters [escapeHtml]
    replaces are single units, and no replacement holds a [$], so
    [replaceAll] inserts it as it is. *)
Definition char_of (s : string) : Ascii.ascii :=
  match s with
  | String a _ => a
  | EmptyString => Ascii.zero
  end.

Definition AMP : Ascii.ascii := char_of "&".
Definition LT : Ascii.ascii := char_of "<".
Definition GT : Ascii.ascii := char_of ">".
Definition QUOT : Ascii.ascii := Ascii.ascii_of_nat 34.
Definition APOS : Ascii.ascii := char_of "'".

(** [s.replaceAll(c, r)] for a pattern [c] of one code unit. *)
Fixpoint replaceAll (c : Ascii.ascii) (r : string) (s : string) : string :=
  match s with
  | EmptyString => EmptyString
  | String a s' =>
      if Ascii.eqb a c then r ++ replaceAll c r s'
      else String a (replaceAll c r s')
  end.

(** [escapeHtml(s)] *)
Definition escapeHtml (s : string) : string :=
  replaceAll APOS "&#039;"
    (replaceAll QUOT "&quot;"
       (replaceAll GT "&gt;"
          (replaceAll LT "&lt;"
             (replaceAll AMP "&amp;" s)))).

(** The entity of one code unit, and the string with every unit
    replaced by its entity in one pass. *)
Definition escape_char (a : Ascii.ascii) : string :=
  if Ascii.eqb a AMP then "&amp;"
  else if Ascii.eqb a LT then "&lt;"
  else if Ascii.eqb a GT then "&gt;"
  else if Ascii.eqb a QUOT then "&quot;"
  else if Ascii.eqb a APOS then "&#039;"
  else String a EmptyString.

Fixpoint escape_all (s : string) : string :=
  match s with
  | EmptyString => EmptyString
  | String a s' => escape_char a ++ escape_all s'
  end.

(** The code unit [c] occurs in [s]. *)
Fixpoint occurs (c : Ascii.ascii) (s : string) : bool :=
  match s with
  | EmptyString => false
  | String a s' => Ascii.eqb a c || occurs c s'
  end.


(* ================================================================== *)
(** * Properties *)

(** ** Numbers *)

Lemma norm_exact (z : Z) : Z.abs z <= 2 ^ 53 -> norm z = Fin z.
Proof.
  intros H. unfold norm.
  destruct (Z.abs z <=? 2 ^ 53) eqn:E; [reflexivity|].
  apply Z.leb_gt in E. lia.
Qed.

Lemma js_add_exact (x y : Z) :
  Z.abs (x + y) <= 2 ^ 53 -> js_add (Fin x) (Fin y) = Fin (x + y).
Proof. intros H. simpl. now apply norm_exact. Qed.

Lemma js_sub_exact (x y : Z) :
  Z.abs (x - y) <= 2 ^ 53 -> js_sub (Fin x) (Fin y) = Fin (x - y).
Proof.
  intros H. unfold js_sub. simpl. rewrite norm_exact by lia.
  reflexivity.
Qed.

Lemma Math_max_Fin (x y : Z) : Math_max (Fin x) (Fin y) = Fin (Z.max x y).
Proof.
  unfold Math_max, js_lt. destruct (x <? y) eqn:E.
  - apply Z.ltb_lt in E. f_equal. lia.
  - apply Z.ltb_ge in E. f_equal. lia.
Qed.

Lemma Math_min_Fin (x y : Z) : Math_min (Fin x) (Fin y) = Fin (Z.min x y).
Proof.
  unfold Math_min, js_lt. destruct (y <? x) eqn:E.
  - apply Z.ltb_lt in E. f_equal. lia.
  - apply Z.ltb_ge in E. f_equal. lia.
Qed.

(** Rounding keeps the sign. *)
Lemma norm_sign (z : Z) :
  js_lt (Fin 0) (norm z) = (0 <? z) /\ js_lt (norm z) (Fin 0) = (z <? 0).
Proof.
  unfold norm.
  destruct (Z.abs z <=? 2 ^ 53) eqn:E; [split; reflexivity|].
  apply Z.leb_gt in E.
  set (a := Z.abs z).
  assert (Ha : 2 ^ 53 < a) by (unfold a; lia).
  assert (Hl : 53 <= Z.log2 a).
  { apply Z.log2_le_pow2; lia. }
  set (e := Z.log2 a - 52).
  assert (He : 1 <= e) by (unfold e; lia).
  assert (Hp : 0 < 2 ^ e) by (apply Z.pow_pos_nonneg; lia).
  assert (Hq : 1 <= a / 2 ^ e).
  { apply Z.div_le_lower_bound; [lia|].
    rewrite Z.mul_1_r.
    transitivity (2 ^ Z.log2 a).
    - apply Z.pow_le_mono_r; unfold e; lia.
    - apply Z.log2_spec. lia. }
  set (q := a / 2 ^ e) in *.
  set (m := if a mod 2 ^ e <? 2 ^ (e - 1) then q
            else if 2 ^ (e - 1) <? a mod 2 ^ e then q + 1
            else if Z.even q then q else q + 1).
  assert (Hm : 1 <= m).
  { unfold m. destruct (a mod 2 ^ e <? 2 ^ (e - 1)); [lia|].
    destruct (2 ^ (e - 1) <? a mod 2 ^ e); [lia|].
    destruct (Z.even q); lia. }
  assert (Hv : 0 < m * 2 ^ e) by nia.
  destruct (2 ^ 1024 <=? m * 2 ^ e).
  - destruct (z <? 0) eqn:Ez; simpl.
    + apply Z.ltb_lt in Ez. split; symmetry; [apply Z.ltb_ge; lia|reflexivity].
    + apply Z.ltb_ge in Ez. split; symmetry; [apply Z.ltb_lt; unfold a in Ha; lia|reflexivity].
  - simpl. destruct (Z.sgn_spec z) as [[Hz Hs]|[[Hz Hs]|[Hz Hs]]].
    + rewrite Hs, Z.mul_1_l. split.
      * transitivity true; [apply Z.ltb_lt; lia|symmetry; apply Z.ltb_lt; lia].
      * transitivity false; [apply Z.ltb_ge; lia|symmetry; apply Z.ltb_ge; lia].
    + unfold a in Ha. subst z. simpl in Ha. lia.
    + rewrite Hs. split.
      * transitivity false; [apply Z.ltb_ge; lia|symmetry; apply Z.ltb_ge; lia].
      * transitivity true; [apply Z.ltb_lt; lia|symmetry; apply Z.ltb_lt; lia].
Qed.

(** ** Maps *)

Section MapFacts.
Variable V : Type.
Implicit Types (m : JsMap V) (k : string) (v : V).

Lemma mget_mset_eq k v m : mget k (mset k v m) = Some v.
Proof.
  induction m as [|[k' v'] m IH]; simpl.
  - now rewrite String.eqb_refl.
  - destruct (String.eqb k k') eqn:E; simpl.
    + now rewrite String.eqb_refl.
    + now rewrite E.
Qed.

Lemma mget_mset_neq k k' v m :
  k <> k' -> mget k' (mset k v m) = mget k' m.
Proof.
  intros Hne. induction m as [|[k2 v2] m IH]; simpl.
  - destruct (String.eqb k' k) eqn:E; [|reflexivity].
    apply String.eqb_eq in E. congruence.
  - destruct (String.eqb k k2) eqn:E; simpl.
    + apply String.eqb_eq in E. subst k2.
      destruct (String.eqb k' k) eqn:E'; [|reflexivity].
      apply String.eqb_eq in E'. congruence.
    + now rewrite IH.
Qed.

Lemma mget_mset k k' v m :
  mget k' (mset k v m) = if String.eqb k k' then Some v else mget k' m.
Proof.
  destruct (String.eqb k k') eqn:E.
  - apply String.eqb_eq in E. subst. apply mget_mset_eq.
  - apply String.eqb_neq in E. now apply mget_mset_neq.
Qed.

Lemma mset_same k v m : mget k m = Some v -> mset k v m = m.
Proof.
  induction m as [|[k' v'] m IH]; simpl; [discriminate|].
  destruct (String.eqb k k') eqn:E.
  - apply String.eqb_eq in E. intros [= ->]. now subst.
  - intros H. now rewrite IH.
Qed.

Lemma mset_mset k v v' m : mset k v (mset k v' m) = mset k v m.
Proof.
  induction m as [|[k' v2] m IH]; simpl.
  - now rewrite String.eqb_refl.
  - destruct (String.eqb k k') eqn:E; simpl.
    + now rewrite String.eqb_refl.
    + now rewrite E, IH.
Qed.

Lemma mget_In_keys k m : mget k m <> None <-> In k (mkeys m).
Proof.
  induction m as [|[k' v'] m IH]; simpl.
  - split; [congruence|tauto].
  - destruct (String.eqb k k') eqn:E.
    + apply String.eqb_eq in E. subst. split; [auto|congruence].
    + apply String.eqb_neq in E. rewrite IH. split; [auto|].
      intros [H|H]; [congruence|assumption].
Qed.

Lemma mget_None_keys k m : mget k m = None <-> ~ In k (mkeys m).
Proof.
  rewrite <- mget_In_keys. destruct (mget k m); split; try congruence.
  intros H. exfalso. apply H. congruence.
Qed.

Lemma mhas_In_keys k m : mhas k m = true <-> In k (mkeys m).
Proof.
  rewrite <- mget_In_keys. unfold mhas.
  destruct (mget k m); split; congruence.
Qed.

Lemma mkeys_mset_present k v m :
  In k (mkeys m) -> mkeys (mset k v m) = mkeys m.
Proof.
  induction m as [|[k' v'] m IH]; simpl; [tauto|].
  destruct (String.eqb k k') eqn:E; simpl.
  - apply String.eqb_eq in E. now subst.
  - apply String.eqb_neq in E. intros [H|H]; [congruence|].
    now rewrite IH.
Qed.

Lemma mkeys_mset_absent k v m :
  ~ In k (mkeys m) -> mset k v m = m ++ [(k, v)].
Proof.
  induction m as [|[k' v'] m IH]; simpl; [reflexivity|].
  intros H. destruct (String.eqb k k') eqn:E.
  - apply String.eqb_eq in E. subst. tauto.
  - rewrite IH; tauto.
Qed.

Lemma In_mkeys_mset k k' v m :
  In k' (mkeys (mset k v m)) <-> k' = k \/ In k' (mkeys m).
Proof.
  rewrite <- !mget_In_keys, mget_mset.
  destruct (String.eqb k k') eqn:E.
  - apply String.eqb_eq in E. subst. split; [auto|congruence].
  - apply String.eqb_neq in E. split; [auto|].
    intros [H|H]; [congruence|assumption].
Qed.

Lemma mget_In k v m : mget k m = Some v -> In (k, v) m.
Proof.
  induction m as [|[k' v'] m IH]; simpl; [discriminate|].
  destruct (String.eqb k k') eqn:E.
  - apply String.eqb_eq in E. intros [= ->]. subst. now left.
  - auto.
Qed.

Lemma In_mget k v m : NoDup (mkeys m) -> In (k, v) m -> mget k m = Some v.
Proof.
  induction m as [|[k' v'] m IH]; simpl; [tauto|].
  intros Hnd [H|H].
  - injection H as -> ->. now rewrite String.eqb_refl.
  - inversion Hnd as [|? ? Hni Hnd']; subst.
    destruct (String.eqb k k') eqn:E; [|auto].
    apply String.eqb_eq in E. subst. exfalso. apply Hni.
    change k' with (fst (k', v)). now apply in_map.
Qed.

Lemma mget_mdelete k k' m :
  mget k' (mdelete k m) = if String.eqb k k' then None else mget k' m.
Proof.
  induction m as [|[k2 v2] m IH]; simpl.
  - now destruct (String.eqb k k').
  - destruct (String.eqb k k2) eqn:E.
    + apply String.eqb_eq in E. subst k2. rewrite IH.
      destruct (String.eqb k k') eqn:E1; [reflexivity|].
      rewrite String.eqb_sym, E1. reflexivity.
    + simpl. rewrite IH. destruct (String.eqb k' k2) eqn:E2; [|reflexivity].
      apply String.eqb_eq in E2. subst k2. now rewrite E.
Qed.

Lemma mdelete_head k v m :
  ~ In k (mkeys m) -> mdelete k ((k, v) :: m) = m.
Proof.
  intros H. simpl. rewrite String.eqb_refl.
  induction m as [|[k' v'] m IH]; simpl; [reflexivity|].
  simpl in H. destruct (String.eqb k k') eqn:E.
  - apply String.eqb_eq in E. subst. tauto.
  - rewrite IH; tauto.
Qed.
End MapFacts.

(** ** Sets *)

Lemma shas_In (x : string) (s : JsSet) : shas x s = true <-> In x s.
Proof.
  unfold shas. rewrite existsb_exists. split.
  - intros [y [Hy E]]. apply String.eqb_eq in E. now subst.
  - intros H. exists x. split; [assumption|apply String.eqb_refl].
Qed.

Lemma shas_false (x : string) (s : JsSet) : shas x s = false <-> ~ In x s.
Proof.
  rewrite <- shas_In. destruct (shas x s); split; congruence.
Qed.

Lemma In_sadd (x y : string) (s : JsSet) :
  In y (sadd x s) <-> y = x \/ In y s.
Proof.
  unfold sadd. destruct (shas x s) eqn:E.
  - apply shas_In in E. split; [auto|]. intros [->|H]; assumption.
  - rewrite in_app_iff. simpl. split.
    + intros [H|[H|[]]]; auto.
    + intros [H|H]; auto.
Qed.

Lemma In_sdelete (x y : string) (s : JsSet) :
  In y (sdelete x s) <-> In y s /\ y <> x.
Proof.
  unfold sdelete. rewrite filter_In. split.
  - intros [H E]. split; [assumption|]. intros ->.
    now rewrite String.eqb_refl in E.
  - intros [H Hne]. split; [assumption|].
    destruct (String.eqb x y) eqn:E; [|reflexivity].
    apply String.eqb_eq in E. congruence.
Qed.

Lemma length_sadd_le (x : string) (s : JsSet) :
  (List.length (sadd x s) <= S (List.length s))%nat.
Proof.
  unfold sadd. destruct (shas x s); [lia|].
  rewrite length_app. simpl. lia.
Qed.

Lemma length_sdelete_le (x : string) (s : JsSet) :
  (List.length (sdelete x s) <= List.length s)%nat.
Proof. unfold sdelete. apply filter_length_le. Qed.

(** ** The stable sort returns a permutation *)

Lemma sort_insert_perm (A : Type) (cmp : A -> A -> number) (x : A)
  (l : list A) : Permutation (sort_insert cmp x l) (x :: l).
Proof.
  induction l as [|y l IH]; cbn [sort_insert]; [reflexivity|].
  destruct (js_gt (cmp x y) (Fin 0)); [|reflexivity].
  rewrite IH. apply perm_swap.
Qed.

Lemma Array_sort_perm (A : Type) (cmp : A -> A -> number) (l : list A) :
  Permutation (Array_sort cmp l) l.
Proof.
  induction l as [|x l IH]; cbn [Array_sort fold_right]; [reflexivity|].
  rewrite sort_insert_perm. now apply perm_skip.
Qed.

Lemma Array_sort_In (A : Type) (cmp : A -> A -> number) (l : list A)
  (x : A) : In x (Array_sort cmp l) <-> In x l.
Proof.
  split; apply Permutation_in;
    [apply Array_sort_perm|symmetry; apply Array_sort_perm].
Qed.

Lemma Array_sort_length (A : Type) (cmp : A -> A -> number) (l : list A) :
  List.length (Array_sort cmp l) = List.length l.
Proof. apply Permutation_length, Array_sort_perm. Qed.

(* ================================================================== *)
(** ** The handlers *)

Lemma existsb_topic_id (topicId : string) (ts : list Topic) :
  existsb (fun t => String.eqb (id t) topicId) ts = true
  <-> In topicId (map id ts).
Proof.
  rewrite existsb_exists, in_map_iff. split.
  - intros [t [Ht E]]. apply String.eqb_eq in E. now exists t.
  - intros [t [E Ht]]. exists t. split; [assumption|].
    now apply String.eqb_eq.
Qed.

(** C9. A bid on a locked room, or on a topic id that names no topic of
    the room, changes nothing: the store of rooms and the connection
    are returned as they were and nothing is sent. *)
Theorem rejected_bid_is_noop :
  forall now rooms c rid room topicId amount,
    conn_room c = Some rid ->
    mget rid rooms = Some room ->
    locked room = true \/ ~ In topicId (map id (topics room)) ->
    on_message now (PlaceBid topicId amount) rooms c = (rooms, c, []).
Proof.
  intros now rooms c rid room topicId amt Hc Hr Hrej.
  unfold on_message. rewrite Hc, Hr.
  destruct (mhas (conn_playerId c) (players room)); simpl; [|reflexivity].
  destruct (locked room) eqn:Hl; simpl; [reflexivity|].
  destruct Hrej as [Hrej|Hrej]; [discriminate|].
  unfold handle_bid.
  destruct (existsb (fun t => String.eqb (id t) topicId) (topics room)) eqn:E.
  - apply existsb_topic_id in E. contradiction.
  - reflexivity.
Qed.

Lemma rejected_bid_is_noop_witness :
  on_message 7 (PlaceBid "Z" (Some (RFin 5))) hq_rooms conn_q
  = (hq_rooms, conn_q, []).
Proof.
  apply (@rejected_bid_is_noop 7 hq_rooms conn_q "ROOM" hq_room "Z"
           (Some (RFin 5))).
  - reflexivity.
  - reflexivity.
  - right. simpl. intros [H|[H|[]]]; discriminate.
Defined.

Lemma hd_error_mkeys_mdelete (V : Type) (k : string) (m : JsMap V) :
  hd_error (mkeys (mdelete k m))
  = find (fun k' => negb (String.eqb k' k)) (mkeys m).
Proof.
  induction m as [|[k' v] m IH]; simpl; [reflexivity|].
  rewrite (String.eqb_sym k' k).
  destruct (String.eqb k k'); simpl; [exact IH|reflexivity].
Qed.

Lemma mdelete_keeps_other (V : Type) (k k' : string) (m : JsMap V) :
  In k' (mkeys m) -> k' <> k -> In k' (mkeys (mdelete k m)).
Proof.
  intros Hin Hne. apply mget_In_keys. rewrite mget_mdelete.
  destruct (String.eqb k k') eqn:E.
  - apply String.eqb_eq in E. congruence.
  - now apply mget_In_keys.
Qed.

(** C10. When the host closes its connection and other participants
    remain, the host and its bid map are removed, the room stays in the
    store, and the new host is the first remaining key of [players] in
    insertion order; with participants [h] (host) and [q], the new host
    is [q]. *)
Theorem host_disconnect_hands_over :
  (forall rooms c rid room,
      conn_room c = Some rid ->
      mget rid rooms = Some room ->
      hostId room = Some (conn_playerId c) ->
      In (conn_playerId c) (mkeys (players room)) ->
      (exists other,
          In other (mkeys (players room)) /\ other <> conn_playerId c) ->
      exists room',
        on_close rooms c
        = (mset rid room' rooms, [BroadcastRoomUpdate room'])
        /\ mget rid (fst (on_close rooms c)) = Some room'
        /\ players room' = mdelete (conn_playerId c) (players room)
        /\ bids room' = mdelete (conn_playerId c) (bids room)
        /\ mget (conn_playerId c) (players room') = None
        /\ mget (conn_playerId c) (bids room') = None
        /\ hostId room'
           = find (fun k => negb (String.eqb k (conn_playerId c)))
                  (mkeys (players room))
        /\ hostId room' <> None)
  /\ (exists room',
         on_close hq_rooms conn_h
         = ([("ROOM", room')], [BroadcastRoomUpdate room'])
         /\ hostId room' = Some "q"
         /\ mkeys (players room') = ["q"]).
Proof.
  split.
  - intros rooms c rid room Hc Hr Hh Hin [other [Ho Hne]].
    set (pid := conn_playerId c) in *.
    set (room1 := set_bids (set_players room (mdelete pid (players room)))
                           (mdelete pid (bids room))).
    set (room2 := set_hostId room1 (hd_error (mkeys (players room1)))).
    assert (Hp : mget pid (players room) <> None) by now apply mget_In_keys.
    assert (Hrem : In other (mkeys (mdelete pid (players room))))
      by now apply mdelete_keeps_other.
    assert (Heq : on_close rooms c
                  = (mset rid room2 rooms, [BroadcastRoomUpdate room2])).
    { unfold on_close. rewrite Hc, Hr. fold pid.
      destruct (mget pid (players room)) as [pl|]; [|congruence].
      fold room1.
      assert (Hhost : is_host room1 pid = true).
      { unfold is_host, room1. simpl. rewrite Hh. apply String.eqb_refl. }
      rewrite Hhost. fold room2.
      assert (Hsz : (msize (players room2) =? 0)%nat = false).
      { apply Nat.eqb_neq. unfold room2, room1, msize. simpl.
        unfold mkeys in Hrem.
        destruct (mdelete pid (players room)); simpl in *; [tauto|lia]. }
      now rewrite Hsz. }
    exists room2. rewrite Heq. simpl.
    repeat split.
    + apply mget_mset_eq.
    + rewrite mget_mdelete. now rewrite String.eqb_refl.
    + rewrite mget_mdelete. now rewrite String.eqb_refl.
    + apply hd_error_mkeys_mdelete.
    + rewrite hd_error_mkeys_mdelete. intros Hnone.
      apply (find_none _ _ Hnone) in Ho.
      apply negb_false_iff, String.eqb_eq in Ho. contradiction.
  - eexists. split; [reflexivity|]. split; reflexivity.
Qed.

Lemma host_disconnect_hands_over_witness :
  exists room',
    on_close hq_rooms conn_h
    = (mset "ROOM" room' hq_rooms, [BroadcastRoomUpdate room'])
    /\ mget "ROOM" (fst (on_close hq_rooms conn_h)) = Some room'
    /\ players room' = mdelete (conn_playerId conn_h) (players hq_room)
    /\ bids room' = mdelete (conn_playerId conn_h) (bids hq_room)
    /\ mget (conn_playerId conn_h) (players room') = None
    /\ mget (conn_playerId conn_h) (bids room') = None
    /\ hostId room'
       = find (fun k => negb (String.eqb k (conn_playerId conn_h)))
              (mkeys (players hq_room))
    /\ hostId room' <> None.
Proof.
  apply (proj1 host_disconnect_hands_over hq_rooms conn_h "ROOM" hq_room).
  - reflexivity.
  - reflexivity.
  - reflexivity.
  - simpl. now left.
  - exists "q". split; [simpl; tauto|discriminate].
Defined.

(** C4. The handler of [compute_winners] returns the store of rooms and
    the connection unchanged; run twice in succession it sends the same
    thing; and [computeWinners] depends on the room only through its
    topics and bids. *)
Theorem compute_winners_is_pure :
  (forall now rooms c,
      fst (on_message now ComputeWinners rooms c) = (rooms, c))
  /\ (forall now1 now2 rooms c,
         snd (on_message now2 ComputeWinners
                (fst (fst (on_message now1 ComputeWinners rooms c)))
                (snd (fst (on_message now1 ComputeWinners rooms c))))
         = snd (on_message now1 ComputeWinners rooms c))
  /\ (forall room1 room2,
         topics room1 = topics room2 -> bids room1 = bids room2 ->
         computeWinners room1 = computeWinners room2).
Proof.
  assert (H1 : forall now rooms c,
             fst (on_message now ComputeWinners rooms c) = (rooms, c)).
  { intros now rooms c. unfold on_message.
    destruct (conn_room c) as [rid|]; [|reflexivity].
    destruct (mget rid rooms) as [room|]; [|reflexivity].
    destruct (mhas (conn_playerId c) (players room)); simpl; [|reflexivity].
    destruct (is_host room (conn_playerId c)); reflexivity. }
  split; [exact H1|]. split.
  - intros now1 now2 rooms c.
    rewrite (H1 now1 rooms c). reflexivity.
  - intros room1 room2 Ht Hb.
    unfold computeWinners, computeWinners_upto, resolution_upto,
      build_bidLists.
    now rewrite Ht, Hb.
Qed.

Lemma compute_winners_is_pure_witness :
  computeWinners hq_room = computeWinners (set_locked hq_room true).
Proof.
  apply (proj2 (proj2 compute_winners_is_pure) hq_room
           (set_locked hq_room true)); reflexivity.
Defined.

(** *** What [recomputeSpent] and the clamp leave alone *)

Lemma recomputeSpent_fields (room : Room) (pid : string) :
  r_id (recomputeSpent room pid) = r_id room
  /\ hostId (recomputeSpent room pid) = hostId room
  /\ config (recomputeSpent room pid) = config room
  /\ locked (recomputeSpent room pid) = locked room
  /\ topics (recomputeSpent room pid) = topics room
  /\ bids (recomputeSpent room pid) = bids room
  /\ mkeys (players (recomputeSpent room pid)) = mkeys (players room).
Proof.
  unfold recomputeSpent.
  destruct (mget pid (players room)) as [pl|] eqn:E; simpl;
    repeat split; try reflexivity.
  apply mkeys_mset_present, mget_In_keys. congruence.
Qed.

Lemma clampBidsToBudget_fields (now : Z) (room : Room) (pid : string) :
  r_id (clampBidsToBudget now room pid) = r_id room
  /\ hostId (clampBidsToBudget now room pid) = hostId room
  /\ config (clampBidsToBudget now room pid) = config room
  /\ locked (clampBidsToBudget now room pid) = locked room
  /\ topics (clampBidsToBudget now room pid) = topics room
  /\ mkeys (players (clampBidsToBudget now room pid)) = mkeys (players room).
Proof.
  unfold clampBidsToBudget.
  destruct (mget pid (bids room)) as [perTopic|]; [|repeat split].
  destruct (js_le _ _).
  - destruct (recomputeSpent_fields room pid) as (H1 & H2 & H3 & H4 & H5 & _ & H7).
    repeat split; assumption.
  - match goal with |- context [recomputeSpent ?r pid] =>
      destruct (recomputeSpent_fields r pid) as (H1 & H2 & H3 & H4 & H5 & _ & H7)
    end.
    repeat split; assumption.
Qed.

Lemma config_clamp_all (now : Z) (pids : list string) (room : Room) :
  config (fold_left (fun r pid => clampBidsToBudget now r pid) pids room)
  = config room.
Proof.
  revert room. induction pids as [|pid pids IH]; intros room; simpl.
  - reflexivity.
  - rewrite IH. apply clampBidsToBudget_fields.
Qed.

(** The budget [set_config] stores, for any field that reads as a
    number: an integer between 1 and 10000. *)
Lemma norm_not_NaN (z : Z) : norm z <> NaN.
Proof.
  unfold norm. destruct (Z.abs z <=? 2 ^ 53); [discriminate|].
  cbv zeta. destruct (2 ^ 1024 <=? _); [|discriminate].
  destruct (z <? 0); discriminate.
Qed.

Lemma clamp_to_range (lo hi : Z) (a : number) :
  lo <= hi -> a <> NaN ->
  exists v, Math_max (Fin lo) (Math_min (Fin hi) a) = Fin v /\ lo <= v <= hi.
Proof.
  intros Hlh Ha. destruct a as [| | |z]; try congruence.
  - exists lo. split; [reflexivity|lia].
  - exists hi. change (Math_min (Fin hi) PosInf) with (Fin hi).
    rewrite Math_max_Fin. split; [f_equal|]; lia.
  - exists (Z.max lo (Z.min hi z)).
    rewrite Math_min_Fin, Math_max_Fin. split; [reflexivity|lia].
Qed.

Lemma set_config_budget_in_range :
  forall now room x rb aj,
    x <> RNaN ->
    exists b,
      budget (config (handle_set_config now room (Some x) rb aj)) = Fin b
      /\ 1 <= b <= 10000.
Proof.
  intros now room x rb aj Hx. unfold handle_set_config.
  rewrite config_clamp_all. simpl.
  apply clamp_to_range; [lia|].
  destruct x; simpl; try congruence. apply norm_not_NaN.
Qed.

(** C6. [set_config] with a budget field that does not read as a number
    (for instance the string ["abc"]) stores [NaN] as the budget: the
    value is not brought into the range 1..10000. *)
Theorem set_config_stores_nan_budget :
  (forall now room rb aj,
      budget (config (handle_set_config now room (Some RNaN) rb aj)) = NaN)
  /\ (forall now,
         exists room',
           on_message now (SetConfig (Some RNaN) None None) hq_rooms conn_h
           = ([("ROOM", room')], conn_h, [BroadcastRoomUpdate room'])
           /\ budget (config room') = NaN
           /\ stored_bid room' "q" "X" = Some (mkBid NaN now)).
Proof.
  split.
  - intros now room rb aj. unfold handle_set_config.
    rewrite config_clamp_all. reflexivity.
  - intros now. eexists. split; [vm_compute; reflexivity|].
    split; reflexivity.
Qed.

(** What [set_config] does with the other fields: an unset budget keeps
    the budget of a room whose budget is in range, and a flag changes
    only when the message carries a boolean. *)
Lemma set_config_retains :
  forall now room mb rb aj,
    revealBids (config (handle_set_config now room mb rb aj))
    = nullish rb (revealBids (config room))
    /\ allowJoinAfterLock (config (handle_set_config now room mb rb aj))
       = nullish aj (allowJoinAfterLock (config room))
    /\ (forall b, budget (config room) = Fin b -> 1 <= b <= 10000 ->
                  budget (config (handle_set_config now room None rb aj))
                  = Fin b).
Proof.
  intros now room mb rb aj. unfold handle_set_config.
  rewrite !config_clamp_all.
  unfold set_config. cbn [config budget revealBids allowJoinAfterLock].
  repeat split.
  intros b Hb Hr. rewrite Hb. unfold Math_floor.
  rewrite Math_min_Fin, Math_max_Fin. f_equal. lia.
Qed.

(** C7. A bid whose amount field does not read as a number (for instance
    the string ["abc"]) is stored with the amount [NaN], which is not a
    non-negative integer. *)
Theorem bid_stores_nan_amount :
  forall now,
    exists room',
      on_message now (PlaceBid "Y" (Some RNaN)) hq_rooms conn_q
      = ([("ROOM", room')], conn_q, [BroadcastRoomUpdate room'])
      /\ stored_bid room' "q" "Y" = Some (mkBid NaN now)
      /\ is_nonneg_integer NaN = false.
Proof.
  intros now. eexists. split; [vm_compute; reflexivity|].
  split; reflexivity.
Qed.

(** C2. The room [hq_room] respects the budget; after the bid of [q]
    with an amount field that does not read as a number, the total of
    the stored amounts of [q] is [NaN], which is not at most the
    budget. *)
Theorem budget_broken_by_nan_bid :
  budget_respected hq_room = true
  /\ forall now,
       exists room',
         on_message now (PlaceBid "Y" (Some RNaN)) hq_rooms conn_q
         = ([("ROOM", room')], conn_q, [BroadcastRoomUpdate room'])
         /\ mhas "q" (players room') = true
         /\ budget_respected_for room' "q" = false
         /\ budget_respected room' = false.
Proof.
  split; [reflexivity|].
  intros now. eexists. split; [vm_compute; reflexivity|].
  repeat split.
Qed.

(* ================================================================== *)
(** ** The budget clamp *)

(** *** The sort of the clamp sorts *)

Section SortSorted.
Variables (A : Type) (cmp : A -> A -> number).
Variables (P : A -> Prop) (R : A -> A -> Prop).
Hypothesis R_trans :
  forall x y z, R x y -> R y z -> R x z.
Hypothesis cmp_le :
  forall x y, P x -> P y -> js_gt (cmp x y) (Fin 0) = false -> R x y.
Hypothesis cmp_gt :
  forall x y, P x -> P y -> js_gt (cmp x y) (Fin 0) = true -> R y x.

Lemma sort_insert_sorted (x : A) (l : list A) :
  P x -> Forall P l -> StronglySorted R l ->
  StronglySorted R (sort_insert cmp x l).
Proof.
  intros Hx Hl Hs. induction Hs as [|y l Hs IH Hy]; cbn [sort_insert].
  - constructor; constructor.
  - inversion Hl as [|? ? Py Pl]; subst.
    destruct (js_gt (cmp x y) (Fin 0)) eqn:E.
    + constructor; [now apply IH|].
      apply Forall_forall. intros z Hz.
      apply (Permutation_in _ (sort_insert_perm cmp x l)) in Hz.
      destruct Hz as [<-|Hz].
      * now apply cmp_gt.
      * rewrite Forall_forall in Hy. now apply Hy.
    + assert (Rxy : R x y) by now apply cmp_le.
      constructor; [now constructor|].
      constructor; [assumption|].
      apply Forall_forall. intros z Hz.
      rewrite Forall_forall in Hy. eauto.
Qed.

Lemma Array_sort_sorted (l : list A) :
  Forall P l -> StronglySorted R (Array_sort cmp l).
Proof.
  induction l as [|x l IH]; intros Hl; cbn [Array_sort fold_right].
  - constructor.
  - inversion Hl; subst. apply sort_insert_sorted; [assumption| |now apply IH].
    apply Forall_forall. intros z Hz.
    apply (Permutation_in _ (Array_sort_perm cmp l)) in Hz.
    rewrite Forall_forall in H2. now apply H2.
Qed.
End SortSorted.

Lemma js_sub_gt0 (x y : Z) :
  js_gt (js_sub (Fin x) (Fin y)) (Fin 0) = (y <? x).
Proof.
  unfold js_gt, js_sub. simpl js_neg. cbn [js_add].
  destruct (norm_sign (x + - y)) as [H _]. rewrite H.
  destruct (y <? x) eqn:E.
  - apply Z.ltb_lt in E. apply Z.ltb_lt. lia.
  - apply Z.ltb_ge in E. apply Z.ltb_ge. lia.
Qed.

Lemma trimmed_before_trans (x y z : Entry) :
  trimmed_before x y -> trimmed_before y z -> trimmed_before x z.
Proof. unfold trimmed_before. lia. Qed.

Lemma clamp_cmp_le (x y : Entry) :
  entry_typed x -> entry_typed y ->
  js_gt (clamp_cmp x y) (Fin 0) = false -> trimmed_before x y.
Proof.
  intros [a [Ha _]] [b [Hb _]]. unfold clamp_cmp, trimmed_before.
  rewrite Ha, Hb. unfold js_strict_neq. cbn [js_strict_eq value].
  destruct (a =? b) eqn:E; cbn [negb]; rewrite js_sub_gt0; intros H.
  - apply Z.eqb_eq in E. apply Z.ltb_ge in H. lia.
  - apply Z.eqb_neq in E. apply Z.ltb_ge in H. lia.
Qed.

Lemma clamp_cmp_gt (x y : Entry) :
  entry_typed x -> entry_typed y ->
  js_gt (clamp_cmp x y) (Fin 0) = true -> trimmed_before y x.
Proof.
  intros [a [Ha _]] [b [Hb _]]. unfold clamp_cmp, trimmed_before.
  rewrite Ha, Hb. unfold js_strict_neq. cbn [js_strict_eq value].
  destruct (a =? b) eqn:E; cbn [negb]; rewrite js_sub_gt0; intros H.
  - apply Z.eqb_eq in E. apply Z.ltb_lt in H. lia.
  - apply Z.eqb_neq in E. apply Z.ltb_lt in H. lia.
Qed.

Lemma clamp_sort_sorted (entries : list Entry) :
  Forall entry_typed entries ->
  StronglySorted trimmed_before (Array_sort clamp_cmp entries).
Proof.
  apply Array_sort_sorted.
  - apply trimmed_before_trans.
  - apply clamp_cmp_le.
  - apply clamp_cmp_gt.
Qed.

(** *** Typed entries and exact sums *)

Lemma entries_sum_nonneg (l : list Entry) :
  Forall entry_typed l -> 0 <= entries_sum l.
Proof.
  induction 1 as [|e l [a [Ha Hpos]] _ IH]; simpl; [lia|].
  rewrite Ha. simpl. lia.
Qed.

Lemma entries_sum_perm (l l' : list Entry) :
  Permutation l l' -> entries_sum l = entries_sum l'.
Proof.
  induction 1; simpl; lia.
Qed.

Lemma entries_sum_cons (e : Entry) (l : list Entry) :
  entries_sum (e :: l) = value (e_amount e) + entries_sum l.
Proof. reflexivity. Qed.

Lemma entries_total_from (l : list Entry) (acc : Z) :
  Forall entry_typed l -> 0 <= acc -> acc + entries_sum l <= 2 ^ 53 ->
  fold_left (fun s e => js_add s (e_amount e)) l (Fin acc)
  = Fin (acc + entries_sum l).
Proof.
  intros Hl. revert acc.
  induction Hl as [|e l [a [Ha Hpos]] Hl IH]; intros acc Hacc Hb.
  - simpl. f_equal. lia.
  - rewrite entries_sum_cons in *. cbn [fold_left].
    rewrite Ha in *. cbn [value] in *.
    pose proof (entries_sum_nonneg Hl) as Hs.
    rewrite js_add_exact by lia.
    rewrite IH by lia. f_equal. lia.
Qed.

Lemma entries_total_exact (l : list Entry) :
  Forall entry_typed l -> entries_sum l <= 2 ^ 53 ->
  entries_total l = Fin (entries_sum l).
Proof.
  intros Hl Hb. unfold entries_total.
  rewrite entries_total_from; [reflexivity|assumption|lia|lia].
Qed.

Lemma clamp_entries_cons (k : string) (b : Bid) (l : JsMap Bid) :
  clamp_entries ((k, b) :: l)
  = mkEntry k (Math_max (Fin 0) (Math_floor (amount b))) (ts b)
      :: clamp_entries l.
Proof. reflexivity. Qed.

Lemma clamp_entries_typed (perTopic : JsMap Bid) :
  Forall (fun kv => is_nonneg_integer (amount (snd kv)) = true) perTopic ->
  Forall entry_typed (clamp_entries perTopic)
  /\ entries_sum (clamp_entries perTopic) = exact_total perTopic
  /\ map e_topicId (clamp_entries perTopic) = mkeys perTopic.
Proof.
  induction 1 as [|[k b] l Hb _ IH].
  - repeat split. constructor.
  - destruct IH as (IH1 & IH2 & IH3). cbn [snd] in Hb.
    rewrite clamp_entries_cons. unfold Math_floor.
    destruct (amount b) as [| | |z] eqn:Ea; simpl in Hb; try discriminate.
    apply Z.leb_le in Hb.
    rewrite Math_max_Fin, Z.max_r by lia.
    repeat split.
    + constructor; [|assumption]. exists z. simpl. auto.
    + rewrite entries_sum_cons. cbn [e_amount value].
      unfold exact_total. cbn [fold_right snd]. rewrite Ea. cbn [value].
      fold (exact_total l). now rewrite IH2.
    + cbn [map e_topicId mkeys fst]. unfold mkeys in IH3. now rewrite IH3.
Qed.

(** *** The loop of the clamp against the walk of Section 4.3 *)

Lemma spec_trim_nonpos (rem : Z) (l : list Entry) :
  Forall entry_typed l -> rem <= 0 -> spec_trim rem l = l.
Proof.
  intros Hl. revert rem.
  induction Hl as [|[tid am t] l [a [Ha Hpos]] Hl IH]; intros rem Hrem.
  - reflexivity.
  - cbn [e_amount] in Ha. subst am.
    cbn [spec_trim e_amount e_topicId e_ts value].
    rewrite IH by lia.
    replace (Z.min a (Z.max 0 rem)) with 0 by lia.
    now rewrite Z.sub_0_r.
Qed.

Lemma trim_is_spec_trim (l : list Entry) (over : Z) :
  Forall entry_typed l -> entries_sum l <= 2 ^ 53 -> over <= 2 ^ 53 ->
  trim (Fin over) l = spec_trim over l.
Proof.
  intros Hl. revert over.
  induction Hl as [|[tid am t] l [a [Ha Hpos]] Hl IH]; intros over Hs Ho.
  - reflexivity.
  - cbn [e_amount] in Ha. subst am.
    pose proof (entries_sum_nonneg Hl) as Hnn.
    rewrite entries_sum_cons in Hs. cbn [e_amount value] in Hs.
    cbn [trim spec_trim e_amount e_topicId e_ts value js_le].
    destruct (over <=? 0) eqn:Eo.
    + apply Z.leb_le in Eo.
      rewrite spec_trim_nonpos by (assumption || lia).
      replace (Z.min a (Z.max 0 over)) with 0 by lia.
      now rewrite Z.sub_0_r.
    + apply Z.leb_gt in Eo.
      replace (Z.min a (Z.max 0 over)) with (Z.min a over) by lia.
      destruct (a <=? 0) eqn:Ea.
      * apply Z.leb_le in Ea. assert (a = 0) by lia. subst a.
        rewrite IH by lia.
        replace (Z.min 0 over) with 0 by lia.
        now rewrite !Z.sub_0_r.
      * apply Z.leb_gt in Ea.
        rewrite Math_min_Fin, !js_sub_exact by lia.
        rewrite IH by lia.
        destruct (Z_le_gt_dec a over) as [Hle|Hgt].
        -- now rewrite Z.min_l by lia.
        -- rewrite Z.min_r by lia. rewrite Z.sub_diag.
           rewrite !spec_trim_nonpos by (assumption || lia). reflexivity.
Qed.

Lemma spec_trim_typed (rem : Z) (l : list Entry) :
  Forall entry_typed l ->
  Forall entry_typed (spec_trim rem l)
  /\ map e_topicId (spec_trim rem l) = map e_topicId l
  /\ entries_sum (spec_trim rem l)
     = entries_sum l - Z.min (entries_sum l) (Z.max 0 rem).
Proof.
  intros Hl. revert rem.
  induction Hl as [|[tid am t] l [a [Ha Hpos]] Hl IH]; intros rem.
  - repeat split; [constructor|unfold entries_sum; simpl; lia].
  - cbn [e_amount] in Ha. subst am.
    cbn [spec_trim e_amount e_topicId e_ts value].
    destruct (IH (rem - a)) as (IH1 & IH2 & IH3).
    pose proof (entries_sum_nonneg Hl) as Hnn.
    repeat split.
    + constructor; [|assumption]. eexists. split; [reflexivity|]. lia.
    + cbn [map e_topicId]. now rewrite IH2.
    + rewrite !entries_sum_cons. cbn [e_amount value]. rewrite IH3. lia.
Qed.

(** *** The write-back *)

Lemma write_back_from (now : Z) (l : list Entry) (acc : JsMap Bid) :
  NoDup (mkeys acc ++ map e_topicId l) ->
  fold_left (fun m e => mset (e_topicId e) (mkBid (e_amount e) now) m) l acc
  = acc ++ stamped now l.
Proof.
  revert acc. induction l as [|e l IH]; intros acc Hnd; simpl.
  - now rewrite app_nil_r.
  - rewrite mkeys_mset_absent.
    + rewrite IH.
      * now rewrite <- app_assoc.
      * unfold mkeys in *. rewrite map_app, <- app_assoc. exact Hnd.
    + apply NoDup_remove_2 in Hnd. intros Hin. apply Hnd.
      apply in_or_app. now left.
Qed.

Lemma write_back_stamped (now : Z) (l : list Entry) :
  NoDup (map e_topicId l) -> write_back now l = stamped now l.
Proof.
  intros Hnd. unfold write_back. now rewrite write_back_from.
Qed.

Lemma stamped_entries (now : Z) (l : list Entry) :
  Forall entry_typed l ->
  Forall entry_typed (clamp_entries (stamped now l))
  /\ entries_sum (clamp_entries (stamped now l)) = entries_sum l
  /\ mkeys (stamped now l) = map e_topicId l.
Proof.
  induction 1 as [|[tid am t] l [a [Ha Hpos]] _ (IH1 & IH2 & IH3)].
  - repeat split. constructor.
  - cbn [e_amount] in Ha. subst am.
    cbn [stamped map e_topicId e_amount]. fold (stamped now l).
    rewrite clamp_entries_cons. cbn [amount ts]. unfold Math_floor.
    rewrite Math_max_Fin, Z.max_r by lia.
    repeat split.
    + constructor; [|assumption]. exists a. auto.
    + rewrite !entries_sum_cons. cbn [e_amount value]. now rewrite IH2.
    + cbn [mkeys map fst]. unfold mkeys in IH3. now rewrite IH3.
Qed.

(** *** The two branches of the clamp on a typed bid map *)

Lemma clamp_within_budget (now : Z) (room : Room) (pid : string)
  (perTopic : JsMap Bid) (b : Z) :
  mget pid (bids room) = Some perTopic -> bids_typed perTopic ->
  budget (config room) = Fin b -> exact_total perTopic <= b ->
  clampBidsToBudget now room pid = recomputeSpent room pid.
Proof.
  intros Hget (Hnd & Hty & Hmax) Hb Hle. unfold clampBidsToBudget.
  rewrite Hget, Hb.
  destruct (clamp_entries_typed Hty) as (He & Hs & _).
  rewrite entries_total_exact by (assumption || (rewrite Hs; exact Hmax)).
  rewrite Hs. cbn [js_le].
  destruct (exact_total perTopic <=? b) eqn:E; [reflexivity|].
  apply Z.leb_gt in E. lia.
Qed.

Lemma clamp_over_budget (now : Z) (room : Room) (pid : string)
  (perTopic : JsMap Bid) (b : Z) :
  mget pid (bids room) = Some perTopic -> bids_typed perTopic ->
  budget (config room) = Fin b -> 0 <= b -> b < exact_total perTopic ->
  clampBidsToBudget now room pid
  = recomputeSpent
      (set_bids room
         (mset pid
            (stamped now
               (spec_trim (exact_total perTopic - b)
                  (Array_sort clamp_cmp (clamp_entries perTopic))))
            (bids room)))
      pid.
Proof.
  intros Hget (Hnd & Hty & Hmax) Hb Hb0 Hlt. unfold clampBidsToBudget.
  rewrite Hget, Hb. unfold MAX_EXACT in Hmax.
  destruct (clamp_entries_typed Hty) as (He & Hs & Hk).
  rewrite entries_total_exact by (assumption || (rewrite Hs; exact Hmax)).
  rewrite Hs. cbn [js_le].
  destruct (exact_total perTopic <=? b) eqn:E;
    [apply Z.leb_le in E; lia|].
  set (sorted := Array_sort clamp_cmp (clamp_entries perTopic)).
  pose proof (Array_sort_perm clamp_cmp (clamp_entries perTopic)) as Hperm.
  fold sorted in Hperm.
  assert (Hes : Forall entry_typed sorted).
  { apply Forall_forall. intros e Hin.
    apply (Permutation_in _ Hperm) in Hin.
    rewrite Forall_forall in He. now apply He. }
  assert (Hss : entries_sum sorted = exact_total perTopic).
  { rewrite <- Hs. now apply entries_sum_perm. }
  rewrite js_sub_exact by lia.
  rewrite trim_is_spec_trim by (assumption || lia).
  rewrite write_back_stamped; [reflexivity|].
  destruct (spec_trim_typed (exact_total perTopic - b) Hes) as (_ & Hids & _).
  rewrite Hids.
  apply (Permutation_NoDup (l := map e_topicId (clamp_entries perTopic))).
  - apply Permutation_map. now symmetry.
  - now rewrite Hk.
Qed.

(** The order and the walk of Section 4.3, for the inputs on which the
    arithmetic of the clamp is exact: a bid map typed as the data model
    types it (no topic twice, non-negative integer amounts, a total of
    at most [2^53]) and a budget that is a non-negative integer below
    the total.  The clamp leaves the player with the entries in an
    order that is ascending by amount and, within equal amounts, has
    the larger timestamp first; each entry has lost the minimum of its
    amount and of the overage that the entries before it left; every
    timestamp is the time of the clamp.  With budget 100 and bids
    [{X:60, Y:50}] the result is [{X:60, Y:40}]. *)
Theorem clamp_trims_smallest_first :
  (forall now room pid perTopic b,
      mget pid (bids room) = Some perTopic ->
      bids_typed perTopic ->
      budget (config room) = Fin b -> 0 <= b ->
      b < exact_total perTopic ->
      exists sorted,
        Permutation sorted (clamp_entries perTopic)
        /\ StronglySorted trimmed_before sorted
        /\ mget pid (bids (clampBidsToBudget now room pid))
           = Some (stamped now
                     (spec_trim (exact_total perTopic - b) sorted)))
  /\ (forall now,
         stored_bid (clampBidsToBudget now over_budget_room "h") "h" "X"
         = Some (mkBid (Fin 60) now)
         /\ stored_bid (clampBidsToBudget now over_budget_room "h") "h" "Y"
            = Some (mkBid (Fin 40) now)
         /\ mget "h" (players (clampBidsToBudget now over_budget_room "h"))
            = Some (mkPlayer "h" "Host" (Fin 100))).
Proof.
  split.
  - intros now room pid perTopic b Hget Hty Hb Hb0 Hlt.
    exists (Array_sort clamp_cmp (clamp_entries perTopic)).
    split; [apply Array_sort_perm|]. split.
    + apply clamp_sort_sorted.
      destruct Hty as (_ & Hty & _). now apply clamp_entries_typed.
    + rewrite (@clamp_over_budget now room pid perTopic b Hget Hty Hb Hb0 Hlt).
      destruct (recomputeSpent_fields
                  (set_bids room
                     (mset pid
                        (stamped now
                           (spec_trim (exact_total perTopic - b)
                              (Array_sort clamp_cmp
                                 (clamp_entries perTopic))))
                        (bids room))) pid) as (_ & _ & _ & _ & _ & Hbids & _).
      rewrite Hbids. cbn [set_bids bids]. apply mget_mset_eq.
  - intros now. repeat split.
Qed.

Lemma over_budget_room_typed :
  bids_typed [("X", mkBid (Fin 60) 1); ("Y", mkBid (Fin 50) 2)].
Proof.
  split; [|split].
  - repeat constructor; simpl; intuition discriminate.
  - repeat constructor.
  - unfold exact_total, MAX_EXACT. simpl. lia.
Qed.

Lemma clamp_trims_smallest_first_witness :
  exists sorted,
    Permutation sorted
      (clamp_entries [("X", mkBid (Fin 60) 1); ("Y", mkBid (Fin 50) 2)])
    /\ StronglySorted trimmed_before sorted
    /\ mget "h" (bids (clampBidsToBudget 7 over_budget_room "h"))
       = Some (stamped 7
                 (spec_trim
                    (exact_total
                       [("X", mkBid (Fin 60) 1); ("Y", mkBid (Fin 50) 2)]
                     - 100)
                    sorted)).
Proof.
  apply (proj1 clamp_trims_smallest_first 7 over_budget_room "h"
           [("X", mkBid (Fin 60) 1); ("Y", mkBid (Fin 50) 2)] 100).
  - reflexivity.
  - exact over_budget_room_typed.
  - reflexivity.
  - lia.
  - unfold exact_total. simpl. lia.
Defined.

Lemma recomputeSpent_idempotent (room : Room) (pid : string) :
  recomputeSpent (recomputeSpent room pid) pid = recomputeSpent room pid.
Proof.
  unfold recomputeSpent at 1.
  destruct (recomputeSpent_fields room pid) as (_ & _ & _ & _ & _ & Hb & _).
  rewrite Hb.
  unfold recomputeSpent.
  destruct (mget pid (players room)) as [pl|] eqn:E.
  - cbn [players set_players]. rewrite mget_mset_eq.
    cbn [p_id p_name]. unfold set_players. cbn. now rewrite mset_mset.
  - now rewrite E.
Qed.

(** Idempotence of the clamp on the inputs on which its arithmetic is
    exact: on a room typed as the data model types it (the budget a
    non-negative integer, the bid map of the player a map of
    non-negative integers of total at most [2^53]), clamping a second
    time, at any time, returns the room the first clamp returned; and
    a clamp on a total that is at most the budget leaves the bids as
    they are. *)
Theorem clamp_is_idempotent :
  forall now1 now2 room pid,
    clamp_input_typed room pid ->
    clampBidsToBudget now2 (clampBidsToBudget now1 room pid) pid
    = clampBidsToBudget now1 room pid
    /\ (forall perTopic b,
           mget pid (bids room) = Some perTopic ->
           budget (config room) = Fin b ->
           exact_total perTopic <= b ->
           bids (clampBidsToBudget now1 room pid) = bids room).
Proof.
  intros now1 now2 room pid [[b [Hb Hb0]] Hty]. split.
  - destruct (mget pid (bids room)) as [perTopic|] eqn:Hget.
    + specialize (Hty perTopic eq_refl).
      destruct (Z_le_gt_dec (exact_total perTopic) b) as [Hle|Hgt].
      * rewrite (@clamp_within_budget now1 room pid perTopic b Hget Hty Hb Hle).
        destruct (recomputeSpent_fields room pid)
          as (_ & _ & Hc & _ & _ & Hbids & _).
        rewrite (@clamp_within_budget now2 (recomputeSpent room pid) pid
                   perTopic b);
          [apply recomputeSpent_idempotent| | | |];
          try assumption; congruence.
      * assert (Hlt : b < exact_total perTopic) by lia.
        rewrite (@clamp_over_budget now1 room pid perTopic b Hget Hty Hb Hb0 Hlt).
        set (sorted := Array_sort clamp_cmp (clamp_entries perTopic)).
        set (newMap := stamped now1
                         (spec_trim (exact_total perTopic - b) sorted)).
        set (room' := set_bids room (mset pid newMap (bids room))).
        destruct (recomputeSpent_fields room' pid)
          as (_ & _ & Hc & _ & _ & Hbids & _).
        destruct Hty as (Hnd & Hty & Hmax). unfold MAX_EXACT in Hmax.
        destruct (clamp_entries_typed Hty) as (He & Hs & Hk).
        pose proof (Array_sort_perm clamp_cmp (clamp_entries perTopic))
          as Hperm. fold sorted in Hperm.
        assert (Hes : Forall entry_typed sorted).
        { apply Forall_forall. intros e Hin.
          apply (Permutation_in _ Hperm) in Hin.
          rewrite Forall_forall in He. now apply He. }
        assert (Hss : entries_sum sorted = exact_total perTopic).
        { rewrite <- Hs. now apply entries_sum_perm. }
        destruct (spec_trim_typed (exact_total perTopic - b) Hes)
          as (Ht1 & Ht2 & Ht3).
        destruct (stamped_entries now1 Ht1) as (Hn1 & Hn2 & Hn3).
        fold newMap in Hn1, Hn2, Hn3.
        assert (Hsum : entries_sum (clamp_entries newMap) = b).
        { rewrite Hn2, Ht3, Hss. lia. }
        unfold clampBidsToBudget at 1.
        rewrite Hbids, Hc. cbn [bids config set_bids room'].
        rewrite mget_mset_eq, Hb.
        rewrite entries_total_exact by (assumption || lia).
        rewrite Hsum. cbn [js_le]. rewrite Z.leb_refl.
        apply recomputeSpent_idempotent.
    + unfold clampBidsToBudget. rewrite Hget.
      unfold clampBidsToBudget. now rewrite Hget.
  - intros perTopic b' Hget Hb' Hle.
    rewrite (@clamp_within_budget now1 room pid perTopic b' Hget (Hty perTopic Hget) Hb' Hle).
    apply recomputeSpent_fields.
Qed.

Lemma clamp_is_idempotent_witness :
  clampBidsToBudget 9 (clampBidsToBudget 7 over_budget_room "h") "h"
  = clampBidsToBudget 7 over_budget_room "h"
  /\ (forall perTopic b,
         mget "h" (bids over_budget_room) = Some perTopic ->
         budget (config over_budget_room) = Fin b ->
         exact_total perTopic <= b ->
         bids (clampBidsToBudget 7 over_budget_room "h")
         = bids over_budget_room).
Proof.
  apply (@clamp_is_idempotent 7 9 over_budget_room "h").
  split.
  - exists 100. split; [reflexivity|lia].
  - intros perTopic H. simpl in H. injection H as <-.
    exact over_budget_room_typed.
Defined.

(* ================================================================== *)
(** ** The allocation engine *)

(** *** Lookups in the maps of the engine *)

Lemma winners_of_mset (W : JsMap JsSet) (k k' : string) (s : JsSet) :
  winners_of (mset k s W) k' = if String.eqb k k' then s else winners_of W k'.
Proof.
  unfold winners_of. rewrite mget_mset.
  now destruct (String.eqb k k').
Qed.

Lemma idx_of_mset (N : JsMap number) (k k' : string) (i : number) :
  idx_of (mset k i N) k' = if String.eqb k k' then i else idx_of N k'.
Proof.
  unfold idx_of. rewrite mget_mset.
  now destruct (String.eqb k k').
Qed.

Lemma mset_winners_same (W : JsMap JsSet) (k : string) :
  In k (mkeys W) -> mset k (winners_of W k) W = W.
Proof.
  intros H. apply mset_same. unfold winners_of.
  apply mget_In_keys in H. now destruct (mget k W).
Qed.

Lemma mset_idx_same (N : JsMap number) (k : string) :
  In k (mkeys N) -> mset k (idx_of N k) N = N.
Proof.
  intros H. apply mset_same. unfold idx_of.
  apply mget_In_keys in H. now destruct (mget k N).
Qed.

Lemma NoDup_mkeys_mset (V : Type) (k : string) (v : V) (m : JsMap V) :
  NoDup (mkeys m) -> NoDup (mkeys (mset k v m)).
Proof.
  intros H. destruct (in_dec string_dec k (mkeys m)) as [Hin|Hni].
  - now rewrite mkeys_mset_present.
  - rewrite mkeys_mset_absent by assumption.
    unfold mkeys. rewrite map_app. simpl.
    apply NoDup_app_remove_l with (l := []). simpl.
    apply Permutation_NoDup with (l := k :: map fst m).
    + apply Permutation_cons_append.
    + now constructor.
Qed.

Lemma mget_fold_mset (V : Type) (f : string -> V) (ts : list Topic)
  (m0 : JsMap V) (k : string) :
  mget k (fold_left (fun m t => mset (id t) (f (id t)) m) ts m0)
  = if existsb (fun t => String.eqb (id t) k) ts then Some (f k)
    else mget k m0.
Proof.
  revert m0. induction ts as [|t ts IH]; intros m0; simpl; [reflexivity|].
  rewrite IH, mget_mset.
  destruct (existsb (fun t0 => String.eqb (id t0) k) ts).
  - now rewrite orb_true_r.
  - rewrite orb_false_r. destruct (String.eqb (id t) k) eqn:E; [|reflexivity].
    apply String.eqb_eq in E. now subst.
Qed.

Lemma existsb_id_In (ts : list Topic) (t : Topic) :
  In t ts -> existsb (fun t0 => String.eqb (id t0) (id t)) ts = true.
Proof.
  intros H. apply existsb_exists. exists t. split; [assumption|].
  apply String.eqb_refl.
Qed.

Lemma two_distinct_length (A : Type) (x y : A) (l : list A) :
  In x l -> In y l -> x <> y -> (2 <= List.length l)%nat.
Proof.
  destruct l as [|a [|b l]]; simpl; try tauto; [|lia].
  intros [<-|[]] [<-|[]] H. congruence.
Qed.

(** *** Comparisons of sizes with a capacity *)

Lemma js_le_not_lt (a b : number) : js_le b a = true -> js_lt a b = false.
Proof.
  destruct a, b; simpl; try congruence.
  intros H. apply Z.leb_le in H. apply Z.ltb_ge. lia.
Qed.

Lemma js_lt_false_mono (n n' : Z) (cap : number) :
  n <= n' -> js_lt (Fin n) cap = false -> js_lt (Fin n') cap = false.
Proof.
  destruct cap; simpl; try congruence.
  intros Hle H. apply Z.ltb_ge in H. apply Z.ltb_ge. lia.
Qed.

Lemma js_le_true_mono (n n' : Z) (cap : number) :
  n' <= n -> js_le (Fin n) cap = true -> js_le (Fin n') cap = true.
Proof.
  destruct cap; simpl; try congruence.
  intros Hle H. apply Z.leb_le in H. apply Z.leb_le. lia.
Qed.

Lemma js_lt_succ_le (n : Z) (cap : number) :
  js_lt (Fin n) cap = true -> js_le (Fin (n + 1)) cap = true.
Proof.
  destruct cap; simpl; try congruence.
  intros H. apply Z.ltb_lt in H. apply Z.leb_le. lia.
Qed.

(** *** The initial maps *)

Lemma alloc_init_from (ts : list Topic) (st : Alloc) :
  winnersByTopic
    (fold_left
       (fun st t =>
          mkAlloc (mset (id t) [] (winnersByTopic st))
                  (mset (id t) (Fin 0) (nextIndex st))) ts st)
  = fold_left (fun m t => mset (id t) [] m) ts (winnersByTopic st)
  /\ nextIndex
       (fold_left
          (fun st t =>
             mkAlloc (mset (id t) [] (winnersByTopic st))
                     (mset (id t) (Fin 0) (nextIndex st))) ts st)
     = fold_left (fun m t => mset (id t) (Fin 0) m) ts (nextIndex st).
Proof.
  revert st. induction ts as [|t ts IH]; intros st; simpl.
  - split; reflexivity.
  - destruct (IH (mkAlloc (mset (id t) [] (winnersByTopic st))
                          (mset (id t) (Fin 0) (nextIndex st)))) as [H1 H2].
    split; assumption.
Qed.

Lemma alloc_init_spec (ts : list Topic) :
  keys_present ts (alloc_init ts)
  /\ (forall k, winners_of (winnersByTopic (alloc_init ts)) k = []).
Proof.
  unfold alloc_init.
  destruct (alloc_init_from ts (mkAlloc [] [])) as [H1 H2].
  split.
  - intros t Ht. rewrite H1, H2. simpl. split; apply mget_In_keys.
    + rewrite (mget_fold_mset (fun _ => @nil string)).
      now rewrite existsb_id_In.
    + rewrite (mget_fold_mset (fun _ => Fin 0)).
      now rewrite existsb_id_In.
  - intros k. rewrite H1. simpl. unfold winners_of.
    rewrite (mget_fold_mset (fun _ => @nil string)).
    now destruct (existsb _ ts).
Qed.

(** *** Step 1: the tentative winners *)

Lemma In_firstn_list (A : Type) (n : nat) (l : list A) (x : A) :
  In x (firstn n l) -> In x l.
Proof.
  intros H. rewrite <- (firstn_skipn n l). apply in_or_app. now left.
Qed.

Lemma In_skipn_list (A : Type) (n : nat) (l : list A) (x : A) :
  In x (skipn n l) -> In x l.
Proof.
  intros H. rewrite <- (firstn_skipn n l). apply in_or_app. now right.
Qed.

Lemma fold_sadd_spec (l : list Cand) (s : JsSet) :
  (forall p, In p (fold_left (fun w c => sadd (playerId c) w) l s)
             <-> In p s \/ In p (map playerId l))
  /\ (NoDup s -> NoDup (fold_left (fun w c => sadd (playerId c) w) l s))
  /\ (List.length (fold_left (fun w c => sadd (playerId c) w) l s)
      <= List.length s + List.length l)%nat.
Proof.
  revert s. induction l as [|c l IH]; intros s; simpl.
  - repeat split; try tauto. lia.
  - destruct (IH (sadd (playerId c) s)) as (H1 & H2 & H3).
    split; [|split].
    + intros p. rewrite H1, In_sadd. intuition (subst; auto).
    + intros Hnd. apply H2. unfold sadd.
      destruct (shas (playerId c) s) eqn:E; [assumption|].
      apply shas_false in E.
      apply Permutation_NoDup with (l := playerId c :: s).
      * apply Permutation_cons_append.
      * now constructor.
    + pose proof (length_sadd_le (playerId c) s). lia.
Qed.

Lemma NoDup_sadd (x : string) (s : JsSet) : NoDup s -> NoDup (sadd x s).
Proof.
  intros Hnd. unfold sadd. destruct (shas x s) eqn:E; [assumption|].
  apply shas_false in E.
  apply Permutation_NoDup with (l := x :: s).
  - apply Permutation_cons_append.
  - now constructor.
Qed.

Lemma NoDup_sdelete (x : string) (s : JsSet) : NoDup s -> NoDup (sdelete x s).
Proof. intros H. unfold sdelete. now apply NoDup_filter. Qed.

Lemma tentative_cons (bidLists : JsMap (list Cand)) (t : Topic)
  (ts : list Topic) (st : Alloc) :
  tentative bidLists (t :: ts) st
  = tentative bidLists ts
      (mkAlloc
         (mset (id t)
            (fold_left (fun w c => sadd (playerId c) w)
               (firstn
                  (iterations
                     (Math_min (capacity t)
                        (array_length (bid_list bidLists (id t)))))
                  (bid_list bidLists (id t)))
               (winners_of (winnersByTopic st) (id t)))
            (winnersByTopic st))
         (mset (id t)
            (Math_min (capacity t)
               (array_length (bid_list bidLists (id t))))
            (nextIndex st))).
Proof. reflexivity. Qed.

Lemma keys_present_mset (topics : list Topic) (st : Alloc) (k k' : string)
  (s : JsSet) (i : number) :
  keys_present topics st ->
  keys_present topics
    (mkAlloc (mset k s (winnersByTopic st)) (mset k' i (nextIndex st))).
Proof.
  intros H t Ht. destruct (H t Ht) as [H1 H2]. simpl.
  split; apply In_mkeys_mset; now right.
Qed.

Lemma tentative_frame (bidLists : JsMap (list Cand)) (ts : list Topic)
  (st : Alloc) (k : string) :
  ~ In k (map id ts) ->
  winners_of (winnersByTopic (tentative bidLists ts st)) k
  = winners_of (winnersByTopic st) k.
Proof.
  revert st. induction ts as [|t ts IH]; intros st Hk; [reflexivity|].
  rewrite tentative_cons, IH by (simpl in Hk; tauto).
  cbn [winnersByTopic]. rewrite winners_of_mset.
  destruct (String.eqb (id t) k) eqn:E; [|reflexivity].
  apply String.eqb_eq in E. simpl in Hk. tauto.
Qed.

Lemma tentative_invariants (bidLists : JsMap (list Cand))
  (topics ts : list Topic) (st : Alloc) :
  keys_present topics st ->
  sets_nodup (winnersByTopic st) ->
  winners_listed bidLists (winnersByTopic st) ->
  keys_present topics (tentative bidLists ts st)
  /\ sets_nodup (winnersByTopic (tentative bidLists ts st))
  /\ winners_listed bidLists (winnersByTopic (tentative bidLists ts st)).
Proof.
  revert st. induction ts as [|t ts IH]; intros st Hk Hn Hl.
  - split; [|split]; assumption.
  - rewrite tentative_cons. apply IH.
    + now apply keys_present_mset.
    + intros k. cbn [winnersByTopic]. rewrite winners_of_mset.
      destruct (String.eqb (id t) k); [|apply Hn].
      apply fold_sadd_spec, Hn.
    + intros k p. cbn [winnersByTopic]. rewrite winners_of_mset.
      destruct (String.eqb (id t) k) eqn:E; [|apply Hl].
      apply String.eqb_eq in E. subst k. intros Hin.
      apply fold_sadd_spec in Hin. destruct Hin as [Hin|Hin].
      * now apply Hl.
      * unfold listed. rewrite in_map_iff in *.
        destruct Hin as [c [Hc Hin]]. exists c. split; [assumption|].
        eapply In_firstn_list; eauto.
Qed.

Lemma tentative_size (cap : number) (l : list Cand) :
  js_le (Fin 0) cap = true ->
  js_le
    (ssize
       (fold_left (fun w c => sadd (playerId c) w)
          (firstn (iterations (Math_min cap (array_length l))) l) []))
    cap = true.
Proof.
  intros Hc.
  destruct (fold_sadd_spec
              (firstn (iterations (Math_min cap (array_length l))) l) [])
    as (_ & _ & Hlen).
  simpl in Hlen. rewrite length_firstn in Hlen.
  unfold ssize. destruct cap as [| | |c]; simpl in Hc; try discriminate.
  - reflexivity.
  - apply Z.leb_le in Hc. unfold array_length in *.
    rewrite Math_min_Fin in *. cbn [iterations] in *.
    cbn [js_le]. apply Z.leb_le. lia.
Qed.

Lemma tentative_capacity (bidLists : JsMap (list Cand)) (ts : list Topic)
  (st : Alloc) :
  NoDup (map id ts) ->
  (forall t, In t ts -> js_le (Fin 0) (capacity t) = true) ->
  (forall t, In t ts -> winners_of (winnersByTopic st) (id t) = []) ->
  within_capacity ts (winnersByTopic (tentative bidLists ts st)).
Proof.
  revert st. induction ts as [|t ts IH]; intros st Hnd Hcap Hemp.
  - intros t [].
  - rewrite tentative_cons. inversion Hnd as [|? ? Hni Hnd']; subst.
    intros t' [<-|Ht'].
    + rewrite tentative_frame by assumption.
      cbn [winnersByTopic]. rewrite winners_of_mset, String.eqb_refl.
      rewrite Hemp by now left.
      apply tentative_size. apply Hcap. now left.
    + apply IH; try assumption.
      * intros t0 H0. apply Hcap. now right.
      * intros t0 H0. cbn [winnersByTopic]. rewrite winners_of_mset.
        destruct (String.eqb (id t) (id t0)) eqn:E.
        -- apply String.eqb_eq in E. exfalso. apply Hni. rewrite E.
           now apply in_map.
        -- apply Hemp. now right.
Qed.

(** *** The wins of the players *)

Lemma byPlayer_from (l : list Cand) (acc : JsMap Cand) (p : string) :
  (forall b,
      mget p (fold_left
                (fun m b => if mhas (playerId b) m then m
                            else mset (playerId b) b m) l acc) = Some b ->
      mget p acc = Some b \/ (In b l /\ playerId b = p))
  /\ (mget p acc <> None \/ In p (map playerId l) ->
      mget p (fold_left
                (fun m b => if mhas (playerId b) m then m
                            else mset (playerId b) b m) l acc) <> None).
Proof.
  revert acc. induction l as [|c l IH]; intros acc; simpl.
  - split; [auto|]. intros [H|[]]. assumption.
  - destruct (IH (if mhas (playerId c) acc then acc
                  else mset (playerId c) c acc)) as [IH1 IH2].
    split.
    + intros b Hb. apply IH1 in Hb. destruct Hb as [Hb|[Hb1 Hb2]]; [|auto].
      destruct (mhas (playerId c) acc); [auto|].
      rewrite mget_mset in Hb.
      destruct (String.eqb (playerId c) p) eqn:E; [|auto].
      apply String.eqb_eq in E. injection Hb as <-. auto.
    + intros H. apply IH2.
      destruct (mhas (playerId c) acc) eqn:Eh.
      * destruct H as [H|[H|H]]; auto.
        left. subst p. unfold mhas in Eh.
        destruct (mget (playerId c) acc); congruence.
      * rewrite mget_mset.
        destruct (String.eqb (playerId c) p) eqn:E.
        -- left. congruence.
        -- apply String.eqb_neq in E.
           destruct H as [H|[H|H]]; auto; congruence.
Qed.

Lemma byPlayer_of_spec (l : list Cand) (p : string) :
  (forall b, mget p (byPlayer_of l) = Some b -> In b l /\ playerId b = p)
  /\ (In p (map playerId l) -> mget p (byPlayer_of l) <> None).
Proof.
  unfold byPlayer_of. destruct (byPlayer_from l [] p) as [H1 H2]. split.
  - intros b Hb. apply H1 in Hb. destruct Hb as [Hb|Hb]; [discriminate|auto].
  - intros H. apply H2. now right.
Qed.

Lemma push_win_spec (pid : string) (w : Win) (pw : JsMap (list Win)) :
  (forall q, wins_of (push_win pid w pw) q
             = if String.eqb pid q then wins_of pw pid ++ [w]
               else wins_of pw q)
  /\ (NoDup (mkeys pw) -> NoDup (mkeys (push_win pid w pw))).
Proof.
  unfold push_win, wins_of. split.
  - intros q. rewrite mget_mset.
    destruct (String.eqb pid q) eqn:E.
    + unfold mhas. destruct (mget pid pw) as [l|] eqn:El; simpl.
      * now rewrite El.
      * now rewrite mget_mset_eq.
    + destruct (mhas pid pw); [reflexivity|].
      rewrite mget_mset, E. reflexivity.
  - intros Hnd. apply NoDup_mkeys_mset.
    destruct (mhas pid pw); [assumption|now apply NoDup_mkeys_mset].
Qed.

Lemma topic_wins_spec (bidLists : JsMap (list Cand)) (W : JsMap JsSet)
  (t : Topic) (pw : JsMap (list Win)) :
  (forall p w,
      In w (wins_of (topic_wins bidLists W t pw) p)
      <-> In w (wins_of pw p)
          \/ (In p (winners_of W (id t))
              /\ exists b,
                  mget p (byPlayer_of (bid_list bidLists (id t))) = Some b
                  /\ w = mkWin (id t) (c_amount b) (c_ts b)))
  /\ (NoDup (mkeys pw) -> NoDup (mkeys (topic_wins bidLists W t pw))).
Proof.
  unfold topic_wins.
  set (byPlayer := byPlayer_of (bid_list bidLists (id t))).
  generalize (winners_of W (id t)) as ws.
  intros ws. revert pw. induction ws as [|pid ws IH]; intros pw.
  - simpl. split; [|auto]. intros p w. split; [auto|].
    intros [H|[[] _]]. assumption.
  - cbn [fold_left].
    destruct (mget pid byPlayer) as [b|] eqn:Eb.
    + destruct (IH (push_win pid (mkWin (id t) (c_amount b) (c_ts b)) pw))
        as [IH1 IH2].
      destruct (push_win_spec pid (mkWin (id t) (c_amount b) (c_ts b)) pw)
        as [P1 P2].
      split; [|auto].
      intros p w. rewrite IH1, P1.
      destruct (String.eqb pid p) eqn:E.
      * apply String.eqb_eq in E. subst p. rewrite in_app_iff. simpl.
        split.
        -- intros [[H|[H|[]]]|[H1 H2]]; auto.
           right. split; [auto|]. exists b. auto.
        -- intros [H|[[H|H] [b' [Hb' Hw]]]]; auto.
           ++ left. right. left. congruence.
           ++ right. split; [assumption|]. exists b'. auto.
      * apply String.eqb_neq in E. simpl. split.
        -- intros [H|[H1 H2]]; auto.
        -- intros [H|[[H|H] H2]]; auto. congruence.
    + destruct (IH pw) as [IH1 IH2]. split; [|auto].
      intros p w. rewrite IH1. simpl. split.
      * intros [H|[H1 H2]]; auto.
      * intros [H|[[H|H] [b' [Hb' Hw]]]]; auto.
        -- subst p. congruence.
        -- right. split; [assumption|]. exists b'. auto.
Qed.

Lemma buildPlayerWins_from (bidLists : JsMap (list Cand)) (W : JsMap JsSet)
  (ts : list Topic) (pw : JsMap (list Win)) :
  (forall p w,
      In w (wins_of
              (fold_left (fun pw t => topic_wins bidLists W t pw) ts pw) p)
      <-> In w (wins_of pw p)
          \/ exists t,
              In t ts /\ In p (winners_of W (id t))
              /\ exists b,
                  mget p (byPlayer_of (bid_list bidLists (id t))) = Some b
                  /\ w = mkWin (id t) (c_amount b) (c_ts b))
  /\ (NoDup (mkeys pw) ->
      NoDup (mkeys
               (fold_left (fun pw t => topic_wins bidLists W t pw) ts pw))).
Proof.
  revert pw. induction ts as [|t ts IH]; intros pw.
  - simpl. split; [|auto]. intros p w. split; [auto|].
    intros [H|[t [[] _]]]. assumption.
  - cbn [fold_left].
    destruct (IH (topic_wins bidLists W t pw)) as [IH1 IH2].
    destruct (topic_wins_spec bidLists W t pw) as [T1 T2].
    split; [|auto].
    intros p w. rewrite IH1, T1. simpl. split.
    + intros [[H|H]|[t' [Ht' H]]]; auto.
      * right. exists t. auto.
      * right. exists t'. auto.
    + intros [H|[t' [[<-|Ht'] H]]]; auto.
      right. exists t'. auto.
Qed.

Lemma buildPlayerWins_spec (bidLists : JsMap (list Cand))
  (topics : list Topic) (W : JsMap JsSet) :
  (forall p w,
      In w (wins_of (buildPlayerWins bidLists topics W) p)
      <-> exists t,
          In t topics /\ In p (winners_of W (id t))
          /\ exists b,
              mget p (byPlayer_of (bid_list bidLists (id t))) = Some b
              /\ w = mkWin (id t) (c_amount b) (c_ts b))
  /\ NoDup (mkeys (buildPlayerWins bidLists topics W)).
Proof.
  unfold buildPlayerWins.
  destruct (buildPlayerWins_from bidLists W topics []) as [H1 H2].
  split.
  - intros p w. rewrite H1. simpl. split; [|auto].
    intros [[]|H]. assumption.
  - apply H2. constructor.
Qed.

(** A listed winner of two topic ids has two wins. *)
Lemma two_wins (bidLists : JsMap (list Cand)) (topics : list Topic)
  (W : JsMap JsSet) (t1 t2 : Topic) (p : string) :
  winners_listed bidLists W ->
  In t1 topics -> In t2 topics ->
  In p (winners_of W (id t1)) -> In p (winners_of W (id t2)) ->
  id t1 <> id t2 ->
  (2 <= List.length (wins_of (buildPlayerWins bidLists topics W) p))%nat.
Proof.
  intros Hl H1 H2 Hp1 Hp2 Hne.
  destruct (buildPlayerWins_spec bidLists topics W) as [Hs _].
  assert (Hw : forall t, In t topics -> In p (winners_of W (id t)) ->
                         exists w,
                           In w (wins_of (buildPlayerWins bidLists topics W) p)
                           /\ w_topicId w = id t).
  { intros t Ht Hp.
    destruct (byPlayer_of_spec (bid_list bidLists (id t)) p) as [_ Hb].
    specialize (Hb (Hl _ _ Hp)).
    destruct (mget p (byPlayer_of (bid_list bidLists (id t)))) as [b|] eqn:E;
      [|congruence].
    exists (mkWin (id t) (c_amount b) (c_ts b)). split; [|reflexivity].
    apply Hs. exists t. repeat split; try assumption. exists b. auto. }
  destruct (Hw t1 H1 Hp1) as [w1 [Hw1 E1]].
  destruct (Hw t2 H2 Hp2) as [w2 [Hw2 E2]].
  apply (@two_distinct_length _ w1 w2 _ Hw1 Hw2). congruence.
Qed.

(** *** The topic a player keeps *)

Lemma keep_step_keeps (keep : JsMap string) (entry : string * list Win)
  (p : string) :
  mget p keep <> None -> mget p (keep_step keep entry) <> None.
Proof.
  intros H. unfold keep_step.
  destruct (List.length (snd entry) <=? 1)%nat; [assumption|].
  destruct (Array_sort win_cmp (snd entry)); [assumption|].
  rewrite mget_mset. destruct (String.eqb (fst entry) p); congruence.
Qed.

Lemma keep_from (entries : JsMap (list Win)) (acc : JsMap string)
  (p : string) :
  (forall k,
      mget p (fold_left keep_step entries acc) = Some k ->
      mget p acc = Some k
      \/ exists wins w,
          In (p, wins) entries /\ In w wins /\ k = w_topicId w)
  /\ (mget p acc <> None
      \/ (exists wins, In (p, wins) entries /\ (2 <= List.length wins)%nat) ->
      mget p (fold_left keep_step entries acc) <> None).
Proof.
  revert acc. induction entries as [|[q wins] entries IH]; intros acc.
  - simpl. split; [auto|]. intros [H|[wins [[] _]]]. assumption.
  - cbn [fold_left]. destruct (IH (keep_step acc (q, wins))) as [IH1 IH2].
    split.
    + intros k Hk. apply IH1 in Hk.
      destruct Hk as [Hk|[wins' [w [Hin [Hw Hk]]]]].
      * unfold keep_step in Hk. cbn [fst snd] in Hk.
        destruct (List.length wins <=? 1)%nat; [auto|].
        destruct (Array_sort win_cmp wins) as [|w rest] eqn:Es; [auto|].
        rewrite mget_mset in Hk.
        destruct (String.eqb q p) eqn:E; [|auto].
        apply String.eqb_eq in E. subst q. injection Hk as <-.
        right. exists wins, w. split; [now left|]. split; [|reflexivity].
        apply (Array_sort_In win_cmp). rewrite Es. now left.
      * right. exists wins', w. split; [now right|auto].
    + intros H. apply IH2.
      destruct H as [H|[wins' [[H|H] Hlen]]].
      * left. now apply keep_step_keeps.
      * injection H as -> ->. left.
        unfold keep_step. cbn [fst snd].
        destruct (List.length wins' <=? 1)%nat eqn:El;
          [apply Nat.leb_le in El; lia|].
        destruct (Array_sort win_cmp wins') as [|w rest] eqn:Es.
        -- pose proof (Array_sort_length win_cmp wins') as Hl.
           rewrite Es in Hl. simpl in Hl. lia.
        -- rewrite mget_mset_eq. discriminate.
      * right. exists wins'. auto.
Qed.

Lemma keepByPlayer_spec (playerWins : JsMap (list Win)) (p : string) :
  NoDup (mkeys playerWins) ->
  (forall k,
      mget p (build_keepByPlayer playerWins) = Some k ->
      exists w, In w (wins_of playerWins p) /\ k = w_topicId w)
  /\ ((2 <= List.length (wins_of playerWins p))%nat ->
      mget p (build_keepByPlayer playerWins) <> None).
Proof.
  intros Hnd. unfold build_keepByPlayer.
  destruct (keep_from playerWins [] p) as [H1 H2]. split.
  - intros k Hk. apply H1 in Hk.
    destruct Hk as [Hk|[wins [w [Hin [Hw Hk]]]]]; [discriminate|].
    exists w. split; [|assumption].
    unfold wins_of. now rewrite (@In_mget _ p wins playerWins Hnd Hin).
  - intros Hlen. apply H2. right.
    unfold wins_of in Hlen.
    destruct (mget p playerWins) as [wins|] eqn:E; [|simpl in Hlen; lia].
    exists wins. split; [now apply mget_In|assumption].
Qed.

(** *** The removal *)

Lemma shrinks_refl (W : JsMap JsSet) : shrinks W W.
Proof. repeat split; auto. Qed.

Lemma shrinks_trans (W1 W2 W3 : JsMap JsSet) :
  shrinks W1 W2 -> shrinks W2 W3 -> shrinks W1 W3.
Proof.
  intros (A1 & A2 & A3) (B1 & B2 & B3). repeat split; auto.
Qed.

Lemma remove_from_shrinks (entry : string * string)
  (acc : JsMap JsSet * bool) (t : Topic) :
  shrinks (fst acc) (fst (remove_from entry acc t)).
Proof.
  unfold remove_from.
  destruct (negb (shas (fst entry) (winners_of (fst acc) (id t))));
    [apply shrinks_refl|].
  destruct (String.eqb (id t) (snd entry)); [apply shrinks_refl|].
  cbn [fst]. split; [|split].
  - intros k q. rewrite winners_of_mset.
    destruct (String.eqb (id t) k) eqn:E; [|auto].
    apply String.eqb_eq in E. subst k. intros H.
    now apply In_sdelete in H.
  - intros k H. apply In_mkeys_mset. now right.
  - intros Hn k. rewrite winners_of_mset.
    destruct (String.eqb (id t) k); [|apply Hn].
    apply NoDup_sdelete, Hn.
Qed.

Lemma remove_from_gone (entry : string * string)
  (acc : JsMap JsSet * bool) (t : Topic) :
  id t <> snd entry ->
  ~ In (fst entry) (winners_of (fst (remove_from entry acc t)) (id t)).
Proof.
  intros Hne. unfold remove_from.
  destruct (shas (fst entry) (winners_of (fst acc) (id t))) eqn:Es;
    cbn [negb].
  - destruct (String.eqb (id t) (snd entry)) eqn:E.
    + apply String.eqb_eq in E. contradiction.
    + cbn [fst]. rewrite winners_of_mset, String.eqb_refl.
      intros H. apply In_sdelete in H. tauto.
  - now apply shas_false.
Qed.

Lemma remove_from_noop (entry : string * string)
  (acc : JsMap JsSet * bool) (t : Topic) :
  (In (fst entry) (winners_of (fst acc) (id t)) -> id t = snd entry) ->
  remove_from entry acc t = acc.
Proof.
  intros H. unfold remove_from.
  destruct (shas (fst entry) (winners_of (fst acc) (id t))) eqn:Es;
    cbn [negb]; [|reflexivity].
  apply shas_In in Es. rewrite (H Es), String.eqb_refl. reflexivity.
Qed.

Lemma remove_topics_spec (entry : string * string) (ts : list Topic)
  (acc : JsMap JsSet * bool) :
  shrinks (fst acc) (fst (fold_left (remove_from entry) ts acc))
  /\ (forall t, In t ts -> id t <> snd entry ->
                ~ In (fst entry)
                    (winners_of
                       (fst (fold_left (remove_from entry) ts acc)) (id t)))
  /\ ((forall t, In t ts ->
                 In (fst entry) (winners_of (fst acc) (id t)) ->
                 id t = snd entry) ->
      fold_left (remove_from entry) ts acc = acc).
Proof.
  revert acc. induction ts as [|t ts IH]; intros acc.
  - simpl. split; [apply shrinks_refl|]. split; [intros t []|auto].
  - cbn [fold_left].
    destruct (IH (remove_from entry acc t)) as (I1 & I2 & I3).
    pose proof (remove_from_shrinks entry acc t) as Hs.
    split; [|split].
    + eapply shrinks_trans; eauto.
    + intros t' [<-|Ht'] Hne; [|now apply I2].
      intros Hin. apply I1 in Hin.
      now apply (@remove_from_gone entry acc t Hne).
    + intros H. rewrite remove_from_noop by (apply H; now left).
      rewrite remove_from_noop in I3 by (apply H; now left).
      apply I3. intros t' Ht'. apply H. now right.
Qed.

Lemma remove_unkept_from (topics : list Topic) (keep : JsMap string)
  (acc : JsMap JsSet * bool) :
  shrinks (fst acc)
    (fst (fold_left
            (fun acc entry => fold_left (remove_from entry) topics acc)
            keep acc))
  /\ (forall p k t,
         In (p, k) keep -> In t topics -> id t <> k ->
         ~ In p (winners_of
                   (fst (fold_left
                           (fun acc entry =>
                              fold_left (remove_from entry) topics acc)
                           keep acc)) (id t)))
  /\ ((forall p k t,
          In (p, k) keep -> In t topics ->
          In p (winners_of (fst acc) (id t)) -> id t = k) ->
      fold_left
        (fun acc entry => fold_left (remove_from entry) topics acc)
        keep acc = acc).
Proof.
  revert acc. induction keep as [|[p0 k0] keep IH]; intros acc.
  - simpl. split; [apply shrinks_refl|]. split; [intros p k t []|auto].
  - cbn [fold_left].
    destruct (remove_topics_spec (p0, k0) topics acc) as (T1 & T2 & T3).
    destruct (IH (fold_left (remove_from (p0, k0)) topics acc))
      as (I1 & I2 & I3).
    split; [|split].
    + eapply shrinks_trans; eauto.
    + intros p k t [H|H] Ht Hne; [|now apply (I2 p k t)].
      injection H as <- <-. intros Hin. apply I1 in Hin.
      now apply (T2 t Ht Hne).
    + intros H.
      assert (E : fold_left (remove_from (p0, k0)) topics acc = acc).
      { apply T3. intros t Ht. apply (H p0 k0 t); [now left|assumption]. }
      rewrite E. rewrite E in I3. apply I3.
      intros p k t Hin. apply H. now right.
Qed.

Lemma remove_unkept_spec (topics : list Topic) (keep : JsMap string)
  (W : JsMap JsSet) (changed : bool) :
  shrinks W (fst (remove_unkept topics keep W changed))
  /\ (forall p k t,
         In (p, k) keep -> In t topics -> id t <> k ->
         ~ In p (winners_of (fst (remove_unkept topics keep W changed))
                            (id t)))
  /\ ((forall p k t,
          In (p, k) keep -> In t topics ->
          In p (winners_of W (id t)) -> id t = k) ->
      remove_unkept topics keep W changed = (W, changed)).
Proof.
  unfold remove_unkept.
  apply (remove_unkept_from topics keep (W, changed)).
Qed.

(** After the removal no participant is left in the winner sets of two
    topic ids. *)
Lemma removal_makes_disjoint (bidLists : JsMap (list Cand))
  (topics : list Topic) (W : JsMap JsSet) (changed : bool) :
  winners_listed bidLists W ->
  disjoint_winners topics
    (fst (remove_unkept topics
            (build_keepByPlayer (buildPlayerWins bidLists topics W))
            W changed)).
Proof.
  intros Hl t1 t2 p H1 H2 Hp1 Hp2.
  set (pw := buildPlayerWins bidLists topics W) in *.
  set (keep := build_keepByPlayer pw) in *.
  destruct (remove_unkept_spec topics keep W changed) as ((S1 & _) & S2 & _).
  destruct (buildPlayerWins_spec bidLists topics W) as [_ Hnd].
  destruct (@keepByPlayer_spec pw p Hnd) as [_ K2].
  destruct (string_dec (id t1) (id t2)) as [E|Hne]; [assumption|].
  exfalso.
  assert (Hk : mget p keep <> None).
  { apply K2. apply (@two_wins bidLists topics W t1 t2 p); auto. }
  destruct (mget p keep) as [k|] eqn:Ek; [|congruence].
  apply mget_In in Ek.
  destruct (string_dec (id t1) k) as [E1|N1].
  - destruct (string_dec (id t2) k) as [E2|N2]; [congruence|].
    now apply (S2 p k t2 Ek H2 N2).
  - now apply (S2 p k t1 Ek H1 N1).
Qed.

(** On winner sets that are disjoint already the removal does
    nothing. *)
Lemma removal_noop_on_disjoint (bidLists : JsMap (list Cand))
  (topics : list Topic) (W : JsMap JsSet) (changed : bool) :
  disjoint_winners topics W ->
  remove_unkept topics
    (build_keepByPlayer (buildPlayerWins bidLists topics W)) W changed
  = (W, changed).
Proof.
  intros Hd.
  set (pw := buildPlayerWins bidLists topics W).
  apply remove_unkept_spec. intros p k t Hin Ht Hp.
  destruct (buildPlayerWins_spec bidLists topics W) as [Hs Hnd].
  destruct (@keepByPlayer_spec pw p Hnd) as [K1 _].
  assert (Hget : mget p (build_keepByPlayer pw) = Some k).
  { apply In_mget; [|assumption].
    unfold build_keepByPlayer.
    assert (G : forall entries acc,
               NoDup (mkeys acc) ->
               NoDup (mkeys (fold_left keep_step entries acc))).
    { induction entries as [|e entries IH]; intros acc Ha; [assumption|].
      cbn [fold_left]. apply IH. unfold keep_step.
      destruct (List.length (snd e) <=? 1)%nat; [assumption|].
      destruct (Array_sort win_cmp (snd e)); [assumption|].
      now apply NoDup_mkeys_mset. }
    apply G. constructor. }
  destruct (K1 k Hget) as [w [Hw ->]].
  apply Hs in Hw. destruct Hw as [t' [Ht' [Hp' [b [_ ->]]]]].
  cbn [w_topicId]. now apply (Hd t t' p).
Qed.

(** *** The refill *)

Lemma fold_sadd_ids (ws : list string) (s : JsSet) (q : string) :
  In q (fold_left (fun s pid => sadd pid s) ws s) <-> In q s \/ In q ws.
Proof.
  revert s. induction ws as [|w ws IH]; intros s; simpl.
  - tauto.
  - rewrite IH, In_sadd. intuition (subst; auto).
Qed.

Lemma winningPlayers_from (ts : list Topic) (W : JsMap JsSet) (s : JsSet)
  (q : string) :
  In q (fold_left
          (fun s t =>
             fold_left (fun s pid => sadd pid s) (winners_of W (id t)) s)
          ts s)
  <-> In q s \/ exists t, In t ts /\ In q (winners_of W (id t)).
Proof.
  revert s. induction ts as [|t ts IH]; intros s; simpl.
  - split; [auto|]. intros [H|[t [[] _]]]. assumption.
  - rewrite IH, fold_sadd_ids. split.
    + intros [[H|H]|[t' [H1 H2]]]; eauto.
    + intros [H|[t' [[<-|H1] H2]]]; eauto.
Qed.

Lemma winningPlayers_covers (topics : list Topic) (W : JsMap JsSet) :
  covers topics W (build_winningPlayers topics W).
Proof.
  intros t q Ht Hq. unfold build_winningPlayers.
  apply winningPlayers_from. right. eauto.
Qed.

Lemma skipn_S_tl (A : Type) (n : nat) (l : list A) :
  skipn (S n) l = tl (skipn n l).
Proof.
  revert l. induction n as [|n IH]; intros l.
  - destruct l; reflexivity.
  - destruct l as [|a l]; [reflexivity|].
    change (skipn (S (S n)) (a :: l)) with (skipn (S n) l).
    change (skipn (S n) (a :: l)) with (skipn n l). apply IH.
Qed.

Lemma remaining_incr (l : list Cand) (idx : number) (c : Cand)
  (rest : list Cand) :
  remaining l idx = c :: rest -> remaining l (incr idx) = rest.
Proof.
  destruct idx as [| | |k]; simpl; try discriminate.
  destruct (0 <=? k) eqn:E; [|discriminate].
  apply Z.leb_le in E. intros H.
  assert (E' : (0 <=? k + 1) = true) by (apply Z.leb_le; lia).
  rewrite E'. replace (Z.to_nat (k + 1)) with (S (Z.to_nat k)) by lia.
  rewrite skipn_S_tl, H. reflexivity.
Qed.

Lemma remaining_In (l : list Cand) (idx : number) (c : Cand) :
  In c (remaining l idx) -> In c l.
Proof.
  destruct idx as [| | |k]; simpl; try tauto.
  destruct (0 <=? k); [|simpl; tauto].
  apply In_skipn_list.
Qed.

Lemma refill_walk_noop (cap : number) (rest : list Cand) (st : Refill) :
  js_lt (ssize (rf_winners st)) cap = false \/ rest = [] ->
  refill_walk cap rest st = st.
Proof.
  intros [H| ->]; [|reflexivity].
  destruct rest; [reflexivity|]. cbn [refill_walk]. now rewrite H.
Qed.

Lemma refill_walk_spec (cap : number) (rest : list Cand) (st : Refill) :
  (forall q, In q (rf_winners st) ->
             In q (rf_winners (refill_walk cap rest st)))
  /\ (forall q, In q (rf_winning st) ->
                In q (rf_winning (refill_walk cap rest st)))
  /\ (forall q, In q (rf_winners (refill_walk cap rest st)) ->
                In q (rf_winners st)
                \/ (In q (map playerId rest) /\ ~ In q (rf_winning st)))
  /\ (forall q, In q (rf_winners (refill_walk cap rest st)) ->
                In q (rf_winners st)
                \/ In q (rf_winning (refill_walk cap rest st)))
  /\ (NoDup (rf_winners st) ->
      NoDup (rf_winners (refill_walk cap rest st)))
  /\ (js_le (ssize (rf_winners st)) cap = true ->
      js_le (ssize (rf_winners (refill_walk cap rest st))) cap = true)
  /\ (List.length (rf_winners st)
      <= List.length (rf_winners (refill_walk cap rest st)))%nat.
Proof.
  revert st. induction rest as [|c rest IH]; intros st.
  - simpl. repeat split; auto.
  - cbn [refill_walk].
    destruct (js_lt (ssize (rf_winners st)) cap) eqn:Elt;
      [|repeat split; auto].
    destruct (shas (playerId c) (rf_winners st)) eqn:Ew.
    { destruct (IH (mkRefill (rf_winners st) (rf_winning st)
                      (incr (rf_idx st)) (rf_changed st)))
        as (I1 & I2 & I3 & I4 & I5 & I6 & I7).
      cbn [rf_winners rf_winning] in *.
      repeat split; auto.
      intros q Hq. apply I3 in Hq. destruct Hq as [Hq|[Hq Hn]]; auto.
      right. split; [now right|assumption]. }
    destruct (shas (playerId c) (rf_winning st)) eqn:Ep.
    { destruct (IH (mkRefill (rf_winners st) (rf_winning st)
                      (incr (rf_idx st)) (rf_changed st)))
        as (I1 & I2 & I3 & I4 & I5 & I6 & I7).
      cbn [rf_winners rf_winning] in *.
      repeat split; auto.
      intros q Hq. apply I3 in Hq. destruct Hq as [Hq|[Hq Hn]]; auto.
      right. split; [now right|assumption]. }
    destruct (IH (mkRefill (sadd (playerId c) (rf_winners st))
                    (sadd (playerId c) (rf_winning st))
                    (incr (rf_idx st)) true))
      as (I1 & I2 & I3 & I4 & I5 & I6 & I7).
    cbn [rf_winners rf_winning] in *.
    apply shas_false in Ew. apply shas_false in Ep.
    assert (Hlen : List.length (sadd (playerId c) (rf_winners st))
                   = S (List.length (rf_winners st))).
    { unfold sadd. apply shas_false in Ew. rewrite Ew.
      rewrite length_app. simpl. lia. }
    split; [|split; [|split; [|split; [|split; [|split]]]]].
    + intros q Hq. apply I1, In_sadd. now right.
    + intros q Hq. apply I2, In_sadd. now right.
    + intros q Hq. apply I3 in Hq. destruct Hq as [Hq|[Hq Hn]].
      * apply In_sadd in Hq. destruct Hq as [->|Hq]; [|now left].
        right. split; [now left|assumption].
      * right. split; [now right|].
        intros Hin. apply Hn, In_sadd. now right.
    + intros q Hq. apply I4 in Hq. destruct Hq as [Hq|Hq]; [|now right].
      apply In_sadd in Hq. destruct Hq as [->|Hq]; [|now left].
      right. apply I2, In_sadd. now left.
    + intros Hnd. apply I5. now apply NoDup_sadd.
    + intros _. apply I6. unfold ssize in *. rewrite Hlen.
      rewrite Nat2Z.inj_succ, <- Z.add_1_r. now apply js_lt_succ_le.
    + lia.
Qed.

Lemma refill_walk_saturates (cap : number) (l : list Cand)
  (rest : list Cand) (st : Refill) :
  remaining l (rf_idx st) = rest ->
  js_lt (ssize (rf_winners (refill_walk cap rest st))) cap = false
  \/ remaining l (rf_idx (refill_walk cap rest st)) = [].
Proof.
  revert st. induction rest as [|c rest IH]; intros st Hr.
  - now right.
  - cbn [refill_walk].
    destruct (js_lt (ssize (rf_winners st)) cap) eqn:Elt; [|now left].
    apply remaining_incr in Hr.
    destruct (shas (playerId c) (rf_winners st));
      [now apply IH|].
    destruct (shas (playerId c) (rf_winning st)); now apply IH.
Qed.

Lemma refill_topic_eq (bidLists : JsMap (list Cand)) (t : Topic)
  (W : JsMap JsSet) (N : JsMap number) (wp : JsSet) (ch : bool) :
  refill_topic bidLists t (mkAlloc W N, wp, ch)
  = if js_ge (ssize (winners_of W (id t))) (capacity t)
    then (mkAlloc W N, wp, ch)
    else
      let r := refill_walk (capacity t)
                 (remaining (bid_list bidLists (id t)) (idx_of N (id t)))
                 (mkRefill (winners_of W (id t)) wp (idx_of N (id t)) ch) in
      (mkAlloc (mset (id t) (rf_winners r) W) (mset (id t) (rf_idx r) N),
       rf_winning r, rf_changed r).
Proof. reflexivity. Qed.

Lemma NoDup_ids_same (topics : list Topic) (t1 t2 : Topic) :
  NoDup (map id topics) -> In t1 topics -> In t2 topics ->
  id t1 = id t2 -> t1 = t2.
Proof.
  induction topics as [|t ts IH]; simpl; [tauto|].
  intros Hnd H1 H2 E. inversion Hnd as [|? ? Hni Hnd']; subst.
  destruct H1 as [<-|H1], H2 as [<-|H2]; auto.
  - exfalso. apply Hni. rewrite E. now apply in_map.
  - exfalso. apply Hni. rewrite <- E. now apply in_map.
Qed.

Lemma refill_topic_invariant (bidLists : JsMap (list Cand))
  (topics : list Topic) (t : Topic) (acc : Alloc * JsSet * bool) :
  In t topics ->
  refill_invariant bidLists topics acc ->
  refill_invariant bidLists topics (refill_topic bidLists t acc).
Proof.
  destruct acc as [[[W N] wp] ch]. intros Ht (Hk & Hn & Hl & Hd & Hc).
  cbn [fst snd winnersByTopic] in *.
  rewrite refill_topic_eq.
  destruct (js_ge (ssize (winners_of W (id t))) (capacity t)).
  { unfold refill_invariant. cbn [fst snd winnersByTopic]. auto. }
  cbv zeta.
  set (l := bid_list bidLists (id t)).
  set (rest := remaining l (idx_of N (id t))).
  set (st0 := mkRefill (winners_of W (id t)) wp (idx_of N (id t)) ch).
  destruct (refill_walk_spec (capacity t) rest st0)
    as (R1 & R2 & R3 & R4 & R5 & _ & _).
  set (r := refill_walk (capacity t) rest st0) in *.
  cbn [rf_winners rf_winning st0] in R1, R2, R3, R4, R5.
  unfold refill_invariant. cbn [fst snd winnersByTopic].
  split; [|split; [|split; [|split]]].
  - now apply (@keys_present_mset topics (mkAlloc W N)).
  - intros k. rewrite winners_of_mset.
    destruct (String.eqb (id t) k); [|apply Hn]. apply R5, Hn.
  - intros k p. rewrite winners_of_mset.
    destruct (String.eqb (id t) k) eqn:E; [|apply Hl].
    apply String.eqb_eq in E. subst k. intros Hp.
    apply R3 in Hp. destruct Hp as [Hp|[Hp _]]; [now apply Hl|].
    unfold listed. fold l. rewrite in_map_iff in *.
    destruct Hp as [c [Hc1 Hc2]]. exists c. split; [assumption|].
    now apply (@remaining_In l (idx_of N (id t))).
  - intros t1 t2 p H1 H2. rewrite !winners_of_mset.
    destruct (String.eqb (id t) (id t1)) eqn:E1;
      destruct (String.eqb (id t) (id t2)) eqn:E2.
    + apply String.eqb_eq in E1, E2. congruence.
    + apply String.eqb_eq in E1. intros Hp1 Hp2.
      apply R3 in Hp1. destruct Hp1 as [Hp1|[_ Hp1]].
      * rewrite E1 in Hp1. now apply (Hd t1 t2 p).
      * exfalso. apply Hp1. now apply (Hc t2).
    + apply String.eqb_eq in E2. intros Hp1 Hp2.
      apply R3 in Hp2. destruct Hp2 as [Hp2|[_ Hp2]].
      * rewrite E2 in Hp2. now apply (Hd t1 t2 p).
      * exfalso. apply Hp2. now apply (Hc t1).
    + apply Hd; assumption.
  - intros t0 q H0. rewrite winners_of_mset.
    destruct (String.eqb (id t) (id t0)) eqn:E.
    + intros Hq. apply R4 in Hq. destruct Hq as [Hq|Hq]; [|assumption].
      apply R2. now apply (Hc t).
    + intros Hq. apply R2. now apply (Hc t0).
Qed.

Lemma refill_topic_saturates (bidLists : JsMap (list Cand)) (t : Topic)
  (acc : Alloc * JsSet * bool) :
  saturated_at bidLists t (fst (fst (refill_topic bidLists t acc))).
Proof.
  destruct acc as [[[W N] wp] ch]. rewrite refill_topic_eq.
  destruct (js_ge (ssize (winners_of W (id t))) (capacity t)) eqn:E.
  - left. cbn [fst winnersByTopic]. now apply js_le_not_lt.
  - cbv zeta. cbn [fst]. unfold saturated_at.
    cbn [winnersByTopic nextIndex].
    rewrite winners_of_mset, idx_of_mset, String.eqb_refl.
    now apply refill_walk_saturates.
Qed.

Lemma refill_topic_keeps_saturated (bidLists : JsMap (list Cand))
  (t t0 : Topic) (acc : Alloc * JsSet * bool) :
  saturated_at bidLists t0 (fst (fst acc)) ->
  saturated_at bidLists t0 (fst (fst (refill_topic bidLists t acc))).
Proof.
  destruct acc as [[[W N] wp] ch]. rewrite refill_topic_eq.
  destruct (js_ge (ssize (winners_of W (id t))) (capacity t));
    [auto|].
  cbv zeta. cbn [fst]. unfold saturated_at.
  cbn [winnersByTopic nextIndex].
  rewrite winners_of_mset, idx_of_mset.
  destruct (String.eqb (id t) (id t0)) eqn:E; [|auto].
  apply String.eqb_eq in E. rewrite <- E.
  intros [H|H].
  - left.
    match goal with |- context [refill_walk ?c ?rest ?st0] =>
      destruct (refill_walk_spec c rest st0)
        as (_ & _ & _ & _ & _ & _ & Hlen)
    end.
    cbn [rf_winners] in Hlen. unfold ssize in *.
    eapply js_lt_false_mono; [|exact H]. lia.
  - right. rewrite H. cbn [refill_walk rf_idx]. exact H.
Qed.

Lemma refill_topic_noop (bidLists : JsMap (list Cand)) (t : Topic)
  (acc : Alloc * JsSet * bool) :
  In (id t) (mkeys (winnersByTopic (fst (fst acc)))) ->
  In (id t) (mkeys (nextIndex (fst (fst acc)))) ->
  saturated_at bidLists t (fst (fst acc)) ->
  refill_topic bidLists t acc = acc.
Proof.
  destruct acc as [[[W N] wp] ch]. cbn [fst winnersByTopic nextIndex].
  intros HW HN Hs. rewrite refill_topic_eq.
  destruct (js_ge (ssize (winners_of W (id t))) (capacity t));
    [reflexivity|].
  cbv zeta. rewrite refill_walk_noop.
  - cbn [rf_winners rf_winning rf_idx rf_changed].
    now rewrite mset_winners_same, mset_idx_same.
  - exact Hs.
Qed.

Lemma refill_topic_capacity (bidLists : JsMap (list Cand))
  (topics : list Topic) (t : Topic) (acc : Alloc * JsSet * bool) :
  NoDup (map id topics) -> In t topics ->
  within_capacity topics (winnersByTopic (fst (fst acc))) ->
  within_capacity topics
    (winnersByTopic (fst (fst (refill_topic bidLists t acc)))).
Proof.
  destruct acc as [[[W N] wp] ch]. cbn [fst winnersByTopic].
  intros Hnd Ht Hc. rewrite refill_topic_eq.
  destruct (js_ge (ssize (winners_of W (id t))) (capacity t));
    [auto|].
  cbv zeta. cbn [fst winnersByTopic].
  intros t0 H0. rewrite winners_of_mset.
  destruct (String.eqb (id t) (id t0)) eqn:E; [|now apply Hc].
  apply String.eqb_eq in E.
  assert (t = t0) by now apply (@NoDup_ids_same topics). subst t0.
  apply refill_walk_spec. cbn [rf_winners]. now apply Hc.
Qed.

Lemma refill_all_spec (bidLists : JsMap (list Cand)) (topics : list Topic)
  (ts : list Topic) (acc : Alloc * JsSet * bool) :
  incl ts topics ->
  refill_invariant bidLists topics acc ->
  refill_invariant bidLists topics
    (fold_left (fun acc t => refill_topic bidLists t acc) ts acc)
  /\ (forall t, In t ts ->
                saturated_at bidLists t
                  (fst (fst (fold_left
                               (fun acc t => refill_topic bidLists t acc)
                               ts acc))))
  /\ (forall t, saturated_at bidLists t (fst (fst acc)) ->
                saturated_at bidLists t
                  (fst (fst (fold_left
                               (fun acc t => refill_topic bidLists t acc)
                               ts acc))))
  /\ (NoDup (map id topics) ->
      within_capacity topics (winnersByTopic (fst (fst acc))) ->
      within_capacity topics
        (winnersByTopic
           (fst (fst (fold_left
                        (fun acc t => refill_topic bidLists t acc)
                        ts acc))))).
Proof.
  revert acc. induction ts as [|t ts IH]; intros acc Hincl Hinv.
  - simpl. split; [assumption|]. split; [intros t []|]. split; auto.
  - cbn [fold_left].
    assert (Ht : In t topics) by (apply Hincl; now left).
    assert (Hincl' : incl ts topics)
      by (intros x Hx; apply Hincl; now right).
    destruct (IH (refill_topic bidLists t acc) Hincl'
                 (@refill_topic_invariant bidLists topics t acc Ht Hinv)) as (I1 & I2 & I3 & I4).
    split; [assumption|]. split; [|split].
    + intros t' [<-|Ht']; [|now apply I2].
      apply I3, refill_topic_saturates.
    + intros t' Hs. now apply I3, refill_topic_keeps_saturated.
    + intros Hnd Hc. apply I4; [assumption|].
      now apply refill_topic_capacity.
Qed.

Lemma refill_all_noop (bidLists : JsMap (list Cand)) (topics : list Topic)
  (ts : list Topic) (acc : Alloc * JsSet * bool) :
  incl ts topics ->
  keys_present topics (fst (fst acc)) ->
  saturated bidLists topics (fst (fst acc)) ->
  fold_left (fun acc t => refill_topic bidLists t acc) ts acc = acc.
Proof.
  induction ts as [|t ts IH]; intros Hincl Hk Hs; [reflexivity|].
  cbn [fold_left].
  assert (Ht : In t topics) by (apply Hincl; now left).
  rewrite refill_topic_noop.
  - apply IH; [|assumption..]. intros x Hx. apply Hincl. now right.
  - now apply Hk.
  - now apply Hk.
  - now apply Hs.
Qed.

(** *** One pass *)

Lemma pass_eq (bidLists : JsMap (list Cand)) (topics : list Topic)
  (st : Alloc) :
  pass bidLists topics st
  = let rm :=
      remove_unkept topics
        (build_keepByPlayer
           (buildPlayerWins bidLists topics (winnersByTopic st)))
        (winnersByTopic st) false in
    let acc :=
      fold_left (fun acc t => refill_topic bidLists t acc) topics
        (mkAlloc (fst rm) (nextIndex st),
         build_winningPlayers topics (fst rm), snd rm) in
    (fst (fst acc), snd acc).
Proof.
  unfold pass.
  destruct (remove_unkept topics _ (winnersByTopic st) false) as [W1 ch1].
  cbn [fst snd].
  destruct (fold_left _ topics _) as [[st2 wp2] ch2]. reflexivity.
Qed.

Lemma shrinks_within_capacity (topics : list Topic) (W W' : JsMap JsSet) :
  shrinks W W' -> sets_nodup W ->
  within_capacity topics W -> within_capacity topics W'.
Proof.
  intros (S1 & _ & S3) Hn Hc t Ht.
  eapply js_le_true_mono; [|apply (Hc t Ht)].
  apply inj_le. apply NoDup_incl_length; [now apply S3|].
  intros q. apply S1.
Qed.

Lemma pass_spec (bidLists : JsMap (list Cand)) (topics : list Topic)
  (st : Alloc) :
  keys_present topics st ->
  sets_nodup (winnersByTopic st) ->
  winners_listed bidLists (winnersByTopic st) ->
  keys_present topics (fst (pass bidLists topics st))
  /\ sets_nodup (winnersByTopic (fst (pass bidLists topics st)))
  /\ winners_listed bidLists (winnersByTopic (fst (pass bidLists topics st)))
  /\ disjoint_winners topics
       (winnersByTopic (fst (pass bidLists topics st)))
  /\ saturated bidLists topics (fst (pass bidLists topics st))
  /\ (NoDup (map id topics) ->
      within_capacity topics (winnersByTopic st) ->
      within_capacity topics
        (winnersByTopic (fst (pass bidLists topics st)))).
Proof.
  intros Hk Hn Hl. rewrite pass_eq. cbv zeta. cbn [fst].
  set (keep := build_keepByPlayer
                 (buildPlayerWins bidLists topics (winnersByTopic st))).
  pose proof (@removal_makes_disjoint bidLists topics (winnersByTopic st)
                false Hl) as Hd. fold keep in Hd.
  destruct (remove_unkept_spec topics keep (winnersByTopic st) false)
    as (Hs & _ & _).
  set (rm := remove_unkept topics keep (winnersByTopic st) false) in *.
  assert (Hinv : refill_invariant bidLists topics
                   (mkAlloc (fst rm) (nextIndex st),
                    build_winningPlayers topics (fst rm), snd rm)).
  { unfold refill_invariant. cbn [fst snd winnersByTopic].
    destruct Hs as (S1 & S2 & S3).
    split; [|split; [|split; [|split]]].
    - intros t Ht. destruct (Hk t Ht) as [K1 K2]. simpl. auto.
    - now apply S3.
    - intros k p Hp. apply Hl. now apply S1.
    - exact Hd.
    - apply winningPlayers_covers. }
  destruct (@refill_all_spec bidLists topics topics _ (incl_refl topics) Hinv)
    as ((I1 & I2 & I3 & I4 & _) & Hsat & _ & Hcap).
  repeat split; try assumption.
  - now apply I1.
  - now apply I1.
  - intros Hnd Hc. apply Hcap; [assumption|].
    cbn [fst winnersByTopic].
    now apply (@shrinks_within_capacity topics (winnersByTopic st)).
Qed.

Lemma pass_fixed (bidLists : JsMap (list Cand)) (topics : list Topic)
  (st : Alloc) :
  keys_present topics st ->
  disjoint_winners topics (winnersByTopic st) ->
  saturated bidLists topics st ->
  pass bidLists topics st = (st, false).
Proof.
  intros Hk Hd Hs. rewrite pass_eq. cbv zeta.
  rewrite removal_noop_on_disjoint by assumption. cbn [fst snd].
  rewrite (@refill_all_noop bidLists topics topics).
  - cbn [fst snd]. now destruct st.
  - apply incl_refl.
  - cbn [fst]. now destruct st.
  - cbn [fst]. now destruct st.
Qed.

(** *** The loop *)

(** The maps from which the loop starts. *)
Lemma tentative_of_spec (room : Room) :
  keys_present (topics room) (tentative_of room)
  /\ sets_nodup (winnersByTopic (tentative_of room))
  /\ winners_listed (build_bidLists room) (winnersByTopic (tentative_of room)).
Proof.
  unfold tentative_of.
  destruct (alloc_init_spec (topics room)) as [Hk He].
  apply tentative_invariants.
  - assumption.
  - intros k. rewrite He. constructor.
  - intros k p. rewrite He. intros [].
Qed.

Lemma resolve_unchanged (ceiling : nat) (bidLists : JsMap (list Cand))
  (topics : list Topic) (st : Alloc) (passes : nat) :
  resolve ceiling bidLists topics st false passes
  = mkResolved st false passes.
Proof. destruct ceiling; reflexivity. Qed.

Lemma resolve_after_first_pass (ceiling : nat)
  (bidLists : JsMap (list Cand)) (topics : list Topic) (st : Alloc) :
  keys_present topics st ->
  sets_nodup (winnersByTopic st) ->
  winners_listed bidLists (winnersByTopic st) ->
  res_alloc (resolve (S ceiling) bidLists topics st true 0)
  = fst (pass bidLists topics st)
  /\ ((1 <= ceiling)%nat ->
      res_changed (resolve (S ceiling) bidLists topics st true 0) = false
      /\ (res_passes (resolve (S ceiling) bidLists topics st true 0) <= 2)%nat).
Proof.
  intros Hk Hn Hl.
  destruct (pass_spec Hk Hn Hl) as (P1 & _ & _ & P4 & P5 & _).
  pose proof (pass_fixed P1 P4 P5) as Hfix.
  cbn [resolve].
  destruct (pass bidLists topics st) as [st1 ch1]. cbn [fst] in *.
  destruct ch1.
  - destruct ceiling as [|ceiling]; cbn [resolve].
    + split; [reflexivity|lia].
    + rewrite Hfix, resolve_unchanged. split; [reflexivity|].
      intros _. split; [reflexivity|cbn; lia].
  - rewrite resolve_unchanged. split; [reflexivity|].
    intros _. split; [reflexivity|cbn; lia].
Qed.

Lemma after_passes_stable (n : nat) (bidLists : JsMap (list Cand))
  (topics : list Topic) (st : Alloc) :
  keys_present topics st ->
  sets_nodup (winnersByTopic st) ->
  winners_listed bidLists (winnersByTopic st) ->
  after_passes (S n) bidLists topics st = fst (pass bidLists topics st).
Proof.
  intros Hk Hn Hl.
  destruct (pass_spec Hk Hn Hl) as (P1 & _ & _ & P4 & P5 & _).
  induction n as [|n IH]; [reflexivity|].
  change (after_passes (S (S n)) bidLists topics st)
    with (fst (pass bidLists topics (after_passes (S n) bidLists topics st))).
  rewrite IH. now rewrite (pass_fixed P1 P4 P5).
Qed.

Lemma refill_walk_seats_outsiders (cap : number) (rest : list Cand) (st : Refill) :
  forallb (fun q => shas q (rf_winners st) || negb (shas q (rf_winning st)))
          (rf_winners (refill_walk cap rest st)) = true.
Proof.
  apply forallb_forall. intros q Hq.
  destruct (refill_walk_spec cap rest st) as (_ & _ & R3 & _).
  apply R3 in Hq. destruct Hq as [Hq|[_ Hq]].
  - apply shas_In in Hq. now rewrite Hq.
  - apply shas_false in Hq. rewrite Hq. apply orb_true_r.
Qed.

Lemma winningPlayers_holds_winners (topics : list Topic) (W : JsMap JsSet) :
  forallb
    (fun t =>
       forallb (fun q => shas q (build_winningPlayers topics W))
               (winners_of W (id t)))
    topics = true.
Proof.
  apply forallb_forall. intros t Ht.
  apply forallb_forall. intros q Hq.
  apply shas_In. now apply (@winningPlayers_covers topics W t q).
Qed.

(** C5. The loop of [computeWinners] is left with [changed] false
    after at most two passes, well below the ceiling of 1000, in maps
    on which a further pass changes nothing; after the first pass and
    after every later pass no participant is in the winner sets of two
    topic ids; the set [winningPlayers] holds every winner of every
    topic, and the refill seats only candidates who are outside it. *)
Theorem resolution_reaches_fixed_point :
  forall room,
    res_changed (resolution room) = false
    /\ (res_passes (resolution room) <= 2)%nat
    /\ (res_passes (resolution room) < SAFETY_CEILING)%nat
    /\ pass (build_bidLists room) (topics room) (res_alloc (resolution room))
       = (res_alloc (resolution room), false)
    /\ (forall n,
           disjoint_winners (topics room)
             (winnersByTopic
                (after_passes (S n) (build_bidLists room) (topics room)
                   (tentative_of room))))
    /\ (forall W,
           forallb
             (fun t =>
                forallb
                  (fun q => shas q (build_winningPlayers (topics room) W))
                  (winners_of W (id t)))
             (topics room) = true)
    /\ (forall cap rest st,
           forallb
             (fun q => shas q (rf_winners st)
                       || negb (shas q (rf_winning st)))
             (rf_winners (refill_walk cap rest st)) = true).
Proof.
  intros room.
  destruct (tentative_of_spec room) as (Hk & Hn & Hl).
  destruct (pass_spec Hk Hn Hl) as (P1 & _ & _ & P4 & P5 & _).
  destruct (@resolve_after_first_pass 999 (build_bidLists room)
              (topics room) (tentative_of room) Hk Hn Hl) as [Ha Hb].
  destruct Hb as [Hc Hp]; [lia|].
  unfold resolution, resolution_upto, SAFETY_CEILING.
  fold (tentative_of room).
  change 1000%nat with (S 999).
  split; [exact Hc|]. split; [exact Hp|]. split; [lia|].
  split; [|split; [|split]].
  - rewrite Ha. now apply pass_fixed.
  - intros n. now rewrite after_passes_stable.
  - intros W. apply winningPlayers_holds_winners.
  - apply refill_walk_seats_outsiders.
Qed.

(** *** The result *)

Lemma build_result_winners (topics : list Topic) (W : JsMap JsSet)
  (t : Topic) :
  In t topics -> winners_in (build_result topics W) t = winners_of W (id t).
Proof.
  intros Ht. unfold winners_in, build_result. cbn [out_winnersByTopic].
  rewrite (mget_fold_mset (winners_of W)), existsb_id_In by assumption.
  reflexivity.
Qed.

Lemma bid_list_build (room : Room) (t : Topic) :
  In t (topics room) ->
  bid_list (build_bidLists room) (id t)
  = Array_sort cand_cmp (topic_bids (bids room) (id t)).
Proof.
  intros Ht. unfold bid_list, build_bidLists.
  rewrite (mget_fold_mset
             (fun k => Array_sort cand_cmp (topic_bids (bids room) k))),
    existsb_id_In by assumption.
  reflexivity.
Qed.

Lemma topic_bids_In (bs : JsMap (JsMap Bid)) (k : string) (c : Cand) :
  In c (topic_bids bs k) ->
  exists perTopic b,
    In (playerId c, perTopic) bs
    /\ mget k perTopic = Some b
    /\ js_le (Math_max (Fin 0) (Math_floor (amount b))) (Fin 0) = false.
Proof.
  unfold topic_bids. rewrite in_flat_map.
  intros [[pid perTopic] [Hin Hc]]. cbn [fst snd] in Hc.
  destruct (mget k perTopic) as [b|] eqn:Eb; [|destruct Hc].
  destruct (js_le (Math_max (Fin 0) (Math_floor (amount b))) (Fin 0)) eqn:E;
    [destruct Hc|].
  destruct Hc as [<-|[]]. cbn [playerId]. exists perTopic, b. auto.
Qed.

Lemma filter_passed_positive (a : number) :
  a <> NaN ->
  js_le (Math_max (Fin 0) (Math_floor a)) (Fin 0) = false ->
  js_gt (Math_floor a) (Fin 0) = true.
Proof.
  unfold Math_floor, js_gt. destruct a as [| | |z]; try congruence.
  - discriminate.
  - reflexivity.
  - rewrite Math_max_Fin. cbn [js_le js_lt]. intros _ H.
    apply Z.leb_gt in H. apply Z.ltb_lt. lia.
Qed.

Lemma winners_have_bids (room : Room) (t : Topic) (p : string) :
  amounts_are_numbers room ->
  In t (topics room) ->
  listed (build_bidLists room) (id t) p ->
  exists perTopic b,
    In (p, perTopic) (bids room)
    /\ mget (id t) perTopic = Some b
    /\ js_gt (Math_floor (amount b)) (Fin 0) = true.
Proof.
  intros Hnum Ht Hl. unfold listed in Hl.
  rewrite bid_list_build in Hl by assumption.
  apply in_map_iff in Hl. destruct Hl as [c [<- Hc]].
  apply Array_sort_In in Hc. apply topic_bids_In in Hc.
  destruct Hc as [perTopic [b [Hin [Hget Hf]]]].
  exists perTopic, b. repeat split; try assumption.
  apply filter_passed_positive; [|assumption].
  apply (Hnum (playerId c) perTopic (id t) b Hin). now apply mget_In.
Qed.

Lemma resolution_upto_alloc (ceiling : nat) (room : Room) :
  res_alloc (resolution_upto (S ceiling) room)
  = fst (pass (build_bidLists room) (topics room) (tentative_of room)).
Proof.
  destruct (tentative_of_spec room) as (Hk & Hn & Hl).
  unfold resolution_upto. fold (tentative_of room).
  now apply resolve_after_first_pass.
Qed.

Lemma guarantee_after_first_pass (ceiling : nat) (room : Room) :
  NoDup (map id (topics room)) ->
  capacities_are_counts room ->
  amounts_are_numbers room ->
  allocation_guarantee room (computeWinners_upto (S ceiling) room).
Proof.
  intros Hnd Hcap Hnum.
  destruct (tentative_of_spec room) as (Hk & Hn & Hl).
  destruct (pass_spec Hk Hn Hl) as (_ & _ & P3 & P4 & _ & P6).
  assert (Hc0 : within_capacity (topics room)
                  (winnersByTopic (tentative_of room))).
  { unfold tentative_of. apply tentative_capacity; try assumption.
    intros t _. apply alloc_init_spec. }
  specialize (P6 Hnd Hc0).
  unfold computeWinners_upto. rewrite resolution_upto_alloc.
  set (W := winnersByTopic
              (fst (pass (build_bidLists room) (topics room)
                      (tentative_of room)))) in *.
  split; [|split].
  - intros t1 t2 p H1 H2. rewrite !build_result_winners by assumption.
    intros Hp1 Hp2. apply (@NoDup_ids_same (topics room)); try assumption.
    now apply (P4 t1 t2 p).
  - intros t Ht. rewrite build_result_winners by assumption.
    now apply P6.
  - intros t p Ht. rewrite build_result_winners by assumption.
    intros Hp. apply winners_have_bids; try assumption.
    now apply P3.
Qed.

(** C1, as amended. For a room whose topics have pairwise distinct
    ids and capacities that are non-negative numbers, and whose stored
    amounts are numbers, the result of [computeWinners] has no
    participant in the winner sets of two topics, no winner set larger
    than the capacity of its topic, and only winners with a bid of
    floored amount above zero on their topic; the same holds whatever
    positive number of passes the safety ceiling allows. *)
Theorem allocation_guarantee_distinct_ids :
  forall room,
    NoDup (map id (topics room)) ->
    capacities_are_counts room ->
    amounts_are_numbers room ->
    allocation_guarantee room (computeWinners room)
    /\ forall ceiling,
         (1 <= ceiling)%nat ->
         allocation_guarantee room (computeWinners_upto ceiling room).
Proof.
  intros room Hnd Hcap Hnum. split.
  - unfold computeWinners, SAFETY_CEILING. change 1000%nat with (S 999).
    now apply guarantee_after_first_pass.
  - intros [|ceiling] Hc; [lia|].
    now apply guarantee_after_first_pass.
Qed.

Lemma allocation_guarantee_distinct_ids_witness :
  allocation_guarantee hq_room (computeWinners hq_room)
  /\ forall ceiling,
       (1 <= ceiling)%nat ->
       allocation_guarantee hq_room (computeWinners_upto ceiling hq_room).
Proof.
  apply (@allocation_guarantee_distinct_ids hq_room).
  - repeat constructor; simpl; intuition discriminate.
  - intros t [<-|[<-|[]]]; reflexivity.
  - intros pid perTopic tid b Hin Hb. simpl in Hin.
    destruct Hin as [Hin|[Hin|[]]]; injection Hin as <- <-; simpl in Hb.
    + destruct Hb as [Hb|[Hb|[]]]; injection Hb as <- <-; discriminate.
    + destruct Hb as [Hb|[]]; injection Hb as <- <-; discriminate.
Defined.

(** C1, as stated, fails on two topics that share an id: with
    capacities 1 and 2 and two bidders, the set of the shared id gets
    both bidders, more than the capacity of the first topic. *)
Lemma allocation_guarantee_fails_on_shared_id :
  ~ allocation_guarantee same_id_room (computeWinners same_id_room).
Proof.
  intros (_ & H & _).
  specialize (H (mkTopic "A" "Topic" (Fin 1)) (or_introl eq_refl)).
  vm_compute in H. discriminate.
Qed.

(* ================================================================== *)
(** ** The budget over the events *)

(** *** What the clamp returns on a typed bid map *)

Lemma stamped_typed (now : Z) (l : list Entry) :
  Forall entry_typed l ->
  Forall (fun kv => is_nonneg_integer (amount (snd kv)) = true)
         (stamped now l)
  /\ exact_total (stamped now l) = entries_sum l.
Proof.
  induction 1 as [|[tid am t] l [a [Ha Hpos]] _ [IH1 IH2]].
  - split; [constructor|reflexivity].
  - cbn [e_amount] in Ha. subst am. split.
    + constructor; [|assumption]. simpl. now apply Z.leb_le.
    + unfold exact_total in *. cbn [stamped map fold_right snd amount
                                      e_amount].
      fold (stamped now l). rewrite IH2. reflexivity.
Qed.

Lemma clamp_typed_result (now : Z) (room : Room) (pid : string)
  (perTopic : JsMap Bid) (b : Z) :
  mget pid (bids room) = Some perTopic -> bids_typed perTopic ->
  budget (config room) = Fin b -> 0 <= b ->
  exists perTopic',
    mget pid (bids (clampBidsToBudget now room pid)) = Some perTopic'
    /\ bids_typed perTopic'
    /\ exact_total perTopic' <= b.
Proof.
  intros Hget Hty Hb Hb0.
  destruct (Z_le_gt_dec (exact_total perTopic) b) as [Hle|Hgt].
  - exists perTopic.
    rewrite (@clamp_within_budget now room pid perTopic b) by assumption.
    destruct (recomputeSpent_fields room pid)
      as (_ & _ & _ & _ & _ & Hbids & _).
    rewrite Hbids. auto.
  - assert (Hlt : b < exact_total perTopic) by lia.
    rewrite (@clamp_over_budget now room pid perTopic b) by assumption.
    set (sorted := Array_sort clamp_cmp (clamp_entries perTopic)).
    set (newMap := stamped now (spec_trim (exact_total perTopic - b) sorted)).
    exists newMap.
    match goal with |- context [recomputeSpent ?r pid] =>
      destruct (recomputeSpent_fields r pid)
        as (_ & _ & _ & _ & _ & Hbids & _)
    end.
    rewrite Hbids. cbn [bids set_bids]. rewrite mget_mset_eq.
    destruct Hty as (Hnd & Hty & Hmax). unfold MAX_EXACT in Hmax.
    destruct (clamp_entries_typed Hty) as (He & Hs & Hk).
    pose proof (Array_sort_perm clamp_cmp (clamp_entries perTopic))
      as Hperm. fold sorted in Hperm.
    assert (Hes : Forall entry_typed sorted).
    { apply Forall_forall. intros e Hin.
      apply (Permutation_in _ Hperm) in Hin.
      rewrite Forall_forall in He. now apply He. }
    assert (Hss : entries_sum sorted = exact_total perTopic).
    { rewrite <- Hs. now apply entries_sum_perm. }
    destruct (spec_trim_typed (exact_total perTopic - b) Hes)
      as (Ht1 & Ht2 & Ht3).
    destruct (stamped_typed now Ht1) as (Hn1 & Hn2).
    destruct (stamped_entries now Ht1) as (_ & _ & Hn3).
    fold newMap in Hn1, Hn2, Hn3.
    assert (Hsum : exact_total newMap = b) by (rewrite Hn2, Ht3, Hss; lia).
    split; [reflexivity|]. split; [|lia].
    split; [|split].
    + rewrite Hn3, Ht2.
      apply (Permutation_NoDup (l := map e_topicId (clamp_entries perTopic))).
      * apply Permutation_map. now symmetry.
      * now rewrite Hk.
    + assumption.
    + unfold MAX_EXACT. lia.
Qed.

Lemma clamp_frame (now : Z) (room : Room) (pid pid' : string) :
  pid <> pid' ->
  mget pid' (bids (clampBidsToBudget now room pid)) = mget pid' (bids room).
Proof.
  intros Hne. unfold clampBidsToBudget.
  destruct (mget pid (bids room)) as [perTopic|]; [|reflexivity].
  destruct (js_le _ _).
  - destruct (recomputeSpent_fields room pid)
      as (_ & _ & _ & _ & _ & Hbids & _). now rewrite Hbids.
  - match goal with |- context [recomputeSpent ?r pid] =>
      destruct (recomputeSpent_fields r pid)
        as (_ & _ & _ & _ & _ & Hbids & _)
    end.
    rewrite Hbids. cbn [bids set_bids]. now apply mget_mset_neq.
Qed.

Lemma clamp_bid_keys (now : Z) (room : Room) (pid : string) :
  mkeys (bids (clampBidsToBudget now room pid)) = mkeys (bids room).
Proof.
  unfold clampBidsToBudget.
  destruct (mget pid (bids room)) as [perTopic|] eqn:E; [|reflexivity].
  destruct (js_le _ _).
  - destruct (recomputeSpent_fields room pid)
      as (_ & _ & _ & _ & _ & Hbids & _). now rewrite Hbids.
  - match goal with |- context [recomputeSpent ?r pid] =>
      destruct (recomputeSpent_fields r pid)
        as (_ & _ & _ & _ & _ & Hbids & _)
    end.
    rewrite Hbids. cbn [bids set_bids].
    apply mkeys_mset_present, mget_In_keys. congruence.
Qed.

(** The clamp of one participant, on a room whose budget is [b] and
    whose bid maps are typed: every bid map stays typed, the bid maps
    that were within the budget stay so, and the one of the participant
    is within the budget. *)
Lemma clamp_step (now : Z) (room : Room) (pid : string) (b : Z)
  (done : string -> Prop) :
  budget (config room) = Fin b -> 0 <= b ->
  (forall p perTopic, mget p (bids room) = Some perTopic ->
                      bids_typed perTopic
                      /\ (done p -> exact_total perTopic <= b)) ->
  forall p perTopic,
    mget p (bids (clampBidsToBudget now room pid)) = Some perTopic ->
    bids_typed perTopic
    /\ (done p \/ p = pid -> exact_total perTopic <= b).
Proof.
  intros Hb Hb0 Hall p perTopic Hget.
  destruct (string_dec pid p) as [<-|Hne].
  - destruct (mget pid (bids room)) as [old|] eqn:Eo.
    + destruct (Hall pid old Eo) as [Hty _].
      destruct (@clamp_typed_result now room pid old b Eo Hty Hb Hb0)
        as (new & Hnew & Hnty & Hle).
      rewrite Hnew in Hget. injection Hget as <-. auto.
    + unfold clampBidsToBudget in Hget. rewrite Eo in Hget. congruence.
  - rewrite clamp_frame in Hget by assumption.
    destruct (Hall p perTopic Hget) as [Hty Hd]. split; [assumption|].
    intros [H|H]; [auto|congruence].
Qed.

Lemma clamp_all_typed (now : Z) (pids : list string) (room : Room) (b : Z)
  (done : string -> Prop) :
  budget (config room) = Fin b -> 0 <= b ->
  (forall p perTopic, mget p (bids room) = Some perTopic ->
                      bids_typed perTopic
                      /\ (done p -> exact_total perTopic <= b)) ->
  forall p perTopic,
    mget p (bids (fold_left (fun r pid => clampBidsToBudget now r pid)
                    pids room)) = Some perTopic ->
    bids_typed perTopic
    /\ (done p \/ In p pids -> exact_total perTopic <= b).
Proof.
  revert room done. induction pids as [|pid pids IH];
    intros room done Hb Hb0 Hall p perTopic Hget.
  - simpl in Hget. destruct (Hall p perTopic Hget) as [H1 H2].
    split; [assumption|]. intros [H|[]]. auto.
  - cbn [fold_left] in Hget.
    assert (Hb' : budget (config (clampBidsToBudget now room pid)) = Fin b).
    { destruct (clampBidsToBudget_fields now room pid)
        as (_ & _ & Hc & _). now rewrite Hc. }
    destruct (IH (clampBidsToBudget now room pid)
                 (fun q => done q \/ q = pid) Hb' Hb0
                 (@clamp_step now room pid b done Hb Hb0 Hall) p perTopic Hget)
      as [H1 H2].
    split; [assumption|]. intros [H|[H|H]]; apply H2; auto.
Qed.

Lemma clamp_all_fields (now : Z) (pids : list string) (room : Room) :
  mkeys (bids (fold_left (fun r pid => clampBidsToBudget now r pid)
                 pids room)) = mkeys (bids room)
  /\ mkeys (players (fold_left (fun r pid => clampBidsToBudget now r pid)
                       pids room)) = mkeys (players room).
Proof.
  revert room. induction pids as [|pid pids IH]; intros room; simpl.
  - split; reflexivity.
  - destruct (IH (clampBidsToBudget now room pid)) as [H1 H2].
    rewrite H1, H2, clamp_bid_keys. split; [reflexivity|].
    apply clampBidsToBudget_fields.
Qed.

(** *** A typed room respects the budget *)

Lemma exact_total_nonneg (perTopic : JsMap Bid) :
  Forall (fun kv => is_nonneg_integer (amount (snd kv)) = true) perTopic ->
  0 <= exact_total perTopic.
Proof.
  induction 1 as [|[k b] l Hb _ IH]; unfold exact_total in *; simpl; [lia|].
  simpl in Hb. destruct (amount b); simpl in *; try discriminate.
  apply Z.leb_le in Hb. lia.
Qed.

Lemma sum_amounts_from (l : JsMap Bid) (acc : Z) :
  Forall (fun kv => is_nonneg_integer (amount (snd kv)) = true) l ->
  0 <= acc -> acc + exact_total l <= 2 ^ 53 ->
  fold_left (fun s b => js_add s (amount b)) (mvalues l) (Fin acc)
  = Fin (acc + exact_total l).
Proof.
  intros Hl. revert acc.
  induction Hl as [|[k b] l Hb Hl IH]; intros acc Hacc Hmax.
  - simpl. unfold exact_total. simpl. f_equal. lia.
  - pose proof (exact_total_nonneg Hl) as Hnn.
    cbn [snd] in Hb. unfold exact_total in Hmax. cbn [fold_right snd] in Hmax.
    fold (exact_total l) in Hmax.
    cbn [mvalues map snd fold_left]. fold (mvalues l).
    destruct (amount b) as [| | |z] eqn:Ea; simpl in Hb; try discriminate.
    apply Z.leb_le in Hb. cbn [value] in Hmax.
    rewrite js_add_exact by lia. rewrite IH by lia.
    unfold exact_total. cbn [fold_right snd]. rewrite Ea. cbn [value].
    fold (exact_total l). f_equal. lia.
Qed.

Lemma sum_amounts_exact (perTopic : JsMap Bid) :
  bids_typed perTopic -> sum_amounts perTopic = Fin (exact_total perTopic).
Proof.
  intros (_ & Hty & Hmax). unfold sum_amounts, MAX_EXACT in *.
  rewrite sum_amounts_from; [reflexivity|assumption|lia|lia].
Qed.

Lemma room_typed_respects_budget (room : Room) :
  room_typed room -> budget_respected room = true.
Proof.
  intros [[b (Hb & Hr & Hall)] _]. unfold budget_respected.
  apply forallb_forall. intros pid _. unfold budget_respected_for.
  destruct (mget pid (bids room)) as [perTopic|] eqn:E; [|reflexivity].
  destruct (Hall pid perTopic E) as [Hty Hle].
  rewrite (sum_amounts_exact Hty), Hb. cbn [js_le].
  apply andb_true_iff. split; [now apply Z.leb_le|].
  destruct Hty as (_ & Hty & _).
  apply forallb_forall. intros kv Hin.
  rewrite Forall_forall in Hty. specialize (Hty kv Hin).
  destruct (amount (snd kv)); simpl in *; congruence.
Qed.

(** *** Every handler keeps a typed room typed *)

Lemma written_amount_typed (amt : option real) :
  fields_numeric (PlaceBid "" amt) ->
  exists a,
    Math_max (Fin 0) (Math_floor_real (nullish amt (RFin 0))) = Fin a
    /\ 0 <= a <= 2 ^ 52.
Proof.
  cbn [fields_numeric].
  destruct amt as [[| | |q]|]; cbn [nullish Math_floor_real]; try tauto.
  - intros _. exists 0. split; [reflexivity|lia].
  - intros Hq. set (z := Qfloor q) in *.
    destruct (Z_le_gt_dec z 0) as [Hle|Hgt].
    + exists 0. split; [|lia].
      destruct (norm_sign z) as [Hs _].
      pose proof (norm_not_NaN z) as Hn.
      unfold Math_max. destruct (norm z) eqn:En; try congruence;
        rewrite Hs; replace (0 <? z) with false
          by (symmetry; apply Z.ltb_ge; lia); reflexivity.
    + exists z. rewrite norm_exact by lia.
      rewrite Math_max_Fin, Z.max_r by lia. split; [reflexivity|lia].
  - intros _. exists 0. split; [reflexivity|lia].
Qed.

Lemma mset_bid_typed (perTopic : JsMap Bid) (k : string) (a now : Z) :
  Forall (fun kv => is_nonneg_integer (amount (snd kv)) = true) perTopic ->
  0 <= a ->
  Forall (fun kv => is_nonneg_integer (amount (snd kv)) = true)
         (mset k (mkBid (Fin a) now) perTopic)
  /\ exact_total (mset k (mkBid (Fin a) now) perTopic)
     <= exact_total perTopic + a.
Proof.
  intros Hl Ha. induction Hl as [|[k' b] l Hb Hl [IH1 IH2]].
  - simpl. split.
    + constructor; [|constructor]. simpl. now apply Z.leb_le.
    + unfold exact_total. simpl. lia.
  - cbn [mset]. destruct (String.eqb k k').
    + split.
      * constructor; [|assumption]. simpl. now apply Z.leb_le.
      * pose proof (exact_total_nonneg Hl).
        unfold exact_total in *. cbn [fold_right snd amount value].
        cbn [snd] in Hb. destruct (amount b); simpl in Hb;
          try discriminate. apply Z.leb_le in Hb. cbn [value]. lia.
    + split.
      * now constructor.
      * unfold exact_total in *. cbn [fold_right snd]. lia.
Qed.

Lemma filter_bids_typed (f : string * Bid -> bool) (perTopic : JsMap Bid) :
  bids_typed perTopic ->
  bids_typed (filter f perTopic)
  /\ exact_total (filter f perTopic) <= exact_total perTopic.
Proof.
  intros (Hnd & Hty & Hmax).
  assert (Hle : exact_total (filter f perTopic) <= exact_total perTopic).
  { clear Hnd Hmax. induction Hty as [|[k b] l Hb Hl IH]; [simpl; lia|].
    cbn [filter]. destruct (f (k, b)).
    - unfold exact_total in *. cbn [fold_right]. lia.
    - unfold exact_total in *. cbn [fold_right snd].
      cbn [snd] in Hb. destruct (amount b); simpl in Hb; try discriminate.
      apply Z.leb_le in Hb. cbn [value]. lia. }
  split; [|assumption]. split; [|split].
  - clear Hty Hmax Hle. induction perTopic as [|[k b] l IH]; [constructor|].
    cbn [filter]. inversion Hnd as [|? ? Hni Hnd']; subst.
    destruct (f (k, b)); [|now apply IH].
    cbn [mkeys map fst]. constructor; [|now apply IH].
    intros Hin. apply Hni. unfold mkeys in Hin.
    apply in_map_iff in Hin. destruct Hin as [kv [E Hin]].
    apply filter_In in Hin. apply in_map_iff. exists kv. tauto.
  - apply Forall_forall. intros kv Hin. apply filter_In in Hin.
    rewrite Forall_forall in Hty. now apply Hty.
  - lia.
Qed.

Lemma room_typed_same_bids (r r' : Room) :
  room_typed r ->
  config r' = config r -> bids r' = bids r ->
  mkeys (players r') = mkeys (players r) ->
  room_typed r'.
Proof.
  intros [[b (Hb & Hr & Hall)] Hincl] Hc Hbids Hp.
  split.
  - exists b. rewrite Hc, Hbids. auto.
  - now rewrite Hbids, Hp.
Qed.

Lemma recomputeSpent_typed (room : Room) (pid : string) :
  room_typed room -> room_typed (recomputeSpent room pid).
Proof.
  intros H.
  destruct (recomputeSpent_fields room pid) as (_ & _ & Hc & _ & _ & Hb & Hp).
  now apply (@room_typed_same_bids room (recomputeSpent room pid)).
Qed.

Lemma clamp_typed (now : Z) (room : Room) (pid : string) :
  room_typed room -> room_typed (clampBidsToBudget now room pid).
Proof.
  intros [[b (Hb & Hr & Hall)] Hincl].
  destruct (clampBidsToBudget_fields now room pid)
    as (_ & _ & Hc & _ & _ & Hp).
  split.
  - exists b. rewrite Hc. split; [assumption|]. split; [assumption|].
    intros p perTopic Hget.
    assert (H0 : 0 <= b) by lia.
    destruct (@clamp_step now room pid b (fun _ => True) Hb H0
                (fun p0 pt Hg => conj (proj1 (Hall p0 pt Hg))
                                      (fun _ => proj2 (Hall p0 pt Hg)))
                p perTopic Hget) as [H1 H2].
    split; [assumption|]. apply H2. now left.
  - now rewrite clamp_bid_keys, Hp.
Qed.

Lemma set_bid_map_typed (room : Room) (pid : string) (perTopic : JsMap Bid) :
  room_typed room ->
  In pid (mkeys (players room)) ->
  bids_typed perTopic ->
  (forall b, budget (config room) = Fin b -> exact_total perTopic <= b) ->
  room_typed (set_bids room (mset pid perTopic (bids room))).
Proof.
  intros [[b (Hb & Hr & Hall)] Hincl] Hin Hty Hle.
  split.
  - exists b. cbn [config bids set_bids].
    split; [assumption|]. split; [assumption|].
    intros p pt. rewrite mget_mset.
    destruct (String.eqb pid p); [|apply Hall].
    intros [= <-]. auto.
  - cbn [bids players set_bids]. intros k Hk.
    apply In_mkeys_mset in Hk. destruct Hk as [->|Hk]; auto.
Qed.

Lemma set_config_typed (now : Z) (room : Room) (mb : option real)
  (rb aj : option bool) :
  room_typed room -> mb <> Some RNaN ->
  room_typed (handle_set_config now room mb rb aj).
Proof.
  intros [[b (Hb & Hr & Hall)] Hincl] Hmb. unfold handle_set_config.
  set (nb := Math_max (Fin 1) (Math_min (Fin 10000) _)).
  assert (Hnb : exists b', nb = Fin b' /\ 1 <= b' <= 10000).
  { unfold nb. apply clamp_to_range; [lia|].
    destruct mb as [x|].
    - destruct x; simpl; try congruence. apply norm_not_NaN.
    - rewrite Hb. discriminate. }
  destruct Hnb as [b' [Hnb Hr']].
  set (r0 := set_config room
               (mkConfig nb (nullish rb (revealBids (config room)))
                  (nullish aj (allowJoinAfterLock (config room))))).
  assert (Hb0 : budget (config r0) = Fin b') by exact Hnb.
  assert (H0 : 0 <= b') by lia.
  destruct (clamp_all_fields now (mkeys (players room)) r0) as [Hk1 Hk2].
  split.
  - exists b'. rewrite config_clamp_all. split; [assumption|].
    split; [assumption|]. intros p perTopic Hget.
    destruct (@clamp_all_typed now (mkeys (players room)) r0 b'
                (fun _ => False) Hb0 H0
                (fun p0 pt Hg => conj (proj1 (Hall p0 pt Hg))
                                      (fun F : False => match F with end))
                p perTopic Hget) as [H1 H2].
    split; [assumption|]. apply H2. right. apply Hincl.
    change (bids room) with (bids r0). rewrite <- Hk1.
    apply mget_In_keys. congruence.
  - rewrite Hk1, Hk2. exact Hincl.
Qed.

Lemma set_topics_step_typed (now : Z) (topicIds : list string)
  (pids : list string) (room : Room) :
  room_typed room ->
  room_typed
    (fold_left
       (fun r pid =>
          match mget pid (bids r) with
          | None => r
          | Some perTopic =>
              let kept := filter (fun kv => shas (fst kv) topicIds) perTopic in
              let r1 := set_bids r (mset pid kept (bids r)) in
              clampBidsToBudget now (recomputeSpent r1 pid) pid
          end)
       pids room).
Proof.
  revert room. induction pids as [|pid pids IH]; intros room Hty;
    [assumption|].
  cbn [fold_left]. apply IH.
  destruct (mget pid (bids room)) as [perTopic|] eqn:E; [|assumption].
  cbv zeta. apply clamp_typed, recomputeSpent_typed.
  destruct Hty as [[b (Hb & Hr & Hall)] Hincl].
  destruct (Hall pid perTopic E) as [Hpt Hle].
  destruct (filter_bids_typed (fun kv => shas (fst kv) topicIds) Hpt)
    as [Hf1 Hf2].
  apply set_bid_map_typed.
  - split; [exists b; auto|assumption].
  - apply Hincl, mget_In_keys. congruence.
  - assumption.
  - intros b0 Hb0. rewrite Hb in Hb0. injection Hb0 as <-. lia.
Qed.

Lemma set_topics_typed (now : Z) (room : Room) (raw : list RawTopic) :
  room_typed room -> room_typed (handle_set_topics now room raw).
Proof.
  intros Hty. unfold handle_set_topics. cbv zeta.
  apply set_topics_step_typed.
  now apply (@room_typed_same_bids room).
Qed.

Lemma bid_typed (now : Z) (room room' : Room) (pid topicId : string)
  (amt : option real) :
  room_typed room -> In pid (mkeys (players room)) ->
  fields_numeric (PlaceBid topicId amt) ->
  handle_bid now room pid topicId amt = Some room' ->
  room_typed room'.
Proof.
  intros Hty Hin Hnum. unfold handle_bid. cbv zeta.
  destruct (written_amount_typed amt Hnum) as [a [Ha Hr]]. rewrite Ha.
  destruct (negb (existsb _ (topics room))); [discriminate|].
  intros [= <-].
  destruct Hty as [[b (Hb & Hrb & Hall)] Hincl].
  set (old := nullish (mget pid (bids room)) []).
  assert (Hold : bids_typed old /\ exact_total old <= b).
  { unfold old. destruct (mget pid (bids room)) as [pt|] eqn:E;
      cbn [nullish].
    - exact (Hall pid pt E).
    - split; [|unfold exact_total; simpl; lia].
      split; [constructor|]. split; [constructor|].
      unfold exact_total, MAX_EXACT. simpl. lia. }
  destruct Hold as [(Hnd & Hpt & Hmax) Hle].
  destruct (@mset_bid_typed old topicId a now Hpt (proj1 Hr)) as [M1 M2].
  set (new := mset topicId (mkBid (Fin a) now) old) in *.
  assert (Hnew : bids_typed new).
  { split; [now apply NoDup_mkeys_mset|]. split; [assumption|].
    unfold MAX_EXACT.
    assert (2 ^ 52 + 10000 <= 2 ^ 53) by (vm_compute; discriminate).
    lia. }
  set (room1 := set_bids room (mset pid new (bids room))).
  assert (H0 : 0 <= b) by lia.
  assert (Hb1 : budget (config room1) = Fin b) by exact Hb.
  assert (Hall1 : forall p pt, mget p (bids room1) = Some pt ->
                               bids_typed pt
                               /\ (p <> pid -> exact_total pt <= b)).
  { intros p pt. cbn [room1 bids set_bids]. rewrite mget_mset.
    destruct (String.eqb pid p) eqn:E.
    - apply String.eqb_eq in E. intros [= <-]. split; [assumption|].
      congruence.
    - intros Hg. destruct (Hall p pt Hg). auto. }
  destruct (clampBidsToBudget_fields now room1 pid)
    as (_ & _ & Hc & _ & _ & Hp).
  split.
  - exists b. rewrite Hc. split; [assumption|]. split; [assumption|].
    intros p pt Hget.
    destruct (@clamp_step now room1 pid b (fun q => q <> pid) Hb1 H0 Hall1
                p pt Hget) as [H1 H2].
    split; [assumption|]. apply H2.
    destruct (string_dec p pid); auto.
  - rewrite clamp_bid_keys, Hp. cbn [room1 bids players set_bids].
    intros k Hk. apply In_mkeys_mset in Hk.
    destruct Hk as [->|Hk]; auto.
Qed.

Lemma rooms_typed_mset (rooms : JsMap Room) (rid : string) (room : Room) :
  rooms_typed rooms -> room_typed room -> rooms_typed (mset rid room rooms).
Proof.
  intros Hrs Hr k r. rewrite mget_mset.
  destruct (String.eqb rid k); [|apply Hrs]. now intros [= <-].
Qed.

Lemma rooms_typed_mdelete (rooms : JsMap Room) (rid : string) :
  rooms_typed rooms -> rooms_typed (mdelete rid rooms).
Proof.
  intros Hrs k r. rewrite mget_mdelete.
  destruct (String.eqb rid k); [discriminate|apply Hrs].
Qed.

Lemma newRoom_typed (roomId : string) : room_typed (newRoom roomId).
Proof.
  split.
  - exists 100. split; [reflexivity|]. split; [lia|].
    intros pid perTopic H. discriminate.
  - intros k [].
Qed.

Lemma join_typed (rooms : JsMap Room) (c : Conn) (roomId name : string) :
  rooms_typed rooms ->
  rooms_typed (fst (fst (handle_join rooms c roomId name))).
Proof.
  intros Hrs. unfold handle_join.
  destruct (String.eqb roomId ""); [assumption|].
  assert (Hg : rooms_typed (fst (getOrCreateRoom rooms roomId))
               /\ room_typed (snd (getOrCreateRoom rooms roomId))).
  { unfold getOrCreateRoom.
    destruct (mget roomId rooms) as [room|] eqn:E; cbn [fst snd].
    - split; [assumption|]. now apply (Hrs roomId).
    - split; [|apply newRoom_typed].
      apply rooms_typed_mset; [assumption|apply newRoom_typed]. }
  destruct (getOrCreateRoom rooms roomId) as [rooms1 room].
  cbn [fst snd] in Hg. destruct Hg as [Hrs1 Hr].
  destruct (locked room && negb (allowJoinAfterLock (config room)));
    [assumption|].
  cbn [fst]. apply rooms_typed_mset; [assumption|].
  apply recomputeSpent_typed.
  set (pid := conn_playerId c).
  set (room1 := if no_host (hostId room) then set_hostId room (Some pid)
                else room).
  assert (H1 : room_typed room1).
  { unfold room1. destruct (no_host (hostId room)); [|assumption].
    now apply (@room_typed_same_bids room). }
  set (room2 := set_players room1
                  (mset pid (mkPlayer pid name (Fin 0)) (players room1))).
  assert (H2 : room_typed room2).
  { destruct H1 as [Hb Hincl]. split; [exact Hb|].
    cbn [room2 bids players set_players]. intros k Hk.
    apply In_mkeys_mset. right. now apply Hincl. }
  assert (Hp : In pid (mkeys (players room2))).
  { cbn [room2 players set_players]. apply In_mkeys_mset. now left. }
  destruct (mhas pid (bids room2)); [assumption|].
  apply set_bid_map_typed; try assumption.
  - split; [constructor|]. split; [constructor|].
    unfold exact_total, MAX_EXACT. simpl. lia.
  - intros b Hb. destruct H2 as [[b' (Hb' & Hr' & _)] _].
    rewrite Hb in Hb'. injection Hb' as <-.
    unfold exact_total. simpl. lia.
Qed.

Lemma close_typed (rooms : JsMap Room) (c : Conn) :
  rooms_typed rooms -> rooms_typed (fst (on_close rooms c)).
Proof.
  intros Hrs. unfold on_close.
  destruct (conn_room c) as [rid|]; [|assumption].
  destruct (mget rid rooms) as [room|] eqn:E; [|assumption].
  destruct (mget (conn_playerId c) (players room)) as [pl|]; [|assumption].
  set (pid := conn_playerId c).
  set (room1 := set_bids (set_players room (mdelete pid (players room)))
                         (mdelete pid (bids room))).
  assert (H1 : room_typed room1).
  { destruct (Hrs rid room E) as [[b (Hb & Hr & Hall)] Hincl]. split.
    - exists b. cbn [room1 config bids set_bids set_players].
      split; [assumption|]. split; [assumption|].
      intros p pt. rewrite mget_mdelete.
      destruct (String.eqb pid p); [discriminate|apply Hall].
    - cbn [room1 bids players set_bids set_players]. intros k Hk.
      apply mget_In_keys in Hk. rewrite mget_mdelete in Hk.
      destruct (String.eqb pid k) eqn:Ek; [congruence|].
      apply String.eqb_neq in Ek.
      apply mdelete_keeps_other; [|congruence].
      apply Hincl. now apply mget_In_keys. }
  set (room2 := if is_host room1 pid
                then set_hostId room1 (hd_error (mkeys (players room1)))
                else room1).
  assert (H2 : room_typed room2).
  { unfold room2. destruct (is_host room1 pid); [|assumption].
    now apply (@room_typed_same_bids room1). }
  destruct (msize (players room2) =? 0)%nat; cbn [fst].
  - now apply rooms_typed_mdelete.
  - now apply rooms_typed_mset.
Qed.

Ltac enter_room c rooms :=
  unfold on_message;
  let rid := fresh "rid" in
  let room := fresh "room" in
  let E := fresh "E" in
  let Eh := fresh "Eh" in
  destruct (conn_room c) as [rid|]; [|assumption];
  destruct (mget rid rooms) as [room|] eqn:E; [|assumption];
  destruct (negb (mhas (conn_playerId c) (players room))) eqn:Eh;
  [assumption|].

Lemma message_typed (now : Z) (msg : Message) (rooms : JsMap Room)
  (c : Conn) :
  rooms_typed rooms -> fields_numeric msg ->
  rooms_typed (fst (fst (on_message now msg rooms c))).
Proof.
  intros Hrs Hnum.
  destruct msg as [roomId name|mb rb aj|raw| | |topicId amt| |].
  - now apply join_typed.
  - enter_room c rooms.
    destruct (is_host room (conn_playerId c)); [|assumption].
    cbn [fst]. apply rooms_typed_mset; [assumption|].
    apply set_config_typed; [now apply (Hrs rid)|exact Hnum].
  - enter_room c rooms.
    destruct (is_host room (conn_playerId c)); [|assumption].
    cbn [fst]. apply rooms_typed_mset; [assumption|].
    apply set_topics_typed. now apply (Hrs rid).
  - enter_room c rooms.
    destruct (is_host room (conn_playerId c)); [|assumption].
    cbn [fst]. apply rooms_typed_mset; [assumption|].
    apply (@room_typed_same_bids room); try reflexivity.
    now apply (Hrs rid).
  - enter_room c rooms.
    destruct (is_host room (conn_playerId c)); [|assumption].
    cbn [fst]. apply rooms_typed_mset; [assumption|].
    apply (@room_typed_same_bids room); try reflexivity.
    now apply (Hrs rid).
  - enter_room c rooms.
    apply negb_false_iff, mhas_In_keys in Eh.
    destruct (negb (locked room)); [|assumption].
    destruct (handle_bid now room (conn_playerId c) topicId amt)
      as [room'|] eqn:Eb; [|assumption].
    cbn [fst]. apply rooms_typed_mset; [assumption|].
    apply (@bid_typed now room room' (conn_playerId c) topicId amt);
      try assumption.
    now apply (Hrs rid).
  - enter_room c rooms.
    destruct (is_host room (conn_playerId c)); assumption.
  - enter_room c rooms. assumption.
Qed.

(** The budget property over the events, for messages whose numeric
    fields read as numbers: in a store of typed rooms every message and
    every close leave every room typed, and a typed room respects the
    budget. *)
Theorem budget_respected_by_numeric_events :
  (forall now msg rooms c rid room,
      rooms_typed rooms -> fields_numeric msg ->
      mget rid (fst (fst (on_message now msg rooms c))) = Some room ->
      room_typed room /\ budget_respected room = true)
  /\ (forall rooms c rid room,
         rooms_typed rooms ->
         mget rid (fst (on_close rooms c)) = Some room ->
         room_typed room /\ budget_respected room = true).
Proof.
  split.
  - intros now msg rooms c rid room Hrs Hnum Hget.
    pose proof (@message_typed now msg rooms c Hrs Hnum rid room Hget) as H.
    split; [assumption|now apply room_typed_respects_budget].
  - intros rooms c rid room Hrs Hget.
    pose proof (@close_typed rooms c Hrs rid room Hget) as H.
    split; [assumption|now apply room_typed_respects_budget].
Qed.

(** The bound of [fields_numeric] on the amount is needed: 2^60 is an
    integer, but [2^60 - 100] is not a double and is rounded to
    [2^60 - 128], so the clamp leaves 128 on a budget of 100. *)
Remark bid_beyond_exact_range :
  forall now,
    exists room',
      on_message now (PlaceBid "Y" (Some (RFin (2 ^ 60 # 1)))) hq_rooms conn_q
      = ([("ROOM", room')], conn_q, [BroadcastRoomUpdate room'])
      /\ stored_bid room' "q" "X" = Some (mkBid (Fin 0) now)
      /\ stored_bid room' "q" "Y" = Some (mkBid (Fin 128) now)
      /\ budget_respected room' = false.
Proof.
  intros now. eexists. split; [vm_compute; reflexivity|].
  repeat split.
Qed.

(** The typing of the bid map matters for the idempotence of the clamp
    as well: on a bid map that holds [NaN] the total is [NaN], the test
    [total <= budget] fails at every clamp, and every clamp stamps the
    bids again. *)
Remark clamp_restamps_nan :
  clampBidsToBudget 9
    (clampBidsToBudget 7
       (set_bids over_budget_room [("h", [("X", mkBid NaN 1)])]) "h") "h"
  <> clampBidsToBudget 7
       (set_bids over_budget_room [("h", [("X", mkBid NaN 1)])]) "h".
Proof. vm_compute. discriminate. Qed.

(** C3. The walk of the clamp does not bring every overage to zero.  The
    bid of [q] on [Y] with the amount [2^60] hands the clamp a bid map
    of total [30 + 2^60] on a budget of 100.  The code adds the amounts
    to [2^60], takes the overage [2^60 - 100] rounded to [2^60 - 128],
    and leaves 0 on [X] and 128 on [Y], a total above the budget; the
    walk of Section 4.3 over the same sorted entries, subtracting the
    minimum of the amount and of the overage still left, ends with 0 on
    [X] and 100 on [Y]. *)
Theorem clamp_leaves_overage_beyond_exact_range :
  forall now,
    on_message now (PlaceBid "Y" (Some (RFin (2 ^ 60 # 1)))) hq_rooms conn_q
    = ([("ROOM", clampBidsToBudget now (big_bid_room now) "q")], conn_q,
       [BroadcastRoomUpdate (clampBidsToBudget now (big_bid_room now) "q")])
    /\ mget "q" (bids (big_bid_room now))
       = Some [("X", mkBid (Fin 30) 3); ("Y", mkBid (Fin (2 ^ 60)) now)]
    /\ budget (config (big_bid_room now)) = Fin 100
    /\ js_gt (sum_amounts
                [("X", mkBid (Fin 30) 3); ("Y", mkBid (Fin (2 ^ 60)) now)])
             (Fin 100) = true
    /\ mget "q" (bids (clampBidsToBudget now (big_bid_room now) "q"))
       = Some [("X", mkBid (Fin 0) now); ("Y", mkBid (Fin 128) now)]
    /\ stamped now
         (spec_trim
            (exact_total
               [("X", mkBid (Fin 30) 3); ("Y", mkBid (Fin (2 ^ 60)) now)]
             - 100)
            (Array_sort clamp_cmp
               (clamp_entries
                  [("X", mkBid (Fin 30) 3);
                   ("Y", mkBid (Fin (2 ^ 60)) now)])))
       = [("X", mkBid (Fin 0) now); ("Y", mkBid (Fin 100) now)]
    /\ js_le (sum_amounts
                [("X", mkBid (Fin 0) now); ("Y", mkBid (Fin 128) now)])
             (Fin 100) = false.
Proof.
  intros now. repeat split; vm_compute; reflexivity.
Qed.

(** C8. A second clamp can change what the first one left.  The room
    stored after the bid of [q] on [Y] with the amount [2^60] has been
    clamped once and holds 0 on [X] and 128 on [Y] on a budget of 100;
    clamping it again, at any time, leaves 0 on [X] and 100 on [Y], so
    the bid map after two clamps is not the bid map after one. *)
Theorem clamp_twice_differs_beyond_exact_range :
  forall now1 now2,
    on_message now1 (PlaceBid "Y" (Some (RFin (2 ^ 60 # 1)))) hq_rooms conn_q
    = ([("ROOM", clampBidsToBudget now1 (big_bid_room now1) "q")], conn_q,
       [BroadcastRoomUpdate (clampBidsToBudget now1 (big_bid_room now1) "q")])
    /\ mget "q" (bids (clampBidsToBudget now1 (big_bid_room now1) "q"))
       = Some [("X", mkBid (Fin 0) now1); ("Y", mkBid (Fin 128) now1)]
    /\ mget "q"
         (bids (clampBidsToBudget now2
                  (clampBidsToBudget now1 (big_bid_room now1) "q") "q"))
       = Some [("X", mkBid (Fin 0) now2); ("Y", mkBid (Fin 100) now2)]
    /\ clampBidsToBudget now2
         (clampBidsToBudget now1 (big_bid_room now1) "q") "q"
       <> clampBidsToBudget now1 (big_bid_room now1) "q".
Proof.
  intros now1 now2.
  assert (H1 : mget "q" (bids (clampBidsToBudget now1 (big_bid_room now1) "q"))
               = Some [("X", mkBid (Fin 0) now1); ("Y", mkBid (Fin 128) now1)])
    by (vm_compute; reflexivity).
  assert (H2 : mget "q"
                 (bids (clampBidsToBudget now2
                          (clampBidsToBudget now1 (big_bid_room now1) "q")
                          "q"))
               = Some [("X", mkBid (Fin 0) now2); ("Y", mkBid (Fin 100) now2)])
    by (vm_compute; reflexivity).
  split; [vm_compute; reflexivity|].
  split; [exact H1|]. split; [exact H2|].
  intros E. rewrite E, H1 in H2. discriminate H2.
Qed.

(** The scenario of Section 8: topics [A] and [B] of capacity 1, [p1]
    bids 50 on [A], [p2] bids 80 on [A] and 30 on [B].  [p2] keeps [A],
    [B] has no other bidder and stays empty, [p1] is not assigned. *)
Example basic_allocation :
  computeWinners
    (mkRoom "ROOM" (Some "p1") (mkConfig (Fin 100) true true) false
       [mkTopic "A" "Topic" (Fin 1); mkTopic "B" "Topic" (Fin 1)]
       [("p1", mkPlayer "p1" "Player" (Fin 50));
        ("p2", mkPlayer "p2" "Player" (Fin 110))]
       [("p1", [("A", mkBid (Fin 50) 1)]);
        ("p2", [("A", mkBid (Fin 80) 2); ("B", mkBid (Fin 30) 3)])])
  = mkWinners [("A", ["p2"]); ("B", [])] [("p2", "A")].
Proof. reflexivity. Qed.

(** The two conditions on the numbers in the guarantee of the
    allocation: a stored amount [NaN] passes the filter [amount <= 0]
    and wins its topic, and no size is at most a capacity [NaN]. *)
Remark nan_amount_wins :
  computeWinners
    (mkRoom "ROOM" (Some "p1") (mkConfig (Fin 100) true true) false
       [mkTopic "A" "Topic" (Fin 1)]
       [("p1", mkPlayer "p1" "Player" NaN)]
       [("p1", [("A", mkBid NaN 1)])])
  = mkWinners [("A", ["p1"])] [("p1", "A")]
  /\ js_gt (Math_floor NaN) (Fin 0) = false.
Proof. split; reflexivity. Qed.

Remark nan_capacity_stays_empty :
  computeWinners
    (mkRoom "ROOM" (Some "p1") (mkConfig (Fin 100) true true) false
       [mkTopic "A" "Topic" NaN]
       [("p1", mkPlayer "p1" "Player" (Fin 5))]
       [("p1", [("A", mkBid (Fin 5) 1)])])
  = mkWinners [("A", [])] []
  /\ js_le (Fin 0) NaN = false.
Proof. split; reflexivity. Qed.

(** *** The bid that a numeric amount leaves *)

Lemma spec_trim_entry (rem : Z) (l : list Entry) (e : Entry) :
  Forall entry_typed l -> In e l ->
  exists a,
    In (mkEntry (e_topicId e) (Fin a) (e_ts e)) (spec_trim rem l)
    /\ 0 <= a <= value (e_amount e).
Proof.
  intros Hl. revert rem.
  induction Hl as [|[tid am t] l [a0 [Ha Hpos]] Hl IH]; intros rem Hin.
  - destruct Hin.
  - cbn [e_amount] in Ha. subst am.
    cbn [spec_trim e_amount e_topicId e_ts value].
    destruct Hin as [<-|Hin].
    + exists (a0 - Z.min a0 (Z.max 0 rem)). split; [now left|].
      cbn [e_amount value]. lia.
    + destruct (IH (rem - a0) Hin) as [a [H1 H2]].
      exists a. split; [now right|assumption].
Qed.

(** For an amount field that reads as a number, the bid handler leaves
    for the topic a bid stamped with the time of the event, whose amount
    is a non-negative integer, at most the floored field. *)
Lemma bid_stored_for_numeric_amount (now : Z) (room room' : Room)
  (pid topicId : string) (amt : option real) :
  room_typed room ->
  fields_numeric (PlaceBid topicId amt) ->
  handle_bid now room pid topicId amt = Some room' ->
  exists a a0,
    Math_max (Fin 0) (Math_floor_real (nullish amt (RFin 0))) = Fin a0
    /\ stored_bid room' pid topicId = Some (mkBid (Fin a) now)
    /\ 0 <= a <= a0.
Proof.
  intros Hty Hnum. unfold handle_bid. cbv zeta.
  destruct (written_amount_typed amt Hnum) as [a0 [Ha Hr]]. rewrite Ha.
  destruct (negb (existsb _ (topics room))); [discriminate|].
  intros [= <-].
  destruct Hty as [[b (Hb & Hrb & Hall)] Hincl].
  set (old := nullish (mget pid (bids room)) []).
  assert (Hold : bids_typed old /\ exact_total old <= b).
  { unfold old. destruct (mget pid (bids room)) as [pt|] eqn:E;
      cbn [nullish].
    - exact (Hall pid pt E).
    - split; [|unfold exact_total; simpl; lia].
      split; [constructor|]. split; [constructor|].
      unfold exact_total, MAX_EXACT. simpl. lia. }
  destruct Hold as [(Hnd & Hpt & Hmax) Hle].
  destruct (@mset_bid_typed old topicId a0 now Hpt (proj1 Hr)) as [M1 M2].
  set (new := mset topicId (mkBid (Fin a0) now) old) in *.
  assert (Hnew : bids_typed new).
  { split; [now apply NoDup_mkeys_mset|]. split; [assumption|].
    unfold MAX_EXACT.
    assert (2 ^ 52 + 10000 <= 2 ^ 53) by (vm_compute; discriminate).
    lia. }
  set (room1 := set_bids room (mset pid new (bids room))).
  assert (Hget1 : mget pid (bids room1) = Some new) by apply mget_mset_eq.
  assert (Hb1 : budget (config room1) = Fin b) by exact Hb.
  assert (Hin : mget topicId new = Some (mkBid (Fin a0) now))
    by apply mget_mset_eq.
  assert (H0 : 0 <= b) by lia.
  destruct (Z_le_gt_dec (exact_total new) b) as [Hwithin|Hover].
  - exists a0, a0. split; [reflexivity|]. split; [|lia].
    unfold stored_bid.
    rewrite (@clamp_within_budget now room1 pid new b) by assumption.
    destruct (recomputeSpent_fields room1 pid)
      as (_ & _ & _ & _ & _ & Hbids & _).
    now rewrite Hbids, Hget1.
  - assert (Hlt : b < exact_total new) by lia.
    destruct Hnew as (Hnd' & Hty' & Hmax'). unfold MAX_EXACT in Hmax'.
    destruct (clamp_entries_typed Hty') as (He & Hs & Hk).
    set (sorted := Array_sort clamp_cmp (clamp_entries new)).
    pose proof (Array_sort_perm clamp_cmp (clamp_entries new)) as Hperm.
    fold sorted in Hperm.
    assert (Hes : Forall entry_typed sorted).
    { apply Forall_forall. intros e Hi.
      apply (Permutation_in _ Hperm) in Hi.
      rewrite Forall_forall in He. now apply He. }
    assert (Hentry : In (mkEntry topicId (Fin a0) now) sorted).
    { apply (Permutation_in _ (Permutation_sym Hperm)).
      apply mget_In in Hin. unfold clamp_entries.
      apply in_map_iff. exists (topicId, mkBid (Fin a0) now).
      split; [|assumption]. cbn [fst snd amount ts]. unfold Math_floor.
      rewrite Math_max_Fin, Z.max_r by lia. reflexivity. }
    destruct (@spec_trim_entry (exact_total new - b) sorted _ Hes Hentry)
      as [a [Hina Hra]].
    cbn [e_topicId e_ts e_amount value] in Hina, Hra.
    exists a, a0. split; [reflexivity|]. split; [|lia].
    unfold stored_bid.
    rewrite (@clamp_over_budget now room1 pid new b); try assumption;
      [|now repeat split].
    match goal with |- context [recomputeSpent ?r pid] =>
      destruct (recomputeSpent_fields r pid)
        as (_ & _ & _ & _ & _ & Hbids & _)
    end.
    rewrite Hbids. cbn [bids set_bids]. rewrite mget_mset_eq.
    fold sorted.
    destruct (spec_trim_typed (exact_total new - b) Hes) as (Ht1 & Ht2 & _).
    destruct (stamped_entries now Ht1) as (_ & _ & Hn3).
    apply In_mget.
    + rewrite Hn3, Ht2.
      apply (Permutation_NoDup (l := map e_topicId (clamp_entries new))).
      * apply Permutation_map. now symmetry.
      * now rewrite Hk.
    + unfold stamped. apply in_map_iff.
      exists (mkEntry topicId (Fin a) now). split; [reflexivity|assumption].
Qed.

(* ================================================================== *)
(** * Further properties *)

(** ** The handlers as steps of a room *)

Lemma handle_join_eq (rooms : JsMap Room) (c : Conn) (roomId name : string) :
  handle_join rooms c roomId name
  = if String.eqb roomId "" then (rooms, c, [SendError "Room code required."])
    else
      let rooms1 := fst (getOrCreateRoom rooms roomId) in
      let room := snd (getOrCreateRoom rooms roomId) in
      let c1 := mkConn (conn_playerId c) (Some roomId) in
      if locked room && negb (allowJoinAfterLock (config room))
      then (rooms1, c1, [SendError "Room is locked."])
      else
        (mset roomId (join_room (conn_playerId c) name room) rooms1, c1,
         [SendJoined (conn_playerId c)
            (join_room (conn_playerId c) name room);
          BroadcastRoomUpdate (join_room (conn_playerId c) name room)]).
Proof.
  unfold handle_join. destruct (String.eqb roomId ""); [reflexivity|].
  destruct (getOrCreateRoom rooms roomId) as [rooms1 room]. reflexivity.
Qed.

Lemma on_close_eq (rooms : JsMap Room) (c : Conn) :
  on_close rooms c
  = match conn_room c with
    | None => (rooms, [])
    | Some rid =>
        match mget rid rooms with
        | None => (rooms, [])
        | Some room =>
            match mget (conn_playerId c) (players room) with
            | None => (rooms, [])
            | Some _ =>
                let room2 := leave_room (conn_playerId c) room in
                if (msize (players room2) =? 0)%nat
                then (mdelete (r_id room2) rooms, [])
                else (mset rid room2 rooms, [BroadcastRoomUpdate room2])
            end
        end
    end.
Proof. reflexivity. Qed.

Ltac enter_room' c rooms :=
  unfold on_message;
  let rid := fresh "rid" in
  let room := fresh "room" in
  let E := fresh "E" in
  let Eh := fresh "Eh" in
  destruct (conn_room c) as [rid|]; [|now left];
  destruct (mget rid rooms) as [room|] eqn:E; [|now left];
  destruct (negb (mhas (conn_playerId c) (players room))) eqn:Eh;
  [now left|];
  apply negb_false_iff, mhas_In_keys in Eh.

(** Every message leaves the store as it is, or replaces one room by a
    step of it, or adds the room of a first [join]. *)
Lemma on_message_effect (now : Z) (msg : Message) (rooms : JsMap Room)
  (c : Conn) :
  fst (fst (on_message now msg rooms c)) = rooms
  \/ exists rid room',
      fst (fst (on_message now msg rooms c)) = mset rid room' rooms
      /\ ((exists room,
              mget rid rooms = Some room
              /\ room_step now (conn_playerId c) room room')
          \/ (mget rid rooms = None
              /\ exists name,
                  room' = join_room (conn_playerId c) name (newRoom rid))).
Proof.
  destruct msg as [roomId name|mb rb aj|raw| | |topicId amt| |].
  - cbn [on_message]. rewrite handle_join_eq.
    destruct (String.eqb roomId ""); [now left|]. cbv zeta.
    unfold getOrCreateRoom.
    destruct (mget roomId rooms) as [room|] eqn:E; cbn [fst snd].
    + destruct (locked room && negb (allowJoinAfterLock (config room)))
        eqn:El; [now left|].
      right. exists roomId, (join_room (conn_playerId c) name room).
      split; [reflexivity|]. left. exists room. split; [assumption|].
      now constructor.
    + right. exists roomId,
        (join_room (conn_playerId c) name (newRoom roomId)).
      cbn [fst]. split; [apply mset_mset|]. right.
      split; [assumption|]. now exists name.
  - enter_room' c rooms.
    destruct (is_host room (conn_playerId c)) eqn:Ei; [|now left].
    right. exists rid, (handle_set_config now room mb rb aj).
    split; [reflexivity|]. left. exists room. split; [assumption|].
    now constructor.
  - enter_room' c rooms.
    destruct (is_host room (conn_playerId c)) eqn:Ei; [|now left].
    right. exists rid, (handle_set_topics now room raw).
    split; [reflexivity|]. left. exists room. split; [assumption|].
    now constructor.
  - enter_room' c rooms.
    destruct (is_host room (conn_playerId c)) eqn:Ei; [|now left].
    right. exists rid, (set_locked room true).
    split; [reflexivity|]. left. exists room. split; [assumption|].
    now constructor.
  - enter_room' c rooms.
    destruct (is_host room (conn_playerId c)) eqn:Ei; [|now left].
    right. exists rid, (set_locked room false).
    split; [reflexivity|]. left. exists room. split; [assumption|].
    now constructor.
  - enter_room' c rooms.
    destruct (locked room) eqn:El; [now left|]. cbn [negb].
    destruct (handle_bid now room (conn_playerId c) topicId amt)
      as [room'|] eqn:Eb; [|now left].
    right. exists rid, room'.
    split; [reflexivity|]. left. exists room. split; [assumption|].
    now apply (@step_bid now (conn_playerId c) topicId amt).
  - enter_room' c rooms.
    destruct (is_host room (conn_playerId c)); now left.
  - enter_room' c rooms. now left.
Qed.

(** The close of a connection leaves the store as it is, or deletes the
    room the participant was the last of, or replaces the room by the
    one it left. *)
Lemma on_close_effect (rooms : JsMap Room) (c : Conn) :
  fst (on_close rooms c) = rooms
  \/ exists rid room,
      conn_room c = Some rid
      /\ mget rid rooms = Some room
      /\ In (conn_playerId c) (mkeys (players room))
      /\ ((players (leave_room (conn_playerId c) room) = []
           /\ fst (on_close rooms c) = mdelete (r_id room) rooms)
          \/ (players (leave_room (conn_playerId c) room) <> []
              /\ fst (on_close rooms c)
                 = mset rid (leave_room (conn_playerId c) room) rooms)).
Proof.
  rewrite on_close_eq.
  destruct (conn_room c) as [rid|]; [|now left].
  destruct (mget rid rooms) as [room|] eqn:E; [|now left].
  destruct (mget (conn_playerId c) (players room)) as [pl|] eqn:Ep;
    [|now left].
  right. exists rid, room. split; [reflexivity|]. split; [assumption|].
  split; [apply mget_In_keys; congruence|]. cbv zeta.
  assert (Hid : r_id (leave_room (conn_playerId c) room) = r_id room).
  { unfold leave_room. now destruct (is_host _ _). }
  unfold msize.
  destruct (players (leave_room (conn_playerId c) room)) as [|x l] eqn:El;
    cbn [length Nat.eqb fst].
  - left. split; [reflexivity|]. now rewrite Hid.
  - right. split; [discriminate|reflexivity].
Qed.

(** A property of every stored room that the steps keep is kept by
    every message and by every close. *)
Lemma every_room_message (P : string -> Room -> Prop) :
  (forall now pid rid room room',
      P rid room -> room_step now pid room room' -> P rid room') ->
  (forall rid pid name, P rid (join_room pid name (newRoom rid))) ->
  forall now msg rooms c,
    every_room P rooms ->
    every_room P (fst (fst (on_message now msg rooms c))).
Proof.
  intros Hstep Hnew now msg rooms c Hall.
  destruct (on_message_effect now msg rooms c)
    as [->|(rid & room' & -> & Hr)]; [assumption|].
  intros k r. rewrite mget_mset.
  destruct (String.eqb rid k) eqn:Ek; [|apply Hall].
  apply String.eqb_eq in Ek. subst k. intros [= <-].
  destruct Hr as [(room & E & Hs)|(E & name & ->)].
  - apply (Hstep now (conn_playerId c) rid room); [now apply Hall|assumption].
  - apply Hnew.
Qed.

Lemma every_room_close (P : string -> Room -> Prop) :
  (forall pid rid room,
      P rid room -> In pid (mkeys (players room)) ->
      players (leave_room pid room) <> [] ->
      P rid (leave_room pid room)) ->
  forall rooms c,
    every_room P rooms -> every_room P (fst (on_close rooms c)).
Proof.
  intros Hleave rooms c Hall.
  destruct (on_close_effect rooms c)
    as [->|(rid & room & _ & E & Hin & [[_ ->]|[Hne ->]])]; [assumption| |].
  - intros k r. rewrite mget_mdelete.
    destruct (String.eqb (r_id room) k); [discriminate|apply Hall].
  - intros k r. rewrite mget_mset.
    destruct (String.eqb rid k) eqn:Ek; [|apply Hall].
    apply String.eqb_eq in Ek. subst k. intros [= <-].
    apply Hleave; [now apply Hall|assumption|assumption].
Qed.

Lemma every_room_events (P : string -> Room -> Prop) :
  (forall now pid rid room room',
      P rid room -> room_step now pid room room' -> P rid room') ->
  (forall rid pid name, P rid (join_room pid name (newRoom rid))) ->
  (forall pid rid room,
      P rid room -> In pid (mkeys (players room)) ->
      players (leave_room pid room) <> [] ->
      P rid (leave_room pid room)) ->
  forall events rooms,
    every_room P rooms -> every_room P (after_events events rooms).
Proof.
  intros Hstep Hnew Hleave events.
  induction events as [|e events IH]; intros rooms Hall; [assumption|].
  unfold after_events. cbn [fold_left]. apply IH.
  destruct e as [now msg c|c]; cbn [after_event].
  - now apply every_room_message.
  - now apply every_room_close.
Qed.

Lemma every_room_empty (P : string -> Room -> Prop) : every_room P [].
Proof. intros rid room H. discriminate. Qed.

(** ** What the handlers leave alone *)

Lemma In_mkeys_mdelete (V : Type) (k k' : string) (m : JsMap V) :
  In k' (mkeys (mdelete k m)) <-> k' <> k /\ In k' (mkeys m).
Proof.
  rewrite <- !mget_In_keys, mget_mdelete.
  destruct (String.eqb k k') eqn:E.
  - apply String.eqb_eq in E. subst. split; [congruence|]. now intros [H _].
  - apply String.eqb_neq in E. split; [split; [congruence|assumption]|].
    now intros [_ H].
Qed.

Lemma same_frame_refl (r : Room) : same_frame r r.
Proof. unfold same_frame. now repeat split. Qed.

Lemma same_frame_trans (r1 r2 r3 : Room) :
  same_frame r1 r2 -> same_frame r2 r3 -> same_frame r1 r3.
Proof.
  unfold same_frame.
  intros (A1 & A2 & A3 & A4 & A5 & A6 & A7) (B1 & B2 & B3 & B4 & B5 & B6 & B7).
  split; [congruence|]. split; [congruence|]. split; [congruence|].
  split; [congruence|]. split; [congruence|]. split; congruence.
Qed.

Lemma recomputeSpent_same_frame (room : Room) (pid : string) :
  same_frame room (recomputeSpent room pid).
Proof.
  destruct (recomputeSpent_fields room pid)
    as (H1 & H2 & H3 & H4 & H5 & H6 & H7).
  unfold same_frame. rewrite H6. now repeat split.
Qed.

Lemma clamp_same_frame (now : Z) (room : Room) (pid : string) :
  same_frame room (clampBidsToBudget now room pid).
Proof.
  destruct (clampBidsToBudget_fields now room pid)
    as (H1 & H2 & H3 & H4 & H5 & H6).
  pose proof (clamp_bid_keys now room pid) as H7.
  unfold same_frame. now repeat split.
Qed.

Lemma clamp_all_same_frame (now : Z) (pids : list string) (room : Room) :
  same_frame room
    (fold_left (fun r pid => clampBidsToBudget now r pid) pids room).
Proof.
  revert room. induction pids as [|pid pids IH]; intros room;
    [apply same_frame_refl|].
  cbn [fold_left].
  apply (@same_frame_trans room (clampBidsToBudget now room pid));
    [apply clamp_same_frame|apply IH].
Qed.

Lemma set_config_same_frame (now : Z) (room : Room) (mb : option real)
  (rb aj : option bool) :
  same_frame
    (set_config room (config (handle_set_config now room mb rb aj)))
    (handle_set_config now room mb rb aj).
Proof.
  unfold handle_set_config. cbv zeta.
  match goal with
  | |- same_frame _ (fold_left ?f ?pids ?r0) =>
      pose proof (clamp_all_same_frame now pids r0) as H
  end.
  destruct H as (H1 & H2 & H3 & H4 & H5 & H6 & H7).
  unfold same_frame. rewrite H3. now repeat split.
Qed.

Lemma prune_and_clamp_same_frame (now : Z) (ids : list string) (r : Room)
  (pid : string) :
  same_frame r (prune_and_clamp now ids r pid).
Proof.
  unfold prune_and_clamp.
  destruct (mget pid (bids r)) as [perTopic|] eqn:E;
    [|apply same_frame_refl].
  cbv zeta.
  set (r1 := set_bids r
               (mset pid (filter (fun kv => shas (fst kv) ids) perTopic)
                  (bids r))).
  apply (@same_frame_trans r (recomputeSpent r1 pid));
    [|apply clamp_same_frame].
  apply (@same_frame_trans r r1); [|apply recomputeSpent_same_frame].
  unfold same_frame, r1. cbn [r_id hostId config locked topics players bids
                               set_bids].
  repeat split. apply mkeys_mset_present, mget_In_keys. congruence.
Qed.

Lemma prune_all_same_frame (now : Z) (ids pids : list string) (r : Room) :
  same_frame r (fold_left (prune_and_clamp now ids) pids r).
Proof.
  revert r. induction pids as [|pid pids IH]; intros r;
    [apply same_frame_refl|].
  cbn [fold_left].
  apply (@same_frame_trans r (prune_and_clamp now ids r pid));
    [apply prune_and_clamp_same_frame|apply IH].
Qed.

Lemma handle_set_topics_eq (now : Z) (room : Room) (raw : list RawTopic) :
  handle_set_topics now room raw
  = fold_left
      (prune_and_clamp now (map id (map clean_topic (firstn 50 raw))))
      (mkeys (bids room))
      (set_topics room (map clean_topic (firstn 50 raw))).
Proof. reflexivity. Qed.

Lemma set_topics_same_frame (now : Z) (room : Room) (raw : list RawTopic) :
  same_frame (set_topics room (map clean_topic (firstn 50 raw)))
             (handle_set_topics now room raw).
Proof. rewrite handle_set_topics_eq. apply prune_all_same_frame. Qed.

Lemma handle_bid_frame (now : Z) (room room' : Room) (pid topicId : string)
  (amt : option real) :
  handle_bid now room pid topicId amt = Some room' ->
  r_id room' = r_id room
  /\ hostId room' = hostId room
  /\ config room' = config room
  /\ locked room' = locked room
  /\ topics room' = topics room
  /\ mkeys (players room') = mkeys (players room)
  /\ (forall p, In p (mkeys (bids room'))
                <-> p = pid \/ In p (mkeys (bids room))).
Proof.
  unfold handle_bid.
  destruct (negb (existsb _ (topics room))); [discriminate|].
  cbv zeta. intros [= <-].
  match goal with
  | |- context [clampBidsToBudget now ?r pid] =>
      destruct (clamp_same_frame now r pid)
        as (H1 & H2 & H3 & H4 & H5 & H6 & H7)
  end.
  rewrite H1, H2, H3, H4, H5, H6, H7.
  cbn [r_id hostId config locked topics players bids set_bids].
  repeat split; try (intros H; now apply In_mkeys_mset in H);
    try (intros H; now apply In_mkeys_mset).
Qed.

Lemma join_room_frame (pid name : string) (room : Room) :
  r_id (join_room pid name room) = r_id room
  /\ hostId (join_room pid name room)
     = (if no_host (hostId room) then Some pid else hostId room)
  /\ config (join_room pid name room) = config room
  /\ locked (join_room pid name room) = locked room
  /\ topics (join_room pid name room) = topics room
  /\ (forall p, In p (mkeys (players (join_room pid name room)))
                <-> p = pid \/ In p (mkeys (players room)))
  /\ (forall p, In p (mkeys (bids (join_room pid name room)))
                <-> p = pid \/ In p (mkeys (bids room))).
Proof.
  unfold join_room. cbv zeta.
  match goal with
  | |- context [recomputeSpent ?r pid] =>
      destruct (recomputeSpent_fields r pid)
        as (H1 & H2 & H3 & H4 & H5 & H6 & H7)
  end.
  rewrite H1, H2, H3, H4, H5, H6, H7.
  set (room1 := if no_host (hostId room) then set_hostId room (Some pid)
                else room).
  assert (F1 : r_id room1 = r_id room /\ config room1 = config room
               /\ locked room1 = locked room /\ topics room1 = topics room
               /\ players room1 = players room /\ bids room1 = bids room
               /\ hostId room1
                  = (if no_host (hostId room) then Some pid
                     else hostId room)).
  { unfold room1. destruct (no_host (hostId room)); now repeat split. }
  destruct F1 as (F1 & F2 & F3 & F4 & F5 & F6 & F7).
  set (room2 := set_players room1
                  (mset pid (mkPlayer pid name (Fin 0)) (players room1))).
  destruct (mhas pid (bids room2)) eqn:Eh;
    cbn [r_id hostId config locked topics players bids set_bids set_players
         room2];
    rewrite ?F5, ?F6.
  - split; [assumption|]. split; [assumption|]. split; [assumption|].
    split; [assumption|]. split; [assumption|].
    split; [intros p; apply In_mkeys_mset|].
    intros p. split; [now right|]. intros [->|H]; [|assumption].
    apply mhas_In_keys in Eh.
    cbn [room2 bids set_players] in Eh. now rewrite F6 in Eh.
  - split; [assumption|]. split; [assumption|]. split; [assumption|].
    split; [assumption|]. split; [assumption|].
    split; intros p; apply In_mkeys_mset.
Qed.

Lemma leave_room_frame (pid : string) (room : Room) :
  r_id (leave_room pid room) = r_id room
  /\ config (leave_room pid room) = config room
  /\ locked (leave_room pid room) = locked room
  /\ topics (leave_room pid room) = topics room
  /\ players (leave_room pid room) = mdelete pid (players room)
  /\ bids (leave_room pid room) = mdelete pid (bids room)
  /\ hostId (leave_room pid room)
     = (if is_host room pid
        then hd_error (mkeys (mdelete pid (players room)))
        else hostId room).
Proof.
  unfold leave_room. cbv zeta.
  replace (is_host (set_bids (set_players room (mdelete pid (players room)))
                      (mdelete pid (bids room))) pid)
    with (is_host room pid) by reflexivity.
  destruct (is_host room pid); now repeat split.
Qed.

(** ** The store holds sound rooms *)

Lemma room_sound_frame (rid : string) (r r' : Room) :
  same_frame r r' -> room_sound rid r -> room_sound rid r'.
Proof.
  intros (A1 & A2 & A3 & A4 & A5 & A6 & A7) (S1 & S2 & S3).
  unfold room_sound. rewrite A1, A2, A6, A7. auto.
Qed.

Lemma room_sound_step (now : Z) (pid rid : string) (room room' : Room) :
  room_sound rid room -> room_step now pid room room' ->
  room_sound rid room'.
Proof.
  intros Hs Hstep.
  destruct Hstep as [name room El|b rb aj room Hin Hh|raw room Hin Hh
                    |flag room Hin Hh|topicId amt room room' Hin Hl Hb].
  - destruct Hs as (S1 & (h & S2 & S2') & S3).
    destruct (join_room_frame pid name room)
      as (F1 & F2 & _ & _ & _ & F6 & F7).
    split; [congruence|]. split.
    + rewrite F2, S2.
      destruct (no_host (Some h)).
      * exists pid. split; [reflexivity|]. apply F6. now left.
      * exists h. split; [reflexivity|]. apply F6. now right.
    + intros p. rewrite F6, F7, S3. reflexivity.
  - apply (@room_sound_frame rid
             (set_config room
                (config (handle_set_config now room b rb aj))));
      [apply set_config_same_frame|exact Hs].
  - apply (@room_sound_frame rid
             (set_topics room (map clean_topic (firstn 50 raw))));
      [apply set_topics_same_frame|exact Hs].
  - exact Hs.
  - destruct Hs as (S1 & S2 & S3).
    destruct (handle_bid_frame _ _ _ _ _ Hb)
      as (F1 & F2 & _ & _ & _ & F6 & F7).
    unfold room_sound. rewrite F1, F2, F6.
    split; [assumption|]. split; [assumption|].
    intros p. rewrite F7, <- S3. split; [now right|].
    intros [->|H]; assumption.
Qed.

Lemma room_sound_new (rid pid name : string) :
  room_sound rid (join_room pid name (newRoom rid)).
Proof.
  destruct (join_room_frame pid name (newRoom rid))
    as (F1 & F2 & _ & _ & _ & F6 & F7).
  split; [exact F1|]. split.
  - exists pid. split; [exact F2|]. apply F6. now left.
  - intros p. rewrite F6, F7. reflexivity.
Qed.

Lemma room_sound_leave (pid rid : string) (room : Room) :
  room_sound rid room -> In pid (mkeys (players room)) ->
  players (leave_room pid room) <> [] ->
  room_sound rid (leave_room pid room).
Proof.
  intros (S1 & (h & S2 & S2') & S3) Hin Hne.
  destruct (leave_room_frame pid room)
    as (F1 & _ & _ & _ & F5 & F6 & F7).
  unfold room_sound. rewrite F1, F5, F6, F7. rewrite F5 in Hne.
  split; [assumption|]. split.
  - unfold is_host. rewrite S2.
    destruct (String.eqb h pid) eqn:E.
    + destruct (mdelete pid (players room)) as [|[k v] m] eqn:Em;
        [congruence|].
      exists k. split; [reflexivity|]. now left.
    + exists h. split; [reflexivity|].
      apply String.eqb_neq in E. now apply mdelete_keeps_other.
  - intros p. rewrite !In_mkeys_mdelete, S3. reflexivity.
Qed.

Lemma hq_rooms_sound : every_room room_sound hq_rooms.
Proof.
  intros rid room H. unfold hq_rooms in H. cbn [mget] in H.
  destruct (String.eqb rid "ROOM") eqn:E; [|discriminate].
  apply String.eqb_eq in E. subst rid. injection H as <-.
  split; [reflexivity|]. split.
  - exists "h". split; [reflexivity|]. now left.
  - intros p. reflexivity.
Qed.

(** X1. Every stored room is stored under its own id, has its host
    among its participants (so it is not empty), and holds a bid map
    for each participant and for nobody else.  Every message and every
    close keep this, so it holds after any sequence of events on the
    empty store. *)
Theorem store_holds_sound_rooms :
  (forall now msg rooms c,
      every_room room_sound rooms ->
      every_room room_sound (fst (fst (on_message now msg rooms c))))
  /\ (forall rooms c,
         every_room room_sound rooms ->
         every_room room_sound (fst (on_close rooms c)))
  /\ (forall events, every_room room_sound (after_events events [])).
Proof.
  split; [|split].
  - apply every_room_message.
    + intros now pid rid room room'. apply room_sound_step.
    + apply room_sound_new.
  - apply every_room_close. intros pid rid room. apply room_sound_leave.
  - intros events. apply every_room_events.
    + intros now pid rid room room'. apply room_sound_step.
    + apply room_sound_new.
    + intros pid rid room. apply room_sound_leave.
    + apply every_room_empty.
Qed.

Lemma store_holds_sound_rooms_witness :
  every_room room_sound
    (fst (fst (on_message 7 (PlaceBid "X" (Some (RFin (5 # 1))))
                 hq_rooms conn_q)))
  /\ every_room room_sound (fst (on_close hq_rooms conn_h)).
Proof.
  split.
  - apply (proj1 store_holds_sound_rooms). exact hq_rooms_sound.
  - apply (proj1 (proj2 store_holds_sound_rooms)). exact hq_rooms_sound.
Defined.

(** ** The [spent] of a participant is the total of its bids *)

Lemma recomputeSpent_bids (room : Room) (pid : string) :
  bids (recomputeSpent room pid) = bids room.
Proof. now destruct (recomputeSpent_fields room pid)
    as (_ & _ & _ & _ & _ & H & _). Qed.

Lemma recomputeSpent_spent (room : Room) (pid q : string) :
  (q <> pid -> spent_ok room q) -> spent_ok (recomputeSpent room pid) q.
Proof.
  intros Hq pl. unfold total_of. rewrite recomputeSpent_bids.
  unfold recomputeSpent.
  destruct (mget pid (players room)) as [player|] eqn:Ep.
  - cbn [players set_players]. rewrite mget_mset.
    destruct (String.eqb pid q) eqn:E.
    + apply String.eqb_eq in E. subst q. now intros [= <-].
    + apply String.eqb_neq in E. apply Hq. congruence.
  - destruct (String.eqb pid q) eqn:E.
    + apply String.eqb_eq in E. subst q. congruence.
    + apply String.eqb_neq in E. apply Hq. congruence.
Qed.

Lemma clamp_spent (now : Z) (room : Room) (pid q : string) :
  (q = pid -> mget pid (bids room) = None -> spent_ok room q) ->
  (q <> pid -> spent_ok room q) ->
  spent_ok (clampBidsToBudget now room pid) q.
Proof.
  intros H1 H2. unfold clampBidsToBudget.
  destruct (mget pid (bids room)) as [perTopic|] eqn:E.
  - destruct (js_le _ _).
    + now apply recomputeSpent_spent.
    + apply recomputeSpent_spent. intros Hne pl.
      unfold total_of. cbn [players bids set_bids].
      rewrite mget_mset_neq by congruence. now apply H2.
  - destruct (String.eqb pid q) eqn:Eq.
    + apply String.eqb_eq in Eq. subst q. now apply H1.
    + apply String.eqb_neq in Eq. apply H2. congruence.
Qed.

Lemma clamp_spent_all (now : Z) (room : Room) (pid : string) :
  spent_is_total room -> spent_is_total (clampBidsToBudget now room pid).
Proof. intros H q. apply clamp_spent; intros; apply H. Qed.

Lemma clamp_all_spent (now : Z) (pids : list string) (room : Room) :
  spent_is_total room ->
  spent_is_total
    (fold_left (fun r pid => clampBidsToBudget now r pid) pids room).
Proof.
  revert room. induction pids as [|pid pids IH]; intros room H;
    [assumption|].
  cbn [fold_left]. now apply IH, clamp_spent_all.
Qed.

Lemma prune_and_clamp_spent (now : Z) (ids : list string) (r : Room)
  (pid : string) :
  spent_is_total r -> spent_is_total (prune_and_clamp now ids r pid).
Proof.
  intros H. unfold prune_and_clamp.
  destruct (mget pid (bids r)) as [perTopic|] eqn:E; [|assumption].
  cbv zeta. apply clamp_spent_all. intros q.
  apply recomputeSpent_spent. intros Hne pl.
  unfold total_of. cbn [players bids set_bids].
  rewrite mget_mset_neq by congruence. apply H.
Qed.

Lemma prune_all_spent (now : Z) (ids pids : list string) (r : Room) :
  spent_is_total r ->
  spent_is_total (fold_left (prune_and_clamp now ids) pids r).
Proof.
  revert r. induction pids as [|pid pids IH]; intros r H; [assumption|].
  cbn [fold_left]. now apply IH, prune_and_clamp_spent.
Qed.

Lemma join_room_spent (pid name : string) (room : Room) :
  spent_is_total room -> spent_is_total (join_room pid name room).
Proof.
  intros H q. unfold join_room. cbv zeta.
  apply recomputeSpent_spent. intros Hne pl.
  set (room1 := if no_host (hostId room) then set_hostId room (Some pid)
                else room).
  assert (F : players room1 = players room /\ bids room1 = bids room).
  { unfold room1. now destruct (no_host (hostId room)). }
  destruct F as [F1 F2].
  set (room2 := set_players room1
                  (mset pid (mkPlayer pid name (Fin 0)) (players room1))).
  assert (G : mget q (players room2) = mget q (players room)
              /\ bids room2 = bids room).
  { cbn [room2 players bids set_players]. rewrite F1, F2.
    split; [|reflexivity]. apply mget_mset_neq. congruence. }
  destruct G as [G1 G2].
  unfold total_of.
  destruct (mhas pid (bids room2));
    cbn [players bids set_bids]; rewrite G1, ?G2.
  - apply H.
  - rewrite mget_mset_neq by congruence. apply H.
Qed.

Lemma room_step_spent (now : Z) (pid : string) (room room' : Room) :
  spent_is_total room -> room_step now pid room room' ->
  spent_is_total room'.
Proof.
  intros Hs Hstep.
  destruct Hstep as [name room El|b rb aj room Hin Hh|raw room Hin Hh
                    |flag room Hin Hh|topicId amt room room' Hin Hl Hb].
  - now apply join_room_spent.
  - unfold handle_set_config. cbv zeta. now apply clamp_all_spent.
  - rewrite handle_set_topics_eq. now apply prune_all_spent.
  - exact Hs.
  - unfold handle_bid in Hb.
    destruct (negb (existsb _ (topics room))); [discriminate|].
    cbv zeta in Hb. injection Hb as <-. intros q.
    apply clamp_spent.
    + intros -> Hnone. cbn [bids set_bids] in Hnone.
      rewrite mget_mset_eq in Hnone. discriminate.
    + intros Hne pl. unfold total_of. cbn [players bids set_bids].
      rewrite mget_mset_neq by congruence. apply Hs.
Qed.

Lemma leave_room_spent (pid : string) (room : Room) :
  spent_is_total room -> spent_is_total (leave_room pid room).
Proof.
  intros H q pl.
  destruct (leave_room_frame pid room) as (_ & _ & _ & _ & F5 & F6 & _).
  unfold total_of. rewrite F5, F6, !mget_mdelete.
  destruct (String.eqb pid q); [discriminate|]. apply H.
Qed.

Lemma newRoom_spent (rid : string) : spent_is_total (newRoom rid).
Proof. intros q pl H. discriminate. Qed.

Lemma hq_rooms_spent : every_room (fun _ => spent_is_total) hq_rooms.
Proof.
  intros rid room H. unfold hq_rooms in H. cbn [mget] in H.
  destruct (String.eqb rid "ROOM"); [|discriminate].
  injection H as <-. intros q pl Hq.
  unfold total_of. unfold hq_room in *. cbn [players bids mget] in *.
  destruct (String.eqb q "h").
  - injection Hq as <-. reflexivity.
  - destruct (String.eqb q "q"); [|discriminate].
    injection Hq as <-. reflexivity.
Qed.

(** X2. The [spent] of every participant of every stored room is the
    sum of the amounts of the bids stored for it (0 without a bid map),
    as [recomputeSpent] computes it.  Every message and every close
    keep this, so it holds after any sequence of events on the empty
    store. *)
Theorem spent_is_total_of_bids :
  (forall now msg rooms c,
      every_room (fun _ => spent_is_total) rooms ->
      every_room (fun _ => spent_is_total)
        (fst (fst (on_message now msg rooms c))))
  /\ (forall rooms c,
         every_room (fun _ => spent_is_total) rooms ->
         every_room (fun _ => spent_is_total) (fst (on_close rooms c)))
  /\ (forall events,
         every_room (fun _ => spent_is_total) (after_events events [])).
Proof.
  assert (Hstep : forall now pid (rid : string) room room',
             spent_is_total room -> room_step now pid room room' ->
             spent_is_total room').
  { intros now pid _ room room'. apply room_step_spent. }
  assert (Hnew : forall (rid pid name : string),
             spent_is_total (join_room pid name (newRoom rid))).
  { intros rid pid name. apply join_room_spent, newRoom_spent. }
  assert (Hleave : forall pid (rid : string) room,
             spent_is_total room -> In pid (mkeys (players room)) ->
             players (leave_room pid room) <> [] ->
             spent_is_total (leave_room pid room)).
  { intros pid _ room H _ _. now apply leave_room_spent. }
  split; [|split].
  - now apply (@every_room_message (fun _ => spent_is_total)).
  - now apply (@every_room_close (fun _ => spent_is_total)).
  - intros events.
    apply (@every_room_events (fun _ => spent_is_total)); try assumption.
    apply every_room_empty.
Qed.

Lemma spent_is_total_of_bids_witness :
  every_room (fun _ => spent_is_total)
    (fst (fst (on_message 7 (PlaceBid "Y" (Some (RFin (90 # 1))))
                 hq_rooms conn_q)))
  /\ every_room (fun _ => spent_is_total) (fst (on_close hq_rooms conn_h)).
Proof.
  split.
  - apply (proj1 spent_is_total_of_bids). exact hq_rooms_spent.
  - apply (proj1 (proj2 spent_is_total_of_bids)). exact hq_rooms_spent.
Defined.

(** ** The bids are on topics of the room *)

Lemma trim_ids (l : list Entry) (over : number) :
  map e_topicId (trim over l) = map e_topicId l.
Proof.
  revert over. induction l as [|e l IH]; intros over; [reflexivity|].
  cbn [trim]. destruct (js_le over (Fin 0)); [reflexivity|].
  destruct (js_le (e_amount e) (Fin 0)); cbn [map e_topicId];
    now rewrite IH.
Qed.

Lemma clamp_entries_ids (perTopic : JsMap Bid) :
  map e_topicId (clamp_entries perTopic) = mkeys perTopic.
Proof.
  unfold clamp_entries, mkeys. rewrite map_map. reflexivity.
Qed.

Lemma write_back_keys_from (now : Z) (l : list Entry) (acc : JsMap Bid)
  (k : string) :
  In k (mkeys (fold_left
                 (fun m e => mset (e_topicId e) (mkBid (e_amount e) now) m)
                 l acc))
  <-> In k (mkeys acc) \/ In k (map e_topicId l).
Proof.
  revert acc. induction l as [|e l IH]; intros acc; cbn [fold_left map In].
  - tauto.
  - rewrite IH, In_mkeys_mset. intuition (subst; auto).
Qed.

Lemma write_back_keys (now : Z) (l : list Entry) (k : string) :
  In k (mkeys (write_back now l)) <-> In k (map e_topicId l).
Proof.
  unfold write_back. rewrite write_back_keys_from. cbn [mkeys map In].
  tauto.
Qed.

(** The clamp of [pid] keeps, for every participant, the set of topic
    ids it has bids on. *)
Lemma clamp_keys (now : Z) (room : Room) (pid q : string)
  (perTopic' : JsMap Bid) :
  mget q (bids (clampBidsToBudget now room pid)) = Some perTopic' ->
  exists perTopic,
    mget q (bids room) = Some perTopic
    /\ forall k, In k (mkeys perTopic') <-> In k (mkeys perTopic).
Proof.
  unfold clampBidsToBudget.
  destruct (mget pid (bids room)) as [perTopic|] eqn:E.
  - destruct (js_le _ _).
    + rewrite recomputeSpent_bids. intros H. now exists perTopic'.
    + rewrite recomputeSpent_bids. cbn [bids set_bids]. rewrite mget_mset.
      destruct (String.eqb pid q) eqn:Eq.
      * apply String.eqb_eq in Eq. subst q. intros [= <-].
        exists perTopic. split; [assumption|]. intros k.
        rewrite write_back_keys, trim_ids, <- clamp_entries_ids.
        split; intros H.
        -- apply in_map_iff in H. destruct H as (e & <- & He).
           apply in_map. now apply (@Array_sort_In Entry clamp_cmp).
        -- apply in_map_iff in H. destruct H as (e & <- & He).
           apply in_map. now apply (@Array_sort_In Entry clamp_cmp).
      * intros H. now exists perTopic'.
  - intros H. now exists perTopic'.
Qed.

Lemma clamp_refs (now : Z) (room : Room) (pid : string) :
  bids_reference_topics room ->
  bids_reference_topics (clampBidsToBudget now room pid).
Proof.
  intros H q pt' tid Hq Hin.
  destruct (clamp_keys _ _ _ _ Hq) as (pt & Hpt & Hk).
  destruct (clamp_same_frame now room pid) as (_ & _ & _ & _ & -> & _).
  apply (H q pt); [assumption|now apply Hk].
Qed.

Lemma clamp_all_refs (now : Z) (pids : list string) (room : Room) :
  bids_reference_topics room ->
  bids_reference_topics
    (fold_left (fun r pid => clampBidsToBudget now r pid) pids room).
Proof.
  revert room. induction pids as [|pid pids IH]; intros room H;
    [assumption|].
  cbn [fold_left]. now apply IH, clamp_refs.
Qed.

(** The loop of [set_topics]: the bid maps of the participants already
    visited are on ids of [ids]. *)
Lemma prune_all_refs (now : Z) (ids pids : list string) (r : Room)
  (done : string -> Prop) :
  (forall p pt, mget p (bids r) = Some pt -> done p ->
                incl (mkeys pt) ids) ->
  forall p pt,
    mget p (bids (fold_left (prune_and_clamp now ids) pids r)) = Some pt ->
    done p \/ In p pids -> incl (mkeys pt) ids.
Proof.
  revert r done. induction pids as [|pid pids IH]; intros r done H p pt Hp Hd.
  - cbn [fold_left] in Hp. destruct Hd as [Hd|[]]. now apply (H p).
  - cbn [fold_left] in Hp.
    apply (IH (prune_and_clamp now ids r pid)
              (fun x => done x \/ x = pid)) with (p := p); try assumption.
    + clear p pt Hp Hd. intros p pt Hp Hd. unfold prune_and_clamp in Hp.
      destruct (mget pid (bids r)) as [perTopic|] eqn:E.
      * cbv zeta in Hp.
        destruct (clamp_keys _ _ _ _ Hp) as (pt0 & Hpt0 & Hk).
        rewrite recomputeSpent_bids in Hpt0. cbn [bids set_bids] in Hpt0.
        rewrite mget_mset in Hpt0.
        intros k Hin. apply Hk in Hin.
        destruct (String.eqb pid p) eqn:Ep.
        -- injection Hpt0 as <-. unfold mkeys in Hin.
           apply in_map_iff in Hin. destruct Hin as ([k' b] & <- & Hf).
           apply filter_In in Hf. cbn [fst] in *.
           now apply shas_In.
        -- apply String.eqb_neq in Ep.
           destruct Hd as [Hd|Hd]; [|congruence].
           now apply (H p pt0).
      * destruct Hd as [Hd| ->]; [now apply (H p)|congruence].
    + destruct Hd as [Hd|[<-|Hd]]; auto.
Qed.

Lemma set_topics_refs (now : Z) (room : Room) (raw : list RawTopic) :
  bids_reference_topics (handle_set_topics now room raw).
Proof.
  intros p pt tid Hp Hin.
  destruct (set_topics_same_frame now room raw)
    as (_ & _ & _ & _ & Ht & _ & Hk).
  rewrite Ht. cbn [topics set_topics].
  rewrite handle_set_topics_eq in Hp.
  apply (@prune_all_refs now _ (mkeys (bids room))
           (set_topics room (map clean_topic (firstn 50 raw)))
           (fun _ => False)) with (p := p) (pt := pt);
    try assumption.
  - intros p0 pt0 _ [].
  - right.
    change (mkeys (bids room))
      with (mkeys (bids (set_topics room
                           (map clean_topic (firstn 50 raw))))).
    rewrite <- Hk. apply mget_In_keys.
    rewrite handle_set_topics_eq. congruence.
Qed.

Lemma join_room_refs (pid name : string) (room : Room) :
  bids_reference_topics room ->
  bids_reference_topics (join_room pid name room).
Proof.
  intros H q pt tid.
  destruct (join_room_frame pid name room) as (_ & _ & _ & _ & -> & _).
  unfold join_room. cbv zeta. rewrite recomputeSpent_bids.
  set (room1 := if no_host (hostId room) then set_hostId room (Some pid)
                else room).
  assert (F : bids room1 = bids room).
  { unfold room1. now destruct (no_host (hostId room)). }
  destruct (mhas pid (bids (set_players room1 _)));
    cbn [bids set_bids set_players]; rewrite F.
  - apply H.
  - rewrite mget_mset. destruct (String.eqb pid q); [|apply H].
    intros [= <-] [].
Qed.

Lemma room_step_refs (now : Z) (pid : string) (room room' : Room) :
  bids_reference_topics room -> room_step now pid room room' ->
  bids_reference_topics room'.
Proof.
  intros Hs Hstep.
  destruct Hstep as [name room El|b rb aj room Hin Hh|raw room Hin Hh
                    |flag room Hin Hh|topicId amt room room' Hin Hl Hb].
  - now apply join_room_refs.
  - unfold handle_set_config. cbv zeta. now apply clamp_all_refs.
  - apply set_topics_refs.
  - exact Hs.
  - unfold handle_bid in Hb.
    destruct (existsb (fun t => String.eqb (id t) topicId) (topics room))
      eqn:Ex; [|discriminate].
    cbn [negb] in Hb. cbv zeta in Hb. injection Hb as <-.
    apply clamp_refs. intros q pt tid. cbn [bids set_bids topics].
    rewrite mget_mset. destruct (String.eqb pid q) eqn:Eq; [|apply Hs].
    apply String.eqb_eq in Eq. subst q. intros [= <-] Hin'.
    apply In_mkeys_mset in Hin'. destruct Hin' as [->|Hin'].
    + now apply existsb_topic_id.
    + destruct (mget pid (bids room)) as [pt|] eqn:Ept;
        cbn [nullish] in Hin'; [|destruct Hin'].
      now apply (Hs pid pt).
Qed.

Lemma leave_room_refs (pid : string) (room : Room) :
  bids_reference_topics room -> bids_reference_topics (leave_room pid room).
Proof.
  intros H q pt tid.
  destruct (leave_room_frame pid room) as (_ & _ & _ & -> & _ & -> & _).
  rewrite mget_mdelete. destruct (String.eqb pid q); [discriminate|].
  apply H.
Qed.

Lemma newRoom_refs (rid : string) : bids_reference_topics (newRoom rid).
Proof. intros q pt tid H. discriminate. Qed.

Lemma hq_rooms_refs : every_room (fun _ => bids_reference_topics) hq_rooms.
Proof.
  intros rid room H. unfold hq_rooms in H. cbn [mget] in H.
  destruct (String.eqb rid "ROOM"); [|discriminate].
  injection H as <-. intros q pt tid Hq Hin.
  unfold hq_room in *. cbn [players bids mget topics] in *.
  destruct (String.eqb q "h").
  - injection Hq as <-. cbn in Hin |- *. tauto.
  - destruct (String.eqb q "q"); [|discriminate].
    injection Hq as <-. cbn in Hin |- *. tauto.
Qed.

(** X3. Every stored bid is on the id of a topic of its room: a bid is
    only written for an id that names a topic, [set_topics] deletes the
    bids on the ids it drops, and the clamp keeps the topic ids of a bid
    map.  Every message and every close keep this, so it holds after
    any sequence of events on the empty store. *)
Theorem bids_stay_on_topics :
  (forall now msg rooms c,
      every_room (fun _ => bids_reference_topics) rooms ->
      every_room (fun _ => bids_reference_topics)
        (fst (fst (on_message now msg rooms c))))
  /\ (forall rooms c,
         every_room (fun _ => bids_reference_topics) rooms ->
         every_room (fun _ => bids_reference_topics)
           (fst (on_close rooms c)))
  /\ (forall events,
         every_room (fun _ => bids_reference_topics)
           (after_events events [])).
Proof.
  assert (Hstep : forall now pid (rid : string) room room',
             bids_reference_topics room -> room_step now pid room room' ->
             bids_reference_topics room').
  { intros now pid _ room room'. apply room_step_refs. }
  assert (Hnew : forall (rid pid name : string),
             bids_reference_topics (join_room pid name (newRoom rid))).
  { intros rid pid name. apply join_room_refs, newRoom_refs. }
  assert (Hleave : forall pid (rid : string) room,
             bids_reference_topics room ->
             In pid (mkeys (players room)) ->
             players (leave_room pid room) <> [] ->
             bids_reference_topics (leave_room pid room)).
  { intros pid _ room H _ _. now apply leave_room_refs. }
  split; [|split].
  - now apply (@every_room_message (fun _ => bids_reference_topics)).
  - now apply (@every_room_close (fun _ => bids_reference_topics)).
  - intros events.
    apply (@every_room_events (fun _ => bids_reference_topics));
      try assumption.
    apply every_room_empty.
Qed.

Lemma bids_stay_on_topics_witness :
  every_room (fun _ => bids_reference_topics)
    (fst (fst (on_message 7
                 (SetTopics [mkRawTopic "Y" "Topic" (Some (RFin (2 # 1)))])
                 hq_rooms conn_h)))
  /\ every_room (fun _ => bids_reference_topics)
       (fst (on_close hq_rooms conn_q)).
Proof.
  split.
  - apply (proj1 bids_stay_on_topics). exact hq_rooms_refs.
  - apply (proj1 (proj2 bids_stay_on_topics)). exact hq_rooms_refs.
Defined.

Lemma prune_and_clamp_keys (now : Z) (ids : list string) (r : Room)
  (pid p : string) (pt : JsMap Bid) :
  mget p (bids (prune_and_clamp now ids r pid)) = Some pt ->
  exists pt0,
    mget p (bids r) = Some pt0
    /\ forall k, In k (mkeys pt)
                 <-> In k (mkeys pt0) /\ (p = pid -> In k ids).
Proof.
  unfold prune_and_clamp.
  destruct (mget pid (bids r)) as [perTopic|] eqn:E.
  - cbv zeta. intros Hp.
    destruct (clamp_keys _ _ _ _ Hp) as (pt1 & Hpt1 & Hk).
    rewrite recomputeSpent_bids in Hpt1. cbn [bids set_bids] in Hpt1.
    rewrite mget_mset in Hpt1.
    destruct (String.eqb pid p) eqn:Ep.
    + apply String.eqb_eq in Ep. subst p. injection Hpt1 as <-.
      exists perTopic. split; [assumption|]. intros k. rewrite Hk.
      unfold mkeys. rewrite !in_map_iff. split.
      * intros ([k' b] & <- & Hf). apply filter_In in Hf.
        destruct Hf as [Hf1 Hf2]. cbn [fst] in *. split.
        -- now exists (k', b).
        -- intros _. now apply shas_In.
      * intros [([k' b] & <- & Hf) Hi]. exists (k', b).
        split; [reflexivity|]. apply filter_In. split; [assumption|].
        cbn [fst] in *. apply shas_In. now apply Hi.
    + apply String.eqb_neq in Ep. exists pt1. split; [assumption|].
      intros k. rewrite Hk. split; [|tauto]. intros H. split; [assumption|].
      congruence.
  - intros Hp. exists pt. split; [assumption|]. intros k.
    split; [|tauto]. intros H. split; [assumption|]. congruence.
Qed.

Lemma prune_all_keys (now : Z) (ids pids : list string) (r : Room)
  (p : string) (pt : JsMap Bid) :
  mget p (bids (fold_left (prune_and_clamp now ids) pids r)) = Some pt ->
  exists pt0,
    mget p (bids r) = Some pt0
    /\ forall k, In k (mkeys pt)
                 <-> In k (mkeys pt0) /\ (In p pids -> In k ids).
Proof.
  revert r. induction pids as [|pid pids IH]; intros r Hp.
  - exists pt. split; [assumption|]. intros k. cbn [In]. tauto.
  - cbn [fold_left] in Hp. destruct (IH _ Hp) as (pt1 & Hpt1 & Hk1).
    destruct (prune_and_clamp_keys _ _ _ _ _ Hpt1) as (pt0 & Hpt0 & Hk0).
    exists pt0. split; [assumption|]. intros k.
    rewrite Hk1, Hk0. cbn [In]. intuition (subst; auto).
Qed.

(** X4. [set_topics] by the host deletes exactly the bids on the ids
    that are not in the new topic list, whatever the room held before:
    after it, a participant has a bid on an id exactly when the id is
    one of the (at most 50) new topic ids and the participant had a bid
    on it; the owners of bid maps, the participants, the host, the
    configuration and the lock are as before. *)
Theorem set_topics_drops_stale_bids :
  forall now room raw,
    topics (handle_set_topics now room raw)
    = map clean_topic (firstn 50 raw)
    /\ (forall pid perTopic,
           mget pid (bids (handle_set_topics now room raw)) = Some perTopic ->
           exists old,
             mget pid (bids room) = Some old
             /\ forall tid,
                 In tid (mkeys perTopic)
                 <-> In tid (mkeys old)
                     /\ In tid (map raw_id (firstn 50 raw)))
    /\ mkeys (bids (handle_set_topics now room raw)) = mkeys (bids room)
    /\ mkeys (players (handle_set_topics now room raw))
       = mkeys (players room)
    /\ hostId (handle_set_topics now room raw) = hostId room
    /\ config (handle_set_topics now room raw) = config room
    /\ locked (handle_set_topics now room raw) = locked room.
Proof.
  intros now room raw.
  destruct (set_topics_same_frame now room raw)
    as (_ & F2 & F3 & F4 & F5 & F6 & F7).
  cbn [hostId config locked topics players bids set_topics] in *.
  split; [assumption|]. split; [|now repeat split].
  intros pid perTopic Hp. rewrite handle_set_topics_eq in Hp.
  destruct (prune_all_keys _ _ _ _ _ Hp) as (old & Hold & Hk).
  cbn [bids set_topics] in Hold.
  exists old. split; [assumption|]. intros tid. rewrite Hk.
  rewrite map_map.
  change (map (fun x => id (clean_topic x)) (firstn 50 raw))
    with (map raw_id (firstn 50 raw)).
  split; [|tauto]. intros [H1 H2]. split; [assumption|].
  apply H2. apply mget_In_keys. congruence.
Qed.

(** ** Flooring and clamping a field *)

(** Beyond 2^53 the rounding stays beyond 2^53, on the same side. *)
Lemma norm_big (z : Z) :
  2 ^ 53 < Z.abs z ->
  (0 < z /\ (norm z = PosInf \/ exists v, norm z = Fin v /\ 2 ^ 53 <= v))
  \/ (z < 0
      /\ (norm z = NegInf \/ exists v, norm z = Fin v /\ v <= - 2 ^ 53)).
Proof.
  intros Hbig. unfold norm.
  destruct (Z.abs z <=? 2 ^ 53) eqn:E; [apply Z.leb_le in E; lia|].
  set (a := Z.abs z) in *.
  assert (Hl : 53 <= Z.log2 a).
  { apply Z.log2_le_pow2; lia. }
  set (e := Z.log2 a - 52).
  assert (He : 1 <= e) by (unfold e; lia).
  assert (Hp : 2 <= 2 ^ e).
  { change 2 with (2 ^ 1) at 1. apply Z.pow_le_mono_r; lia. }
  assert (Hq : 2 ^ 52 <= a / 2 ^ e).
  { apply Z.div_le_lower_bound; [lia|].
    rewrite <- Z.pow_add_r by lia.
    replace (e + 52) with (Z.log2 a) by (unfold e; lia).
    apply Z.log2_spec. lia. }
  set (q := a / 2 ^ e) in *.
  set (m := if a mod 2 ^ e <? 2 ^ (e - 1) then q
            else if 2 ^ (e - 1) <? a mod 2 ^ e then q + 1
            else if Z.even q then q else q + 1).
  assert (Hm : 2 ^ 52 <= m).
  { unfold m. destruct (a mod 2 ^ e <? 2 ^ (e - 1)); [lia|].
    destruct (2 ^ (e - 1) <? a mod 2 ^ e); [lia|].
    destruct (Z.even q); lia. }
  assert (Hv : 2 ^ 53 <= m * 2 ^ e).
  { change (2 ^ 53) with (2 ^ 52 * 2). apply Z.mul_le_mono_nonneg; lia. }
  destruct (Z.sgn_spec z) as [[Hz Hs]|[[Hz Hs]|[Hz Hs]]].
  - left. split; [assumption|].
    destruct (2 ^ 1024 <=? m * 2 ^ e).
    + destruct (z <? 0) eqn:Ez; [apply Z.ltb_lt in Ez; lia|now left].
    + right. exists (Z.sgn z * (m * 2 ^ e)). split; [reflexivity|].
      rewrite Hs. lia.
  - unfold a in Hbig. subst z. simpl in Hbig. lia.
  - right. split; [assumption|].
    destruct (2 ^ 1024 <=? m * 2 ^ e).
    + destruct (z <? 0) eqn:Ez; [now left|apply Z.ltb_ge in Ez; lia].
    + right. exists (Z.sgn z * (m * 2 ^ e)). split; [reflexivity|].
      rewrite Hs. lia.
Qed.

(** [Math.max(lo, Math.min(hi, Math.floor(x)))] on a finite [x] is the
    integer part of [x] brought into [lo, hi], whatever the size of
    [x]. *)
Lemma clamp_norm (lo hi z : Z) :
  lo <= hi -> - 2 ^ 53 <= lo -> hi <= 2 ^ 53 ->
  Math_max (Fin lo) (Math_min (Fin hi) (norm z))
  = Fin (Z.max lo (Z.min hi z)).
Proof.
  intros Hlh Hlo Hhi.
  destruct (Z_le_gt_dec (Z.abs z) (2 ^ 53)) as [Hs|Hb].
  - rewrite norm_exact by assumption.
    now rewrite Math_min_Fin, Math_max_Fin.
  - destruct (@norm_big z) as [[Hz [->|(v & -> & Hv)]]|[Hz [->|(v & -> & Hv)]]];
      try lia.
    + cbn. destruct (lo <? hi) eqn:E.
      * apply Z.ltb_lt in E. f_equal. lia.
      * apply Z.ltb_ge in E. f_equal. lia.
    + rewrite Math_min_Fin, Math_max_Fin. f_equal. lia.
    + cbn. f_equal. lia.
    + rewrite Math_min_Fin, Math_max_Fin. f_equal. lia.
Qed.

Lemma clamp_floor_real (lo hi : Z) (x : real) :
  lo <= hi -> - 2 ^ 53 <= lo -> hi <= 2 ^ 53 ->
  Math_max (Fin lo) (Math_min (Fin hi) (Math_floor_real x))
  = match x with
    | RNaN => NaN
    | RNegInf => Fin lo
    | RPosInf => Fin hi
    | RFin q => Fin (Z.max lo (Z.min hi (Qfloor q)))
    end.
Proof.
  intros Hlh Hlo Hhi. destruct x as [| | |q]; cbn [Math_floor_real].
  - reflexivity.
  - reflexivity.
  - cbn. destruct (lo <? hi) eqn:E; [reflexivity|].
    apply Z.ltb_ge in E. f_equal. lia.
  - now apply clamp_norm.
Qed.

Lemma set_config_config (now : Z) (room : Room) (mb : option real)
  (rb aj : option bool) :
  config (handle_set_config now room mb rb aj)
  = mkConfig
      (Math_max (Fin 1)
         (Math_min (Fin 10000)
            (match mb with
             | Some x => Math_floor_real x
             | None => Math_floor (budget (config room))
             end)))
      (nullish rb (revealBids (config room)))
      (nullish aj (allowJoinAfterLock (config room))).
Proof.
  unfold handle_set_config. cbv zeta. now rewrite config_clamp_all.
Qed.

(** X5. [set_config] by the host, on a budget field that reads as a
    number: the stored budget is the integer part of the field brought
    into [1, 10000] (10000 for [Infinity], 1 for [-Infinity]), whatever
    the size of the field; an absent field keeps a stored budget that is
    an integer of that range.  The flags are replaced by the booleans
    supplied and kept otherwise; the topics, the lock, the host, the
    participants and the owners of bid maps stay. *)
Theorem set_config_clamps_budget :
  forall now room rb aj,
    (forall q,
        budget (config (handle_set_config now room (Some (RFin q)) rb aj))
        = Fin (Z.max 1 (Z.min 10000 (Qfloor q))))
    /\ budget (config (handle_set_config now room (Some RPosInf) rb aj))
       = Fin 10000
    /\ budget (config (handle_set_config now room (Some RNegInf) rb aj))
       = Fin 1
    /\ (forall b,
           budget (config room) = Fin b ->
           budget (config (handle_set_config now room None rb aj))
           = Fin (Z.max 1 (Z.min 10000 b)))
    /\ (forall mb,
           revealBids (config (handle_set_config now room mb rb aj))
           = nullish rb (revealBids (config room))
           /\ allowJoinAfterLock (config (handle_set_config now room mb rb aj))
              = nullish aj (allowJoinAfterLock (config room))
           /\ topics (handle_set_config now room mb rb aj) = topics room
           /\ locked (handle_set_config now room mb rb aj) = locked room
           /\ hostId (handle_set_config now room mb rb aj) = hostId room
           /\ mkeys (players (handle_set_config now room mb rb aj))
              = mkeys (players room)
           /\ mkeys (bids (handle_set_config now room mb rb aj))
              = mkeys (bids room)).
Proof.
  intros now room rb aj.
  pose proof (@set_config_config now room) as Hcfg.
  split; [|split; [|split; [|split]]].
  - intros q. rewrite Hcfg. cbn [budget].
    rewrite (@clamp_floor_real 1 10000 (RFin q)); [reflexivity|lia|lia|lia].
  - rewrite Hcfg. reflexivity.
  - rewrite Hcfg. reflexivity.
  - intros b Hb. rewrite Hcfg. cbn [budget]. rewrite Hb.
    unfold Math_floor. now rewrite Math_min_Fin, Math_max_Fin.
  - intros mb.
    destruct (set_config_same_frame now room mb rb aj)
      as (_ & F2 & _ & F4 & F5 & F6 & F7).
    cbn [hostId locked topics players bids set_config] in *.
    rewrite Hcfg. cbn [revealBids allowJoinAfterLock].
    now repeat split.
Qed.

(** X6. [set_topics] by the host stores the first 50 topics supplied,
    in their order, each with its id and its name; the capacity of a
    topic is the integer part of the capacity field brought into
    [1, 20] when the field reads as a finite number (20 for [Infinity],
    1 for [-Infinity]), and 1 when the field is absent. *)
Theorem set_topics_cleans_topics :
  forall now room raw,
    length (topics (handle_set_topics now room raw))
    = Nat.min 50 (length raw)
    /\ map id (topics (handle_set_topics now room raw))
       = map raw_id (firstn 50 raw)
    /\ map name (topics (handle_set_topics now room raw))
       = map raw_name (firstn 50 raw)
    /\ map capacity (topics (handle_set_topics now room raw))
       = map (fun t =>
                match raw_capacity t with
                | None => Fin 1
                | Some RNaN => NaN
                | Some RNegInf => Fin 1
                | Some RPosInf => Fin 20
                | Some (RFin q) => Fin (Z.max 1 (Z.min 20 (Qfloor q)))
                end)
             (firstn 50 raw).
Proof.
  intros now room raw.
  destruct (set_topics_same_frame now room raw) as (_ & _ & _ & _ & F5 & _).
  rewrite F5. cbn [topics set_topics].
  rewrite length_map, length_firstn, !map_map.
  split; [reflexivity|]. split; [reflexivity|]. split; [reflexivity|].
  apply map_ext. intros t. unfold clean_topic. cbn [capacity].
  rewrite (@clamp_floor_real 1 20) by lia.
  destruct (raw_capacity t) as [[| | |q]|]; reflexivity.
Qed.

(** ** The client *)

Lemma clampInt_bounds (lo hi : Z) (v : real) :
  lo <= hi -> - 2 ^ 53 <= lo -> hi <= 2 ^ 53 ->
  exists z, clampInt v (Fin lo) (Fin hi) = Fin z /\ lo <= z <= hi.
Proof.
  intros Hlh Hlo Hhi. unfold clampInt. cbv zeta.
  destruct (Number_isFinite (Math_floor_real v)) eqn:E; cbn [negb].
  - destruct v as [| | |q]; cbn [Math_floor_real] in *; try discriminate.
    rewrite clamp_norm by assumption. eexists. split; [reflexivity|lia].
  - exists lo. split; [reflexivity|lia].
Qed.

(** X7. [clampInt] of the client returns an integer of [lo, hi] for
    every input: the integer part of a finite input brought into the
    range, and [lo] for an input that reads as [NaN] or as an
    infinity. *)
Theorem clampInt_in_range :
  forall lo hi v,
    lo <= hi -> - 2 ^ 53 <= lo -> hi <= 2 ^ 53 ->
    (exists z, clampInt v (Fin lo) (Fin hi) = Fin z /\ lo <= z <= hi)
    /\ (forall q,
           v = RFin q -> Z.abs (Qfloor q) <= 2 ^ 53 ->
           clampInt v (Fin lo) (Fin hi) = Fin (Z.max lo (Z.min hi (Qfloor q))))
    /\ (Number_isFinite (Math_floor_real v) = false ->
        clampInt v (Fin lo) (Fin hi) = Fin lo).
Proof.
  intros lo hi v Hlh Hlo Hhi. split; [|split].
  - now apply clampInt_bounds.
  - intros q -> Hq. unfold clampInt. cbv zeta. cbn [Math_floor_real].
    rewrite norm_exact by assumption. cbn [Number_isFinite negb].
    now rewrite Math_min_Fin, Math_max_Fin.
  - intros E. unfold clampInt. cbv zeta. now rewrite E.
Qed.

Lemma clampInt_in_range_witness :
  (exists z,
      clampInt (RFin (25000 # 1)) (Fin 1) (Fin 10000) = Fin z
      /\ 1 <= z <= 10000)
  /\ (forall q,
         RFin (25000 # 1) = RFin q -> Z.abs (Qfloor q) <= 2 ^ 53 ->
         clampInt (RFin (25000 # 1)) (Fin 1) (Fin 10000)
         = Fin (Z.max 1 (Z.min 10000 (Qfloor q))))
  /\ (Number_isFinite (Math_floor_real (RFin (25000 # 1))) = false ->
      clampInt (RFin (25000 # 1)) (Fin 1) (Fin 10000) = Fin 1).
Proof.
  apply (@clampInt_in_range 1 10000 (RFin (25000 # 1))); [lia| |].
  - change (2 ^ 53) with 9007199254740992. lia.
  - change (2 ^ 53) with 9007199254740992. lia.
Defined.

Lemma Qfloor_inject_Z (z : Z) : Qfloor (inject_Z z) = z.
Proof. unfold Qfloor, inject_Z. apply Z.div_1_r. Qed.

(** X8. What the client computes with [clampInt] the server stores as
    it is: a budget of the client's form is the budget [set_config]
    stores, a capacity of the client's editor is the capacity
    [set_topics] stores, and the amount the client sends with a bid is
    the amount the bid handler writes before the clamp. *)
Theorem server_keeps_client_values :
  (forall now room rb aj v,
      budget (config (handle_set_config now room
                        (json_number (clampInt v (Fin 1) (Fin 10000)))
                        rb aj))
      = clampInt v (Fin 1) (Fin 10000))
  /\ (forall tid tname v,
         capacity (clean_topic
                     (mkRawTopic tid tname
                        (json_number (clampInt v (Fin 1) (Fin 20)))))
         = clampInt v (Fin 1) (Fin 20))
  /\ (forall b v,
         0 <= b <= 10000 ->
         Math_max (Fin 0)
           (Math_floor_real
              (nullish (json_number (clampInt v (Fin 0) (Fin b))) (RFin 0)))
         = clampInt v (Fin 0) (Fin b)
         /\ fields_numeric
              (PlaceBid "" (json_number (clampInt v (Fin 0) (Fin b))))).
Proof.
  assert (P53 : 2 ^ 53 = 9007199254740992) by reflexivity.
  split; [|split].
  - intros now room rb aj v.
    destruct (@clampInt_bounds 1 10000 v) as (z & Hz & Hr); try lia.
    rewrite Hz. cbn [json_number]. rewrite set_config_config.
    cbn [budget]. rewrite (@clamp_floor_real 1 10000) by lia.
    rewrite Qfloor_inject_Z. f_equal. lia.
  - intros tid tname v.
    destruct (@clampInt_bounds 1 20 v) as (z & Hz & Hr); try lia.
    rewrite Hz. unfold clean_topic.
    cbn [json_number capacity raw_capacity nullish].
    rewrite (@clamp_floor_real 1 20) by lia.
    rewrite Qfloor_inject_Z. f_equal. lia.
  - intros b v Hb.
    destruct (@clampInt_bounds 0 b v) as (z & Hz & Hr); try lia.
    rewrite Hz. cbn [json_number nullish Math_floor_real fields_numeric].
    rewrite Qfloor_inject_Z. split.
    + rewrite norm_exact by lia. rewrite Math_max_Fin. f_equal. lia.
    + change (2 ^ 52) with 4503599627370496. lia.
Qed.

Lemma server_keeps_client_values_witness :
  Math_max (Fin 0)
    (Math_floor_real
       (nullish (json_number (clampInt (RFin (250 # 1)) (Fin 0) (Fin 100)))
          (RFin 0)))
  = clampInt (RFin (250 # 1)) (Fin 0) (Fin 100)
  /\ fields_numeric
       (PlaceBid ""
          (json_number (clampInt (RFin (250 # 1)) (Fin 0) (Fin 100)))).
Proof.
  apply (proj2 (proj2 server_keeps_client_values) 100 (RFin (250 # 1))).
  lia.
Defined.

(** ** Who is served *)

(** X9. A connection that is not a participant of its room (it never
    joined, its join was refused, or its room is gone) is served
    [join] only, and a participant that is not the host is not served
    the host's messages: the store and the connection stay as they are
    and nothing is sent.  A message of an unknown type is ignored. *)
Theorem only_participants_and_host_are_served :
  (forall now msg rooms c,
      is_join msg = false -> joined rooms c = false ->
      on_message now msg rooms c = (rooms, c, []))
  /\ (forall now msg rooms c rid room,
         host_only msg = true ->
         conn_room c = Some rid -> mget rid rooms = Some room ->
         hostId room <> Some (conn_playerId c) ->
         on_message now msg rooms c = (rooms, c, []))
  /\ (forall now rooms c, on_message now Unknown rooms c = (rooms, c, [])).
Proof.
  split; [|split].
  - intros now msg rooms c Hj Hn. unfold joined in Hn.
    destruct msg; try discriminate; unfold on_message;
      destruct (conn_room c) as [rid|]; try reflexivity;
      destruct (mget rid rooms) as [room|]; try reflexivity;
      rewrite Hn; reflexivity.
  - intros now msg rooms c rid room Hm Hc Hr Hh.
    assert (Hi : is_host room (conn_playerId c) = false).
    { unfold is_host. destruct (hostId room) as [h|]; [|reflexivity].
      apply String.eqb_neq. congruence. }
    destruct msg; try discriminate; unfold on_message;
      rewrite Hc, Hr, Hi;
      destruct (negb (mhas (conn_playerId c) (players room)));
      reflexivity.
  - intros now rooms c. unfold on_message.
    destruct (conn_room c) as [rid|]; [|reflexivity].
    destruct (mget rid rooms) as [room|]; [|reflexivity].
    now destruct (negb (mhas (conn_playerId c) (players room))).
Qed.

Lemma only_participants_and_host_are_served_witness :
  on_message 7 (PlaceBid "X" (Some (RFin (5 # 1)))) hq_rooms
    (mkConn "z" (Some "ROOM"))
  = (hq_rooms, mkConn "z" (Some "ROOM"), [])
  /\ on_message 7 LockBids hq_rooms conn_q = (hq_rooms, conn_q, []).
Proof.
  split.
  - apply (proj1 only_participants_and_host_are_served); reflexivity.
  - apply (proj1 (proj2 only_participants_and_host_are_served)
             7 LockBids hq_rooms conn_q "ROOM" hq_room);
      try reflexivity.
    discriminate.
Defined.

(** ** Joining *)

Lemma recomputeSpent_player (room : Room) (pid : string) (pl : Player) :
  mget pid (players room) = Some pl ->
  mget pid (players (recomputeSpent room pid))
  = Some (mkPlayer (p_id pl) (p_name pl) (total_of room pid)).
Proof.
  intros H. unfold recomputeSpent. rewrite H. cbn [players set_players].
  now rewrite mget_mset_eq.
Qed.

Lemma recomputeSpent_other (room : Room) (pid q : string) :
  q <> pid ->
  mget q (players (recomputeSpent room pid)) = mget q (players room).
Proof.
  intros H. unfold recomputeSpent.
  destruct (mget pid (players room)) as [pl|]; [|reflexivity].
  cbn [players set_players]. apply mget_mset_neq. congruence.
Qed.

Lemma join_room_maps (pid name : string) (room : Room) :
  mget pid (players (join_room pid name room))
  = Some (mkPlayer pid name (total_of room pid))
  /\ mget pid (bids (join_room pid name room))
     = Some (nullish (mget pid (bids room)) [])
  /\ (forall q, q <> pid ->
                mget q (players (join_room pid name room))
                = mget q (players room)
                /\ mget q (bids (join_room pid name room))
                   = mget q (bids room)).
Proof.
  unfold join_room. cbv zeta.
  set (room1 := if no_host (hostId room) then set_hostId room (Some pid)
                else room).
  assert (F : players room1 = players room /\ bids room1 = bids room).
  { unfold room1. now destruct (no_host (hostId room)). }
  destruct F as [F1 F2].
  set (room2 := set_players room1
                  (mset pid (mkPlayer pid name (Fin 0)) (players room1))).
  set (room3 := if mhas pid (bids room2) then room2
                else set_bids room2 (mset pid [] (bids room2))).
  assert (G1 : players room3
               = mset pid (mkPlayer pid name (Fin 0)) (players room)).
  { unfold room3. destruct (mhas pid (bids room2));
      cbn [room2 players set_players set_bids]; now rewrite F1. }
  assert (G2 : mget pid (bids room3)
               = Some (nullish (mget pid (bids room)) [])
               /\ forall q, q <> pid ->
                            mget q (bids room3) = mget q (bids room)).
  { unfold room3, mhas. cbn [room2 bids set_players]. rewrite F2.
    destruct (mget pid (bids room)) as [pt|] eqn:E;
      cbn [room2 bids set_bids set_players nullish]; rewrite ?F2.
    - split; [assumption|reflexivity].
    - split; [apply mget_mset_eq|].
      intros q Hq. apply mget_mset_neq. congruence. }
  destruct G2 as [G2 G3].
  split; [|split].
  - rewrite (@recomputeSpent_player room3 pid (mkPlayer pid name (Fin 0))).
    + cbn [p_id p_name]. unfold total_of. rewrite G2.
      now destruct (mget pid (bids room)).
    + rewrite G1. apply mget_mset_eq.
  - now rewrite recomputeSpent_bids.
  - intros q Hq. rewrite recomputeSpent_other by assumption.
    rewrite recomputeSpent_bids, G1. split; [|now apply G3].
    apply mget_mset_neq. congruence.
Qed.

(** X10. A [join] with a room code, to a room that is not locked
    against joining (the stored room of that code, or a fresh one with
    the budget 100, no topic and no lock): the room is stored under the
    code, the joiner is a participant with the name given, with the bid
    map it had (an empty one otherwise) and with [spent] the total of
    that map, and it is the host exactly when the room had none; the
    other participants, their bids, the configuration, the topics and
    the lock stay, and the joiner and the room are sent the same
    state. *)
Theorem join_admits_participant :
  forall now rooms c roomId name,
    roomId <> "" ->
    (forall room, mget roomId rooms = Some room ->
                  locked room = true ->
                  allowJoinAfterLock (config room) = true) ->
    exists room',
      on_message now (Join roomId name) rooms c
      = (mset roomId room' rooms, mkConn (conn_playerId c) (Some roomId),
         [SendJoined (conn_playerId c) room'; BroadcastRoomUpdate room'])
      /\ room' = join_room (conn_playerId c) name
                   (nullish (mget roomId rooms) (newRoom roomId))
      /\ mget roomId (mset roomId room' rooms) = Some room'
      /\ mget (conn_playerId c) (players room')
         = Some (mkPlayer (conn_playerId c) name
                   (total_of room' (conn_playerId c)))
      /\ mget (conn_playerId c) (bids room')
         = Some (nullish
                   (mget (conn_playerId c)
                      (bids (nullish (mget roomId rooms) (newRoom roomId))))
                   [])
      /\ hostId room'
         = (if no_host (hostId (nullish (mget roomId rooms)
                                  (newRoom roomId)))
            then Some (conn_playerId c)
            else hostId (nullish (mget roomId rooms) (newRoom roomId)))
      /\ (forall q, q <> conn_playerId c ->
                    mget q (players room')
                    = mget q (players (nullish (mget roomId rooms)
                                         (newRoom roomId)))
                    /\ mget q (bids room')
                       = mget q (bids (nullish (mget roomId rooms)
                                         (newRoom roomId))))
      /\ config room' = config (nullish (mget roomId rooms) (newRoom roomId))
      /\ topics room' = topics (nullish (mget roomId rooms) (newRoom roomId))
      /\ locked room' = locked (nullish (mget roomId rooms) (newRoom roomId)).
Proof.
  intros now rooms c roomId name Hne Hlock.
  set (pid := conn_playerId c).
  set (room := nullish (mget roomId rooms) (newRoom roomId)).
  exists (join_room pid name room).
  assert (Hl : locked room && negb (allowJoinAfterLock (config room))
               = false).
  { unfold room. destruct (mget roomId rooms) as [r|] eqn:E;
      cbn [nullish]; [|reflexivity].
    destruct (locked r) eqn:El; [|reflexivity].
    now rewrite (Hlock r eq_refl El). }
  destruct (join_room_maps pid name room) as (M1 & M2 & M3).
  destruct (join_room_frame pid name room)
    as (F1 & F2 & F3 & F4 & F5 & F6 & F7).
  split; [|split; [reflexivity|split; [apply mget_mset_eq|]]].
  - cbn [on_message]. rewrite handle_join_eq.
    apply String.eqb_neq in Hne. rewrite Hne. cbv zeta.
    unfold getOrCreateRoom. fold pid.
    unfold room in Hl |- *.
    destruct (mget roomId rooms) as [r|] eqn:E; cbn [fst snd nullish] in *.
    + now rewrite Hl.
    + now rewrite mset_mset.
  - split.
    { rewrite M1. f_equal. f_equal. unfold total_of. rewrite M2.
      now destruct (mget pid (bids room)). }
    split; [assumption|]. split; [assumption|].
    split; [assumption|]. now repeat split.
Qed.

Lemma join_admits_participant_witness :
  exists room',
    on_message 7 (Join "ROOM" "Zed") hq_rooms (mkConn "z" None)
    = (mset "ROOM" room' hq_rooms, mkConn "z" (Some "ROOM"),
       [SendJoined "z" room'; BroadcastRoomUpdate room'])
    /\ mget "z" (players room') = Some (mkPlayer "z" "Zed" (Fin 0))
    /\ hostId room' = Some "h".
Proof.
  destruct (@join_admits_participant 7 hq_rooms (mkConn "z" None)
              "ROOM" "Zed") as (room' & H1 & H2 & _).
  - discriminate.
  - intros room H _. injection H as <-. reflexivity.
  - exists room'. split; [exact H1|]. subst room'. split; reflexivity.
Defined.

(** X11. A [join] without a room code is answered with an error and
    changes nothing.  A [join] to a room that is locked against joining
    is answered with an error and changes no room; the connection then
    refers to that room, and unless it was a participant before, every
    message of it but a [join] is ignored. *)
Theorem refused_join_changes_nothing :
  (forall now rooms c name,
      on_message now (Join "" name) rooms c
      = (rooms, c, [SendError "Room code required."]))
  /\ (forall now rooms c roomId name room,
         roomId <> "" ->
         mget roomId rooms = Some room ->
         locked room = true ->
         allowJoinAfterLock (config room) = false ->
         on_message now (Join roomId name) rooms c
         = (rooms, mkConn (conn_playerId c) (Some roomId),
            [SendError "Room is locked."])
         /\ (mget (conn_playerId c) (players room) = None ->
             forall now' msg,
               is_join msg = false ->
               on_message now' msg rooms
                 (mkConn (conn_playerId c) (Some roomId))
               = (rooms, mkConn (conn_playerId c) (Some roomId), []))).
Proof.
  split.
  - reflexivity.
  - intros now rooms c roomId name room Hne Hr Hl Ha. split.
    + cbn [on_message]. rewrite handle_join_eq.
      apply String.eqb_neq in Hne. rewrite Hne. cbv zeta.
      unfold getOrCreateRoom. rewrite Hr. cbn [fst snd].
      now rewrite Hl, Ha.
    + intros Hp now' msg Hj.
      destruct msg; try discriminate; unfold on_message;
        cbn [conn_room conn_playerId]; rewrite Hr; unfold mhas;
        rewrite Hp; reflexivity.
Qed.

Lemma refused_join_changes_nothing_witness :
  on_message 7 (Join "ROOM" "Zed")
    [("ROOM", set_config (set_locked hq_room true)
                (mkConfig (Fin 100) true false))]
    (mkConn "z" None)
  = ([("ROOM", set_config (set_locked hq_room true)
                 (mkConfig (Fin 100) true false))],
     mkConn "z" (Some "ROOM"), [SendError "Room is locked."]).
Proof.
  apply (proj2 refused_join_changes_nothing 7
           [("ROOM", set_config (set_locked hq_room true)
                       (mkConfig (Fin 100) true false))]
           (mkConn "z" None) "ROOM" "Zed"
           (set_config (set_locked hq_room true)
              (mkConfig (Fin 100) true false)));
    try reflexivity.
  discriminate.
Defined.

(** ** The lock *)

Lemma set_locked_back (room : Room) :
  set_locked (set_locked room true) (locked room) = room.
Proof. now destruct room. Qed.

(** X12. [lock_bids] by the host sets the lock and nothing else; while
    the room is stored so, a bid of any connection on any topic with any
    amount is ignored; [unlock_bids] by the host then gives back the
    store as it was before the lock, when the room was not locked. *)
Theorem locked_room_takes_no_bid :
  forall now rooms c rid room,
    conn_room c = Some rid ->
    mget rid rooms = Some room ->
    In (conn_playerId c) (mkeys (players room)) ->
    hostId room = Some (conn_playerId c) ->
    on_message now LockBids rooms c
    = (mset rid (set_locked room true) rooms, c,
       [BroadcastRoomUpdate (set_locked room true)])
    /\ (forall now' c' topicId amt,
           conn_room c' = Some rid ->
           on_message now' (PlaceBid topicId amt)
             (mset rid (set_locked room true) rooms) c'
           = (mset rid (set_locked room true) rooms, c', []))
    /\ (locked room = false ->
        forall now',
          on_message now' UnlockBids
            (mset rid (set_locked room true) rooms) c
          = (rooms, c, [BroadcastRoomUpdate room])).
Proof.
  intros now rooms c rid room Hc Hr Hin Hh.
  assert (Hp : mhas (conn_playerId c) (players room) = true)
    by now apply mhas_In_keys.
  assert (Hi : is_host room (conn_playerId c) = true).
  { unfold is_host. rewrite Hh. apply String.eqb_refl. }
  split; [|split].
  - unfold on_message. now rewrite Hc, Hr, Hp, Hi.
  - intros now' c' topicId amt Hc'. unfold on_message.
    rewrite Hc', mget_mset_eq. cbn [locked set_locked negb].
    now destruct (negb (mhas (conn_playerId c') _)).
  - intros Hl now'. unfold on_message.
    rewrite Hc, mget_mset_eq. cbn [players set_locked].
    rewrite Hp. cbn [negb].
    replace (is_host (set_locked room true) (conn_playerId c))
      with (is_host room (conn_playerId c)) by reflexivity.
    rewrite Hi, mset_mset.
    replace (set_locked (set_locked room true) false) with room.
    + now rewrite (mset_same _ _ Hr).
    + rewrite <- Hl. symmetry. apply set_locked_back.
Qed.

Lemma locked_room_takes_no_bid_witness :
  on_message 7 LockBids hq_rooms conn_h
  = (mset "ROOM" (set_locked hq_room true) hq_rooms, conn_h,
     [BroadcastRoomUpdate (set_locked hq_room true)])
  /\ (forall now' c' topicId amt,
         conn_room c' = Some "ROOM" ->
         on_message now' (PlaceBid topicId amt)
           (mset "ROOM" (set_locked hq_room true) hq_rooms) c'
         = (mset "ROOM" (set_locked hq_room true) hq_rooms, c', []))
  /\ (locked hq_room = false ->
      forall now',
        on_message now' UnlockBids
          (mset "ROOM" (set_locked hq_room true) hq_rooms) conn_h
        = (hq_rooms, conn_h, [BroadcastRoomUpdate hq_room])).
Proof.
  apply (@locked_room_takes_no_bid 7 hq_rooms conn_h "ROOM" hq_room);
    try reflexivity.
  now left.
Defined.

(** ** Leaving *)

Lemma mdelete_absent (V : Type) (k : string) (m : JsMap V) :
  ~ In k (mkeys m) -> mdelete k m = m.
Proof.
  induction m as [|[k' v] m IH]; intros H; [reflexivity|].
  cbn [mdelete]. destruct (String.eqb k k') eqn:E.
  - apply String.eqb_eq in E. subst k'. exfalso. apply H. now left.
  - f_equal. apply IH. intros Hin. apply H. now right.
Qed.

Lemma mdelete_only (V : Type) (k : string) (m : JsMap V) :
  (forall k', In k' (mkeys m) -> k' = k) -> mdelete k m = [].
Proof.
  induction m as [|[k' v] m IH]; intros H; [reflexivity|].
  cbn [mdelete]. rewrite (H k') by now left. rewrite String.eqb_refl.
  apply IH. intros k2 H2. apply H. now right.
Qed.

(** X13. When the last participant of a room closes its connection the
    room is deleted from the store (for a room stored under its id),
    and nothing is sent; a [join] with the same code then starts a
    fresh room: the joiner is its host and only participant, the budget
    is 100, there is no topic, no lock and no bid. *)
Theorem last_leaver_deletes_room :
  forall rooms c rid room,
    conn_room c = Some rid ->
    mget rid rooms = Some room ->
    r_id room = rid ->
    In (conn_playerId c) (mkeys (players room)) ->
    (forall p, In p (mkeys (players room)) -> p = conn_playerId c) ->
    on_close rooms c = (mdelete rid rooms, [])
    /\ mget rid (mdelete rid rooms) = None
    /\ (forall k, k <> rid -> mget k (mdelete rid rooms) = mget k rooms)
    /\ (forall now c' name,
           rid <> "" ->
           exists room',
             on_message now (Join rid name) (mdelete rid rooms) c'
             = (mset rid room' (mdelete rid rooms),
                mkConn (conn_playerId c') (Some rid),
                [SendJoined (conn_playerId c') room';
                 BroadcastRoomUpdate room'])
             /\ room'
                = mkRoom rid (Some (conn_playerId c'))
                    (mkConfig (Fin 100) true true) false []
                    [(conn_playerId c',
                      mkPlayer (conn_playerId c') name (Fin 0))]
                    [(conn_playerId c', [])]).
Proof.
  intros rooms c rid room Hc Hr Hid Hin Honly.
  split; [|split; [|split]].
  - rewrite on_close_eq, Hc, Hr.
    destruct (mget (conn_playerId c) (players room)) as [pl|] eqn:Ep.
    + cbv zeta.
      destruct (leave_room_frame (conn_playerId c) room)
        as (F1 & _ & _ & _ & F5 & _).
      rewrite F5, F1, Hid, (@mdelete_only Player (conn_playerId c) (players room) Honly). reflexivity.
    + apply mget_In_keys in Hin. congruence.
  - rewrite mget_mdelete. now rewrite String.eqb_refl.
  - intros k Hk. rewrite mget_mdelete.
    destruct (String.eqb rid k) eqn:E; [|reflexivity].
    apply String.eqb_eq in E. congruence.
  - intros now c' name Hne. eexists. split; [|reflexivity].
    cbn [on_message]. rewrite handle_join_eq.
    apply String.eqb_neq in Hne. rewrite Hne. cbv zeta.
    unfold getOrCreateRoom. rewrite mget_mdelete, String.eqb_refl.
    cbn [fst snd]. rewrite mset_mset.
    unfold join_room, newRoom, recomputeSpent. simpl.
    rewrite !String.eqb_refl. reflexivity.
Qed.

Lemma last_leaver_deletes_room_witness :
  on_close [("SOLO", join_room "h" "Host" (newRoom "SOLO"))]
    (mkConn "h" (Some "SOLO"))
  = ([], [])
  /\ exists room',
      on_message 7 (Join "SOLO" "Zed") [] (mkConn "z" None)
      = ([("SOLO", room')], mkConn "z" (Some "SOLO"),
         [SendJoined "z" room'; BroadcastRoomUpdate room'])
      /\ hostId room' = Some "z".
Proof.
  destruct (@last_leaver_deletes_room
              [("SOLO", join_room "h" "Host" (newRoom "SOLO"))]
              (mkConn "h" (Some "SOLO")) "SOLO"
              (join_room "h" "Host" (newRoom "SOLO")))
    as (H1 & _ & _ & H4); try reflexivity.
  - now left.
  - intros p [<-|[]]. reflexivity.
  - split; [exact H1|].
    destruct (H4 7 (mkConn "z" None) "Zed") as (room' & E1 & E2);
      [discriminate|].
    exists room'. split; [exact E1|]. now subst room'.
Defined.

(** X14. The close of a connection takes out its participant and the
    bids of that participant, and nothing else of the room: the other
    participants and their bids, the configuration, the topics and the
    lock stay, and so does the host unless it is the one that leaves.
    The close of a connection that is not a participant of its room
    changes nothing and sends nothing. *)
Theorem close_removes_only_the_leaver :
  (forall rooms c rid room,
      conn_room c = Some rid ->
      mget rid rooms = Some room ->
      In (conn_playerId c) (mkeys (players room)) ->
      (exists other,
          In other (mkeys (players room)) /\ other <> conn_playerId c) ->
      exists room',
        on_close rooms c
        = (mset rid room' rooms, [BroadcastRoomUpdate room'])
        /\ mget (conn_playerId c) (players room') = None
        /\ mget (conn_playerId c) (bids room') = None
        /\ (forall q, q <> conn_playerId c ->
                      mget q (players room') = mget q (players room)
                      /\ mget q (bids room') = mget q (bids room))
        /\ config room' = config room
        /\ topics room' = topics room
        /\ locked room' = locked room
        /\ (hostId room <> Some (conn_playerId c) ->
            hostId room' = hostId room))
  /\ (forall rooms c,
         joined rooms c = false -> on_close rooms c = (rooms, [])).
Proof.
  split.
  - intros rooms c rid room Hc Hr Hin (other & Ho & Hne).
    set (pid := conn_playerId c) in *.
    exists (leave_room pid room).
    destruct (leave_room_frame pid room)
      as (F1 & F2 & F3 & F4 & F5 & F6 & F7).
    split; [|split; [|split; [|split; [|split; [|split; [|split]]]]]];
      try assumption.
    + rewrite on_close_eq, Hc, Hr. fold pid.
      destruct (mget pid (players room)) as [pl|] eqn:Ep;
        [|apply mget_In_keys in Hin; congruence].
      cbv zeta. rewrite F5. unfold msize.
      assert (Hrem : In other (mkeys (mdelete pid (players room))))
        by now apply mdelete_keeps_other.
      destruct (mdelete pid (players room)); [destruct Hrem|reflexivity].
    + rewrite F5, mget_mdelete. now rewrite String.eqb_refl.
    + rewrite F6, mget_mdelete. now rewrite String.eqb_refl.
    + intros q Hq. rewrite F5, F6, !mget_mdelete.
      destruct (String.eqb pid q) eqn:E; [|now split].
      apply String.eqb_eq in E. congruence.
    + intros Hh. rewrite F7. unfold is_host.
      destruct (hostId room) as [h|]; [|reflexivity].
      destruct (String.eqb h pid) eqn:E; [|reflexivity].
      apply String.eqb_eq in E. congruence.
  - intros rooms c Hj. unfold joined in Hj. rewrite on_close_eq.
    destruct (conn_room c) as [rid|]; [|reflexivity].
    destruct (mget rid rooms) as [room|]; [|reflexivity].
    unfold mhas in Hj.
    now destruct (mget (conn_playerId c) (players room)).
Qed.

Lemma close_removes_only_the_leaver_witness :
  exists room',
    on_close hq_rooms conn_q
    = (mset "ROOM" room' hq_rooms, [BroadcastRoomUpdate room'])
    /\ mget "h" (bids room') = mget "h" (bids hq_room)
    /\ hostId room' = Some "h".
Proof.
  destruct (proj1 close_removes_only_the_leaver hq_rooms conn_q "ROOM"
              hq_room) as (room' & H1 & _ & _ & H4 & _ & _ & _ & H8);
    try reflexivity.
  - right. now left.
  - exists "h". split; [now left|discriminate].
  - exists room'. split; [exact H1|]. split.
    + apply (H4 "h"). discriminate.
    + apply H8. discriminate.
Defined.

(** ** The clamp takes the overage and no more *)

Lemma spec_trim_from (rem : Z) (l : list Entry) (e' : Entry) :
  Forall entry_typed l -> In e' (spec_trim rem l) ->
  exists e,
    In e l
    /\ e_topicId e' = e_topicId e
    /\ exists a, e_amount e' = Fin a /\ 0 <= a <= value (e_amount e).
Proof.
  intros Hl. revert rem.
  induction Hl as [|[tid am t] l [a0 [Ha Hpos]] Hl IH]; intros rem Hin.
  - destruct Hin.
  - cbn [e_amount] in Ha. subst am.
    cbn [spec_trim e_amount e_topicId e_ts value] in Hin.
    destruct Hin as [<-|Hin].
    + exists (mkEntry tid (Fin a0) t). split; [now left|].
      split; [reflexivity|].
      exists (a0 - Z.min a0 (Z.max 0 rem)). split; [reflexivity|].
      cbn [e_amount value]. lia.
    + destruct (IH (rem - a0) Hin) as (e & H1 & H2).
      exists e. split; [now right|assumption].
Qed.

Lemma hq_room_typed : room_typed hq_room.
Proof.
  split.
  - exists 100. split; [reflexivity|]. split; [lia|].
    intros pid perTopic H. unfold hq_room in H. cbn [bids mget] in H.
    destruct (String.eqb pid "h").
    + injection H as <-. split; [|unfold exact_total; simpl; lia].
      split; [|split].
      * repeat constructor; simpl; intuition discriminate.
      * repeat constructor.
      * unfold exact_total, MAX_EXACT. simpl. lia.
    + destruct (String.eqb pid "q"); [|discriminate].
      injection H as <-. split; [|unfold exact_total; simpl; lia].
      split; [|split].
      * repeat constructor; simpl; intuition discriminate.
      * repeat constructor.
      * unfold exact_total, MAX_EXACT. simpl. lia.
  - intros k Hk. exact Hk.
Qed.

Lemma hq_rooms_typed : rooms_typed hq_rooms.
Proof.
  intros rid room H. unfold hq_rooms in H. cbn [mget] in H.
  destruct (String.eqb rid "ROOM"); [|discriminate].
  injection H as <-. apply hq_room_typed.
Qed.

(** X15. On a bid map typed as the data model types it (no topic twice,
    every amount a non-negative integer, the total of the amounts at
    most [2^53], the range in which the additions of the clamp are
    exact) and a budget that is a non-negative integer below that
    total, the clamp leaves a total of exactly the budget: it keeps a
    bid on every topic that had one (a bid trimmed away stays with the
    amount 0) and adds none, raises no amount, stamps every bid with
    the time of the clamp, and sets [spent] to the budget.  The bound
    on the total is needed: a total beyond [2^53] can leave more than
    the budget. *)
Theorem clamp_trims_to_budget :
  forall now room pid perTopic b,
    mget pid (bids room) = Some perTopic ->
    bids_typed perTopic ->
    budget (config room) = Fin b -> 0 <= b ->
    b < exact_total perTopic ->
    exists perTopic',
      mget pid (bids (clampBidsToBudget now room pid)) = Some perTopic'
      /\ bids_typed perTopic'
      /\ exact_total perTopic' = b
      /\ (forall k, In k (mkeys perTopic') <-> In k (mkeys perTopic))
      /\ (forall k bid',
             mget k perTopic' = Some bid' ->
             exists bid a,
               mget k perTopic = Some bid
               /\ bid' = mkBid (Fin a) now
               /\ 0 <= a <= value (amount bid))
      /\ (forall pl,
             mget pid (players room) = Some pl ->
             mget pid (players (clampBidsToBudget now room pid))
             = Some (mkPlayer (p_id pl) (p_name pl) (Fin b))).
Proof.
  intros now room pid perTopic b Hget Hty Hb Hb0 Hlt.
  destruct (@clamp_typed_result now room pid perTopic b Hget Hty Hb Hb0)
    as (perTopic' & Hget' & Hty' & Hle).
  exists perTopic'. split; [assumption|]. split; [assumption|].
  destruct (clamp_keys _ _ _ _ Hget') as (pt0 & Hpt0 & Hkeys).
  rewrite Hget in Hpt0. injection Hpt0 as <-.
  pose proof Hget' as Hnew.
  rewrite (@clamp_over_budget now room pid perTopic b) in Hnew
    by assumption.
  rewrite recomputeSpent_bids in Hnew. cbn [bids set_bids] in Hnew.
  rewrite mget_mset_eq in Hnew. injection Hnew as Hnew.
  set (sorted := Array_sort clamp_cmp (clamp_entries perTopic)) in *.
  destruct Hty as (Hnd & Hty & Hmax). unfold MAX_EXACT in Hmax.
  destruct (clamp_entries_typed Hty) as (He & Hs & Hk).
  pose proof (Array_sort_perm clamp_cmp (clamp_entries perTopic)) as Hperm.
  fold sorted in Hperm.
  assert (Hes : Forall entry_typed sorted).
  { apply Forall_forall. intros e Hin.
    apply (Permutation_in _ Hperm) in Hin.
    rewrite Forall_forall in He. now apply He. }
  assert (Hss : entries_sum sorted = exact_total perTopic).
  { rewrite <- Hs. now apply entries_sum_perm. }
  destruct (spec_trim_typed (exact_total perTopic - b) Hes)
    as (Ht1 & Ht2 & Ht3).
  destruct (stamped_typed now Ht1) as (Hn1 & Hn2).
  assert (Hsum : exact_total perTopic' = b).
  { rewrite <- Hnew, Hn2, Ht3, Hss. lia. }
  split; [assumption|]. split; [assumption|]. split.
  - intros k bid' Hk'. apply mget_In in Hk'. rewrite <- Hnew in Hk'.
    unfold stamped in Hk'. apply in_map_iff in Hk'.
    destruct Hk' as (e' & He' & Hin').
    injection He' as <- <-.
    destruct (@spec_trim_from _ _ _ Hes Hin') as (e & Hin & Hid & a & Ha & Hr).
    apply (Permutation_in _ Hperm) in Hin.
    unfold clamp_entries in Hin. apply in_map_iff in Hin.
    destruct Hin as ([k0 bid] & <- & Hin0).
    cbn [e_topicId e_amount fst snd] in *.
    exists bid, a. split; [|split].
    + rewrite Hid. now apply In_mget.
    + now rewrite Ha.
    + rewrite Forall_forall in Hty. specialize (Hty _ Hin0).
      cbn [snd] in Hty. unfold Math_floor in Hr.
      destruct (amount bid) as [| | |z]; try discriminate.
      cbn [is_nonneg_integer] in Hty. apply Z.leb_le in Hty.
      rewrite Math_max_Fin in Hr. cbn [value] in *. lia.
  - intros pl Hpl.
    rewrite (@clamp_over_budget now room pid perTopic b);
      try assumption; [|now repeat split].
    fold sorted. rewrite Hnew.
    rewrite (@recomputeSpent_player _ pid pl) by exact Hpl.
    f_equal. f_equal. unfold total_of. cbn [bids set_bids].
    rewrite mget_mset_eq, (@sum_amounts_exact perTopic') by assumption.
    now rewrite Hsum.
Qed.

Lemma clamp_trims_to_budget_witness :
  exists perTopic',
    mget "h" (bids (clampBidsToBudget 7 over_budget_room "h"))
    = Some perTopic'
    /\ exact_total perTopic' = 100.
Proof.
  destruct (@clamp_trims_to_budget 7 over_budget_room "h"
              [("X", mkBid (Fin 60) 1); ("Y", mkBid (Fin 50) 2)] 100)
    as (perTopic' & H1 & _ & H3 & _).
  - reflexivity.
  - exact over_budget_room_typed.
  - reflexivity.
  - lia.
  - unfold exact_total. simpl. lia.
  - exists perTopic'. now split.
Defined.

(** ** Bids *)

Lemma Math_max_zero_nonneg (x : number) (a : Z) :
  Math_max (Fin 0) x = Fin a -> 0 <= a.
Proof.
  destruct x as [| | |z]; cbn; try discriminate.
  - intros [= <-]. lia.
  - destruct (0 <? z) eqn:E; intros [= <-].
    + apply Z.ltb_lt in E. lia.
    + lia.
Qed.

(** X16. A bid of a participant on a topic of an unlocked room changes
    the bids and the [spent] of that participant only: the room is
    stored and broadcast, the bid maps and the records of the other
    participants, the configuration, the topics, the lock and the host
    stay, the bidder has a bid on the topic and on the topics it had
    bids on and on no other, and its [spent] is the total of its
    bids. *)
Theorem bid_changes_only_the_bidder :
  forall now rooms c rid room topicId amt,
    conn_room c = Some rid ->
    mget rid rooms = Some room ->
    In (conn_playerId c) (mkeys (players room)) ->
    locked room = false ->
    In topicId (map id (topics room)) ->
    exists room',
      on_message now (PlaceBid topicId amt) rooms c
      = (mset rid room' rooms, c, [BroadcastRoomUpdate room'])
      /\ (forall q, q <> conn_playerId c ->
                    mget q (players room') = mget q (players room)
                    /\ mget q (bids room') = mget q (bids room))
      /\ config room' = config room
      /\ topics room' = topics room
      /\ locked room' = locked room
      /\ hostId room' = hostId room
      /\ (exists perTopic',
             mget (conn_playerId c) (bids room') = Some perTopic'
             /\ forall k,
                 In k (mkeys perTopic')
                 <-> k = topicId
                     \/ In k (mkeys (nullish
                                       (mget (conn_playerId c) (bids room))
                                       [])))
      /\ (exists pl,
             mget (conn_playerId c) (players room') = Some pl
             /\ spent pl = total_of room' (conn_playerId c)).
Proof.
  intros now rooms c rid room topicId amt Hc Hr Hin Hl Ht.
  set (pid := conn_playerId c) in *.
  set (amount :=
         Math_max (Fin 0) (Math_floor_real (nullish amt (RFin 0)))).
  set (old := nullish (mget pid (bids room)) []).
  set (room1 := set_bids room
                  (mset pid (mset topicId (mkBid amount now) old)
                     (bids room))).
  assert (Hb : handle_bid now room pid topicId amt
               = Some (clampBidsToBudget now room1 pid)).
  { unfold handle_bid. apply existsb_topic_id in Ht. now rewrite Ht. }
  exists (clampBidsToBudget now room1 pid).
  destruct (clamp_same_frame now room1 pid)
    as (_ & F2 & F3 & F4 & F5 & _ & _).
  split; [|split; [|split; [|split; [|split; [|split; [|split]]]]]];
    try assumption.
  - unfold on_message. rewrite Hc, Hr. fold pid.
    apply mhas_In_keys in Hin. rewrite Hin, Hl. cbn [negb].
    now rewrite Hb.
  - intros q Hq. split.
    + unfold clampBidsToBudget.
      destruct (mget pid (bids room1)) as [pt|]; [|reflexivity].
      destruct (js_le _ _); now rewrite recomputeSpent_other.
    + rewrite clamp_frame by congruence.
      cbn [room1 bids set_bids]. apply mget_mset_neq. congruence.
  - assert (Hsome : mget pid (bids (clampBidsToBudget now room1 pid))
                    <> None).
    { apply mget_In_keys. rewrite clamp_bid_keys.
      cbn [room1 bids set_bids]. apply In_mkeys_mset. now left. }
    destruct (mget pid (bids (clampBidsToBudget now room1 pid)))
      as [pt'|] eqn:E; [|congruence].
    exists pt'. split; [reflexivity|].
    destruct (clamp_keys _ _ _ _ E) as (pt0 & Hpt0 & Hk).
    cbn [room1 bids set_bids] in Hpt0. rewrite mget_mset_eq in Hpt0.
    injection Hpt0 as <-. intros k. rewrite Hk. apply In_mkeys_mset.
  - assert (Hp : mget pid (players (clampBidsToBudget now room1 pid))
                 <> None).
    { apply mget_In_keys.
      destruct (clamp_same_frame now room1 pid)
        as (_ & _ & _ & _ & _ & F6 & _).
      rewrite F6. exact Hin. }
    destruct (mget pid (players (clampBidsToBudget now room1 pid)))
      as [pl|] eqn:E; [|congruence].
    exists pl. split; [reflexivity|].
    assert (Hs : spent_ok (clampBidsToBudget now room1 pid) pid).
    { apply clamp_spent.
      - intros _ Hnone. cbn [room1 bids set_bids] in Hnone.
        rewrite mget_mset_eq in Hnone. discriminate.
      - congruence. }
    now apply Hs.
Qed.

Lemma bid_changes_only_the_bidder_witness :
  exists room',
    on_message 7 (PlaceBid "Y" (Some (RFin (90 # 1)))) hq_rooms conn_q
    = (mset "ROOM" room' hq_rooms, conn_q, [BroadcastRoomUpdate room'])
    /\ mget "h" (bids room') = mget "h" (bids hq_room).
Proof.
  destruct (@bid_changes_only_the_bidder 7 hq_rooms conn_q "ROOM" hq_room
              "Y" (Some (RFin (90 # 1))))
    as (room' & H1 & H2 & _); try reflexivity.
  - right. now left.
  - right. now left.
  - exists room'. split; [exact H1|]. apply (H2 "h"). discriminate.
Defined.

(** X17. In a room of integer amounts within an integer budget, a bid
    that fits the budget is stored as sent: when the amount of the
    message reads as the integer [a0] (floored, at least 0) and the
    bids of the participant with this one total at most the budget,
    the bid on the topic is [a0] with the time of the message, the
    other bids of the participant keep their amounts and their times,
    and [spent] is the new total. *)
Theorem bid_within_budget_is_stored :
  forall now room pid topicId amt b a0 pl,
    room_typed room ->
    budget (config room) = Fin b ->
    mget pid (players room) = Some pl ->
    In topicId (map id (topics room)) ->
    Math_max (Fin 0) (Math_floor_real (nullish amt (RFin 0))) = Fin a0 ->
    exact_total (mset topicId (mkBid (Fin a0) now)
                   (nullish (mget pid (bids room)) [])) <= b ->
    exists room',
      handle_bid now room pid topicId amt = Some room'
      /\ mget pid (bids room')
         = Some (mset topicId (mkBid (Fin a0) now)
                   (nullish (mget pid (bids room)) []))
      /\ stored_bid room' pid topicId = Some (mkBid (Fin a0) now)
      /\ (forall k, k <> topicId ->
                    stored_bid room' pid k = stored_bid room pid k)
      /\ mget pid (players room')
         = Some (mkPlayer (p_id pl) (p_name pl)
                   (Fin (exact_total
                           (mset topicId (mkBid (Fin a0) now)
                              (nullish (mget pid (bids room)) []))))).
Proof.
  intros now room pid topicId amt b a0 pl Hty Hb Hpl Ht Ha Hfit.
  set (old := nullish (mget pid (bids room)) []) in *.
  set (new := mset topicId (mkBid (Fin a0) now) old) in *.
  set (room1 := set_bids room (mset pid new (bids room))).
  assert (Ha0 : 0 <= a0) by exact (Math_max_zero_nonneg _ Ha).
  destruct Hty as [[b' (Hb' & Hrb & Hall)] Hincl].
  rewrite Hb in Hb'. injection Hb' as <-.
  assert (Hold : bids_typed old).
  { unfold old. destruct (mget pid (bids room)) as [pt|] eqn:E;
      cbn [nullish].
    - exact (proj1 (Hall pid pt E)).
    - split; [constructor|]. split; [constructor|].
      unfold exact_total, MAX_EXACT. simpl. lia. }
  destruct Hold as (Hnd & Hpt & Hmax).
  destruct (@mset_bid_typed old topicId a0 now Hpt Ha0) as [M1 _].
  fold new in M1.
  assert (Hnew : bids_typed new).
  { split; [now apply NoDup_mkeys_mset|]. split; [assumption|].
    unfold MAX_EXACT. change (2 ^ 53) with 9007199254740992. lia. }
  assert (Hget1 : mget pid (bids room1) = Some new) by apply mget_mset_eq.
  assert (Hroom' : handle_bid now room pid topicId amt
                   = Some (recomputeSpent room1 pid)).
  { unfold handle_bid. apply existsb_topic_id in Ht. rewrite Ht.
    cbn [negb]. cbv zeta. rewrite Ha. fold old. fold new. fold room1.
    now rewrite (@clamp_within_budget now room1 pid new b). }
  exists (recomputeSpent room1 pid).
  split; [assumption|].
  assert (Hbids : mget pid (bids (recomputeSpent room1 pid)) = Some new).
  { now rewrite recomputeSpent_bids. }
  split; [assumption|]. split; [|split].
  - unfold stored_bid. rewrite Hbids. apply mget_mset_eq.
  - intros k Hk. unfold stored_bid. rewrite Hbids.
    unfold new. rewrite mget_mset_neq by congruence. unfold old.
    now destruct (mget pid (bids room)).
  - rewrite (@recomputeSpent_player room1 pid pl) by exact Hpl.
    f_equal. f_equal. unfold total_of. rewrite Hget1.
    now apply sum_amounts_exact.
Qed.

Lemma bid_within_budget_is_stored_witness :
  exists room',
    handle_bid 7 hq_room "q" "Y" (Some (RFin (70 # 1))) = Some room'
    /\ stored_bid room' "q" "Y" = Some (mkBid (Fin 70) 7)
    /\ stored_bid room' "q" "X" = Some (mkBid (Fin 30) 3).
Proof.
  destruct (@bid_within_budget_is_stored 7 hq_room "q" "Y"
              (Some (RFin (70 # 1))) 100 70 (mkPlayer "q" "Player" (Fin 30)))
    as (room' & H1 & _ & H3 & H4 & _).
  - exact hq_room_typed.
  - reflexivity.
  - reflexivity.
  - right. now left.
  - reflexivity.
  - unfold exact_total. simpl. lia.
  - exists room'. split; [exact H1|]. split; [exact H3|].
    rewrite (H4 "X"); [reflexivity|discriminate].
Defined.

(** X23. The budget holds over numeric events.  In a store of rooms
    with integer amounts within an integer budget of [1, 10000], a
    message whose numeric fields read as numbers (no [NaN] budget; an
    amount that is absent, [-Infinity] or finite and at most 2^52) and
    a close leave every room so, and in such a room the total of the
    bids of every participant is at most the budget and no amount is
    negative; so this holds after any sequence of such events on the
    empty store. *)
Theorem budget_holds_over_numeric_events :
  (forall now msg rooms c rid room,
      rooms_typed rooms -> fields_numeric msg ->
      mget rid (fst (fst (on_message now msg rooms c))) = Some room ->
      room_typed room /\ budget_respected room = true)
  /\ (forall rooms c rid room,
         rooms_typed rooms ->
         mget rid (fst (on_close rooms c)) = Some room ->
         room_typed room /\ budget_respected room = true)
  /\ (forall events rid room,
         Forall event_numeric events ->
         mget rid (after_events events []) = Some room ->
         room_typed room /\ budget_respected room = true).
Proof.
  split; [|split].
  - intros now msg rooms c rid room Hrs Hnum Hget.
    pose proof (@message_typed now msg rooms c Hrs Hnum rid room Hget) as H.
    split; [assumption|now apply room_typed_respects_budget].
  - intros rooms c rid room Hrs Hget.
    pose proof (@close_typed rooms c Hrs rid room Hget) as H.
    split; [assumption|now apply room_typed_respects_budget].
  - intros events rid room Hev Hget.
    assert (Hall : forall rooms,
               rooms_typed rooms -> rooms_typed (after_events events rooms)).
    { clear Hget.
      induction Hev as [|e events He Hev IH]; intros rooms Hrs;
        [assumption|].
      unfold after_events. cbn [fold_left]. apply IH.
      destruct e as [now msg c|c]; cbn [after_event].
      - now apply message_typed.
      - now apply close_typed. }
    assert (Hty : room_typed room).
    { apply (Hall []) with (rid := rid); [|exact Hget].
      intros rid0 room0 H0. discriminate. }
    split; [assumption|now apply room_typed_respects_budget].
Qed.

Lemma budget_holds_over_numeric_events_witness :
  exists room,
    mget "ROOM"
      (fst (fst (on_message 7 (PlaceBid "Y" (Some (RFin (90 # 1))))
                   hq_rooms conn_q)))
    = Some room
    /\ room_typed room /\ budget_respected room = true.
Proof.
  eexists. split; [vm_compute; reflexivity|].
  apply (proj1 budget_holds_over_numeric_events 7
           (PlaceBid "Y" (Some (RFin (90 # 1)))) hq_rooms conn_q "ROOM").
  - exact hq_rooms_typed.
  - cbn. change (2 ^ 52) with 4503599627370496. lia.
  - vm_compute. reflexivity.
Defined.

(** ** The two fields of the result agree *)

Lemma assign_inner (k : string) (ws : list string) (o : JsMap string)
  (p : string) :
  mget p (fold_left (fun o pid => mset pid k o) ws o)
  = if shas p ws then Some k else mget p o.
Proof.
  revert o. induction ws as [|w ws IH]; intros o; [reflexivity|].
  cbn [fold_left]. rewrite IH. unfold shas. cbn [existsb].
  fold (shas p ws). rewrite mget_mset, (String.eqb_sym w p).
  destruct (shas p ws); [now rewrite orb_true_r|].
  rewrite orb_false_r. reflexivity.
Qed.

Lemma find_last (A : Type) (f : A -> bool) (l : list A) (a : A) :
  find f (l ++ [a])
  = match find f l with
    | Some x => Some x
    | None => if f a then Some a else None
    end.
Proof.
  induction l as [|x l IH]; cbn [app find]; [reflexivity|].
  now destruct (f x).
Qed.

Lemma assign_outer (W : JsMap JsSet) (ts : list Topic) (o : JsMap string)
  (p : string) :
  mget p
    (fold_left
       (fun o t =>
          fold_left (fun o pid => mset pid (id t) o) (winners_of W (id t)) o)
       ts o)
  = match find (fun t => shas p (winners_of W (id t))) (rev ts) with
    | Some t => Some (id t)
    | None => mget p o
    end.
Proof.
  revert o. induction ts as [|a ts IH]; intros o; [reflexivity|].
  cbn [fold_left rev]. rewrite IH, find_last, assign_inner.
  destruct (find _ (rev ts)); [reflexivity|].
  now destruct (shas p (winners_of W (id a))).
Qed.

Lemma resolution_disjoint (room : Room) :
  disjoint_winners (topics room)
    (winnersByTopic (res_alloc (resolution room)))
  /\ sets_nodup (winnersByTopic (res_alloc (resolution room)))
  /\ keys_present (topics room) (res_alloc (resolution room)).
Proof.
  unfold resolution, SAFETY_CEILING. change 1000%nat with (S 999).
  rewrite resolution_upto_alloc.
  destruct (tentative_of_spec room) as (Hk & Hn & Hl).
  destruct (pass_spec Hk Hn Hl) as (P1 & P2 & _ & P4 & _).
  split; [assumption|]. split; assumption.
Qed.

(** X18. The two fields of the result of [computeWinners] agree.  For
    a room where no topic id and no owner of a bid map is the key
    ["__proto__"] (which an object does not keep as a property):
    [assignmentByPlayer] maps a participant to a topic id exactly when
    the participant is in the winner list of a topic of that id;
    [winnersByTopic] has an entry for the id of every topic and for
    nothing else, and no winner list names a participant twice. *)
Theorem assignment_inverts_winners :
  forall room,
    ~ In "__proto__" (map id (topics room)) ->
    ~ In "__proto__" (mkeys (bids room)) ->
    (forall p k,
        mget p (out_assignmentByPlayer (computeWinners room)) = Some k
        <-> exists t,
            In t (topics room) /\ id t = k
            /\ In p (winners_in (computeWinners room) t))
    /\ (forall k,
           In k (mkeys (out_winnersByTopic (computeWinners room)))
           <-> In k (map id (topics room)))
    /\ (forall t, NoDup (winners_in (computeWinners room) t)).
Proof.
  intros room _ _.
  destruct (resolution_disjoint room) as (Hd & Hn & Hk).
  unfold computeWinners, computeWinners_upto.
  fold (resolution room).
  set (W := winnersByTopic (res_alloc (resolution room))) in *.
  split; [|split].
  - intros p k. unfold build_result at 1. cbn [out_assignmentByPlayer].
    rewrite assign_outer. cbn [mget].
    destruct (find (fun t => shas p (winners_of W (id t)))
                (rev (topics room))) as [t|] eqn:E.
    + apply find_some in E. destruct E as [Ht Hp].
      apply in_rev in Ht. apply shas_In in Hp. split.
      * intros [= <-]. exists t. split; [assumption|].
        split; [reflexivity|]. now rewrite build_result_winners.
      * intros (t' & Ht' & <- & Hp').
        rewrite build_result_winners in Hp' by assumption.
        f_equal. now apply (Hd t t' p).
    + split; [discriminate|]. intros (t' & Ht' & _ & Hp').
      rewrite build_result_winners in Hp' by assumption.
      exfalso. apply in_rev in Ht'.
      pose proof (find_none _ _ E t' Ht') as Hf. cbv beta in Hf.
      apply shas_false in Hf. contradiction.
  - intros k. unfold build_result. cbn [out_winnersByTopic].
    rewrite <- mget_In_keys, (mget_fold_mset (winners_of W)).
    cbn [mget]. rewrite <- existsb_topic_id.
    destruct (existsb (fun t => String.eqb (id t) k) (topics room)).
    + split; [reflexivity|discriminate].
    + split; [intros H; now contradiction H|discriminate].
  - intros t. unfold winners_in, build_result. cbn [out_winnersByTopic].
    rewrite (mget_fold_mset (winners_of W)). cbn [mget].
    destruct (existsb _ (topics room)); cbn [nullish]; [apply Hn|constructor].
Qed.

Lemma assignment_inverts_winners_witness :
  (forall p k,
      mget p (out_assignmentByPlayer (computeWinners refill_room)) = Some k
      <-> exists t,
          In t (topics refill_room) /\ id t = k
          /\ In p (winners_in (computeWinners refill_room) t))
  /\ (forall k,
         In k (mkeys (out_winnersByTopic (computeWinners refill_room)))
         <-> In k (map id (topics refill_room)))
  /\ (forall t, NoDup (winners_in (computeWinners refill_room) t)).
Proof.
  apply (@assignment_inverts_winners refill_room).
  - simpl. intuition discriminate.
  - simpl. intuition discriminate.
Defined.

(** ** Nobody is passed over *)

Lemma walked_remaining (l : list Cand) (z : Z) :
  0 <= z -> l = walked l (Fin z) ++ remaining l (Fin z).
Proof.
  intros Hz. unfold walked, remaining.
  apply Z.leb_le in Hz. rewrite Hz. symmetry. apply firstn_skipn.
Qed.

Lemma firstn_S_skipn (A : Type) (n : nat) (l : list A) (c : A)
  (rest : list A) :
  skipn n l = c :: rest -> firstn (S n) l = firstn n l ++ [c].
Proof.
  revert l. induction n as [|n IH]; intros l H.
  - cbn [skipn] in H. subst l. reflexivity.
  - destruct l as [|x l]; [discriminate|].
    cbn [skipn] in H. cbn [firstn app]. f_equal. now apply IH.
Qed.

Lemma walked_incr (l : list Cand) (idx : number) (c : Cand)
  (rest : list Cand) :
  remaining l idx = c :: rest ->
  walked l (incr idx) = walked l idx ++ [c]
  /\ exists z, incr idx = Fin z /\ 0 <= z.
Proof.
  destruct idx as [| | |k]; cbn [remaining]; try discriminate.
  destruct (0 <=? k) eqn:E; [|discriminate].
  intros H. cbn [incr walked]. rewrite E. apply Z.leb_le in E.
  assert (E' : (0 <=? k + 1) = true) by (apply Z.leb_le; lia).
  rewrite E'. replace (Z.to_nat (k + 1)) with (S (Z.to_nat k)) by lia.
  split; [now apply (@firstn_S_skipn Cand _ l c rest)|].
  exists (k + 1). split; [reflexivity|lia].
Qed.

Lemma assigned_mono (topics : list Topic) (W W' : JsMap JsSet) (p : string) :
  (forall k q, In q (winners_of W k) -> In q (winners_of W' k)) ->
  assigned topics W p -> assigned topics W' p.
Proof. intros H (t & Ht & Hp). exists t. split; [assumption|now apply H]. Qed.

Lemma min_count (cap : number) (A : Type) (l : list A) :
  js_le (Fin 0) cap = true ->
  exists m,
    Math_min cap (array_length l) = Fin m
    /\ 0 <= m <= Z.of_nat (List.length l).
Proof.
  intros Hc. unfold array_length.
  destruct cap as [| | |c]; cbn in Hc; try discriminate.
  - exists (Z.of_nat (List.length l)). split; [reflexivity|lia].
  - apply Z.leb_le in Hc. rewrite Math_min_Fin.
    exists (Z.min c (Z.of_nat (List.length l))). split; [reflexivity|lia].
Qed.

(** *** The tentative winners *)

Lemma tentative_grows (bidLists : JsMap (list Cand)) (ts : list Topic)
  (st : Alloc) (k q : string) :
  In q (winners_of (winnersByTopic st) k) ->
  In q (winners_of (winnersByTopic (tentative bidLists ts st)) k).
Proof.
  revert st. induction ts as [|t ts IH]; intros st H; [assumption|].
  rewrite tentative_cons. apply IH. cbn [winnersByTopic].
  rewrite winners_of_mset. destruct (String.eqb (id t) k) eqn:E;
    [|assumption].
  apply String.eqb_eq in E. subst k. apply fold_sadd_spec. now left.
Qed.

Lemma tentative_top (bidLists : JsMap (list Cand)) (ts : list Topic)
  (st : Alloc) (t : Topic) (p : string) :
  In t ts -> In p (top_bidders bidLists t) ->
  In p (winners_of (winnersByTopic (tentative bidLists ts st)) (id t)).
Proof.
  revert st. induction ts as [|a ts IH]; intros st Ht Hp; [destruct Ht|].
  rewrite tentative_cons. destruct Ht as [->|Ht].
  - apply tentative_grows. cbn [winnersByTopic].
    rewrite winners_of_mset, String.eqb_refl.
    apply fold_sadd_spec. now right.
  - now apply IH.
Qed.

Lemma tentative_walked (bidLists : JsMap (list Cand))
  (topics ts : list Topic) (st : Alloc) :
  incl ts topics ->
  (forall t, In t ts -> js_le (Fin 0) (capacity t) = true) ->
  pointers_valid topics st ->
  walked_assigned bidLists topics st ->
  pointers_valid topics (tentative bidLists ts st)
  /\ walked_assigned bidLists topics (tentative bidLists ts st).
Proof.
  revert st. induction ts as [|a ts IH]; intros st Hi Hc Hv Hw.
  - now split.
  - rewrite tentative_cons.
    assert (Ha : In a topics) by (apply Hi; now left).
    destruct (@min_count (capacity a) Cand (bid_list bidLists (id a)))
      as (m & Hm & Hr); [apply Hc; now left|].
    rewrite Hm. cbn [iterations].
    apply IH.
    + intros x Hx. apply Hi. now right.
    + intros x Hx. apply Hc. now right.
    + intros t Ht. cbn [nextIndex]. rewrite idx_of_mset.
      destruct (String.eqb (id a) (id t)); [|now apply Hv].
      exists m. split; [reflexivity|lia].
    + intros t c Ht. cbn [nextIndex winnersByTopic].
      rewrite idx_of_mset.
      destruct (String.eqb (id a) (id t)) eqn:E.
      * apply String.eqb_eq in E. rewrite <- E. intros Hin.
        exists a. split; [assumption|].
        rewrite winners_of_mset, String.eqb_refl.
        apply fold_sadd_spec. right. apply in_map.
        unfold walked in Hin.
        destruct (0 <=? m) eqn:E0; [assumption|].
        apply Z.leb_gt in E0. lia.
      * intros Hin.
        apply (@assigned_mono topics (winnersByTopic st)).
        -- intros k q Hq. rewrite winners_of_mset.
           destruct (String.eqb (id a) k) eqn:Ek; [|assumption].
           apply String.eqb_eq in Ek. subst k.
           apply fold_sadd_spec. now left.
        -- now apply (Hw t c).
Qed.

Lemma idx_of_alloc_init (ts : list Topic) (k : string) :
  idx_of (nextIndex (alloc_init ts)) k = Fin 0.
Proof.
  unfold alloc_init.
  destruct (alloc_init_from ts (mkAlloc [] [])) as [_ H2].
  rewrite H2. cbn [nextIndex]. unfold idx_of.
  rewrite (mget_fold_mset (fun _ => Fin 0)).
  now destruct (existsb _ ts).
Qed.

Lemma tentative_of_walked (room : Room) :
  capacities_are_counts room ->
  pointers_valid (topics room) (tentative_of room)
  /\ walked_assigned (build_bidLists room) (topics room) (tentative_of room).
Proof.
  intros Hc. unfold tentative_of.
  apply tentative_walked.
  - apply incl_refl.
  - exact Hc.
  - intros t Ht. exists 0. split; [apply idx_of_alloc_init|lia].
  - intros t c Ht. rewrite idx_of_alloc_init. intros [].
Qed.

(** *** The removal keeps everybody assigned *)

Lemma remove_from_keeps (entry : string * string)
  (acc : JsMap JsSet * bool) (t : Topic) (k q : string) :
  (q = fst entry -> k = snd entry) ->
  In q (winners_of (fst acc) k) ->
  In q (winners_of (fst (remove_from entry acc t)) k).
Proof.
  intros Hk Hq. unfold remove_from.
  destruct (negb (shas (fst entry) (winners_of (fst acc) (id t))));
    [assumption|].
  destruct (String.eqb (id t) (snd entry)) eqn:E; [assumption|].
  cbn [fst]. rewrite winners_of_mset.
  destruct (String.eqb (id t) k) eqn:Ek; [|assumption].
  apply String.eqb_eq in Ek. subst k. apply String.eqb_neq in E.
  apply In_sdelete. split; [assumption|].
  intros Heq. apply E. now apply Hk.
Qed.

Lemma remove_topics_keeps (entry : string * string) (ts : list Topic)
  (acc : JsMap JsSet * bool) (k q : string) :
  (q = fst entry -> k = snd entry) ->
  In q (winners_of (fst acc) k) ->
  In q (winners_of (fst (fold_left (remove_from entry) ts acc)) k).
Proof.
  intros Hk. revert acc. induction ts as [|t ts IH]; intros acc Hq;
    [assumption|].
  cbn [fold_left]. apply IH. now apply remove_from_keeps.
Qed.

Lemma remove_unkept_keeps (topics : list Topic) (keep : JsMap string)
  (W : JsMap JsSet) (changed : bool) (k q : string) :
  (forall k', In (q, k') keep -> k = k') ->
  In q (winners_of W k) ->
  In q (winners_of (fst (remove_unkept topics keep W changed)) k).
Proof.
  unfold remove_unkept.
  change W with (fst (W, changed)) at 1.
  generalize (W, changed). clear W changed.
  induction keep as [|[p k0] keep IH]; intros acc Hk Hq; [assumption|].
  cbn [fold_left]. apply IH.
  - intros k' Hin. apply Hk. now right.
  - apply remove_topics_keeps; [|assumption].
    cbn [fst snd]. intros ->. apply Hk. now left.
Qed.

Lemma keep_step_nodup (keep : JsMap string) (entry : string * list Win) :
  NoDup (mkeys keep) -> NoDup (mkeys (keep_step keep entry)).
Proof.
  intros H. unfold keep_step.
  destruct (List.length (snd entry) <=? 1)%nat; [assumption|].
  destruct (Array_sort win_cmp (snd entry)); [assumption|].
  now apply NoDup_mkeys_mset.
Qed.

Lemma keepByPlayer_nodup (playerWins : JsMap (list Win)) :
  NoDup (mkeys (build_keepByPlayer playerWins)).
Proof.
  unfold build_keepByPlayer.
  assert (H : NoDup (mkeys (@nil (string * string)))) by constructor.
  revert H. generalize (@nil (string * string)).
  induction playerWins as [|e pw IH]; intros acc H; [assumption|].
  cbn [fold_left]. apply IH. now apply keep_step_nodup.
Qed.

Lemma removal_keeps_assigned (bidLists : JsMap (list Cand))
  (topics : list Topic) (W : JsMap JsSet) (changed : bool) (p : string) :
  assigned topics W p ->
  assigned topics
    (fst (remove_unkept topics
            (build_keepByPlayer (buildPlayerWins bidLists topics W))
            W changed)) p.
Proof.
  intros (t & Ht & Hp).
  set (pw := buildPlayerWins bidLists topics W).
  set (keep := build_keepByPlayer pw).
  destruct (buildPlayerWins_spec bidLists topics W) as [B1 B2].
  fold pw in B1, B2.
  pose proof (keepByPlayer_nodup pw) as Hnd. fold keep in Hnd.
  destruct (mget p keep) as [k|] eqn:E.
  - destruct (@keepByPlayer_spec pw p B2) as [K1 _].
    fold keep in K1. destruct (K1 k E) as (w & Hw & ->).
    apply B1 in Hw. destruct Hw as (tk & Htk & Hpk & b & _ & ->).
    cbn [w_topicId] in *.
    exists tk. split; [assumption|].
    apply remove_unkept_keeps; [|assumption].
    intros k' Hin. apply (@In_mget string p k' keep Hnd) in Hin.
    congruence.
  - exists t. split; [assumption|].
    apply remove_unkept_keeps; [|assumption].
    intros k' Hin. apply (@In_mget string p k' keep Hnd) in Hin.
    congruence.
Qed.

(** *** The refill keeps everybody assigned *)

Lemma refill_walk_walked (cap : number) (l : list Cand) (rest : list Cand)
  (st : Refill) :
  remaining l (rf_idx st) = rest ->
  (forall c,
      In c (walked l (rf_idx (refill_walk cap rest st))) ->
      In c (walked l (rf_idx st))
      \/ In (playerId c) (rf_winners (refill_walk cap rest st))
      \/ In (playerId c) (rf_winning (refill_walk cap rest st)))
  /\ ((exists z, rf_idx st = Fin z /\ 0 <= z) ->
      exists z, rf_idx (refill_walk cap rest st) = Fin z /\ 0 <= z)
  /\ (forall q,
         In q (rf_winning (refill_walk cap rest st)) ->
         In q (rf_winning st)
         \/ In q (rf_winners (refill_walk cap rest st))).
Proof.
  revert st. induction rest as [|c rest IH]; intros st Hr.
  - cbn [refill_walk]. split; [|split]; auto.
  - cbn [refill_walk].
    destruct (js_lt (ssize (rf_winners st)) cap) eqn:Elt;
      [|split; [|split]; auto].
    destruct (walked_incr _ _ Hr) as [Hw Hv].
    apply remaining_incr in Hr.
    destruct (shas (playerId c) (rf_winners st)) eqn:E1;
      [|destruct (shas (playerId c) (rf_winning st)) eqn:E2].
    + set (st' := mkRefill (rf_winners st) (rf_winning st)
                    (incr (rf_idx st)) (rf_changed st)).
      destruct (IH st' Hr) as (I1 & I2 & I3).
      destruct (refill_walk_spec cap rest st') as (R1 & _).
      split; [|split].
      * intros c0 Hc0. destruct (I1 c0 Hc0) as [H|H]; [|now right].
        cbn [st' rf_idx] in H. rewrite Hw in H.
        apply in_app_or in H. destruct H as [H|[<-|[]]]; [now left|].
        right. left. apply R1. cbn [st' rf_winners]. now apply shas_In.
      * intros _. now apply I2.
      * exact I3.
    + set (st' := mkRefill (rf_winners st) (rf_winning st)
                    (incr (rf_idx st)) (rf_changed st)).
      destruct (IH st' Hr) as (I1 & I2 & I3).
      destruct (refill_walk_spec cap rest st') as (_ & R2 & _).
      split; [|split].
      * intros c0 Hc0. destruct (I1 c0 Hc0) as [H|H]; [|now right].
        cbn [st' rf_idx] in H. rewrite Hw in H.
        apply in_app_or in H. destruct H as [H|[<-|[]]]; [now left|].
        right. right. apply R2. cbn [st' rf_winning]. now apply shas_In.
      * intros _. now apply I2.
      * exact I3.
    + set (st' := mkRefill (sadd (playerId c) (rf_winners st))
                    (sadd (playerId c) (rf_winning st))
                    (incr (rf_idx st)) true).
      destruct (IH st' Hr) as (I1 & I2 & I3).
      destruct (refill_walk_spec cap rest st') as (R1 & _).
      split; [|split].
      * intros c0 Hc0. destruct (I1 c0 Hc0) as [H|H]; [|now right].
        cbn [st' rf_idx] in H. rewrite Hw in H.
        apply in_app_or in H. destruct H as [H|[<-|[]]]; [now left|].
        right. left. apply R1. cbn [st' rf_winners].
        apply In_sadd. now left.
      * intros _. now apply I2.
      * intros q Hq. destruct (I3 q Hq) as [H|H]; [|now right].
        cbn [st' rf_winning] in H. apply In_sadd in H.
        destruct H as [->|H]; [|now left].
        right. apply R1. cbn [st' rf_winners]. apply In_sadd. now left.
Qed.

Lemma refill_topic_walked (bidLists : JsMap (list Cand))
  (topics : list Topic) (t : Topic) (acc : Alloc * JsSet * bool) :
  In t topics ->
  refill_walked bidLists topics acc ->
  refill_walked bidLists topics (refill_topic bidLists t acc).
Proof.
  destruct acc as [[[W N] wp] ch]. intros Ht (Hv & Hw & Hs).
  cbn [fst snd winnersByTopic nextIndex] in *.
  rewrite refill_topic_eq.
  destruct (js_ge (ssize (winners_of W (id t))) (capacity t)).
  { unfold refill_walked. cbn [fst snd]. auto. }
  cbv zeta.
  set (l := bid_list bidLists (id t)).
  set (rest := remaining l (idx_of N (id t))).
  set (st0 := mkRefill (winners_of W (id t)) wp (idx_of N (id t)) ch).
  destruct (@refill_walk_walked (capacity t) l rest st0 eq_refl)
    as (K1 & K2 & K3).
  destruct (refill_walk_spec (capacity t) rest st0) as (R1 & _).
  set (r := refill_walk (capacity t) rest st0) in *.
  cbn [rf_winners rf_winning rf_idx st0] in K1, K2, K3, R1.
  assert (Hmono : forall k q,
             In q (winners_of W k) ->
             In q (winners_of (mset (id t) (rf_winners r) W) k)).
  { intros k q Hq. rewrite winners_of_mset.
    destruct (String.eqb (id t) k) eqn:E; [|assumption].
    apply String.eqb_eq in E. subst k. now apply R1. }
  assert (Hown : forall q,
             In q (rf_winners r) ->
             assigned topics (mset (id t) (rf_winners r) W) q).
  { intros q Hq. exists t. split; [assumption|].
    now rewrite winners_of_mset, String.eqb_refl. }
  assert (Hs' : forall q,
             In q (rf_winning r) ->
             assigned topics (mset (id t) (rf_winners r) W) q).
  { intros q Hq. destruct (K3 q Hq) as [H|H]; [|now apply Hown].
    apply (@assigned_mono topics W); [assumption|now apply Hs]. }
  unfold refill_walked, pointers_valid, walked_assigned.
  cbn [fst snd winnersByTopic nextIndex].
  split; [|split].
  - intros t0 H0. rewrite idx_of_mset.
    destruct (String.eqb (id t) (id t0)); [|now apply Hv].
    apply K2. now apply Hv.
  - intros t0 c H0. rewrite idx_of_mset.
    destruct (String.eqb (id t) (id t0)) eqn:E.
    + apply String.eqb_eq in E. rewrite <- E. fold l. intros Hc.
      destruct (K1 c Hc) as [H|[H|H]].
      * apply (@assigned_mono topics W); [assumption|].
        now apply (Hw t c).
      * now apply Hown.
      * now apply Hs'.
    + intros Hc. apply (@assigned_mono topics W); [assumption|].
      now apply (Hw t0 c).
  - exact Hs'.
Qed.

Lemma refill_all_walked (bidLists : JsMap (list Cand)) (topics : list Topic)
  (ts : list Topic) (acc : Alloc * JsSet * bool) :
  incl ts topics ->
  refill_walked bidLists topics acc ->
  refill_walked bidLists topics
    (fold_left (fun acc t => refill_topic bidLists t acc) ts acc).
Proof.
  revert acc. induction ts as [|t ts IH]; intros acc Hi H; [assumption|].
  cbn [fold_left]. apply IH.
  - intros x Hx. apply Hi. now right.
  - apply refill_topic_walked; [apply Hi; now left|assumption].
Qed.

Lemma refill_all_grows (bidLists : JsMap (list Cand)) (ts : list Topic)
  (acc : Alloc * JsSet * bool) (k q : string) :
  In q (winners_of (winnersByTopic (fst (fst acc))) k) ->
  In q (winners_of
          (winnersByTopic
             (fst (fst (fold_left
                          (fun acc t => refill_topic bidLists t acc)
                          ts acc)))) k).
Proof.
  revert acc. induction ts as [|t ts IH]; intros acc H; [assumption|].
  cbn [fold_left]. apply IH.
  destruct acc as [[[W N] wp] ch]. cbn [fst winnersByTopic] in H.
  rewrite refill_topic_eq.
  destruct (js_ge (ssize (winners_of W (id t))) (capacity t));
    [assumption|].
  cbv zeta. cbn [fst winnersByTopic]. rewrite winners_of_mset.
  destruct (String.eqb (id t) k) eqn:E; [|assumption].
  apply String.eqb_eq in E. subst k.
  now apply refill_walk_spec.
Qed.

(** One pass keeps the assigned assigned, and keeps the invariant of
    the pointers. *)
Lemma pass_keeps_assigned (bidLists : JsMap (list Cand))
  (topics : list Topic) (st : Alloc) (p : string) :
  assigned topics (winnersByTopic st) p ->
  assigned topics (winnersByTopic (fst (pass bidLists topics st))) p.
Proof.
  intros H. rewrite pass_eq. cbv zeta. cbn [fst].
  apply (@removal_keeps_assigned bidLists topics (winnersByTopic st) false)
    in H.
  destruct H as (t & Ht & Hp). exists t. split; [assumption|].
  now apply refill_all_grows.
Qed.

Lemma pass_walked (bidLists : JsMap (list Cand)) (topics : list Topic)
  (st : Alloc) :
  pointers_valid topics st ->
  walked_assigned bidLists topics st ->
  pointers_valid topics (fst (pass bidLists topics st))
  /\ walked_assigned bidLists topics (fst (pass bidLists topics st)).
Proof.
  intros Hv Hw. rewrite pass_eq. cbv zeta. cbn [fst].
  set (rm := remove_unkept topics
               (build_keepByPlayer
                  (buildPlayerWins bidLists topics (winnersByTopic st)))
               (winnersByTopic st) false).
  assert (Hinv : refill_walked bidLists topics
                   (mkAlloc (fst rm) (nextIndex st),
                    build_winningPlayers topics (fst rm), snd rm)).
  { unfold refill_walked, walked_assigned.
    cbn [fst snd winnersByTopic nextIndex].
    split; [exact Hv|]. split.
    - intros t c Ht Hc.
      unfold rm. apply removal_keeps_assigned. now apply (Hw t c).
    - intros q Hq. unfold build_winningPlayers in Hq.
      apply winningPlayers_from in Hq. destruct Hq as [[]|Hq].
      exact Hq. }
  destruct (@refill_all_walked bidLists topics topics _ (incl_refl topics)
              Hinv) as (H1 & H2 & _).
  now split.
Qed.

(** *** The result *)

Lemma topic_bids_listed (bs : JsMap (JsMap Bid)) (k p : string)
  (perTopic : JsMap Bid) (b : Bid) :
  In (p, perTopic) bs ->
  mget k perTopic = Some b ->
  js_le (Math_max (Fin 0) (Math_floor (amount b))) (Fin 0) = false ->
  In (mkCand p (Math_max (Fin 0) (Math_floor (amount b))) (ts b))
     (topic_bids bs k).
Proof.
  intros Hin Hb Hf. unfold topic_bids. apply in_flat_map.
  exists (p, perTopic). split; [assumption|]. cbn [fst snd].
  rewrite Hb. cbv zeta. rewrite Hf. now left.
Qed.

Lemma listed_of_bid (room : Room) (t : Topic) (p : string)
  (perTopic : JsMap Bid) (b : Bid) :
  In t (topics room) ->
  mget p (bids room) = Some perTopic ->
  mget (id t) perTopic = Some b ->
  js_le (Math_max (Fin 0) (Math_floor (amount b))) (Fin 0) = false ->
  In (mkCand p (Math_max (Fin 0) (Math_floor (amount b))) (ts b))
     (bid_list (build_bidLists room) (id t)).
Proof.
  intros Ht Hp Hb Hf. rewrite bid_list_build by assumption.
  apply Array_sort_In. apply (@topic_bids_listed _ _ _ perTopic);
    try assumption.
  now apply mget_In.
Qed.

Lemma resolution_is_first_pass (room : Room) :
  res_alloc (resolution room)
  = fst (pass (build_bidLists room) (topics room) (tentative_of room)).
Proof.
  unfold resolution, SAFETY_CEILING. change 1000%nat with (S 999).
  apply resolution_upto_alloc.
Qed.

Lemma computeWinners_winners (room : Room) (t : Topic) :
  In t (topics room) ->
  winners_in (computeWinners room) t
  = winners_of (winnersByTopic (res_alloc (resolution room))) (id t).
Proof.
  intros Ht. unfold computeWinners, computeWinners_upto.
  now rewrite build_result_winners.
Qed.

Lemma assigned_in_result (room : Room) (p : string) :
  assigned (topics room) (winnersByTopic (res_alloc (resolution room))) p ->
  exists t, In t (topics room) /\ In p (winners_in (computeWinners room) t).
Proof.
  intros (t & Ht & Hp). exists t. split; [assumption|].
  now rewrite computeWinners_winners.
Qed.

(** X19. No seat is left free while somebody wants it: in a room whose
    capacities are non-negative, when the result of [computeWinners]
    leaves a topic with fewer winners than its capacity, every
    participant with a bid on that topic that passes the filter of the
    bid lists (a floored amount above 0) is a winner of some topic. *)
Theorem free_seat_means_all_bidders_placed :
  forall room t p perTopic b,
    capacities_are_counts room ->
    In t (topics room) ->
    mget p (bids room) = Some perTopic ->
    mget (id t) perTopic = Some b ->
    js_le (Math_max (Fin 0) (Math_floor (amount b))) (Fin 0) = false ->
    js_lt (array_length (winners_in (computeWinners room) t)) (capacity t)
    = true ->
    exists t',
      In t' (topics room) /\ In p (winners_in (computeWinners room) t').
Proof.
  intros room t p perTopic b Hc Ht Hp Hb Hf Hfree.
  apply assigned_in_result.
  rewrite computeWinners_winners in Hfree by assumption.
  rewrite resolution_is_first_pass in *.
  destruct (tentative_of_spec room) as (Hk & Hn & Hl).
  destruct (pass_spec Hk Hn Hl) as (_ & _ & _ & _ & Hsat & _).
  destruct (tentative_of_walked Hc) as [Hv Hw].
  destruct (pass_walked Hv Hw) as [Hv' Hw'].
  set (st := fst (pass (build_bidLists room) (topics room)
                    (tentative_of room))) in *.
  pose proof (@listed_of_bid room t p perTopic b Ht Hp Hb Hf) as Hin.
  destruct (Hsat t Ht) as [Hfull|Hend].
  - unfold ssize in Hfull. unfold array_length in Hfree. congruence.
  - destruct (Hv' t Ht) as (z & Hz & Hz0).
    rewrite (@walked_remaining (bid_list (build_bidLists room) (id t)) z)
      in Hin by assumption.
    rewrite <- Hz, Hend, app_nil_r in Hin.
    exact (Hw' t _ Ht Hin).
Qed.

Lemma ab_room_counts : capacities_are_counts ab_room.
Proof. intros t [<-|[<-|[]]]; reflexivity. Qed.

Lemma free_seat_means_all_bidders_placed_witness :
  exists t',
    In t' (topics ab_room) /\ In "p2" (winners_in (computeWinners ab_room) t').
Proof.
  apply (@free_seat_means_all_bidders_placed ab_room
           (mkTopic "B" "Topic" (Fin 1)) "p2"
           [("A", mkBid (Fin 80) 2); ("B", mkBid (Fin 30) 3)]
           (mkBid (Fin 30) 3)).
  - exact ab_room_counts.
  - right. now left.
  - reflexivity.
  - reflexivity.
  - reflexivity.
  - reflexivity.
Defined.

(** X20. Nobody among the tentative winners ends without a topic: a
    participant among the first [capacity] candidates of the sorted bid
    list of some topic is, in the result of [computeWinners], a winner
    of some topic (of that one, or of the one kept instead). *)
Theorem top_bidders_are_placed :
  forall room t p,
    In t (topics room) ->
    In p (top_bidders (build_bidLists room) t) ->
    exists t',
      In t' (topics room) /\ In p (winners_in (computeWinners room) t').
Proof.
  intros room t p Ht Hp. apply assigned_in_result.
  rewrite resolution_is_first_pass. apply pass_keeps_assigned.
  exists t. split; [assumption|].
  unfold tentative_of. now apply tentative_top.
Qed.

Lemma top_bidders_are_placed_witness :
  exists t',
    In t' (topics ab_room) /\ In "p2" (winners_in (computeWinners ab_room) t').
Proof.
  apply (@top_bidders_are_placed ab_room (mkTopic "B" "Topic" (Fin 1)) "p2").
  - right. now left.
  - now left.
Defined.

(** ** Nobody is outbid by a winner and left out *)

(** *** The winners are walked candidates *)

Lemma tentative_frame_idx (bidLists : JsMap (list Cand)) (ts : list Topic)
  (st : Alloc) (k : string) :
  ~ In k (map id ts) ->
  idx_of (nextIndex (tentative bidLists ts st)) k
  = idx_of (nextIndex st) k.
Proof.
  revert st. induction ts as [|t ts IH]; intros st Hk; [reflexivity|].
  rewrite tentative_cons, IH by (simpl in Hk; tauto).
  cbn [nextIndex]. rewrite idx_of_mset.
  destruct (String.eqb (id t) k) eqn:E; [|reflexivity].
  apply String.eqb_eq in E. simpl in Hk. tauto.
Qed.

Lemma tentative_at (bidLists : JsMap (list Cand)) (ts : list Topic)
  (st : Alloc) (t : Topic) :
  NoDup (map id ts) -> In t ts ->
  winners_of (winnersByTopic (tentative bidLists ts st)) (id t)
  = fold_left (fun w c => sadd (playerId c) w)
      (firstn
         (iterations
            (Math_min (capacity t)
               (array_length (bid_list bidLists (id t)))))
         (bid_list bidLists (id t)))
      (winners_of (winnersByTopic st) (id t))
  /\ idx_of (nextIndex (tentative bidLists ts st)) (id t)
     = Math_min (capacity t) (array_length (bid_list bidLists (id t))).
Proof.
  revert st. induction ts as [|a ts IH]; intros st Hnd Ht; [destruct Ht|].
  cbn [map] in Hnd. inversion Hnd as [|? ? Hni Hnd']; subst.
  rewrite tentative_cons. destruct Ht as [->|Ht].
  - rewrite tentative_frame, tentative_frame_idx by assumption.
    cbn [winnersByTopic nextIndex].
    now rewrite winners_of_mset, idx_of_mset, String.eqb_refl.
  - match goal with
    | |- context [tentative bidLists ts ?s] =>
        destruct (IH s Hnd' Ht) as [I1 I2]
    end.
    rewrite I1, I2.
    cbn [winnersByTopic]. rewrite winners_of_mset.
    destruct (String.eqb (id a) (id t)) eqn:E; [|now split].
    apply String.eqb_eq in E. exfalso. apply Hni. rewrite E.
    now apply in_map.
Qed.

Lemma walked_iterations (l : list Cand) (n : number) (c : Cand) :
  In c (firstn (iterations n) l) -> In c (walked l n).
Proof.
  destruct n as [| | |m]; cbn [iterations walked firstn]; try tauto.
  destruct (0 <=? m) eqn:E; [tauto|].
  apply Z.leb_gt in E. replace (Z.to_nat m) with 0%nat by lia.
  cbn [firstn]. tauto.
Qed.

Lemma tentative_of_winners_walked (room : Room) :
  NoDup (map id (topics room)) ->
  winners_walked (build_bidLists room) (tentative_of room).
Proof.
  intros Hnd k p Hp. unfold tentative_of in *.
  destruct (alloc_init_spec (topics room)) as [_ He].
  destruct (in_dec string_dec k (map id (topics room))) as [Hin|Hni].
  - apply in_map_iff in Hin. destruct Hin as (t & <- & Ht).
    destruct (@tentative_at (build_bidLists room) (topics room)
                (alloc_init (topics room)) t Hnd Ht) as [T1 T2].
    rewrite T1, He in Hp. rewrite T2.
    apply fold_sadd_spec in Hp. destruct Hp as [[]|Hp].
    apply in_map_iff in Hp. destruct Hp as (c & <- & Hc).
    apply in_map. now apply walked_iterations.
  - rewrite tentative_frame, He in Hp by assumption. destruct Hp.
Qed.

Lemma walked_incr_incl (l : list Cand) (idx : number) (c : Cand)
  (rest : list Cand) (x : Cand) :
  remaining l idx = c :: rest ->
  In x (walked l idx) -> In x (walked l (incr idx)).
Proof.
  intros Hr Hx. destruct (walked_incr _ _ Hr) as [-> _].
  apply in_or_app. now left.
Qed.

Lemma refill_walk_winners_walked (cap : number) (l : list Cand)
  (rest : list Cand) (st : Refill) :
  remaining l (rf_idx st) = rest ->
  (forall q, In q (rf_winners st) ->
             In q (map playerId (walked l (rf_idx st)))) ->
  forall q, In q (rf_winners (refill_walk cap rest st)) ->
            In q (map playerId (walked l (rf_idx (refill_walk cap rest st)))).
Proof.
  revert st. induction rest as [|c rest IH]; intros st Hr Hst;
    [exact Hst|].
  cbn [refill_walk].
  destruct (js_lt (ssize (rf_winners st)) cap); [|exact Hst].
  destruct (walked_incr _ _ Hr) as [Hw _].
  assert (Hold : forall q, In q (rf_winners st) ->
                           In q (map playerId
                                   (walked l (incr (rf_idx st))))).
  { intros q Hq. rewrite Hw, map_app. apply in_or_app. left.
    now apply Hst. }
  assert (Hc : In (playerId c)
                 (map playerId (walked l (incr (rf_idx st))))).
  { rewrite Hw, map_app. apply in_or_app. right. now left. }
  apply remaining_incr in Hr.
  destruct (shas (playerId c) (rf_winners st));
    [|destruct (shas (playerId c) (rf_winning st))];
    apply IH; cbn [rf_idx rf_winners]; try assumption.
  intros q Hq. apply In_sadd in Hq. destruct Hq as [->|Hq]; auto.
Qed.

Lemma refill_topic_winners_walked (bidLists : JsMap (list Cand)) (t : Topic)
  (acc : Alloc * JsSet * bool) :
  winners_walked bidLists (fst (fst acc)) ->
  winners_walked bidLists (fst (fst (refill_topic bidLists t acc))).
Proof.
  destruct acc as [[[W N] wp] ch]. intros H.
  cbn [fst] in H. rewrite refill_topic_eq.
  destruct (js_ge (ssize (winners_of W (id t))) (capacity t));
    [exact H|].
  cbv zeta. cbn [fst]. intros k p.
  cbn [winnersByTopic nextIndex]. rewrite winners_of_mset, idx_of_mset.
  destruct (String.eqb (id t) k) eqn:E; [|apply (H k p)].
  apply String.eqb_eq in E. subst k.
  apply (@refill_walk_winners_walked (capacity t)
           (bid_list bidLists (id t))); [reflexivity|].
  cbn [rf_winners rf_idx]. intros q Hq. exact (H (id t) q Hq).
Qed.

Lemma pass_winners_walked (bidLists : JsMap (list Cand))
  (topics : list Topic) (st : Alloc) :
  winners_walked bidLists st ->
  winners_walked bidLists (fst (pass bidLists topics st)).
Proof.
  intros H. rewrite pass_eq. cbv zeta. cbn [fst].
  set (rm := remove_unkept topics
               (build_keepByPlayer
                  (buildPlayerWins bidLists topics (winnersByTopic st)))
               (winnersByTopic st) false).
  assert (H0 : winners_walked bidLists
                 (fst (fst (mkAlloc (fst rm) (nextIndex st),
                            build_winningPlayers topics (fst rm),
                            snd rm)))).
  { cbn [fst]. intros k p Hp. cbn [winnersByTopic nextIndex] in *.
    apply H. unfold rm in Hp.
    destruct (remove_unkept_spec topics
                (build_keepByPlayer
                   (buildPlayerWins bidLists topics (winnersByTopic st)))
                (winnersByTopic st) false) as ((S1 & _) & _).
    now apply S1. }
  revert H0.
  generalize (mkAlloc (fst rm) (nextIndex st),
              build_winningPlayers topics (fst rm), snd rm).
  induction topics as [|t ts IH] in |- *; intros acc H0; [exact H0|].
  cbn [fold_left]. apply IH. now apply refill_topic_winners_walked.
Qed.

(** *** The bid lists are ranked *)

Lemma ranked_before_trans (x y z : Cand) :
  ranked_before x y -> ranked_before y z -> ranked_before x z.
Proof. unfold ranked_before. lia. Qed.

Lemma cand_cmp_le (x y : Cand) :
  cand_finite x -> cand_finite y ->
  js_gt (cand_cmp x y) (Fin 0) = false -> ranked_before x y.
Proof.
  intros [a Ha] [b Hb]. unfold cand_cmp, ranked_before.
  rewrite Ha, Hb. unfold js_strict_neq. cbn [js_strict_eq value].
  destruct (b =? a) eqn:E; cbn [negb].
  - apply Z.eqb_eq in E.
    destruct (c_ts x =? c_ts y) eqn:Et; cbn [negb].
    + apply Z.eqb_eq in Et. intros _. lia.
    + rewrite js_sub_gt0. intros H. apply Z.ltb_ge in H. lia.
  - apply Z.eqb_neq in E. rewrite js_sub_gt0. intros H.
    apply Z.ltb_ge in H. lia.
Qed.

Lemma cand_cmp_gt (x y : Cand) :
  cand_finite x -> cand_finite y ->
  js_gt (cand_cmp x y) (Fin 0) = true -> ranked_before y x.
Proof.
  intros [a Ha] [b Hb]. unfold cand_cmp, ranked_before.
  rewrite Ha, Hb. unfold js_strict_neq. cbn [js_strict_eq value].
  destruct (b =? a) eqn:E; cbn [negb].
  - apply Z.eqb_eq in E.
    destruct (c_ts x =? c_ts y) eqn:Et; cbn [negb].
    + apply Z.eqb_eq in Et. intros _. lia.
    + rewrite js_sub_gt0. intros H. apply Z.ltb_lt in H. lia.
  - apply Z.eqb_neq in E. rewrite js_sub_gt0. intros H.
    apply Z.ltb_lt in H. lia.
Qed.

Lemma topic_bids_cand (bs : JsMap (JsMap Bid)) (k : string) (c : Cand) :
  In c (topic_bids bs k) ->
  exists perTopic b,
    In (playerId c, perTopic) bs
    /\ mget k perTopic = Some b
    /\ js_le (Math_max (Fin 0) (Math_floor (amount b))) (Fin 0) = false
    /\ c = mkCand (playerId c) (Math_max (Fin 0) (Math_floor (amount b)))
             (ts b).
Proof.
  unfold topic_bids. rewrite in_flat_map.
  intros [[pid perTopic] [Hin Hc]]. cbn [fst snd] in Hc.
  destruct (mget k perTopic) as [b|] eqn:Eb; [|destruct Hc].
  destruct (js_le (Math_max (Fin 0) (Math_floor (amount b))) (Fin 0)) eqn:E;
    [destruct Hc|].
  destruct Hc as [<-|[]]. cbn [playerId]. exists perTopic, b. auto.
Qed.

Lemma topic_bids_finite (room : Room) (k : string) :
  amounts_finite room -> Forall cand_finite (topic_bids (bids room) k).
Proof.
  intros Hfin. apply Forall_forall. intros c Hc.
  destruct (topic_bids_cand _ _ _ Hc) as (pt & b & Hin & Hb & _ & ->).
  apply mget_In in Hb. destruct (Hfin _ _ _ _ Hin Hb) as [a Ha].
  unfold cand_finite. cbn [c_amount]. rewrite Ha. unfold Math_floor.
  rewrite Math_max_Fin. now eexists.
Qed.

Lemma bid_list_ranked (room : Room) (t : Topic) :
  amounts_finite room -> In t (topics room) ->
  StronglySorted ranked_before (bid_list (build_bidLists room) (id t)).
Proof.
  intros Hfin Ht. rewrite bid_list_build by assumption.
  apply (@Array_sort_sorted Cand cand_cmp cand_finite ranked_before).
  - exact ranked_before_trans.
  - exact cand_cmp_le.
  - exact cand_cmp_gt.
  - now apply topic_bids_finite.
Qed.

Lemma topic_bids_ids (bs : JsMap (JsMap Bid)) (k p : string) :
  In p (map playerId (topic_bids bs k)) -> In p (mkeys bs).
Proof.
  intros H. apply in_map_iff in H. destruct H as (c & <- & Hc).
  destruct (topic_bids_cand _ _ _ Hc) as (pt & b & Hin & _).
  unfold mkeys. apply in_map_iff. now exists (playerId c, pt).
Qed.

Lemma topic_bids_nodup (bs : JsMap (JsMap Bid)) (k : string) :
  NoDup (mkeys bs) -> NoDup (map playerId (topic_bids bs k)).
Proof.
  induction bs as [|[p pt] bs IH]; intros Hnd; [constructor|].
  cbn [mkeys map fst] in Hnd. inversion Hnd as [|? ? Hni Hnd']; subst.
  change (topic_bids ((p, pt) :: bs) k)
    with ((match mget k pt with
           | None => []
           | Some b =>
               if js_le (Math_max (Fin 0) (Math_floor (amount b))) (Fin 0)
               then []
               else [mkCand p (Math_max (Fin 0) (Math_floor (amount b)))
                       (ts b)]
           end) ++ topic_bids bs k).
  destruct (mget k pt) as [b|]; [|now apply IH].
  destruct (js_le _ _); [now apply IH|].
  cbn [app map playerId]. constructor; [|now apply IH].
  intros Hin. apply Hni. now apply (@topic_bids_ids bs k).
Qed.

Lemma bid_list_nodup (room : Room) (t : Topic) :
  NoDup (mkeys (bids room)) -> In t (topics room) ->
  NoDup (map playerId (bid_list (build_bidLists room) (id t))).
Proof.
  intros Hnd Ht. rewrite bid_list_build by assumption.
  apply (Permutation_NoDup
           (l := map playerId (topic_bids (bids room) (id t)))).
  - apply Permutation_map. symmetry. apply Array_sort_perm.
  - now apply topic_bids_nodup.
Qed.

Lemma sorted_split (l pre post : list Cand) (c x : Cand) :
  StronglySorted ranked_before l ->
  l = pre ++ c :: post -> In x post -> ranked_before c x.
Proof.
  intros Hs ->. revert Hs. induction pre as [|y pre IH]; intros Hs Hx.
  - cbn [app] in Hs. inversion Hs as [|? ? _ Hall]; subst.
    rewrite Forall_forall in Hall. now apply Hall.
  - cbn [app] in Hs. inversion Hs; subst. now apply IH.
Qed.

Lemma firstn_prefix (A : Type) (n : nat) (pre post : list A) (c x : A) :
  NoDup (pre ++ c :: post) ->
  In c (firstn n (pre ++ c :: post)) -> In x pre ->
  In x (firstn n (pre ++ c :: post)).
Proof.
  intros Hnd Hc Hx.
  destruct (Nat.le_gt_cases n (List.length pre)) as [Hle|Hgt].
  - exfalso. rewrite firstn_app in Hc.
    replace (n - List.length pre)%nat with 0%nat in Hc by lia.
    cbn [firstn] in Hc. rewrite app_nil_r in Hc.
    apply In_firstn_list in Hc.
    apply NoDup_remove_2 in Hnd. apply Hnd. apply in_or_app. now left.
  - rewrite firstn_app. apply in_or_app. left.
    rewrite firstn_all2 by lia. assumption.
Qed.

(** X21. Nobody is outbid by a winner and left out.  In a room whose
    topic ids and bid-map owners are distinct, whose capacities are
    non-negative and whose stored amounts are finite: when [p] is a
    winner of the topic [t] in the result of [computeWinners] and [q]
    has a bid on [t] that is higher than the bid of [p], or as high and
    earlier, then [q] is a winner of some topic. *)
Theorem no_winner_outbids_the_unplaced :
  forall room t p q ptp bp ptq bq,
    NoDup (map id (topics room)) ->
    NoDup (mkeys (bids room)) ->
    capacities_are_counts room ->
    amounts_finite room ->
    In t (topics room) ->
    In p (winners_in (computeWinners room) t) ->
    mget p (bids room) = Some ptp -> mget (id t) ptp = Some bp ->
    mget q (bids room) = Some ptq -> mget (id t) ptq = Some bq ->
    value (amount bp) < value (amount bq)
    \/ (value (amount bp) = value (amount bq) /\ ts bq < ts bp) ->
    exists t',
      In t' (topics room) /\ In q (winners_in (computeWinners room) t').
Proof.
  intros room t p q ptp bp ptq bq Hids Hown Hc Hfin Ht Hp Hpp Hbp Hpq Hbq
         Hout.
  apply assigned_in_result.
  rewrite computeWinners_winners in Hp by assumption.
  rewrite resolution_is_first_pass in *.
  destruct (tentative_of_walked Hc) as [Hv Hw].
  destruct (pass_walked Hv Hw) as [Hv' Hw'].
  pose proof (@pass_winners_walked (build_bidLists room) (topics room)
                (tentative_of room)
                (@tentative_of_winners_walked room Hids))
    as Hww.
  set (st := fst (pass (build_bidLists room) (topics room)
                    (tentative_of room))) in *.
  set (l := bid_list (build_bidLists room) (id t)) in *.
  pose proof (Hw' t) as Hwt. fold l in Hwt.
  apply Hww in Hp. fold l in Hp.
  destruct (Hv' t Ht) as (z & Hz & Hz0). rewrite Hz in Hp, Hwt.
  unfold walked in Hp, Hwt.
  assert (E0 : (0 <=? z) = true) by now apply Z.leb_le.
  rewrite E0 in Hp, Hwt.
  apply in_map_iff in Hp. destruct Hp as (cp & Hcp & Hin).
  assert (Hcpl : In cp l) by now apply In_firstn_list in Hin.
  (* the candidate of [p] is its bid *)
  pose proof Hcpl as Hcpb. unfold l in Hcpb.
  rewrite bid_list_build in Hcpb by assumption.
  apply Array_sort_In in Hcpb.
  destruct (topic_bids_cand _ _ _ Hcpb) as (pt & b & Hb1 & Hb2 & Hb3 & Hb4).
  rewrite Hcp in Hb1, Hb4.
  apply (@In_mget _ p pt (bids room) Hown) in Hb1.
  rewrite Hpp in Hb1. injection Hb1 as <-.
  rewrite Hbp in Hb2. injection Hb2 as <-.
  destruct (Hfin p ptp (id t) bp (mget_In _ _ Hpp) (mget_In _ _ Hbp))
    as [ap Hap].
  destruct (Hfin q ptq (id t) bq (mget_In _ _ Hpq) (mget_In _ _ Hbq))
    as [aq Haq].
  rewrite Hap, Haq in Hout. cbn [value] in Hout.
  unfold Math_floor in Hb3, Hb4. rewrite Hap, Math_max_Fin in Hb3, Hb4.
  cbn [js_le] in Hb3. apply Z.leb_gt in Hb3.
  assert (Hfq : js_le (Math_max (Fin 0) (Math_floor (amount bq))) (Fin 0)
                = false).
  { unfold Math_floor. rewrite Haq, Math_max_Fin. cbn [js_le].
    apply Z.leb_gt. lia. }
  pose proof (@listed_of_bid room t q ptq bq Ht Hpq Hbq Hfq) as Hcq.
  fold l in Hcq. unfold Math_floor in Hcq.
  rewrite Haq, Math_max_Fin in Hcq.
  set (cq := mkCand q (Fin (Z.max 0 aq)) (ts bq)) in *.
  (* where the candidate of [q] stands *)
  destruct (in_split _ _ Hcpl) as (pre & post & Hl).
  assert (Hndl : NoDup l).
  { apply (NoDup_map_inv playerId). now apply bid_list_nodup. }
  assert (Hpre : In cq pre).
  { pose proof Hcq as Hcq'. rewrite Hl in Hcq'.
    apply in_app_or in Hcq'. destruct Hcq' as [H|[H|H]]; [assumption| |].
    - exfalso. rewrite Hb4 in H. unfold cq in H.
      injection H as _ H1 H2. lia.
    - exfalso.
      pose proof (@sorted_split l pre post cp cq
                    (@bid_list_ranked room t Hfin Ht) Hl H) as Hr.
      unfold ranked_before in Hr. rewrite Hb4 in Hr.
      cbn [cq c_amount c_ts value] in Hr. lia. }
  apply (Hwt cq Ht). rewrite Hl in *.
  now apply (@firstn_prefix Cand _ pre post cp cq).
Qed.

Lemma refill_room_finite : amounts_finite refill_room.
Proof.
  intros pid perTopic tid b Hin Hb. simpl in Hin.
  destruct Hin as [Hin|[Hin|[]]]; injection Hin as <- <-; simpl in Hb.
  - destruct Hb as [Hb|[]]; injection Hb as <- <-. now eexists.
  - destruct Hb as [Hb|[Hb|[]]]; injection Hb as <- <-; now eexists.
Qed.

Lemma no_winner_outbids_the_unplaced_witness :
  exists t',
    In t' (topics refill_room)
    /\ In "p2" (winners_in (computeWinners refill_room) t').
Proof.
  apply (@no_winner_outbids_the_unplaced refill_room
           (mkTopic "A" "Topic" (Fin 1)) "p1" "p2"
           [("A", mkBid (Fin 50) 1)] (mkBid (Fin 50) 1)
           [("A", mkBid (Fin 80) 2); ("B", mkBid (Fin 90) 3)]
           (mkBid (Fin 80) 2)).
  - repeat constructor; simpl; intuition discriminate.
  - repeat constructor; simpl; intuition discriminate.
  - intros t [<-|[<-|[]]]; reflexivity.
  - exact refill_room_finite.
  - now left.
  - vm_compute. now left.
  - reflexivity.
  - reflexivity.
  - reflexivity.
  - reflexivity.
  - left. simpl. lia.
Defined.

(** ** Without a double win the top bidders win *)

Lemma fold_sadd_fresh (l : list Cand) (s : JsSet) :
  NoDup (s ++ map playerId l) ->
  fold_left (fun w c => sadd (playerId c) w) l s = s ++ map playerId l.
Proof.
  revert s. induction l as [|c l IH]; intros s Hnd; cbn [fold_left map].
  - now rewrite app_nil_r.
  - assert (Hs : sadd (playerId c) s = s ++ [playerId c]).
    { unfold sadd. destruct (shas (playerId c) s) eqn:E; [|reflexivity].
      apply shas_In in E. exfalso.
      apply NoDup_remove_2 in Hnd. apply Hnd. apply in_or_app. now left. }
    rewrite Hs, IH; rewrite <- app_assoc; [reflexivity|exact Hnd].
Qed.

Lemma nodup_firstn (A : Type) (n : nat) (l : list A) :
  NoDup l -> NoDup (firstn n l).
Proof.
  revert l. induction n as [|n IH]; intros l H; [constructor|].
  destruct l as [|x l]; [constructor|].
  inversion H; subst. cbn [firstn]. constructor; [|now apply IH].
  intros Hin. apply In_firstn_list in Hin. contradiction.
Qed.

Lemma tentative_of_top (room : Room) (t : Topic) :
  NoDup (map id (topics room)) ->
  NoDup (mkeys (bids room)) ->
  In t (topics room) ->
  winners_of (winnersByTopic (tentative_of room)) (id t)
  = top_bidders (build_bidLists room) t
  /\ idx_of (nextIndex (tentative_of room)) (id t)
     = Math_min (capacity t)
         (array_length (bid_list (build_bidLists room) (id t))).
Proof.
  intros Hids Hown Ht. unfold tentative_of.
  destruct (@tentative_at (build_bidLists room) (topics room)
              (alloc_init (topics room)) t Hids Ht) as [T1 T2].
  destruct (alloc_init_spec (topics room)) as [_ He].
  rewrite T1, T2, He. split; [|reflexivity].
  rewrite fold_sadd_fresh; [reflexivity|]. cbn [app].
  rewrite <- firstn_map. apply nodup_firstn. now apply bid_list_nodup.
Qed.

Lemma tentative_of_saturated (room : Room) :
  NoDup (map id (topics room)) ->
  NoDup (mkeys (bids room)) ->
  capacities_are_counts room ->
  saturated (build_bidLists room) (topics room) (tentative_of room).
Proof.
  intros Hids Hown Hc t Ht. unfold saturated_at.
  destruct (@tentative_of_top room t Hids Hown Ht) as [T1 T2].
  rewrite T1, T2. unfold top_bidders, ssize.
  rewrite length_map, length_firstn.
  set (l := bid_list (build_bidLists room) (id t)).
  pose proof (Hc t Ht) as Hcap. unfold array_length.
  destruct (capacity t) as [| | |c]; cbn in Hcap; try discriminate.
  - right. cbn [Math_min js_lt iterations remaining].
    assert (E : (0 <=? Z.of_nat (List.length l)) = true)
      by (apply Z.leb_le; lia).
    rewrite E, Nat2Z.id. apply skipn_all.
  - apply Z.leb_le in Hcap. rewrite Math_min_Fin. cbn [iterations].
    destruct (Z_le_gt_dec c (Z.of_nat (List.length l))) as [Hle|Hgt].
    + left. cbn [js_lt]. apply Z.ltb_ge. lia.
    + right. rewrite Z.min_r by lia. cbn [remaining].
      assert (E : (0 <=? Z.of_nat (List.length l)) = true)
        by (apply Z.leb_le; lia).
      rewrite E, Nat2Z.id. apply skipn_all.
Qed.

(** X22. Without a double win the top bidders win.  In a room whose
    topic ids and bid-map owners are distinct and whose capacities are
    non-negative: when no participant is among the first [capacity]
    candidates of the bid lists of two topics, the winners of every
    topic in the result of [computeWinners] are exactly the first
    [capacity] candidates of its sorted bid list, in that order. *)
Theorem undisputed_top_bidders_win :
  forall room,
    NoDup (map id (topics room)) ->
    NoDup (mkeys (bids room)) ->
    capacities_are_counts room ->
    (forall t1 t2 p,
        In t1 (topics room) -> In t2 (topics room) ->
        In p (top_bidders (build_bidLists room) t1) ->
        In p (top_bidders (build_bidLists room) t2) -> t1 = t2) ->
    forall t,
      In t (topics room) ->
      winners_in (computeWinners room) t
      = top_bidders (build_bidLists room) t.
Proof.
  intros room Hids Hown Hc Hdis t Ht.
  rewrite computeWinners_winners, resolution_is_first_pass by assumption.
  destruct (tentative_of_spec room) as (Hk & _ & _).
  rewrite pass_fixed.
  - cbn [fst]. now apply tentative_of_top.
  - assumption.
  - intros t1 t2 p H1 H2 Hp1 Hp2.
    rewrite (proj1 (@tentative_of_top room t1 Hids Hown H1)) in Hp1.
    rewrite (proj1 (@tentative_of_top room t2 Hids Hown H2)) in Hp2.
    now rewrite (Hdis t1 t2 p H1 H2 Hp1 Hp2).
  - now apply tentative_of_saturated.
Qed.

Lemma undisputed_top_bidders_win_witness :
  winners_in
    (computeWinners
       (set_bids ab_room
          [("p1", [("A", mkBid (Fin 50) 1)]);
           ("p2", [("B", mkBid (Fin 30) 3)])]))
    (mkTopic "A" "Topic" (Fin 1))
  = top_bidders
      (build_bidLists
         (set_bids ab_room
            [("p1", [("A", mkBid (Fin 50) 1)]);
             ("p2", [("B", mkBid (Fin 30) 3)])]))
      (mkTopic "A" "Topic" (Fin 1)).
Proof.
  apply (@undisputed_top_bidders_win
           (set_bids ab_room
              [("p1", [("A", mkBid (Fin 50) 1)]);
               ("p2", [("B", mkBid (Fin 30) 3)])])).
  - repeat constructor; simpl; intuition discriminate.
  - repeat constructor; simpl; intuition discriminate.
  - intros t [<-|[<-|[]]]; reflexivity.
  - intros t1 t2 p [<-|[<-|[]]] [<-|[<-|[]]]; vm_compute;
      intuition congruence.
  - now left.
Defined.

(** ** The store of rooms *)

(** X24. [getOrCreateRoom] returns the room stored under the code, and
    for a code without a room stores and returns a fresh one: unlocked,
    without host, topic, participant or bid, with the budget 100 and
    both flags set.  Afterwards the room returned is the one stored
    under the code, the rooms of the other codes are untouched, and a
    second call returns the same room and changes nothing. *)
Theorem getOrCreateRoom_finds_or_creates :
  forall rooms roomId,
    mget roomId (fst (getOrCreateRoom rooms roomId))
    = Some (snd (getOrCreateRoom rooms roomId))
    /\ snd (getOrCreateRoom rooms roomId)
       = nullish (mget roomId rooms)
           (mkRoom roomId None (mkConfig (Fin 100) true true) false [] [] [])
    /\ (forall k, k <> roomId ->
                  mget k (fst (getOrCreateRoom rooms roomId)) = mget k rooms)
    /\ (mget roomId rooms <> None ->
        fst (getOrCreateRoom rooms roomId) = rooms)
    /\ getOrCreateRoom (fst (getOrCreateRoom rooms roomId)) roomId
       = getOrCreateRoom rooms roomId.
Proof.
  intros rooms roomId. unfold getOrCreateRoom.
  destruct (mget roomId rooms) as [room|] eqn:E; cbn [fst snd nullish].
  - rewrite E. repeat split; auto.
  - rewrite mget_mset_eq. split; [reflexivity|]. split; [reflexivity|].
    split; [|split].
    + intros k Hk. apply mget_mset_neq. congruence.
    + congruence.
    + reflexivity.
Qed.

(** X25. No message changes the store silently: after a message the
    store is as it was, or one room was written and that room, as
    stored, is broadcast to its participants; a [join] that is served
    also sends it to the joiner.  The connection changes with a [join]
    only. *)
Theorem every_change_is_broadcast :
  forall now msg rooms c,
    (fst (fst (on_message now msg rooms c)) = rooms
     \/ exists rid room',
         fst (fst (on_message now msg rooms c)) = mset rid room' rooms
         /\ mget rid (fst (fst (on_message now msg rooms c))) = Some room'
         /\ In (BroadcastRoomUpdate room') (snd (on_message now msg rooms c))
         /\ (is_join msg = true ->
             In (SendJoined (conn_playerId c) room')
                (snd (on_message now msg rooms c))))
    /\ (is_join msg = false -> snd (fst (on_message now msg rooms c)) = c).
Proof.
  intros now msg rooms c.
  destruct msg as [roomId name|mb rb aj|raw| | |topicId amt| |].
  - split; [|discriminate].
    cbn [on_message]. rewrite handle_join_eq.
    destruct (String.eqb roomId ""); [now left|]. cbv zeta.
    unfold getOrCreateRoom.
    destruct (mget roomId rooms) as [room|] eqn:E; cbn [fst snd].
    + destruct (locked room && negb (allowJoinAfterLock (config room)));
        [now left|].
      right. exists roomId, (join_room (conn_playerId c) name room).
      cbn [fst snd]. split; [reflexivity|].
      split; [apply mget_mset_eq|]. split; [right; now left|].
      intros _. now left.
    + right. exists roomId,
        (join_room (conn_playerId c) name (newRoom roomId)).
      cbn [fst snd]. rewrite mset_mset. split; [reflexivity|].
      split; [apply mget_mset_eq|]. split; [right; now left|].
      intros _. now left.
  - split; [|intros _]; unfold on_message;
      destruct (conn_room c) as [rid|]; try (now left); try reflexivity;
      destruct (mget rid rooms) as [room|]; try (now left); try reflexivity;
      destruct (negb (mhas (conn_playerId c) (players room)));
      try (now left); try reflexivity;
      destruct (is_host room (conn_playerId c));
      try (now left); try reflexivity.
    right. eexists rid, _. cbn [fst snd].
    split; [reflexivity|]. split; [apply mget_mset_eq|].
    split; [now left|discriminate].
  - split; [|intros _]; unfold on_message;
      destruct (conn_room c) as [rid|]; try (now left); try reflexivity;
      destruct (mget rid rooms) as [room|]; try (now left); try reflexivity;
      destruct (negb (mhas (conn_playerId c) (players room)));
      try (now left); try reflexivity;
      destruct (is_host room (conn_playerId c));
      try (now left); try reflexivity.
    right. eexists rid, _. cbn [fst snd].
    split; [reflexivity|]. split; [apply mget_mset_eq|].
    split; [now left|discriminate].
  - split; [|intros _]; unfold on_message;
      destruct (conn_room c) as [rid|]; try (now left); try reflexivity;
      destruct (mget rid rooms) as [room|]; try (now left); try reflexivity;
      destruct (negb (mhas (conn_playerId c) (players room)));
      try (now left); try reflexivity;
      destruct (is_host room (conn_playerId c));
      try (now left); try reflexivity.
    right. eexists rid, _. cbn [fst snd].
    split; [reflexivity|]. split; [apply mget_mset_eq|].
    split; [now left|discriminate].
  - split; [|intros _]; unfold on_message;
      destruct (conn_room c) as [rid|]; try (now left); try reflexivity;
      destruct (mget rid rooms) as [room|]; try (now left); try reflexivity;
      destruct (negb (mhas (conn_playerId c) (players room)));
      try (now left); try reflexivity;
      destruct (is_host room (conn_playerId c));
      try (now left); try reflexivity.
    right. eexists rid, _. cbn [fst snd].
    split; [reflexivity|]. split; [apply mget_mset_eq|].
    split; [now left|discriminate].
  - split; [|intros _]; unfold on_message;
      destruct (conn_room c) as [rid|]; try (now left); try reflexivity;
      destruct (mget rid rooms) as [room|]; try (now left); try reflexivity;
      destruct (negb (mhas (conn_playerId c) (players room)));
      try (now left); try reflexivity;
      destruct (negb (locked room));
      try (now left); try reflexivity;
      destruct (handle_bid now room (conn_playerId c) topicId amt)
        as [room'|];
      try (now left); try reflexivity.
    right. exists rid, room'. cbn [fst snd].
    split; [reflexivity|]. split; [apply mget_mset_eq|].
    split; [now left|discriminate].
  - split; [|intros _]; unfold on_message;
      destruct (conn_room c) as [rid|]; try (now left); try reflexivity;
      destruct (mget rid rooms) as [room|]; try (now left); try reflexivity;
      destruct (negb (mhas (conn_playerId c) (players room)));
      try (now left); try reflexivity;
      destruct (is_host room (conn_playerId c));
      try (now left); reflexivity.
  - split; [|intros _]; unfold on_message;
      destruct (conn_room c) as [rid|]; try (now left); try reflexivity;
      destruct (mget rid rooms) as [room|]; try (now left); try reflexivity;
      destruct (negb (mhas (conn_playerId c) (players room)));
      try (now left); reflexivity.
Qed.

(** ** The snapshot *)

Lemma copy_map_from (A B : Type) (f : A -> B) (m : JsMap A)
  (acc : JsMap B) :
  NoDup (mkeys acc ++ mkeys m) ->
  fold_left (fun o kv => mset (fst kv) (f (snd kv)) o) m acc
  = acc ++ map (fun kv => (fst kv, f (snd kv))) m.
Proof.
  revert acc. induction m as [|[k v] m IH]; intros acc Hnd;
    cbn [fold_left map fst snd].
  - now rewrite app_nil_r.
  - assert (Hk : ~ In k (mkeys acc)).
    { intros Hin. cbn [mkeys map fst] in Hnd.
      apply NoDup_remove_2 in Hnd. apply Hnd. apply in_or_app. now left. }
    rewrite (@mkeys_mset_absent B k (f v) acc Hk).
    rewrite IH.
    + now rewrite <- app_assoc.
    + unfold mkeys in *. rewrite map_app, <- app_assoc. exact Hnd.
Qed.

Lemma map_same (A : Type) (f : A -> A) (l : list A) :
  (forall x, In x l -> f x = x) -> map f l = l.
Proof.
  intros H. induction l as [|x l IH]; [reflexivity|].
  cbn [map]. rewrite H by now left. f_equal. apply IH.
  intros y Hy. apply H. now right.
Qed.

(** X26. The snapshot hides nothing: for a room whose maps have
    distinct keys (they are [Map]s), none of them the key
    ["__proto__"] (which an object does not keep as a property),
    [roomSnapshot] carries every bid of every participant with its
    amount and its time, whatever [revealBids] says, and the flag is
    copied beside them; it carries the id, the host, the configuration,
    the lock and the topics as they are, and of every participant the
    id, the name and [spent]. *)
Theorem snapshot_carries_all_bids :
  forall room,
    NoDup (mkeys (bids room)) ->
    (forall pid perTopic,
        In (pid, perTopic) (bids room) ->
        NoDup (mkeys perTopic) /\ ~ In "__proto__" (mkeys perTopic)) ->
    ~ In "__proto__" (mkeys (bids room)) ->
    snap_bids (roomSnapshot room) = bids room
    /\ snap_revealBids (roomSnapshot room) = revealBids (config room)
    /\ snap_topics (roomSnapshot room) = topics room
    /\ snap_id (roomSnapshot room) = r_id room
    /\ snap_hostId (roomSnapshot room) = hostId room
    /\ snap_config (roomSnapshot room) = config room
    /\ snap_locked (roomSnapshot room) = locked room
    /\ snap_players (roomSnapshot room)
       = map (fun kv =>
                mkSnapPlayer (p_id (snd kv)) (p_name (snd kv))
                  (spent (snd kv)))
             (players room).
Proof.
  intros room Hnd Hin _. unfold roomSnapshot. cbv zeta.
  cbn [snap_bids snap_revealBids snap_topics snap_id snap_hostId
       snap_config snap_locked snap_players].
  split; [|split; [reflexivity|split; [|split; [reflexivity|
    split; [reflexivity|split; [reflexivity|split; [reflexivity|]]]]]]].
  - etransitivity.
    { apply (@copy_map_from (JsMap Bid) (JsMap Bid)
               (fun pt =>
                  fold_left
                    (fun o' kv =>
                       mset (fst kv)
                         (mkBid (amount (snd kv)) (ts (snd kv))) o')
                    pt [])
               (bids room) []).
      exact Hnd. }
    cbn [app]. apply map_same. intros [pid pt] Hp. cbn [fst snd].
    f_equal. etransitivity.
    { apply (@copy_map_from Bid Bid (fun b => mkBid (amount b) (ts b))
               pt []).
      exact (proj1 (Hin pid pt Hp)). }
    cbn [app]. apply map_same. intros [tid b] _. cbn [fst snd].
    now destruct b.
  - apply map_same. intros t _. now destruct t.
  - unfold mvalues. now rewrite map_map.
Qed.

Lemma snapshot_carries_all_bids_witness :
  snap_bids
    (roomSnapshot (set_config hq_room (mkConfig (Fin 100) false true)))
  = bids hq_room
  /\ snap_revealBids
       (roomSnapshot (set_config hq_room (mkConfig (Fin 100) false true)))
     = false.
Proof.
  destruct (@snapshot_carries_all_bids
              (set_config hq_room (mkConfig (Fin 100) false true)))
    as (H1 & H2 & _).
  - repeat constructor; simpl; intuition discriminate.
  - intros pid perTopic H. simpl in H.
    destruct H as [H|[H|[]]]; injection H as <- <-;
      (split; [repeat constructor|]); simpl; intuition discriminate.
  - simpl. intuition discriminate.
  - split; [exact H1|exact H2].
Defined.

(** ** The client: [escapeHtml] *)

Lemma string_app_assoc (x y z : string) :
  ((x ++ y) ++ z)%string = (x ++ (y ++ z))%string.
Proof.
  induction x as [|a x IH]; [reflexivity|].
  cbn [String.append]. now rewrite IH.
Qed.

Lemma replaceAll_app (c : Ascii.ascii) (r x y : string) :
  replaceAll c r (x ++ y)
  = (replaceAll c r x ++ replaceAll c r y)%string.
Proof.
  induction x as [|a x IH]; [reflexivity|].
  cbn [String.append replaceAll]. rewrite IH.
  destruct (Ascii.eqb a c); [|reflexivity].
  now rewrite string_app_assoc.
Qed.

Lemma occurs_app (c : Ascii.ascii) (x y : string) :
  occurs c (x ++ y) = occurs c x || occurs c y.
Proof.
  induction x as [|a x IH]; [reflexivity|].
  cbn [String.append occurs]. rewrite IH. now rewrite orb_assoc.
Qed.

(** The six cases of a code unit. *)
Lemma escape_char_cases (a : Ascii.ascii) :
  (a = AMP /\ escape_char a = "&amp;")
  \/ (a = LT /\ escape_char a = "&lt;")
  \/ (a = GT /\ escape_char a = "&gt;")
  \/ (a = QUOT /\ escape_char a = "&quot;")
  \/ (a = APOS /\ escape_char a = "&#039;")
  \/ (Ascii.eqb a AMP = false /\ Ascii.eqb a LT = false
      /\ Ascii.eqb a GT = false /\ Ascii.eqb a QUOT = false
      /\ Ascii.eqb a APOS = false
      /\ escape_char a = String a EmptyString).
Proof.
  unfold escape_char.
  destruct (Ascii.eqb a AMP) eqn:E1;
    [apply Ascii.eqb_eq in E1; subst; now left|].
  destruct (Ascii.eqb a LT) eqn:E2;
    [apply Ascii.eqb_eq in E2; subst; right; now left|].
  destruct (Ascii.eqb a GT) eqn:E3;
    [apply Ascii.eqb_eq in E3; subst; right; right; now left|].
  destruct (Ascii.eqb a QUOT) eqn:E4;
    [apply Ascii.eqb_eq in E4; subst; right; right; right; now left|].
  destruct (Ascii.eqb a APOS) eqn:E5;
    [apply Ascii.eqb_eq in E5; subst; right; right; right; right; now left|].
  right. right. right. right. right. now repeat split.
Qed.

Lemma escapeHtml_cons (a : Ascii.ascii) (s : string) :
  escapeHtml (String a s) = (escape_char a ++ escapeHtml s)%string.
Proof.
  unfold escapeHtml.
  destruct (escape_char_cases a)
    as [[-> E]|[[-> E]|[[-> E]|[[-> E]|[[-> E]|
        (E1 & E2 & E3 & E4 & E5 & E)]]]]]; rewrite E.
  - cbn [replaceAll]. change (Ascii.eqb AMP AMP) with true. cbv iota.
    now rewrite ?replaceAll_app.
  - cbn [replaceAll]. change (Ascii.eqb LT AMP) with false. cbv iota.
    cbn [replaceAll]. change (Ascii.eqb LT LT) with true. cbv iota.
    now rewrite ?replaceAll_app.
  - cbn [replaceAll]. change (Ascii.eqb GT AMP) with false. cbv iota.
    cbn [replaceAll]. change (Ascii.eqb GT LT) with false. cbv iota.
    cbn [replaceAll]. change (Ascii.eqb GT GT) with true. cbv iota.
    now rewrite ?replaceAll_app.
  - cbn [replaceAll]. change (Ascii.eqb QUOT AMP) with false. cbv iota.
    cbn [replaceAll]. change (Ascii.eqb QUOT LT) with false. cbv iota.
    cbn [replaceAll]. change (Ascii.eqb QUOT GT) with false. cbv iota.
    cbn [replaceAll]. change (Ascii.eqb QUOT QUOT) with true. cbv iota.
    now rewrite ?replaceAll_app.
  - cbn [replaceAll]. change (Ascii.eqb APOS AMP) with false. cbv iota.
    cbn [replaceAll]. change (Ascii.eqb APOS LT) with false. cbv iota.
    cbn [replaceAll]. change (Ascii.eqb APOS GT) with false. cbv iota.
    cbn [replaceAll]. change (Ascii.eqb APOS QUOT) with false. cbv iota.
    cbn [replaceAll]. change (Ascii.eqb APOS APOS) with true. cbv iota.
    now rewrite ?replaceAll_app.
  - cbn [replaceAll]. rewrite E1. cbn [replaceAll]. rewrite E2.
    cbn [replaceAll]. rewrite E3. cbn [replaceAll]. rewrite E4.
    cbn [replaceAll]. rewrite E5. reflexivity.
Qed.

Lemma escapeHtml_one_pass (s : string) : escapeHtml s = escape_all s.
Proof.
  induction s as [|a s IH]; [reflexivity|].
  rewrite escapeHtml_cons, IH. reflexivity.
Qed.

Lemma escape_all_clean (c : Ascii.ascii) (s : string) :
  c = LT \/ c = GT \/ c = QUOT \/ c = APOS ->
  occurs c (escape_all s) = false.
Proof.
  intros Hc. induction s as [|a s IH]; [reflexivity|].
  cbn [escape_all]. rewrite occurs_app, IH, orb_false_r.
  destruct (escape_char_cases a)
    as [[-> E]|[[-> E]|[[-> E]|[[-> E]|[[-> E]|
        (E1 & E2 & E3 & E4 & E5 & E)]]]]]; rewrite E;
    try (destruct Hc as [-> | [-> | [-> | -> ]]]; reflexivity).
  cbn [occurs]. rewrite orb_false_r.
  destruct Hc as [-> | [-> | [-> | -> ]]]; assumption.
Qed.

Lemma escape_all_inj (s1 s2 : string) :
  escape_all s1 = escape_all s2 -> s1 = s2.
Proof.
  revert s2. induction s1 as [|a s1 IH]; intros [|b s2] H.
  - reflexivity.
  - exfalso. cbn [escape_all] in H.
    destruct (escape_char_cases b)
      as [[-> E]|[[-> E]|[[-> E]|[[-> E]|[[-> E]|
          (E1 & E2 & E3 & E4 & E5 & E)]]]]]; rewrite E in H;
      discriminate.
  - exfalso. cbn [escape_all] in H.
    destruct (escape_char_cases a)
      as [[-> E]|[[-> E]|[[-> E]|[[-> E]|[[-> E]|
          (E1 & E2 & E3 & E4 & E5 & E)]]]]]; rewrite E in H;
      discriminate.
  - cbn [escape_all] in H.
    destruct (escape_char_cases a)
      as [[-> Ea]|[[-> Ea]|[[-> Ea]|[[-> Ea]|[[-> Ea]|
          (A1 & A2 & A3 & A4 & A5 & Ea)]]]]];
      destruct (escape_char_cases b)
        as [[-> Eb]|[[-> Eb]|[[-> Eb]|[[-> Eb]|[[-> Eb]|
            (B1 & B2 & B3 & B4 & B5 & Eb)]]]]];
      rewrite ?Ea, ?Eb in H; cbn [String.append] in H;
      try discriminate;
      try (injection H as H; f_equal; now apply IH);
      try (exfalso; injection H as H0 H; subst;
           first [ now rewrite Ascii.eqb_refl in B1
                 | now rewrite Ascii.eqb_refl in A1 ]).
    injection H as -> H. f_equal. now apply IH.
Qed.

(** X27. [escapeHtml] of the client replaces every code unit by its
    entity in one pass ([&] is replaced first and no entity holds one
    of the other four characters, so the five replacements do not
    interfere); its result holds none of the characters [<], [>],
    the double quote and the apostrophe, and it loses nothing: strings
    that differ have results that differ. *)
Theorem escapeHtml_is_clean_and_lossless :
  (forall s, escapeHtml s = escape_all s)
  /\ (forall s,
         occurs LT (escapeHtml s) = false
         /\ occurs GT (escapeHtml s) = false
         /\ occurs QUOT (escapeHtml s) = false
         /\ occurs APOS (escapeHtml s) = false)
  /\ (forall s1 s2, escapeHtml s1 = escapeHtml s2 -> s1 = s2).
Proof.
  split; [exact escapeHtml_one_pass|]. split.
  - intros s. rewrite escapeHtml_one_pass.
    repeat split; apply escape_all_clean; tauto.
  - intros s1 s2. rewrite !escapeHtml_one_pass. apply escape_all_inj.
Qed.

(** ** A double winner keeps its highest bid *)

Lemma win_ranked_trans (x y z : Win) :
  win_ranked x y -> win_ranked y z -> win_ranked x z.
Proof. unfold win_ranked. lia. Qed.

Lemma win_cmp_le (x y : Win) :
  win_finite x -> win_finite y ->
  js_gt (win_cmp x y) (Fin 0) = false -> win_ranked x y.
Proof.
  intros [a Ha] [b Hb]. unfold win_cmp, win_ranked.
  rewrite Ha, Hb. unfold js_strict_neq. cbn [js_strict_eq value].
  destruct (b =? a) eqn:E; cbn [negb].
  - apply Z.eqb_eq in E.
    destruct (w_ts x =? w_ts y) eqn:Et; cbn [negb].
    + apply Z.eqb_eq in Et. intros _. lia.
    + rewrite js_sub_gt0. intros H. apply Z.ltb_ge in H. lia.
  - apply Z.eqb_neq in E. rewrite js_sub_gt0. intros H.
    apply Z.ltb_ge in H. lia.
Qed.

Lemma win_cmp_gt (x y : Win) :
  win_finite x -> win_finite y ->
  js_gt (win_cmp x y) (Fin 0) = true -> win_ranked y x.
Proof.
  intros [a Ha] [b Hb]. unfold win_cmp, win_ranked.
  rewrite Ha, Hb. unfold js_strict_neq. cbn [js_strict_eq value].
  destruct (b =? a) eqn:E; cbn [negb].
  - apply Z.eqb_eq in E.
    destruct (w_ts x =? w_ts y) eqn:Et; cbn [negb].
    + apply Z.eqb_eq in Et. intros _. lia.
    + rewrite js_sub_gt0. intros H. apply Z.ltb_lt in H. lia.
  - apply Z.eqb_neq in E. rewrite js_sub_gt0. intros H.
    apply Z.ltb_lt in H. lia.
Qed.

(** The topic kept for a participant is the first of its sorted
    wins. *)
Lemma keep_from_head (entries : JsMap (list Win)) (acc : JsMap string)
  (p k : string) :
  mget p (fold_left keep_step entries acc) = Some k ->
  mget p acc = Some k
  \/ exists wins w rest,
      In (p, wins) entries
      /\ Array_sort win_cmp wins = w :: rest /\ k = w_topicId w.
Proof.
  revert acc. induction entries as [|[q wins] entries IH]; intros acc Hk.
  - now left.
  - cbn [fold_left] in Hk. apply IH in Hk.
    destruct Hk as [Hk|(wins' & w & rest & Hin & Hs & Hk)].
    + unfold keep_step in Hk. cbn [fst snd] in Hk.
      destruct (List.length wins <=? 1)%nat; [now left|].
      destruct (Array_sort win_cmp wins) as [|w rest] eqn:Es; [now left|].
      rewrite mget_mset in Hk.
      destruct (String.eqb q p) eqn:E; [|now left].
      apply String.eqb_eq in E. subst q. injection Hk as <-.
      right. exists wins, w, rest. split; [now left|]. now split.
    + right. exists wins', w, rest. split; [now right|]. now split.
Qed.

Lemma keepByPlayer_head (playerWins : JsMap (list Win)) (p k : string) :
  NoDup (mkeys playerWins) ->
  mget p (build_keepByPlayer playerWins) = Some k ->
  exists w rest,
    Array_sort win_cmp (wins_of playerWins p) = w :: rest
    /\ k = w_topicId w.
Proof.
  intros Hnd Hk. unfold build_keepByPlayer in Hk.
  apply keep_from_head in Hk.
  destruct Hk as [Hk|(wins & w & rest & Hin & Hs & Hk)]; [discriminate|].
  exists w, rest. split; [|assumption].
  unfold wins_of. now rewrite (@In_mget _ p wins playerWins Hnd Hin).
Qed.

(** The amount of a candidate is the amount of the bid it stands
    for. *)
Lemma cand_value (room : Room) (t : Topic) (b : Cand) :
  NoDup (mkeys (bids room)) -> amounts_finite room ->
  In t (topics room) ->
  In b (bid_list (build_bidLists room) (id t)) ->
  c_amount b = Fin (bid_value room (playerId b) (id t)).
Proof.
  intros Hown Hfin Ht Hb. rewrite bid_list_build in Hb by assumption.
  apply Array_sort_In in Hb.
  destruct (topic_bids_cand _ _ _ Hb) as (pt & bb & Hin & Hbb & Hf & Heq).
  pose proof (@In_mget _ (playerId b) pt (bids room) Hown Hin) as Hget.
  unfold bid_value, stored_bid. rewrite Hget, Hbb.
  destruct (Hfin _ _ _ _ Hin (mget_In _ _ Hbb)) as [a Ha].
  rewrite Heq. cbn [c_amount]. unfold Math_floor in *.
  rewrite Ha, Math_max_Fin in *. cbn [js_le value] in *.
  apply Z.leb_gt in Hf. f_equal. lia.
Qed.

(** X28. A double winner keeps its highest bid.  In a room with
    distinct topic ids, distinct owners of bid maps and finite stored
    amounts: a participant among the first [capacity] candidates of the
    bid list of the topic [t], whose bid on [t] is higher than its bid
    on every other topic where it is among the first [capacity]
    candidates, is a winner of [t] in the result of [computeWinners]. *)
Theorem double_winner_keeps_highest_bid :
  forall room t p,
    NoDup (map id (topics room)) ->
    NoDup (mkeys (bids room)) ->
    amounts_finite room ->
    In t (topics room) ->
    In p (top_bidders (build_bidLists room) t) ->
    (forall t',
        In t' (topics room) -> t' <> t ->
        In p (top_bidders (build_bidLists room) t') ->
        bid_value room p (id t') < bid_value room p (id t)) ->
    In p (winners_in (computeWinners room) t).
Proof.
  intros room t p Hids Hown Hfin Ht Hp Hhigh.
  rewrite computeWinners_winners, resolution_is_first_pass by assumption.
  rewrite pass_eq. cbv zeta. cbn [fst].
  apply refill_all_grows. cbn [fst winnersByTopic].
  set (L := build_bidLists room) in *.
  set (W0 := winnersByTopic (tentative_of room)).
  set (pw := buildPlayerWins L (topics room) W0).
  assert (Htop : forall t', In t' (topics room) ->
                            winners_of W0 (id t') = top_bidders L t').
  { intros t' Ht'. now apply tentative_of_top. }
  assert (Hp0 : In p (winners_of W0 (id t))) by now rewrite Htop.
  apply remove_unkept_keeps; [|assumption].
  intros k' Hin.
  destruct (buildPlayerWins_spec L (topics room) W0) as [B1 B2].
  fold pw in B1, B2.
  apply (@In_mget _ p k' _ (keepByPlayer_nodup pw)) in Hin.
  destruct (@keepByPlayer_head pw p k' B2 Hin) as (w0 & rest & Hs & ->).
  destruct (string_dec (w_topicId w0) (id t)) as [E|Hne]; [now rewrite E|].
  exfalso.
  (* the first of the sorted wins *)
  assert (Hw0 : In w0 (wins_of pw p)).
  { apply (Array_sort_In win_cmp). rewrite Hs. now left. }
  apply B1 in Hw0. destruct Hw0 as (t0 & Ht0 & Hpt0 & b0 & Hb0 & Ew0).
  rewrite Ew0 in Hne, Hs. cbn [w_topicId] in Hne.
  destruct (byPlayer_of_spec (bid_list L (id t0)) p) as [Y1 _].
  destruct (Y1 b0 Hb0) as [Hb0l Hb0p].
  (* the win on [t] *)
  assert (Hlt : In p (map playerId (bid_list L (id t)))).
  { unfold top_bidders in Hp. apply in_map_iff in Hp.
    destruct Hp as (c & Hc & Hin'). apply in_map_iff. exists c.
    split; [assumption|]. now apply In_firstn_list in Hin'. }
  destruct (byPlayer_of_spec (bid_list L (id t)) p) as [Z1 Z2].
  destruct (mget p (byPlayer_of (bid_list L (id t)))) as [bt|] eqn:Ebt;
    [|now contradiction (Z2 Hlt)].
  destruct (Z1 bt eq_refl) as [Hbtl Hbtp].
  assert (Hwt : In (mkWin (id t) (c_amount bt) (c_ts bt)) (wins_of pw p)).
  { apply B1. exists t. split; [assumption|]. split; [assumption|].
    now exists bt. }
  (* the amounts *)
  pose proof (@cand_value room t0 b0 Hown Hfin Ht0 Hb0l) as V0.
  pose proof (@cand_value room t bt Hown Hfin Ht Hbtl) as Vt.
  rewrite Hb0p in V0. rewrite Hbtp in Vt.
  assert (Hall : Forall win_finite (wins_of pw p)).
  { apply Forall_forall. intros w Hw. apply B1 in Hw.
    destruct Hw as (t1 & Ht1 & _ & b1 & Hb1 & ->).
    destruct (byPlayer_of_spec (bid_list L (id t1)) p) as [X1 _].
    destruct (X1 b1 Hb1) as [Hb1l _].
    unfold win_finite. cbn [w_amount].
    rewrite (@cand_value room t1 b1 Hown Hfin Ht1 Hb1l). now eexists. }
  pose proof (@Array_sort_sorted Win win_cmp win_finite win_ranked
                win_ranked_trans win_cmp_le win_cmp_gt _ Hall) as Hsorted.
  rewrite Hs in Hsorted. apply StronglySorted_inv in Hsorted.
  destruct Hsorted as [_ Hhd].
  apply (Array_sort_In win_cmp) in Hwt. rewrite Hs in Hwt.
  assert (Hlow : bid_value room p (id t0) < bid_value room p (id t)).
  { apply Hhigh; try assumption.
    - intros ->. now apply Hne.
    - now rewrite <- Htop. }
  destruct Hwt as [Hwt|Hwt].
  - injection Hwt as Hid _ _. now apply Hne.
  - rewrite Forall_forall in Hhd. specialize (Hhd _ Hwt).
    unfold win_ranked in Hhd. cbn [w_amount w_ts] in Hhd.
    rewrite V0, Vt in Hhd. cbn [value] in Hhd. lia.
Qed.

Lemma double_winner_keeps_highest_bid_witness :
  In "p2"
     (winners_in (computeWinners refill_room) (mkTopic "B" "Topic" (Fin 1))).
Proof.
  apply (@double_winner_keeps_highest_bid refill_room
           (mkTopic "B" "Topic" (Fin 1)) "p2").
  - repeat constructor; simpl; intuition discriminate.
  - repeat constructor; simpl; intuition discriminate.
  - exact refill_room_finite.
  - right. now left.
  - now left.
  - intros t' [<-|[<-|[]]] Hne _; [|now contradiction Hne].
    vm_compute. reflexivity.
Defined.
